(* ===== verification/_CoqProject ===== *)
-Q . S2P
Prelude.v
Ints.v
CString.v
Ethernet.v
Ip.v
Reassembly.v
Sockets.v
Switch.v
Network.v
Bitmap.v
LinkedList.v
Hash.v
LibTest.v
Machine.v
Mips.v
Disk.v
FileHdr.v
OpenFile.v
Directory.v
PBitmap.v
FileSys.v
ThreadSwitch.v
Threads.v
Synch.v
ThreadTest.v
Waiters.v
SynchList.v
SynchWake.v
Interrupt.v
Run.v
Debugger.v
Isolation.v
Console.v
Dump.v
Main.v
SysNum.v
UserMem.v
AddrSpace.v
STable.v
FileTable.v
Coff2noff.v
Syscalls.v
Stubs.v
Traps.v
Processes.v
PTable.v
