(* ===== verification/Prelude.v ===== *)
(** * Verification of NachOS with a network stack, and of the switch that connects its machines

    The repository holds the teaching operating system NachOS 4.0 (src/Nachos_Project/code), extended
    by system calls, processes and a network stack, a learning switch (src/Switch) and the program
    converter coff2noff (src/Nachos_Project/coff2noff).  Nachos is one UNIX process: it simulates a
    MIPS machine with a disk, a console, a timer and a network card, and runs its kernel and user
    programs on it.  This development models that code as Rocq functions and step relations and proves
    what makes it correct.  Paths below are relative to src/Nachos_Project/code.

    ** How the program is put together

    - lib/: bitmaps, lists and hash tables, which the rest uses.
    - machine/: the simulated hardware.  [Machine::Run] executes instructions; after each of them
      [Interrupt::OneTick] advances the clock and calls the handlers of the devices that are due.
    - threads/: kernel threads, the scheduler, semaphores, locks, conditions, synchronised lists;
      processes ([PTable], [PCB]), named semaphores ([STable], [Sem]); the kernel object, which owns all
      other objects and the socket tables; [main].
    - userprog/: address spaces, the exception handler with its system calls, the synchronous console.
    - filesys/: the file system on the simulated disk, and the stub over UNIX files, which the build
      uses (FILESYS_STUB), with a table of descriptors for each process.
    - network/post.cc: Ethernet, IP and UDP layers between the card of machine/network.cc and the
      sockets.  The switch learns which port a machine is behind and forwards frames.

    The build is gcc -m32 on a little-endian host, with RDATA and SIM_FIX defined: [int], [long] and
    pointers have 32 bits and [char] is signed.  Integers are [Z] with their wrap-around written out
    ([s8], [s32], [u8], [u16], [u32] of Ints.v), memory and files are lists of bytes, C strings are lists
    of characters with their zero, maps of the standard library are [gmap]s.  A computation is of type
    [res]: its value, or the error that ends the program ([err] below); loops that need not end by
    their form run on fuel, and running out of it is the error [Diverges], never a result.

    ** Which file models what

    Library
    - Prelude (this file), Ints, CString: outcomes, arrays, loops, machine integers, C strings,
      [atoi] and decimal notation, with their lemmas; lib/debug.h, lib/utility.h.
    - Bitmap: lib/bitmap.cc.  LinkedList: lib/list.cc, nodes in an explicit heap, with sequences as
      abstraction.  Hash: lib/hash.cc, over the interface [Bucket] that LinkedList's sequences implement.
      LibTest: lib/libtest.cc and the self tests of the containers.

    Machine
    - Machine: machine/machine.cc and translate.cc (registers, memory, page tables and TLB).  Mips:
      machine/mipssim.cc, decoding and every instruction.  Interrupt: machine/interrupt.cc, timer.cc and
      threads/alarm.cc, over the interface [Handlers].  Run: [Machine::Run], which composes these three.
      Debugger: the single-step debugger of machine.cc with its dumps, and Run with its calls.  Disk: machine/disk.cc and filesys/synchdisk.cc.  Console: machine/console.cc and
      userprog/synchconsole.cc, with the interfaces [CharSource] and [CharSink] for its clients.

    File system
    - FileHdr, OpenFile, Directory, PBitmap, FileSys: the files of filesys/ of these names.
    - Dump: the [Print] functions of the file system and of lib/bitmap.cc, as the text they print.
    - FileTable: filesys/filetable.h and the stub of filesys/filesys.h and openfile.h.

    Threads
    - ThreadSwitch: threads/switch.S for the x86 and [StackAllocate] of threads/thread.cc, instructions on the
      registers and memory of the host.
    - Threads: threads/thread.cc, scheduler.cc and synch.cc as a step relation of several threads; the
      steps are the stretches of code between which the processor can be taken away.  Synch: its theorems.
      ThreadTest: the self tests of thread.cc and synch.cc, run on Threads under every schedule of the timer.
      Waiters: a view of these steps without the scheduling, and the invariant of conditions.  SynchList and
      SynchWake: threads/synchlist.cc, as programs over the locks and conditions of Threads.
    - PTable: threads/ptable.cc and pcb.cc as a step relation of several processes.  STable:
      threads/stable.cc and sem.cc.  Main: threads/main.cc, the options of threads/kernel.cc and its
      console test.

    User programs
    - AddrSpace: userprog/addrspace.cc.  UserMem, SysNum, Syscalls: userprog/exception.cc, ksyscall.h and
      ksyscallhelper.h; a handler is a tree of requests to the rest of the kernel, and [serve] carries them out on
      the models of consoles, files, sockets and semaphores.  Coff2noff: the converter, composed with the
      loader of AddrSpace.  Stubs: the stubs of test/start.S, executed by Mips up to the trap and by Syscalls
      in it.
    - Isolation: what an instruction can change and what it depends on.  Traps: the same for the handlers of
      Syscalls.  Processes: the user state of threads in threads/thread.cc and scheduler.cc, as a step
      relation of several processes that load, execute, trap, wait, are switched and end on one machine; it
      composes Mips, Syscalls and AddrSpace.

    Network
    - Ethernet, Ip, Reassembly, Sockets: network/post.cc by layer, the card of machine/network.cc and the
      socket tables of threads/kernel.cc.  Switch: src/Switch/switch.cpp.  Network: two machines and the
      switch put together, and the network test of threads/kernel.cc.

    ** What the theorems show

    - Containers: bitmaps, lists, sorted lists and hash tables refine sets, sequences and maps.
    - Machine: every instruction is safe in every state and keeps it well formed; multiplication is
      multiplication; what is stored is loaded again, and nothing of another address space is touched;
      due interrupts fire, once and in order; a user program, whatever it executes, is preempted before its
      time slice ends; the debugger changes nothing a program computes, as long as its commands are well formed,
      and single-steps for ever after one that is not.
    - File system: it is a map from names to contents on a disk on which no sector has two owners and none is
      lost; reading and writing files, formatting and restarting behave accordingly, up to the commands
      of [main] that copy, print, list, remove and dump files.
    - Context switch: a kernel thread that is switched to goes on where it stopped with its registers and
      stack as it left them, whatever other threads did; a forked thread starts with its function and argument.
    - Threads: mutual exclusion, no lost wake-up, no lost thread, first come first served dispatch, in every
      interleaving with timer and device interrupts; synchronised lists are queues and lose no wake-up.
      The self tests of threads and semaphores end and pass whenever the timer interrupts them.
    - Processes and system calls: Join and Exit meet; named semaphores are a map; each system call
      returns to the next instruction with its reply and changes nothing else, and to the caller of its stub; programs are loaded into
      frames of their own, from the COFF file on; strings and numbers pass between programs and console
      unchanged; a process cannot tell that others have run in between, whatever they did.
    - Network: a message is delivered whole through UDP, IP, Ethernet and the switch; fragments may
      arrive in any order.
    - Where the code does not do what it means to, the theorem states what it does (duplicate fragments
      block a datagram, slots of the process table are never reused, loading can overwrite another
      process, and others).

    ** Fuel and bounds

    The fuel of each loop is computed from its input and shown to be enough, except where the theorem is
    that the loop never ends: list walks have the number of heap cells ([walk_fuel]); copies from user memory
    the size of the address space ([string_fuel]); [fire_loop] the number of pending interrupts; moving the
    elements of a bucket its length; numbers ten digits, which an [int] has at most; copying and printing a
    file its length; the console test one turn more than its input has characters; the self tests of the
    lists a constant under which they end.  The debugger has one turn more than
    its input has characters; the exploration of the schedules of the self tests a constant under which all of
    them end.  [Run] is stated for the first [n] turns of its endless loop.

    ** What is not modelled, and why

    - The host: sockets, [select], files, signals and memory protection of lib/sysdep.cc, and the set-up of
      the switch; what arrives from them is an argument.  The random numbers of the host are a parameter.
    - Debugging messages, the printing of instructions and of statistics.
    - The context switch for hosts other than the x86, which the build does not compile.
    - [Kernel::Initialize] and the destructors, which create and delete the objects that the models have
      as parts of their states; overflow of semaphore values.
    - User programs in C under test/ (only the machine code they become is in question).

    Left for a later revision: one step relation for the scheduling of Threads, the stacks of ThreadSwitch and
    the user state of Processes (the last allows every order of switches, which includes those of the
    scheduler). *)

From stdpp Require Export prelude list gmap strings sorting.
From Stdlib Require Export ZArith Lia.

Declare Scope nachos_scope.
Delimit Scope nachos_scope with nachos.
Global Open Scope Z_scope.

(** ** Outcomes of C++ code

    [AssertFailure] is a failed [ASSERT] of lib/debug.h (the simulator aborts),
    [OutOfBounds] an array access outside its bounds, [NullPointer] the
    dereference of a null (or dangling) pointer, [Uncaught] a C++ exception
    that no handler catches, [Diverges] a loop that never ends, [ArithTrap] a
    hardware trap of the host on an integer division, [Halted] the end of the
    simulation by [Interrupt::Halt], which does not return. *)

Inductive err : Type :=
| AssertFailure
| OutOfBounds
| NullPointer
| Uncaught
| Diverges
| ArithTrap
| Halted.

Inductive res (A : Type) : Type :=
| Ok (a : A)
| Err (e : err).

Arguments Ok {A} a.
Arguments Err {A} e.

#[global] Instance err_eq_dec : EqDecision err.
Proof. solve_decision. Defined.

#[global] Instance res_eq_dec {A} `{EqDecision A} : EqDecision (res A).
Proof. solve_decision. Defined.

(** Sequencing: an error ends the computation. *)
Definition rbind {A B} (m : res A) (f : A -> res B) : res B :=
  match m with
  | Ok a => f a
  | Err e => Err e
  end.

Notation "'let*' x ':=' m 'in' k" := (rbind m (fun x => k))
  (at level 10, x pattern, m at level 200, k at level 200) : nachos_scope.
Notation "'let2*' ( x , y ) ':=' m 'in' k" := (rbind m (fun '(x, y) => k))
  (at level 10, x name, y name, m at level 200, k at level 200) : nachos_scope.
Notation "'let3*' ( x , y , z ) ':=' m 'in' k" := (rbind m (fun '(x, y, z) => k))
  (at level 10, x name, y name, z name, m at level 200, k at level 200) : nachos_scope.
Notation "m ';;;' k" := (rbind m (fun _ => k))
  (at level 199, right associativity) : nachos_scope.
Global Open Scope nachos_scope.

(** [ASSERT(b)] *)
Definition ASSERT (b : bool) : res unit := if b then Ok tt else Err AssertFailure.

(** Dereference of a possibly null pointer. *)
Definition deref {A} (o : option A) : res A :=
  match o with
  | Some a => Ok a
  | None => Err NullPointer
  end.

(** [a[i]] *)
Definition arr_get {A} (a : list A) (i : Z) : res A :=
  if 0 <=? i then
    match a !! Z.to_nat i with
    | Some x => Ok x
    | None => Err OutOfBounds
    end
  else Err OutOfBounds.

(** [a[i] = x] *)
Definition arr_set {A} (a : list A) (i : Z) (x : A) : res (list A) :=
  if (0 <=? i) && (i <? Z.of_nat (length a)) then Ok (<[Z.to_nat i := x]> a)
  else Err OutOfBounds.

(** [for (int i = lo; i < lo + n; i++) s = body(i, s)] *)
Fixpoint for_range {S} (n : nat) (lo : Z) (body : Z -> S -> res S) (s : S) : res S :=
  match n with
  | O => Ok s
  | S n' => let* s' := body lo s in for_range n' (lo + 1) body s'
  end.

(** A loop whose body may leave it early with a value
    ([return] or [break] inside the loop): [inl] continues, [inr] leaves. *)
Fixpoint for_break {S R} (n : nat) (lo : Z) (body : Z -> S -> res (S + R)) (s : S)
  : res (S + R) :=
  match n with
  | O => Ok (inl s)
  | S n' =>
      let* r := body lo s in
      match r with
      | inl s' => for_break n' (lo + 1) body s'
      | inr v => Ok (inr v)
      end
  end.

(** The first [i] in [lo, lo + n) at which [p] has a value. *)
Fixpoint first_in {R} (n : nat) (lo : Z) (p : Z -> option R) : option R :=
  match n with
  | O => None
  | S n' =>
      match p lo with
      | Some r => Some r
      | None => first_in n' (lo + 1) p
      end
  end.

(** [divRoundUp(n, s)] and [divRoundDown(n, s)] of lib/utility.h *)
Definition divRoundUp (n s : Z) : Z :=
  Z.quot n s + (if 0 <? Z.rem n s then 1 else 0).

Definition divRoundDown (n s : Z) : Z := Z.quot n s.

(** ** Automation *)

Create HintDb nachos.

(** Runs the bind at the head of a hypothesis. *)
Ltac res_inv :=
  repeat match goal with
  | H : Ok _ = Ok _ |- _ => injection H as H; subst
  | H : Err _ = Ok _ |- _ => discriminate H
  | H : Ok _ = Err _ |- _ => discriminate H
  | H : rbind ?m _ = Ok _ |- _ =>
      let E := fresh "E" in
      destruct m eqn:E; cbn in H; [|discriminate H]
  | H : ASSERT ?b = Ok _ |- _ =>
      let E := fresh "E" in
      unfold ASSERT in H; destruct b eqn:E; [clear H|discriminate H]
  | u : unit |- _ => destruct u
  end.

(** Turns boolean comparisons in hypotheses into propositions. *)
Ltac bools :=
  repeat match goal with
  | H : (_ && _)%bool = true |- _ => apply andb_true_iff in H as [? ?]
  | H : (_ || _)%bool = false |- _ => apply orb_false_iff in H as [? ?]
  | H : negb _ = true |- _ => apply negb_true_iff in H
  | H : negb _ = false |- _ => apply negb_false_iff in H
  | H : (_ <=? _) = true |- _ => apply Z.leb_le in H
  | H : (_ <=? _) = false |- _ => apply Z.leb_gt in H
  | H : (_ <? _) = true |- _ => apply Z.ltb_lt in H
  | H : (_ <? _) = false |- _ => apply Z.ltb_ge in H
  | H : (_ =? _) = true |- _ => apply Z.eqb_eq in H
  | H : (_ =? _) = false |- _ => apply Z.eqb_neq in H
  end.

(** ** Lemmas on the outcome monad *)

Lemma bind_Ok {A B} (f : A -> res B) (a : A) : rbind (Ok a) f = f a.
Proof. reflexivity. Qed.

Lemma bind_Ok_inv {A B} (m : res A) (f : A -> res B) (b : B) :
  rbind m f = Ok b -> exists a, m = Ok a /\ f a = Ok b.
Proof. destruct m; cbn; [eauto|discriminate]. Qed.

Lemma ASSERT_true (b : bool) : b = true -> ASSERT b = Ok tt.
Proof. intros ->. reflexivity. Qed.

Lemma ASSERT_Ok (b : bool) : ASSERT b = Ok tt -> b = true.
Proof. destruct b; [done|discriminate]. Qed.

(** ** Lemmas on arrays *)

Lemma arr_get_lookup {A} (a : list A) (i : Z) (x : A) :
  0 <= i -> a !! Z.to_nat i = Some x -> arr_get a i = Ok x.
Proof. intros Hi Hx. unfold arr_get. rewrite (proj2 (Z.leb_le 0 i) Hi), Hx. done. Qed.

Lemma arr_get_Ok {A} (a : list A) (i : Z) (x : A) :
  arr_get a i = Ok x <-> 0 <= i /\ a !! Z.to_nat i = Some x.
Proof.
  unfold arr_get. destruct (Z.leb_spec 0 i); [|split; [discriminate|lia]].
  destruct (a !! Z.to_nat i); split; intros Hx; naive_solver.
Qed.

Lemma arr_get_in_range {A} (a : list A) (i : Z) :
  0 <= i < Z.of_nat (length a) -> exists x, arr_get a i = Ok x.
Proof.
  intros Hi. destruct (lookup_lt_is_Some_2 a (Z.to_nat i)) as [x Hx]; [lia|].
  exists x. apply arr_get_lookup; [lia|done].
Qed.

Lemma arr_get_range {A} (a : list A) (i : Z) (x : A) :
  arr_get a i = Ok x -> 0 <= i < Z.of_nat (length a).
Proof.
  rewrite arr_get_Ok. intros [Hi Hx]. apply lookup_lt_Some in Hx. lia.
Qed.

Lemma arr_set_in_range {A} (a : list A) (i : Z) (x : A) :
  0 <= i < Z.of_nat (length a) -> arr_set a i x = Ok (<[Z.to_nat i := x]> a).
Proof.
  intros Hi. unfold arr_set.
  rewrite (proj2 (Z.leb_le 0 i)), (proj2 (Z.ltb_lt i _)) by lia. done.
Qed.

Lemma arr_set_Ok {A} (a a' : list A) (i : Z) (x : A) :
  arr_set a i x = Ok a' <-> 0 <= i < Z.of_nat (length a) /\ a' = <[Z.to_nat i := x]> a.
Proof.
  unfold arr_set. destruct (Z.leb_spec 0 i), (Z.ltb_spec i (Z.of_nat (length a)));
    cbn; split; intros Hx; naive_solver lia.
Qed.

Lemma arr_set_length {A} (a a' : list A) (i : Z) (x : A) :
  arr_set a i x = Ok a' -> length a' = length a.
Proof. rewrite arr_set_Ok. intros [_ ->]. apply length_insert. Qed.

Lemma arr_get_set {A} (a a' : list A) (i j : Z) (x : A) :
  arr_set a i x = Ok a' ->
  arr_get a' j = if decide (i = j) then Ok x else arr_get a j.
Proof.
  rewrite arr_set_Ok. intros [Hi ->]. case_decide as Hij; subst.
  - apply arr_get_lookup; [lia|]. apply list_lookup_insert_eq. lia.
  - unfold arr_get. destruct (Z.leb_spec 0 j); [|done].
    rewrite list_lookup_insert_ne by lia. done.
Qed.

(** ** Loop rules *)

(** The invariant rule: a loop whose body, started at index [i] in a state of
    the invariant, returns a state of the invariant at [i + 1], returns. *)
Lemma for_range_inv {S} (P : Z -> S -> Prop) (n : nat) (lo : Z) (body : Z -> S -> res S) s :
  P lo s ->
  (forall i s, lo <= i < lo + Z.of_nat n -> P i s ->
     exists s', body i s = Ok s' /\ P (i + 1) s') ->
  exists s', for_range n lo body s = Ok s' /\ P (lo + Z.of_nat n) s'.
Proof.
  revert lo s. induction n as [|n IH]; intros lo s H0 Hstep; cbn [for_range].
  - exists s. split; [done|]. by replace (lo + Z.of_nat 0) with lo by lia.
  - destruct (Hstep lo s) as (s1 & E1 & H1); [lia|done|]. rewrite E1. cbn.
    destruct (IH (lo + 1) s1) as (s' & E' & H'); [done| |].
    { intros i s2 Hi. apply Hstep. lia. }
    exists s'. split; [done|].
    by replace (lo + Z.of_nat (Datatypes.S n)) with (lo + 1 + Z.of_nat n) by lia.
Qed.

(** The same for a body that may also end with the error [e]. *)
Lemma for_range_inv_or {S} (P : Z -> S -> Prop) (e : err) (n : nat) (lo : Z) (body : Z -> S -> res S) s :
  P lo s ->
  (forall i s, lo <= i < lo + Z.of_nat n -> P i s ->
     (exists s', body i s = Ok s' /\ P (i + 1) s') \/ body i s = Err e) ->
  (exists s', for_range n lo body s = Ok s' /\ P (lo + Z.of_nat n) s') \/ for_range n lo body s = Err e.
Proof.
  revert lo s. induction n as [|n IH]; intros lo s H0 Hstep; cbn [for_range].
  - left. exists s. split; [done|]. by replace (lo + Z.of_nat 0) with lo by lia.
  - destruct (Hstep lo s) as [(s1 & E1 & H1)|E1]; [lia|done| |]; rewrite E1; cbn; [|by right].
    destruct (IH (lo + 1) s1) as [(s' & E' & H')|E']; [done| | |by right].
    { intros i s2 Hi. apply Hstep. lia. }
    left. exists s'. split; [done|].
    by replace (lo + Z.of_nat (Datatypes.S n)) with (lo + 1 + Z.of_nat n) by lia.
Qed.

Lemma for_range_app {S} (n m : nat) (lo : Z) (body : Z -> S -> res S) s :
  for_range (n + m) lo body s =
    rbind (for_range n lo body s) (for_range m (lo + Z.of_nat n) body).
Proof.
  revert lo s. induction n as [|n IH]; intros lo s; cbn [for_range Nat.add rbind].
  - by replace (lo + Z.of_nat 0) with lo by lia.
  - destruct (body lo s) as [s1|e]; cbn [rbind]; [|done]. rewrite IH.
    by replace (lo + 1 + Z.of_nat n) with (lo + Z.of_nat (Datatypes.S n)) by lia.
Qed.

(** A property that every successful body preserves holds after the loop. *)
Lemma for_range_preserve {S} (P : S -> Prop) (n : nat) (lo : Z) (body : Z -> S -> res S) s s' :
  (forall i s s', lo <= i < lo + Z.of_nat n -> P s -> body i s = Ok s' -> P s') ->
  P s -> for_range n lo body s = Ok s' -> P s'.
Proof.
  revert lo s. induction n as [|n IH]; intros lo s Hstep H0; cbn [for_range]; intros E.
  - by res_inv.
  - apply bind_Ok_inv in E as (s1 & E1 & E2).
    apply (IH (lo + 1) s1); [| |done].
    + intros i s2 s3 Hi. apply (Hstep i). lia.
    + apply (Hstep lo s s1); [lia|done|done].
Qed.

(** A loop that appends what each turn produces. *)
Lemma for_range_collect {A} (h : Z -> list A) (n : nat) (lo : Z) body (acc : list A) :
  (forall i out, lo <= i < lo + Z.of_nat n -> body i out = Ok (out ++ h i)) ->
  for_range n lo body acc = Ok (acc ++ concat (map h (seqZ lo (Z.of_nat n)))).
Proof.
  revert lo acc. induction n as [|n IH]; intros lo acc H; cbn [for_range].
  - by rewrite app_nil_r.
  - rewrite H by lia. cbn [rbind]. rewrite seqZ_cons by lia. cbn [map concat].
    rewrite app_assoc. replace (Z.pred (Z.of_nat (S n))) with (Z.of_nat n) by lia.
    replace (Z.succ lo) with (lo + 1) by lia. apply IH. intros i out Hi. apply H. lia.
Qed.

(** A loop whose body never fails is a fold. *)
Lemma for_range_fold {S} (f : Z -> S -> S) (n : nat) (lo : Z) body (s : S) :
  (forall i s, lo <= i < lo + Z.of_nat n -> body i s = Ok (f i s)) ->
  for_range n lo body s = Ok (foldl (fun s i => f i s) s (seqZ lo (Z.of_nat n))).
Proof.
  revert lo s. induction n as [|n IH]; intros lo s H; cbn [for_range]; [done|].
  rewrite H by lia. cbn [rbind]. rewrite seqZ_cons by lia. cbn [foldl].
  replace (Z.pred (Z.of_nat (Datatypes.S n))) with (Z.of_nat n) by lia.
  replace (Z.succ lo) with (lo + 1) by lia. apply IH. intros i s' Hi. apply H. lia.
Qed.

(** A search loop computes [first_in]. *)
Lemma for_break_first {R} (p : Z -> option R) (n : nat) (lo : Z) (body : Z -> unit -> res (unit + R)) :
  (forall i, lo <= i < lo + Z.of_nat n ->
     body i tt = Ok (match p i with Some r => inr r | None => inl tt end)) ->
  for_break n lo body tt =
    Ok (match first_in n lo p with Some r => inr r | None => inl tt end).
Proof.
  revert lo. induction n as [|n IH]; intros lo H; cbn [for_break first_in]; [done|].
  rewrite H by lia. cbn [rbind]. destruct (p lo); [done|].
  apply IH. intros i Hi. apply H. lia.
Qed.

(** The invariant rule for loops with an early exit. *)
Lemma for_break_inv {S R} (P : Z -> S -> Prop) (Q : R -> Prop) (n : nat) (lo : Z)
    (body : Z -> S -> res (S + R)) s :
  P lo s ->
  (forall i s, lo <= i < lo + Z.of_nat n -> P i s ->
     exists r, body i s = Ok r /\ match r with inl s' => P (i + 1) s' | inr v => Q v end) ->
  exists r, for_break n lo body s = Ok r /\
    match r with inl s' => P (lo + Z.of_nat n) s' | inr v => Q v end.
Proof.
  revert lo s. induction n as [|n IH]; intros lo s H0 Hstep; cbn [for_break].
  - exists (inl s). split; [done|]. by replace (lo + Z.of_nat 0) with lo by lia.
  - destruct (Hstep lo s) as (r & Er & Hr); [lia|done|]. rewrite Er. cbn [rbind].
    destruct r as [s1|v]; [|by exists (inr v)].
    replace (lo + Z.of_nat (Datatypes.S n)) with (lo + 1 + Z.of_nat n) by lia.
    apply IH; [done|]. intros i s2 Hi. apply Hstep. lia.
Qed.

Lemma first_in_Some {R} (p : Z -> option R) (n : nat) (lo : Z) (r : R) :
  first_in n lo p = Some r <->
  exists i, lo <= i < lo + Z.of_nat n /\ p i = Some r /\ forall j, lo <= j < i -> p j = None.
Proof.
  revert lo. induction n as [|n IH]; intros lo; cbn [first_in].
  - split; [discriminate|]. intros (i & Hi & _). lia.
  - destruct (p lo) as [r0|] eqn:E.
    + split.
      * intros [= <-]. exists lo. repeat split; [lia|lia|done|]. intros. lia.
      * intros (i & Hi & Hp & Hj). destruct (Z.eq_dec i lo) as [->|]; [congruence|].
        rewrite Hj in E by lia. done.
    + rewrite IH. split; intros (i & Hi & Hp & Hj); exists i.
      * repeat split; [lia|lia|done|]. intros j Hlt.
        destruct (Z.eq_dec j lo) as [->|]; [done|]. apply Hj. lia.
      * destruct (Z.eq_dec i lo) as [->|]; [congruence|].
        repeat split; [lia|lia|done|]. intros j Hlt. apply Hj. lia.
Qed.

Lemma first_in_None {R} (p : Z -> option R) (n : nat) (lo : Z) :
  first_in n lo p = None <-> forall i, lo <= i < lo + Z.of_nat n -> p i = None.
Proof.
  revert lo. induction n as [|n IH]; intros lo; cbn [first_in].
  - split; [|done]. intros _ i Hi. lia.
  - destruct (p lo) as [r0|] eqn:E.
    + split; [done|]. intros H. rewrite H in E by lia. done.
    + rewrite IH. split; intros H i Hi.
      * destruct (Z.eq_dec i lo) as [->|]; [done|]. apply H. lia.
      * apply H. lia.
Qed.

(** An invariant of the steps holds in every reachable state. *)
Lemma rtc_preserve {A} (P : A -> Prop) (R : A -> A -> Prop) (x y : A) :
  (forall x y, R x y -> P x -> P y) -> P x -> rtc R x y -> P y.
Proof. intros HP Hx Hr. revert Hx. induction Hr; eauto. Qed.

Lemma divRoundUp_spec (n s : Z) :
  0 <= n -> 0 < s -> s * (divRoundUp n s - 1) < n <= s * divRoundUp n s.
Proof.
  intros Hn Hs. unfold divRoundUp.
  rewrite Z.quot_div_nonneg, Z.rem_mod_nonneg by lia.
  pose proof (Z.div_mod n s). pose proof (Z.mod_pos_bound n s).
  destruct (Z.ltb_spec 0 (n mod s)); nia.
Qed.

Lemma filter_ne_id {A} `{EqDecision A} (x : A) (l : list A) :
  x ∉ l -> filter (fun y => y <> x) l = l.
Proof.
  induction l as [|y l IH]; intros H; [done|]. apply not_elem_of_cons in H as [? H].
  rewrite filter_cons_True by done. f_equal. by apply IH.
Qed.

Lemma StronglySorted_lookup_lt {A} (R : relation A) (l : list A) i j x y :
  StronglySorted R l -> l !! i = Some x -> l !! j = Some y -> (i < j)%nat -> R x y.
Proof.
  intros H. revert i j. induction H as [|a l Hl IH Ha]; intros i j Hx Hy Hij; [done|].
  destruct j as [|j]; [lia|]. destruct i as [|i]; cbn in *.
  - injection Hx as <-. apply list_elem_of_lookup_2 in Hy. rewrite Forall_forall in Ha. auto.
  - apply (IH i j); [done|done|lia].
Qed.
