(* ===== verification/Ints.v ===== *)
(** * Machine integers and bytes

    The program is built for a 32-bit little-endian host ([-m32] in
    build.linux/Makefile): [int] is 32 bits wide with two's complement
    wrap-around, [char] is a signed byte.  An integer of the program is a [Z]
    in the range of its type; a byte of a buffer is a [Z] in [0, 256). *)

From S2P Require Import Prelude.

(** Conversion to [unsigned char], [unsigned short], [unsigned int]. *)
Definition u8 (z : Z) : Z := z mod 2 ^ 8.
Definition u16 (z : Z) : Z := z mod 2 ^ 16.
Definition u32 (z : Z) : Z := z mod 2 ^ 32.

(** Conversion to [char], [short], [int]. *)
Definition s8 (z : Z) : Z := (z + 2 ^ 7) mod 2 ^ 8 - 2 ^ 7.
Definition s16 (z : Z) : Z := (z + 2 ^ 15) mod 2 ^ 16 - 2 ^ 15.
Definition s32 (z : Z) : Z := (z + 2 ^ 31) mod 2 ^ 32 - 2 ^ 31.

Definition is_u8 (z : Z) : Prop := 0 <= z < 2 ^ 8.
Definition is_u16 (z : Z) : Prop := 0 <= z < 2 ^ 16.
Definition is_u32 (z : Z) : Prop := 0 <= z < 2 ^ 32.
Definition is_s32 (z : Z) : Prop := - 2 ^ 31 <= z < 2 ^ 31.

(** The value of a little-endian byte sequence, and the [n] low bytes of a
    value in little-endian order. *)
Fixpoint le_value (bs : list Z) : Z :=
  match bs with
  | [] => 0
  | b :: bs' => b + 2 ^ 8 * le_value bs'
  end.

Fixpoint le_bytes (n : nat) (z : Z) : list Z :=
  match n with
  | O => []
  | S n' => z mod 2 ^ 8 :: le_bytes n' (z / 2 ^ 8)
  end.

(** [memcpy(dst + off, src, n)] with both buffers in bounds. *)
Definition memcpy (dst : list Z) (off : nat) (src : list Z) : list Z :=
  take off dst ++ src ++ drop (off + length src) dst.

(** [calloc(n, 1)] *)
Definition calloc (n : nat) : list Z := replicate n 0.

(** [n] bytes of [bs] from offset [off]. *)
Definition slice (off n : nat) (bs : list Z) : list Z := take n (drop off bs).

(** The [n] first bytes a [memcpy] reads from its source; reading past the end
    of the source is out of bounds. *)
Definition read_bytes (bs : list Z) (n : nat) : res (list Z) :=
  if bool_decide (n <= length bs)%nat then Ok (take n bs) else Err OutOfBounds.

(** The loop [for (i = 0; i < n; i++) if (a[i] != b[i]) { eq = false; break; }]
    that compares two addresses, and the value of [eq] after it. *)
Definition bytes_equal_loop (n : nat) (lo : Z) (a b : list Z) : res (unit + bool) :=
  for_break n lo
    (fun i _ =>
       let* x := arr_get a i in
       let* y := arr_get b i in
       Ok (if x =? y then inl tt else inr false))
    tt.

Definition bytes_equal (n : nat) (a b : list Z) : res bool :=
  let* r := bytes_equal_loop n 0 a b in
  Ok (match r with inl _ => true | inr eq => eq end).

Ltac zify_div := Z.div_mod_to_equations.

(** Linear arithmetic with division and remainder by constants. *)
Ltac zlia :=
  unfold u8, u16, u32, s8, s16, s32, is_u8, is_u16, is_u32, is_s32 in *;
  change (2 ^ 7) with 128 in *; change (2 ^ 8) with 256 in *;
  change (2 ^ 15) with 32768 in *; change (2 ^ 16) with 65536 in *;
  change (2 ^ 31) with 2147483648 in *; change (2 ^ 32) with 4294967296 in *;
  zify_div; lia.

Lemma u8_range z : is_u8 (u8 z).
Proof. zlia. Qed.

Lemma u16_range z : is_u16 (u16 z).
Proof. zlia. Qed.

Lemma u32_range z : is_u32 (u32 z).
Proof. zlia. Qed.

Lemma s32_range z : is_s32 (s32 z).
Proof. zlia. Qed.

Lemma u8_id z : is_u8 z -> u8 z = z.
Proof. intros. zlia. Qed.

Lemma u16_id z : is_u16 z -> u16 z = z.
Proof. intros. zlia. Qed.

Lemma u32_id z : is_u32 z -> u32 z = z.
Proof. intros. zlia. Qed.

Lemma s32_id z : is_s32 z -> s32 z = z.
Proof. intros. zlia. Qed.

Lemma s32_u32 z : s32 (u32 z) = s32 z.
Proof. zlia. Qed.

Lemma u32_s32 z : u32 (s32 z) = u32 z.
Proof. zlia. Qed.

Lemma u32_u32 z : u32 (u32 z) = u32 z.
Proof. zlia. Qed.

Lemma u32_add_l a b : u32 (u32 a + b) = u32 (a + b).
Proof. unfold u32. apply Zplus_mod_idemp_l. Qed.

Lemma u32_add_r a b : u32 (a + u32 b) = u32 (a + b).
Proof. unfold u32. apply Zplus_mod_idemp_r. Qed.

Lemma s32_eq_u32 a b : s32 a = s32 b <-> u32 a = u32 b.
Proof. split; intros; zlia. Qed.

Lemma s32_neg_iff z : s32 z < 0 <-> 2 ^ 31 <= u32 z.
Proof. split; intros; zlia. Qed.

#[export] Hint Resolve u8_range u16_range u32_range s32_range : nachos.

(** ** Little-endian encoding *)

Lemma length_le_bytes n z : length (le_bytes n z) = n.
Proof. revert z. induction n; intros z; cbn [le_bytes length]; [done|]. by rewrite IHn. Qed.

Lemma le_bytes_u8 n z : Forall is_u8 (le_bytes n z).
Proof.
  revert z. induction n; intros z; cbn [le_bytes]; constructor; [zlia|done].
Qed.

Lemma le_value_bytes n z : le_value (le_bytes n z) = z mod 2 ^ (8 * Z.of_nat n).
Proof.
  revert z. induction n as [|n IH]; intros z; cbn [le_bytes le_value].
  - by rewrite Z.mod_1_r.
  - rewrite IH. replace (8 * Z.of_nat (S n)) with (8 + 8 * Z.of_nat n) by lia.
    rewrite Z.pow_add_r by lia. rewrite Z.rem_mul_r; [done|lia|].
    apply Z.pow_pos_nonneg; lia.
Qed.

Lemma le_bytes_value bs :
  Forall is_u8 bs -> le_bytes (length bs) (le_value bs) = bs.
Proof.
  induction 1 as [|b bs Hb Hbs IH]; cbn [length le_bytes le_value]; [done|].
  f_equal.
  - unfold is_u8 in Hb. rewrite Z.mul_comm, Z.mod_add by lia.
    by apply Z.mod_small.
  - unfold is_u8 in Hb.
    rewrite Z.mul_comm, Z.div_add, (Z.div_small b), Z.add_0_l by lia.
    done.
Qed.

Lemma le_bytes_mod n z : le_bytes n (z mod 2 ^ (8 * Z.of_nat n)) = le_bytes n z.
Proof.
  rewrite <- (le_value_bytes n z). rewrite <- (length_le_bytes n z) at 1.
  apply le_bytes_value. apply le_bytes_u8.
Qed.

Lemma le_value_range bs :
  Forall is_u8 bs -> 0 <= le_value bs < 2 ^ (8 * Z.of_nat (length bs)).
Proof.
  intros H. rewrite <- (le_bytes_value bs H), le_value_bytes, length_le_bytes.
  apply Z.mod_pos_bound, Z.pow_pos_nonneg; lia.
Qed.

Lemma le_value_1 b : le_value [b] = b.
Proof. cbn [le_value]. lia. Qed.

(** ** Single bits *)

Lemma land_pow2_testbit x k : 0 <= k -> negb (Z.land x (2 ^ k) =? 0) = Z.testbit x k.
Proof.
  intros Hk. destruct (Z.testbit x k) eqn:E.
  - apply negb_true_iff, Z.eqb_neq. intros E0.
    apply (f_equal (fun z => Z.testbit z k)) in E0.
    rewrite Z.land_spec, Z.pow2_bits_true, E, Z.testbit_0_l in E0 by lia. done.
  - apply negb_false_iff, Z.eqb_eq. apply Z.bits_inj'. intros j Hj.
    rewrite Z.land_spec, Z.testbit_0_l. destruct (Z.eq_dec j k) as [->|]; [by rewrite E|].
    by rewrite Z.pow2_bits_false, andb_false_r by done.
Qed.

Lemma testbit_top x k : 0 <= k -> 0 <= x < 2 ^ (k + 1) -> Z.testbit x k = (2 ^ k <=? x).
Proof.
  intros Hk Hx. pose proof (Z.pow_pos_nonneg 2 k ltac:(lia) ltac:(lia)) as Hp.
  rewrite Z.pow_add_r, Z.pow_1_r in Hx by lia.
  apply eq_bool_prop_intro. rewrite !Is_true_true, Z.leb_le, Z.testbit_true by lia.
  destruct (Z.le_gt_cases (2 ^ k) x) as [Hle|Hgt].
  - replace (x / 2 ^ k) with 1; [done|]. apply Z.div_unique with (x - 2 ^ k); lia.
  - rewrite Z.div_small by lia. change (0 mod 2) with 0. lia.
Qed.

(** ** Buffers *)

Lemma length_memcpy dst off src :
  (off + length src <= length dst)%nat -> length (memcpy dst off src) = length dst.
Proof.
  intros H. unfold memcpy. rewrite !length_app, length_take, length_drop. lia.
Qed.

Lemma memcpy_full dst src : length dst = length src -> memcpy dst 0 src = src.
Proof.
  intros H. unfold memcpy. cbn [take]. rewrite drop_ge by lia.
  by rewrite app_nil_r.
Qed.

Lemma memcpy_prefix dst src :
  memcpy dst 0 src = src ++ drop (length src) dst.
Proof. unfold memcpy. by rewrite take_0. Qed.

Lemma memcpy_nil dst off : memcpy dst off [] = dst.
Proof. unfold memcpy. cbn [length app]. by rewrite Nat.add_0_r, take_drop. Qed.

Lemma slice_memcpy dst off n src :
  length src = n -> (off + n <= length dst)%nat -> slice off n (memcpy dst off src) = src.
Proof.
  intros <- H. unfold slice, memcpy.
  rewrite drop_app_le by (rewrite length_take; lia).
  rewrite drop_ge by (rewrite length_take; lia). cbn [app]. apply take_app_length.
Qed.

Lemma lookup_memcpy_out dst off src i :
  (off + length src <= length dst)%nat -> (i < off \/ off + length src <= i)%nat ->
  memcpy dst off src !! i = dst !! i.
Proof.
  intros H Hi. unfold memcpy. destruct Hi as [Hi|Hi].
  - rewrite lookup_app_l by (rewrite length_take; lia). by apply lookup_take_lt.
  - rewrite lookup_app_r by (rewrite length_take; lia).
    rewrite length_take, lookup_app_r, lookup_drop by lia. f_equal. lia.
Qed.

Lemma lookup_memcpy_in dst off src i :
  (off + length src <= length dst)%nat -> (off <= i < off + length src)%nat ->
  memcpy dst off src !! i = src !! (i - off)%nat.
Proof.
  intros H Hi. unfold memcpy. rewrite lookup_app_r by (rewrite length_take; lia).
  rewrite length_take, lookup_app_l by lia. f_equal. lia.
Qed.

Lemma lookup_slice off n a i : (i < n)%nat -> slice off n a !! i = a !! (off + i)%nat.
Proof. intros H. unfold slice. by rewrite lookup_take_lt, lookup_drop. Qed.

Lemma slice_eq off n a b :
  (forall i, (off <= i < off + n)%nat -> a !! i = b !! i) -> slice off n a = slice off n b.
Proof.
  intros H. apply list_eq. intros i. unfold slice. destruct (decide (i < n)%nat).
  - rewrite !lookup_take_lt, !lookup_drop by done. apply H. lia.
  - by rewrite !lookup_take_ge by lia.
Qed.

Lemma length_calloc n : length (calloc n) = n.
Proof. apply length_replicate. Qed.

Lemma calloc_u8 n : Forall is_u8 (calloc n).
Proof. apply Forall_replicate. zlia. Qed.

Lemma memcpy_u8 dst off src :
  Forall is_u8 dst -> Forall is_u8 src -> Forall is_u8 (memcpy dst off src).
Proof.
  intros Hd Hs. unfold memcpy.
  rewrite !Forall_app. eauto using Forall_take, Forall_drop.
Qed.

#[export] Hint Resolve le_bytes_u8 calloc_u8 : nachos.

(** ** Reading out of a buffer *)

Lemma read_bytes_Ok bs n : (n <= length bs)%nat -> read_bytes bs n = Ok (take n bs).
Proof. intros H. unfold read_bytes. by rewrite bool_decide_true. Qed.

Lemma read_bytes_exact bs n : length bs = n -> read_bytes bs n = Ok bs.
Proof. intros <-. rewrite read_bytes_Ok, firstn_all by lia. done. Qed.

Lemma read_bytes_inv bs n r :
  read_bytes bs n = Ok r -> r = take n bs /\ (n <= length bs)%nat.
Proof. unfold read_bytes. case_bool_decide; [|discriminate]. intros. by res_inv. Qed.

Lemma length_slice off n bs :
  (off + n <= length bs)%nat -> length (slice off n bs) = n.
Proof. intros H. unfold slice. rewrite length_take, length_drop. lia. Qed.

Lemma slice_u8 off n bs : Forall is_u8 bs -> Forall is_u8 (slice off n bs).
Proof. intros H. by apply Forall_take, Forall_drop. Qed.

Lemma slice_app_skip k off n a b :
  length a = k -> (k <= off)%nat -> slice off n (a ++ b) = slice (off - k) n b.
Proof.
  intros <- H. unfold slice. rewrite drop_app_ge by done. done.
Qed.

Lemma slice_app_here n a b : length a = n -> slice 0 n (a ++ b) = a.
Proof. intros <-. unfold slice. by rewrite drop_0, take_app_length. Qed.

Lemma slice_all n a : length a = n -> slice 0 n a = a.
Proof. intros <-. unfold slice. by rewrite drop_0, firstn_all. Qed.

Lemma slice_split k n m bs :
  m = (k + n)%nat -> slice k n bs ++ drop m bs = drop k bs.
Proof. intros ->. unfold slice. by rewrite <- drop_drop, take_drop. Qed.

(** Blocks of one size, one after the other. *)
Lemma slice_concat n (ls : list (list Z)) i b :
  Forall (fun l => length l = n) ls -> ls !! i = Some b -> slice (n * i) n (concat ls) = b.
Proof.
  intros H. revert i. induction H as [|l ls Hl H IH]; intros i Hi; [done|].
  destruct i as [|i]; cbn [concat].
  - injection Hi as <-. rewrite Nat.mul_0_r. by apply slice_app_here.
  - rewrite (slice_app_skip n) by (done || nia).
    replace (n * S i - n)%nat with (n * i)%nat by nia. by apply IH.
Qed.

Lemma slices_concat n (ls : list (list Z)) :
  Forall (fun l => length l = n) ls ->
  map (fun i => slice (n * i) n (concat ls)) (seq 0 (length ls)) = ls.
Proof.
  intros H. apply list_eq_same_length with (length ls); [done|by rewrite length_map, length_seq|].
  intros i x y Hi Hx Hy. rewrite list_lookup_fmap, lookup_seq_lt in Hx by done.
  apply (inj Some) in Hx. subst x. by apply slice_concat.
Qed.

Lemma length_concat_uniform {A} n (ls : list (list A)) :
  Forall (fun l => length l = n) ls -> length (concat ls) = (n * length ls)%nat.
Proof.
  induction 1 as [|l ls Hl H IH]; cbn [concat length]; [lia|]. rewrite length_app, IH, Hl. lia.
Qed.

Lemma lookup_concat_uniform {A} n (ls : list (list A)) i b r :
  Forall (fun l => length l = n) ls -> ls !! i = Some b -> (r < n)%nat ->
  concat ls !! (n * i + r)%nat = b !! r.
Proof.
  intros H. revert i. induction H as [|l ls Hl H IH]; intros i Hi Hr; [done|].
  destruct i as [|i]; cbn [concat].
  - injection Hi as <-. rewrite Nat.mul_0_r, lookup_app_l by lia. done.
  - rewrite lookup_app_r by nia. rewrite <- (IH i Hi Hr). f_equal. nia.
Qed.

(** Reads a field off a concatenation of fields of known lengths. *)
Ltac field_length :=
  first [ eassumption | apply length_le_bytes | apply length_calloc
        | cbn [length]; reflexivity ].

Ltac slice_fields :=
  repeat match goal with
  | |- context [slice (S ?o) ?n (?a ++ ?b)] =>
      erewrite (slice_app_skip _ (S o) n a b); [|field_length|lia]; cbn [Nat.sub]
  | |- context [slice 0 ?n (?a ++ ?b)] =>
      rewrite (slice_app_here n a b) by field_length
  | |- context [slice 0 ?n ?a] =>
      rewrite (slice_all n a) by field_length
  end.

(** ** Comparing addresses *)

Lemma bytes_equal_loop_spec n : forall i a b,
  length a = (i + n)%nat -> length b = (i + n)%nat ->
  bytes_equal_loop n (Z.of_nat i) a b =
    Ok (if bool_decide (drop i a = drop i b) then inl tt else inr false).
Proof.
  induction n as [|n IH]; intros i a b Ha Hb; unfold bytes_equal_loop; cbn [for_break].
  - rewrite !drop_ge by lia. by rewrite bool_decide_true.
  - destruct (lookup_lt_is_Some_2 a i) as [x Hx]; [lia|].
    destruct (lookup_lt_is_Some_2 b i) as [y Hy]; [lia|].
    rewrite (arr_get_lookup a _ x), (arr_get_lookup b _ y) by (rewrite ?Nat2Z.id; done || lia).
    cbn [rbind]. rewrite (drop_S a x i), (drop_S b y i) by done.
    destruct (Z.eqb_spec x y) as [->|Hne].
    + replace (Z.of_nat i + 1) with (Z.of_nat (S i)) by lia.
      change (for_break _ _ _ _) with (bytes_equal_loop n (Z.of_nat (S i)) a b).
      rewrite IH by lia. f_equal. do 2 case_bool_decide; congruence.
    + rewrite bool_decide_false by congruence. done.
Qed.

Lemma bytes_equal_spec n a b :
  length a = n -> length b = n -> bytes_equal n a b = Ok (bool_decide (a = b)).
Proof.
  intros Ha Hb. unfold bytes_equal. rewrite (bytes_equal_loop_spec n 0) by done.
  rewrite !drop_0. cbn. by case_bool_decide.
Qed.

#[global] Arguments le_value : simpl never.
#[global] Arguments le_bytes : simpl never.
