(* ===== verification/CString.v ===== *)
(** * The string functions of the C and C++ libraries the program calls

    A string is a list of character codes in [0, 256); a C string in a buffer
    ends at its first zero byte. *)

From S2P Require Import Prelude Ints.

(** [strlen(buf)]: a buffer without a terminating zero is read past its end. *)
Fixpoint strlen (buf : list Z) : res Z :=
  match buf with
  | [] => Err OutOfBounds
  | c :: buf' => if c =? 0 then Ok 0 else let* n := strlen buf' in Ok (n + 1)
  end.

(** The characters of a C string: [std::string(buf)]. *)
Fixpoint c_str (buf : list Z) : res (list Z) :=
  match buf with
  | [] => Err OutOfBounds
  | c :: buf' => if c =? 0 then Ok [] else let* s := c_str buf' in Ok (c :: s)
  end.

(** The decimal digits of [std::to_string], most significant first, as
    character codes. *)
Fixpoint digits_loop (fuel : nat) (n : Z) (acc : list Z) : list Z :=
  match fuel with
  | O => acc
  | S fuel' =>
      let acc' := (48 + n mod 10) :: acc in
      if n / 10 =? 0 then acc' else digits_loop fuel' (n / 10) acc'
  end.

Definition digits (n : Z) : list Z := digits_loop (S (Z.to_nat (Z.log2 n))) n [].

Definition to_string (n : Z) : list Z :=
  if n <? 0 then 45 :: digits (- n) else digits n.

(** [isspace] in the C locale. *)
Definition isspace (c : Z) : bool := (c =? 32) || ((9 <=? c) && (c <=? 13)).

Definition isdigit (c : Z) : bool := (48 <=? c) && (c <=? 57).

Fixpoint skip_spaces (s : list Z) : list Z :=
  match s with
  | c :: s' => if isspace c then skip_spaces s' else s
  | [] => []
  end.

(** The longest prefix of digits, as a number; [None] if it is empty. *)
Fixpoint parse_digits (s : list Z) (acc : option Z) : option Z :=
  match s with
  | c :: s' => if isdigit c then parse_digits s' (Some (default 0 acc * 10 + (c - 48))) else acc
  | [] => acc
  end.

(** [std::stoi(s)]: leading blanks, an optional sign, digits; what follows them
    is ignored.  [std::invalid_argument] without a digit, [std::out_of_range]
    when the number is no [int]. *)
Definition stoi (s : list Z) : res Z :=
  let s1 := skip_spaces s in
  let '(neg, s2) :=
    match s1 with
    | c :: s' => if c =? 45 then (true, s') else if c =? 43 then (false, s') else (false, s1)
    | [] => (false, s1)
    end in
  match parse_digits s2 None with
  | None => Err Uncaught
  | Some n =>
      let v := if neg : bool then - n else n in
      if (- 2 ^ 31 <=? v) && (v <? 2 ^ 31) then Ok v else Err Uncaught
  end.

(** [atoi(s)]: 0 without a digit; a number that is no [long], which has 32
    bits, becomes the nearest one. *)
Definition atoi (s : list Z) : Z :=
  let s1 := skip_spaces s in
  let '(neg, s2) :=
    match s1 with
    | c :: s' => if c =? 45 then (true, s') else if c =? 43 then (false, s') else (false, s1)
    | [] => (false, s1)
    end in
  let n := default 0 (parse_digits s2 None) in
  Z.max (- 2 ^ 31) (Z.min (2 ^ 31 - 1) (if neg : bool then - n else n)).

(** The characters of a string literal. *)
Definition str (s : string) : list Z := map (fun c => Z.of_N (Ascii.N_of_ascii c)) (String.list_ascii_of_string s).

(** ** Decimal notation *)

(** The number a list of digit characters denotes, after [acc]. *)
Definition dec_value (acc : Z) (s : list Z) : Z :=
  fold_left (fun a c => a * 10 + (c - 48)) s acc.

Lemma digits_loop_app fuel : forall n acc,
  digits_loop fuel n acc = digits_loop fuel n [] ++ acc.
Proof.
  induction fuel as [|fuel IH]; intros n acc; cbn [digits_loop]; [done|].
  destruct (n / 10 =? 0); [done|].
  rewrite (IH _ (_ :: acc)), (IH _ [_]), <- app_assoc. done.
Qed.

Lemma digits_loop_digits fuel : forall n acc,
  Forall (fun c => 48 <= c <= 57) acc ->
  Forall (fun c => 48 <= c <= 57) (digits_loop fuel n acc).
Proof.
  induction fuel as [|fuel IH]; intros n acc H; cbn [digits_loop]; [done|].
  assert (Forall (fun c => 48 <= c <= 57) (48 + n mod 10 :: acc)).
  { constructor; [|done]. pose proof (Z.mod_pos_bound n 10). lia. }
  destruct (n / 10 =? 0); auto.
Qed.

Lemma digits_digits n : Forall (fun c => 48 <= c <= 57) (digits n).
Proof. apply digits_loop_digits. constructor. Qed.

Lemma digits_loop_value fuel : forall n,
  0 <= n < 2 ^ Z.of_nat fuel -> dec_value 0 (digits_loop fuel n []) = n.
Proof.
  induction fuel as [|fuel IH]; intros n Hn; cbn [digits_loop].
  - change (2 ^ Z.of_nat 0) with 1 in Hn. cbn. lia.
  - rewrite Nat2Z.inj_succ, Z.pow_succ_r in Hn by lia.
    destruct (Z.eqb_spec (n / 10) 0) as [E|E].
    + cbn. zify_div. lia.
    + rewrite digits_loop_app. unfold dec_value. rewrite fold_left_app.
      fold (dec_value 0 (digits_loop fuel (n / 10) [])).
      rewrite IH by (zify_div; lia). cbn. zify_div. lia.
Qed.

Lemma digits_value n : 0 <= n -> dec_value 0 (digits n) = n.
Proof.
  intros Hn. apply digits_loop_value. rewrite Nat2Z.inj_succ, Z2Nat.id by apply Z.log2_nonneg.
  split; [done|]. destruct (Z.eq_dec n 0) as [->|]; [done|].
  apply Z.log2_spec. lia.
Qed.

Lemma digits_not_nil n : digits n <> [].
Proof.
  unfold digits. cbn [digits_loop]. destruct (n / 10 =? 0); [done|].
  rewrite digits_loop_app. destruct (digits_loop _ _ []); done.
Qed.

Lemma digits_inj m n : 0 <= m -> 0 <= n -> digits m = digits n -> m = n.
Proof.
  intros Hm Hn E. by rewrite <- (digits_value m), <- (digits_value n), E by done.
Qed.

Lemma to_string_nonneg n : 0 <= n -> to_string n = digits n.
Proof. intros H. unfold to_string. by rewrite (proj2 (Z.ltb_ge n 0)). Qed.

Lemma to_string_inj m n : 0 <= m -> 0 <= n -> to_string m = to_string n -> m = n.
Proof. intros Hm Hn. rewrite !to_string_nonneg by done. by apply digits_inj. Qed.

Lemma parse_digits_app ds rest acc :
  Forall (fun c => 48 <= c <= 57) ds ->
  (forall c, head rest = Some c -> isdigit c = false) ->
  ds <> [] \/ acc <> None ->
  parse_digits (ds ++ rest) acc = Some (dec_value (default 0 acc) ds).
Proof.
  intros Hd Hr. revert acc. induction Hd as [|c ds Hc Hd IH]; intros acc Hne.
  - destruct Hne as [|Ha]; [done|]. destruct acc as [a|]; [|done]. cbn.
    destruct rest as [|c rest]; [done|]. cbn. by rewrite (Hr c eq_refl).
  - cbn [app parse_digits]. unfold isdigit at 1.
    rewrite (proj2 (Z.leb_le 48 c)), (proj2 (Z.leb_le c 57)) by lia. cbn [andb].
    rewrite IH by (right; done). done.
Qed.

(** [stoi] reads back what [to_string] prints. *)
Lemma stoi_to_string n rest :
  0 <= n < 2 ^ 31 ->
  (forall c, head rest = Some c -> isdigit c = false) ->
  stoi (to_string n ++ rest) = Ok n.
Proof.
  intros Hn Hr. rewrite to_string_nonneg by lia.
  pose proof (digits_digits n) as Hd. pose proof (digits_not_nil n) as Hne.
  pose proof (digits_value n ltac:(lia)) as Hv.
  pose proof (parse_digits_app (digits n) rest None Hd Hr (or_introl Hne)) as Hp.
  unfold stoi. destruct (digits n) as [|c ds]; [done|]. cbn [app].
  apply Forall_cons in Hd as [Hc _]. cbn [skip_spaces].
  assert (isspace c = false) as ->.
  { unfold isspace. rewrite (proj2 (Z.eqb_neq c 32)), (proj2 (Z.leb_gt c 13)) by lia.
    by rewrite andb_false_r. }
  rewrite (proj2 (Z.eqb_neq c 45)), (proj2 (Z.eqb_neq c 43)) by lia.
  cbn [app default] in Hp. change (default 0 None) with 0 in Hp. rewrite Hv in Hp.
  rewrite Hp.
  rewrite (proj2 (Z.leb_le _ n)), (proj2 (Z.ltb_lt n _)) by lia. done.
Qed.

(** The digits of a number: those of the number without its last one, and the
    last one. *)
Lemma digits_loop_more fuel : forall n k,
  0 <= n < 2 ^ Z.of_nat fuel -> (0 < fuel)%nat -> (fuel <= k)%nat ->
  digits_loop k n [] = digits_loop fuel n [].
Proof.
  induction fuel as [|fuel IH]; intros n k Hn H0 Hk; [lia|].
  destruct k as [|k]; [lia|]. cbn [digits_loop].
  destruct (Z.eqb_spec (n / 10) 0) as [E|E]; [done|].
  rewrite (digits_loop_app k), (digits_loop_app fuel).
  rewrite Nat2Z.inj_succ, Z.pow_succ_r in Hn by lia.
  assert (0 < fuel)%nat as Hf.
  { destruct fuel; [|lia]. change (2 ^ Z.of_nat 0) with 1 in Hn. exfalso. apply E. zify_div. lia. }
  f_equal. apply IH; [|done|lia]. zify_div. lia.
Qed.

Lemma digits_step n : 10 <= n -> digits n = digits (n / 10) ++ [48 + n mod 10].
Proof.
  intros Hn. unfold digits at 1. cbn [digits_loop].
  rewrite (proj2 (Z.eqb_neq (n / 10) 0)) by (zify_div; lia). rewrite digits_loop_app. f_equal.
  assert (0 < n / 10) as Hd by (zify_div; lia).
  pose proof (Z.log2_spec (n / 10) Hd) as Hl. pose proof (Z.log2_nonneg (n / 10)) as Hp.
  apply digits_loop_more.
  - rewrite Nat2Z.inj_succ, Z2Nat.id by done. lia.
  - lia.
  - assert (Z.log2 (n / 10) < Z.log2 n) as Hlt; [|lia].
    apply Z.log2_lt_pow2; [done|]. pose proof (Z.log2_spec n ltac:(lia)) as Hn2.
    rewrite Z.pow_succ_r in Hn2 by apply Z.log2_nonneg. zify_div. lia.
Qed.

Lemma digits_small n : 0 <= n < 10 -> digits n = [48 + n].
Proof.
  intros Hn. unfold digits. cbn [digits_loop].
  rewrite Z.div_small, Z.mod_small by lia. done.
Qed.

(** The first digit of a positive number is not zero. *)
Lemma digits_head n : 0 < n -> exists c l, digits n = c :: l /\ 49 <= c <= 57.
Proof.
  intros Hn. assert (exists k, n <= Z.of_nat k) as [k Hk] by (exists (Z.to_nat n); lia).
  revert n Hn Hk. induction k as [|k IH]; intros n Hn Hk; [lia|].
  destruct (decide (n < 10)) as [Hs|Hs].
  - rewrite digits_small by lia. exists (48 + n), []. split; [done|lia].
  - rewrite digits_step by lia. destruct (IH (n / 10)) as (c & l & -> & Hc); [zify_div; lia..|].
    by exists c, (l ++ [48 + n mod 10]).
Qed.

(** A string of digits that does not begin with zero is the notation of the
    number it denotes. *)
Lemma dec_value_snoc acc s c : dec_value acc (s ++ [c]) = dec_value acc s * 10 + (c - 48).
Proof. unfold dec_value. by rewrite fold_left_app. Qed.

Lemma dec_value_range s : Forall (fun c => 48 <= c <= 57) s ->
  0 <= dec_value 0 s < 10 ^ Z.of_nat (length s).
Proof.
  induction s as [|c s IH] using rev_ind; intros Hs; [cbn; lia|].
  apply Forall_app in Hs as [Hs Hc]. apply Forall_cons in Hc as [Hc _]. specialize (IH Hs).
  rewrite dec_value_snoc, length_app. cbn [length].
  rewrite Nat2Z.inj_add, Z.pow_add_r by lia. lia.
Qed.

Lemma dec_value_pos c s : 49 <= c <= 57 -> Forall (fun c => 48 <= c <= 57) s -> 0 < dec_value 0 (c :: s).
Proof.
  intros Hc. induction s as [|x s IH] using rev_ind; intros Hs; [cbn; lia|].
  apply Forall_app in Hs as [Hs Hx]. apply Forall_cons in Hx as [Hx _]. specialize (IH Hs).
  rewrite app_comm_cons, dec_value_snoc. lia.
Qed.

Lemma digits_dec_value c s : 49 <= c <= 57 -> Forall (fun c => 48 <= c <= 57) s ->
  digits (dec_value 0 (c :: s)) = c :: s.
Proof.
  intros Hc. induction s as [|x s IH] using rev_ind; intros Hs.
  - change (dec_value 0 [c]) with (0 * 10 + (c - 48)). rewrite digits_small by lia. f_equal. lia.
  - apply Forall_app in Hs as [Hs Hx]. apply Forall_cons in Hx as [Hx _]. specialize (IH Hs).
    pose proof (dec_value_pos c s Hc Hs) as Hp. rewrite app_comm_cons, dec_value_snoc.
    set (v := dec_value 0 (c :: s)) in *. rewrite digits_step by lia.
    replace ((v * 10 + (x - 48)) / 10) with v by (zify_div; lia).
    replace ((v * 10 + (x - 48)) mod 10) with (x - 48) by (zify_div; lia).
    rewrite IH. do 2 f_equal. lia.
Qed.

(** [strcmp(a, b)]: the difference of the first characters that differ. *)
Fixpoint strcmp (a b : list Z) : res Z :=
  match a, b with
  | x :: a', y :: b' =>
      if x =? y then if x =? 0 then Ok 0 else strcmp a' b' else Ok (x - y)
  | _, _ => Err OutOfBounds
  end.

Lemma strcmp_spec a : forall b x y, c_str a = Ok x -> c_str b = Ok y ->
  exists c, strcmp a b = Ok c /\ (c = 0 <-> x = y).
Proof.
  induction a as [|c a IH]; intros b x y Ha Hb; [done|]. destruct b as [|d b]; [done|].
  cbn [c_str strcmp] in *. destruct (Z.eqb_spec c d) as [->|Hne].
  - destruct (d =? 0).
    + injection Ha as <-. injection Hb as <-. by exists 0.
    + apply bind_Ok_inv in Ha as (x' & Ha & Ex). apply bind_Ok_inv in Hb as (y' & Hb & Ey).
      injection Ex as <-. injection Ey as <-. destruct (IH b x' y' Ha Hb) as (e & -> & He).
      exists e. split; [done|]. rewrite He. split; [by intros ->|by intros [=]].
  - exists (c - d). split; [done|]. split; [lia|]. intros ->. exfalso.
    destruct (Z.eqb_spec c 0) as [->|]; destruct (Z.eqb_spec d 0) as [->|]; try done.
    + injection Ha as <-. by apply bind_Ok_inv in Hb as (? & _ & [=]).
    + injection Hb as <-. by apply bind_Ok_inv in Ha as (? & _ & [=]).
    + apply bind_Ok_inv in Ha as (? & _ & [= <-]). apply bind_Ok_inv in Hb as (? & _ & [=]). done.
Qed.

(** ** C strings *)

Lemma c_str_strlen buf : forall s, c_str buf = Ok s ->
  strlen buf = Ok (Z.of_nat (length s)) /\ s = take (length s) buf.
Proof.
  induction buf as [|c buf IH]; intros s; cbn [c_str strlen]; [done|].
  destruct (c =? 0); [by intros [= <-]|]. intros H.
  destruct (c_str buf) as [t|]; cbn [rbind] in H; [|done]. injection H as <-.
  destruct (IH t eq_refl) as [-> E]. cbn [rbind length take]. split; [do 2 f_equal; lia|by f_equal].
Qed.

Lemma c_str_nonzero buf : forall s, c_str buf = Ok s -> Forall (fun c => c <> 0) s.
Proof.
  induction buf as [|c buf IH]; intros s; cbn [c_str]; [done|].
  destruct (Z.eqb_spec c 0); [by intros [= <-]|]. intros H.
  destruct (c_str buf) as [t|]; cbn [rbind] in H; [|done]. injection H as <-.
  constructor; [done|by apply IH].
Qed.

Lemma c_str_app t r : 0 ∉ t -> c_str (t ++ 0 :: r) = Ok t /\ strlen (t ++ 0 :: r) = Ok (Z.of_nat (length t)).
Proof.
  induction t as [|c t IH]; intros Hn; [done|]. apply not_elem_of_cons in Hn as [Hc Hn].
  destruct (IH Hn) as [E1 E2]. cbn [app c_str strlen].
  rewrite (proj2 (Z.eqb_neq c 0)) by done. rewrite E1, E2. cbn [rbind]. split; [done|].
  f_equal. cbn [length]. lia.
Qed.

Lemma c_str_ends t : exists s, c_str (t ++ [0]) = Ok s.
Proof.
  induction t as [|c t [s Hs]]; cbn [app c_str]; [by eexists|].
  destruct (c =? 0); [by eexists|]. rewrite Hs. cbn. by eexists.
Qed.
