(* ===== verification/Ethernet.v ===== *)
(** * The link layer (code/network/post.h, code/network/post.cc: Ethernet_Layer)
    and the simulated network card (code/machine/network.cc) *)

From S2P Require Import Prelude Ints.

Module Ethernet.

(** The packed struct [Ethernet_Packet]. *)
Record Ethernet_Packet := mkEth {
  preamble : list Z;   (* 7 bytes *)
  SFD : Z;
  destMAC : list Z;    (* 6 bytes *)
  srcMAC : list Z;     (* 6 bytes *)
  ethertype : Z;       (* unsigned short *)
  crc : Z;             (* unsigned int *)
  payload : list Z     (* 1500 bytes *)
}.

Definition ETHSIZE : nat := 1526.

(** machine/stats.h: the time to send or receive one packet. *)
Definition NetworkTime : Z := 100.

(** The bytes of the struct in memory, as [memcpy(buffer, &eth, sizeof eth)]
    copies them, and the cast [(Ethernet_Packet * )buffer] that reads them. *)
Definition eth_bytes (p : Ethernet_Packet) : list Z :=
  preamble p ++ [SFD p] ++ destMAC p ++ srcMAC p ++
  le_bytes 2 (ethertype p) ++ le_bytes 4 (crc p) ++ payload p.

Definition eth_cast (buffer : list Z) : Ethernet_Packet := {|
  preamble := slice 0 7 buffer;
  SFD := le_value (slice 7 1 buffer);
  destMAC := slice 8 6 buffer;
  srcMAC := slice 14 6 buffer;
  ethertype := le_value (slice 20 2 buffer);
  crc := le_value (slice 22 4 buffer);
  payload := slice 26 1500 buffer
|}.

Definition eth_wf (p : Ethernet_Packet) : Prop :=
  length (preamble p) = 7%nat /\ Forall is_u8 (preamble p) /\
  is_u8 (SFD p) /\
  length (destMAC p) = 6%nat /\ Forall is_u8 (destMAC p) /\
  length (srcMAC p) = 6%nat /\ Forall is_u8 (srcMAC p) /\
  is_u16 (ethertype p) /\ is_u32 (crc p) /\
  length (payload p) = 1500%nat /\ Forall is_u8 (payload p).

Definition macpool : list (list Z) :=
  [ [0xe5; 0xae; 0x32; 0x18; 0xd9; 0x21];
    [0xd5; 0xae; 0x32; 0x18; 0xd9; 0x21];
    [0xe5; 0x3e; 0x32; 0x18; 0xd9; 0x21];
    [0xe5; 0xae; 0x34; 0x18; 0xd9; 0x21];
    [0xe5; 0xa9; 0x32; 0x18; 0xd9; 0x21];
    [0xe5; 0xae; 0x32; 0x58; 0xd9; 0x21];
    [0xe5; 0xae; 0x32; 0x18; 0xa9; 0x21];
    [0xe5; 0xae; 0x32; 0x28; 0xd9; 0x21];
    [0xe5; 0xae; 0x66; 0x18; 0xd9; 0x21];
    [0xe5; 0xae; 0x32; 0x99; 0xd9; 0x21] ].

(** What sending does to the outside: the send lock taken and released, the
    interrupt [NetworkSendInt] scheduled after [NetworkTime] ticks, and a
    datagram written to the UNIX socket /tmp/switch<port>. *)
Inductive net_event :=
| SendLockAcquire
| ScheduleSendInt (fromNow : Z)
| SocketWrite (port : Z) (bytes : list Z)
| SendLockRelease.

(** [NetworkOutput::Send]: the buffer goes to the switch port that carries the
    machine's own number. *)
Definition NetworkOutput_Send (hostName : Z) (buffer : list Z) : res (list net_event) :=
  let* bytes := read_bytes buffer ETHSIZE in
  Ok [ScheduleSendInt NetworkTime; SocketWrite hostName bytes].

(** [Ethernet_Layer::Send] *)
Definition Send (hostName : Z) (data dest : list Z) : res (list net_event) :=
  let* mac := arr_get macpool hostName in
  let* src := read_bytes mac 6 in
  let* dst := read_bytes dest 6 in
  let* pay := read_bytes data 1500 in
  let eth := {| preamble := calloc 7; SFD := 0; destMAC := dst; srcMAC := src;
                ethertype := 0x0800; crc := 0; payload := pay |} in
  let buffer := memcpy (calloc ETHSIZE) 0 (eth_bytes eth) in
  let* ev := NetworkOutput_Send hostName buffer in
  Ok (SendLockAcquire :: ev ++ [SendLockRelease]).

(** The state of [Ethernet_Layer] and of its card: the value of the semaphore
    [messageAvailable], the queue [messages], [current_packet] of
    [NetworkInput], the poll interrupts it has scheduled, [sendBusy] of
    [NetworkOutput], and the counters of [kernel->stats]. *)
Record eth_state := mkEthState {
  messageAvailable : Z;
  messages : list (list Z);
  current_packet : list Z;
  pollsScheduled : Z;
  sendBusy : bool;
  numPacketsRecvd : Z;
  numPacketsSent : Z
}.

(** The state with the fields that receiving changes replaced. *)
Definition set_in (avail : Z) (q : list (list Z)) (pkt : list Z) (st : eth_state) : eth_state :=
  {| messageAvailable := avail; messages := q; current_packet := pkt;
     pollsScheduled := pollsScheduled st; sendBusy := sendBusy st;
     numPacketsRecvd := numPacketsRecvd st; numPacketsSent := numPacketsSent st |}.

Definition Ethernet_Layer_init : eth_state :=
  {| messageAvailable := 0; messages := []; current_packet := calloc ETHSIZE;
     pollsScheduled := 1; sendBusy := false; numPacketsRecvd := 0; numPacketsSent := 0 |}.

(** [Ethernet_Layer::CallBack]: messageAvailable->V() *)
Definition CallBack (st : eth_state) : eth_state :=
  set_in (messageAvailable st + 1) (messages st) (current_packet st) st.

(** [NetworkOutput::CallBack] *)
Definition NetworkOutput_CallBack (st : eth_state) : eth_state :=
  {| messageAvailable := messageAvailable st; messages := messages st;
     current_packet := current_packet st; pollsScheduled := pollsScheduled st;
     sendBusy := false; numPacketsRecvd := numPacketsRecvd st;
     numPacketsSent := numPacketsSent st + 1 |}.

(** [interrupt->Schedule(this, NetworkTime, NetworkRecvInt)] *)
Definition schedule_poll (st : eth_state) : eth_state :=
  {| messageAvailable := messageAvailable st; messages := messages st;
     current_packet := current_packet st; pollsScheduled := pollsScheduled st + 1;
     sendBusy := sendBusy st; numPacketsRecvd := numPacketsRecvd st;
     numPacketsSent := numPacketsSent st |}.

(** [NetworkInput::CallBack].  [sock] is what [PollSocket]/[ReadFromSocket]
    find: nothing, or the bytes of the next datagram. *)
Definition NetworkInput_CallBack (sock : option (list Z)) (st : eth_state)
  : res eth_state :=
  let st := schedule_poll st in
  match sock with
  | None => Ok st
  | Some pkt =>
      let* buffer := read_bytes pkt ETHSIZE in
      Ok (CallBack
        {| messageAvailable := messageAvailable st; messages := messages st;
           current_packet := buffer; pollsScheduled := pollsScheduled st;
           sendBusy := sendBusy st; numPacketsRecvd := numPacketsRecvd st + 1;
           numPacketsSent := numPacketsSent st |})
  end.

(** One turn of the loop of [Ethernet_Layer::pktrecv]; [None] when the thread
    blocks in [messageAvailable->P()]. *)
Definition pktrecv (hostName : Z) (st : eth_state) : res (option eth_state) :=
  if messageAvailable st =? 0 then Ok None else
  let bf := memcpy (calloc ETHSIZE) 0 (current_packet st) in
  let* own := arr_get macpool hostName in
  let* b := bytes_equal 6 (destMAC (eth_cast bf)) own in
  let buffer := memcpy (calloc ETHSIZE) 0 bf in
  Ok (Some (set_in (messageAvailable st - 1)
    (if b then messages st ++ [buffer] else messages st) (current_packet st) st)).

(** [Ethernet_Layer::Receive]: the payload of the oldest queued packet; [None]
    when [messages->RemoveFront()] blocks on an empty queue. *)
Definition Receive (st : eth_state) : option (list Z * eth_state) :=
  match messages st with
  | [] => None
  | buffer :: rest =>
      Some (memcpy (calloc 1500) 0 (payload (eth_cast buffer)),
            set_in (messageAvailable st) rest (current_packet st) st)
  end.

(** ** The packed struct and its bytes *)

Lemma length_eth_bytes p : eth_wf p -> length (eth_bytes p) = ETHSIZE.
Proof.
  intros (H1 & _ & _ & H2 & _ & H3 & _ & _ & _ & H4 & _). unfold eth_bytes.
  rewrite !length_app, !length_le_bytes. unfold ETHSIZE; cbn; lia.
Qed.

Lemma eth_bytes_u8 p : eth_wf p -> Forall is_u8 (eth_bytes p).
Proof.
  intros (_ & ? & ? & _ & ? & _ & ? & _ & _ & _ & ?). unfold eth_bytes.
  rewrite !Forall_app. auto 10 with nachos.
Qed.

Lemma eth_cast_bytes p : eth_wf p -> eth_cast (eth_bytes p) = p.
Proof.
  intros (H1 & _ & H7 & H2 & _ & H3 & _ & H5 & H6 & H4 & _).
  destruct p as [pre sfd dst src ety c pay];
    cbn [preamble SFD destMAC srcMAC ethertype crc payload] in *.
  unfold eth_cast, eth_bytes; cbn [preamble SFD destMAC srcMAC ethertype crc payload].
  slice_fields. rewrite !le_value_bytes, le_value_1.
  f_equal; zlia.
Qed.

Lemma eth_bytes_cast bs :
  length bs = ETHSIZE -> Forall is_u8 bs -> eth_bytes (eth_cast bs) = bs.
Proof.
  intros Hlen Hu. unfold eth_bytes, eth_cast; cbn [preamble SFD destMAC srcMAC ethertype crc payload].
  unfold ETHSIZE in Hlen.
  assert (Hb : forall off n, (off + n <= 1526)%nat ->
     le_bytes n (le_value (slice off n bs)) = slice off n bs).
  { intros off n Hn. pose proof (length_slice off n bs) as Hl.
    rewrite <- Hl at 1 by lia. apply le_bytes_value. by apply slice_u8. }
  rewrite !Hb by lia.
  replace [le_value (slice 7 1 bs)] with (slice 7 1 bs).
  2:{ pose proof (length_slice 7 1 bs ltac:(lia)) as Hl.
      destruct (slice 7 1 bs) as [|b [|]]; try discriminate Hl. by rewrite le_value_1. }
  replace (slice 26 1500 bs) with (drop 26 bs).
  2:{ unfold slice. rewrite take_ge; [done|]. rewrite length_drop. lia. }
  rewrite (slice_split 22 4), (slice_split 20 2), (slice_split 14 6),
    (slice_split 8 6), (slice_split 7 1), (slice_split 0 7) by reflexivity.
  by rewrite drop_0.
Qed.

(** ** Addresses *)

Lemma macpool_entry i m :
  arr_get macpool i = Ok m -> length m = 6%nat /\ Forall is_u8 m.
Proof.
  rewrite arr_get_Ok. intros [_ H]. apply list_elem_of_lookup_2 in H.
  revert m H. apply Forall_forall. repeat constructor; zlia.
Qed.

Lemma macpool_range i m : arr_get macpool i = Ok m -> 0 <= i < 10.
Proof. intros H. by apply arr_get_range in H. Qed.

Lemma macpool_inj i j m :
  arr_get macpool i = Ok m -> arr_get macpool j = Ok m -> i = j.
Proof.
  rewrite !arr_get_Ok. intros [Hi Ei] [Hj Ej].
  assert (NoDup macpool) as Hnd by (apply (bool_decide_unpack _); vm_compute; done).
  pose proof (NoDup_lookup _ _ _ _ Hnd Ei Ej). lia.
Qed.

(** ** Sending *)

(** The packet [Send] builds. *)
Definition sent_packet (src dst pay : list Z) : Ethernet_Packet :=
  {| preamble := calloc 7; SFD := 0; destMAC := dst; srcMAC := src;
     ethertype := 0x0800; crc := 0; payload := pay |}.

Lemma sent_packet_wf src dst pay :
  length src = 6%nat -> Forall is_u8 src -> length dst = 6%nat -> Forall is_u8 dst ->
  length pay = 1500%nat -> Forall is_u8 pay -> eth_wf (sent_packet src dst pay).
Proof.
  intros. unfold eth_wf, sent_packet; cbn [preamble SFD destMAC srcMAC ethertype crc payload].
  repeat split; auto with nachos; zlia.
Qed.

Lemma Send_Ok h src dst pay :
  arr_get macpool h = Ok src ->
  length dst = 6%nat -> Forall is_u8 dst -> length pay = 1500%nat -> Forall is_u8 pay ->
  Send h pay dst =
    Ok [SendLockAcquire; ScheduleSendInt NetworkTime;
        SocketWrite h (eth_bytes (sent_packet src dst pay)); SendLockRelease].
Proof.
  intros Hsrc Hd Hdu Hp Hpu. destruct (macpool_entry _ _ Hsrc) as [Hs Hsu].
  unfold Send. rewrite Hsrc. cbn [rbind].
  rewrite !read_bytes_exact by done. cbn [rbind].
  change {| preamble := _ |} with (sent_packet src dst pay).
  pose proof (length_eth_bytes _ (sent_packet_wf src dst pay Hs Hsu Hd Hdu Hp Hpu)) as Hl.
  rewrite memcpy_full by (by rewrite length_calloc).
  unfold NetworkOutput_Send. by rewrite read_bytes_exact.
Qed.

(** ** Receiving *)

(** A turn of [pktrecv] with the frame [q] in the card. *)
Lemma pktrecv_frame h own st q :
  arr_get macpool h = Ok own -> messageAvailable st <> 0 -> eth_wf q ->
  current_packet st = eth_bytes q ->
  pktrecv h st = Ok (Some (set_in (messageAvailable st - 1)
    (if bool_decide (destMAC q = own) then messages st ++ [eth_bytes q] else messages st)
    (eth_bytes q) st)).
Proof.
  intros Hown Hne Hwf Hc. destruct (macpool_entry _ _ Hown) as [Hl _].
  pose proof (length_eth_bytes q Hwf) as Hlen.
  unfold pktrecv. rewrite (proj2 (Z.eqb_neq _ 0)), Hc, Hown by lia. cbn [rbind].
  rewrite !memcpy_full by (by rewrite ?length_calloc, ?memcpy_full, ?length_calloc).
  rewrite eth_cast_bytes by done.
  rewrite bytes_equal_spec by (done || apply Hwf). cbn [rbind]. by case_bool_decide.
Qed.

(** A frame for this machine that reaches an idle card is queued unchanged. *)
Lemma arrive_and_receive h own st p :
  arr_get macpool h = Ok own -> messageAvailable st = 0 -> eth_wf p ->
  exists st1 st2,
    NetworkInput_CallBack (Some (eth_bytes p)) st = Ok st1 /\
    pktrecv h st1 = Ok (Some st2) /\
    messages st2 =
      (if bool_decide (destMAC p = own) then messages st ++ [eth_bytes p] else messages st) /\
    messageAvailable st2 = 0 /\
    numPacketsRecvd st2 = numPacketsRecvd st + 1.
Proof.
  intros Hown Hidle Hwf. pose proof (length_eth_bytes p Hwf) as Hlen.
  unfold NetworkInput_CallBack. rewrite read_bytes_exact by done. cbn [rbind].
  eexists _, _. split; [done|]. rewrite (pktrecv_frame h own _ p) by (done || cbn; lia).
  split; [done|]. cbn [messages messageAvailable numPacketsRecvd CallBack set_in schedule_poll].
  split_and!; [by case_bool_decide|lia|done].
Qed.

Lemma Receive_queued st p rest :
  eth_wf p -> messages st = eth_bytes p :: rest ->
  Receive st = Some (payload p, set_in (messageAvailable st) rest (current_packet st) st).
Proof.
  intros Hwf Hm. unfold Receive. rewrite Hm, eth_cast_bytes by done.
  rewrite memcpy_full; [done|]. rewrite length_calloc. symmetry. apply Hwf.
Qed.

(** ** Properties *)

(** The packed struct [Ethernet_Packet] and its 1526 bytes determine each
    other: reading the copied bytes back through the cast gives the packet, and
    every buffer of that size is the image of the packet read out of it. *)
Theorem eth_packet_roundtrip p bs :
  eth_wf p -> length bs = ETHSIZE -> Forall is_u8 bs ->
  eth_cast (eth_bytes p) = p /\ eth_bytes (eth_cast bs) = bs.
Proof. auto using eth_cast_bytes, eth_bytes_cast. Qed.

Lemma eth_packet_roundtrip_witness :
  let p := sent_packet (calloc 6) (calloc 6) (calloc 1500) in
  eth_cast (eth_bytes p) = p /\ eth_bytes (eth_cast (calloc ETHSIZE)) = calloc ETHSIZE.
Proof.
  apply (eth_packet_roundtrip (sent_packet (calloc 6) (calloc 6) (calloc 1500)) (calloc ETHSIZE)).
  - apply sent_packet_wf; try apply calloc_u8; apply length_calloc.
  - apply length_calloc.
  - apply calloc_u8.
Defined.

(** The card keeps a single packet.  When two frames arrive before the
    thread [pktrecv] runs, the first one is lost and the second one is queued
    twice (if it is addressed to this machine). *)
Theorem back_to_back_frames h own st p q :
  arr_get macpool h = Ok own -> messageAvailable st = 0 -> eth_wf p -> eth_wf q ->
  exists st1 st2 st3 st4,
    NetworkInput_CallBack (Some (eth_bytes p)) st = Ok st1 /\
    NetworkInput_CallBack (Some (eth_bytes q)) st1 = Ok st2 /\
    pktrecv h st2 = Ok (Some st3) /\ pktrecv h st3 = Ok (Some st4) /\
    pktrecv h st4 = Ok None /\
    messages st4 =
      (if bool_decide (destMAC q = own) then messages st ++ [eth_bytes q; eth_bytes q]
       else messages st).
Proof.
  intros Hown Hidle Hp Hq. destruct (macpool_entry _ _ Hown) as [Hl _].
  pose proof (length_eth_bytes p Hp). pose proof (length_eth_bytes q Hq) as Hlen.
  unfold NetworkInput_CallBack. rewrite !read_bytes_exact by done. cbn [rbind].
  do 4 eexists. split; [done|]. split; [done|].
  rewrite !(pktrecv_frame h own _ q) by (done || cbn; lia).
  split; [done|]. rewrite (pktrecv_frame h own _ q) by (done || cbn; lia). split; [done|].
  unfold pktrecv; cbn [messageAvailable messages set_in CallBack schedule_poll]. rewrite Hidle. split; [done|].
  case_bool_decide; [by rewrite <- app_assoc|done].
Qed.

Lemma back_to_back_frames_witness :
  let p := sent_packet (calloc 6) [0xe5; 0xae; 0x32; 0x18; 0xd9; 0x21] (calloc 1500) in
  exists st1 st2 st3 st4,
    NetworkInput_CallBack (Some (eth_bytes p)) Ethernet_Layer_init = Ok st1 /\
    NetworkInput_CallBack (Some (eth_bytes p)) st1 = Ok st2 /\
    pktrecv 0 st2 = Ok (Some st3) /\ pktrecv 0 st3 = Ok (Some st4) /\
    pktrecv 0 st4 = Ok None /\
    messages st4 =
      (if bool_decide (destMAC p = [0xe5; 0xae; 0x32; 0x18; 0xd9; 0x21])
       then [] ++ [eth_bytes p; eth_bytes p] else []).
Proof.
  assert (eth_wf (sent_packet (calloc 6) [0xe5; 0xae; 0x32; 0x18; 0xd9; 0x21] (calloc 1500))) as H.
  { apply sent_packet_wf; try apply calloc_u8; try apply length_calloc; repeat constructor; zlia. }
  exact (back_to_back_frames 0 _ Ethernet_Layer_init _ _ eq_refl eq_refl H H).
Defined.

End Ethernet.
