(* ===== verification/Ip.v ===== *)
(** * The network layer (code/network/post.h, code/network/post.cc: IP_Layer)

    Fragmentation in [Send], reassembly in [Receive]. *)

From S2P Require Import Prelude Ints CString Ethernet.

Module Ip.
Import Ethernet.

Definition ippool : list (list Z) :=
  [ [0xe5; 0xae; 0x32; 0x18];
    [0xae; 0x32; 0x18; 0xd9];
    [0x3e; 0x32; 0x18; 0xd9];
    [0xae; 0x34; 0x18; 0xd9];
    [0xa9; 0x32; 0x18; 0xd9];
    [0xae; 0x32; 0x58; 0xd9];
    [0xae; 0x32; 0x18; 0xa9];
    [0xae; 0x32; 0x28; 0xd9];
    [0xae; 0x66; 0x18; 0xd9];
    [0xae; 0x32; 0x99; 0xd9] ].

(** The packed struct [IP_Fragment]; bit fields as integers of their width. *)
Record IP_Fragment := mkIP {
  version : Z;          (* 4 bits *)
  IHL : Z;              (* 4 bits *)
  DSCP : Z;             (* 6 bits *)
  ECN : Z;              (* 2 bits *)
  totalLength : Z;      (* unsigned short *)
  identification : Z;   (* unsigned short *)
  reserved : Z;         (* 1 bit *)
  DF : Z;               (* 1 bit *)
  MF : Z;               (* 1 bit *)
  fragmentOffset : Z;   (* 13 bits *)
  timeToLive : Z;       (* 8 bits *)
  protocol : Z;         (* 8 bits *)
  checksum : Z;         (* unsigned short *)
  srcIP : list Z;       (* 4 bytes *)
  destIP : list Z;      (* 4 bytes *)
  ip_payload : list Z   (* 1480 bytes *)
}.

(** Bit fields of a packed struct are laid out from the least significant bit
    of each byte on the little-endian host. *)
Definition ip_bytes (f : IP_Fragment) : list Z :=
  [version f + 2 ^ 4 * IHL f] ++
  [DSCP f + 2 ^ 6 * ECN f] ++
  le_bytes 2 (totalLength f) ++
  le_bytes 2 (identification f) ++
  le_bytes 2 (reserved f + 2 * DF f + 4 * MF f + 8 * fragmentOffset f) ++
  [timeToLive f] ++
  [protocol f] ++
  le_bytes 2 (checksum f) ++
  srcIP f ++ destIP f ++ ip_payload f.

(** Bits [lo, lo + n) of a value. *)
Definition bits (lo n v : Z) : Z := (v / 2 ^ lo) mod 2 ^ n.

(** The cast [(IP_Fragment * )data]. *)
Definition ip_cast (data : list Z) : IP_Fragment := {|
  version := bits 0 4 (le_value (slice 0 1 data));
  IHL := bits 4 4 (le_value (slice 0 1 data));
  DSCP := bits 0 6 (le_value (slice 1 1 data));
  ECN := bits 6 2 (le_value (slice 1 1 data));
  totalLength := le_value (slice 2 2 data);
  identification := le_value (slice 4 2 data);
  reserved := bits 0 1 (le_value (slice 6 2 data));
  DF := bits 1 1 (le_value (slice 6 2 data));
  MF := bits 2 1 (le_value (slice 6 2 data));
  fragmentOffset := bits 3 13 (le_value (slice 6 2 data));
  timeToLive := le_value (slice 8 1 data);
  protocol := le_value (slice 9 1 data);
  checksum := le_value (slice 10 2 data);
  srcIP := slice 12 4 data;
  destIP := slice 16 4 data;
  ip_payload := slice 20 1480 data
|}.

Definition ip_wf (f : IP_Fragment) : Prop :=
  0 <= version f < 2 ^ 4 /\ 0 <= IHL f < 2 ^ 4 /\ 0 <= DSCP f < 2 ^ 6 /\ 0 <= ECN f < 2 ^ 2 /\
  is_u16 (totalLength f) /\ is_u16 (identification f) /\
  0 <= reserved f < 2 /\ 0 <= DF f < 2 /\ 0 <= MF f < 2 /\ 0 <= fragmentOffset f < 2 ^ 13 /\
  is_u8 (timeToLive f) /\ is_u8 (protocol f) /\ is_u16 (checksum f) /\
  length (srcIP f) = 4%nat /\ Forall is_u8 (srcIP f) /\
  length (destIP f) = 4%nat /\ Forall is_u8 (destIP f) /\
  length (ip_payload f) = 1480%nat /\ Forall is_u8 (ip_payload f).

(** [IP_Layer::get_Random_Identification]; [r] is the value of [rand()]. *)
Definition get_Random_Identification (r : Z) : Z := s16 (Z.rem r (64 * 1024)).

(** [ceil((double)a / (double)b)] *)
Definition ceil_div (a b : Z) : Z := - ((- a) / b).

(** The search for [destIP] in [ippool]: the machine number, -1 if unknown. *)
Definition find_machine (dest : list Z) : res Z :=
  let* r := for_break (R := Z) 10 0
    (fun i (_ : unit) =>
       let* ip := arr_get ippool i in
       let* b := bytes_equal 4 dest ip in
       Ok (if b then inr i else inl tt))
    tt in
  Ok (match r with inl _ => -1 | inr i => i end).

(** The fragment number [i] of [num] that [IP_Layer::Send] prepares. *)
Definition make_fragment (src dest data : list Z) (size total_len ident i num : Z)
  : res IP_Fragment :=
  let n := Z.min (size - i * 1480) 1480 in
  if (n <? 0) || (Z.of_nat (length data) <? i * 1480) then Err OutOfBounds else
  let* chunk := read_bytes (drop (Z.to_nat (i * 1480)) data) (Z.to_nat n) in
  let* s := read_bytes src 4 in
  let* d := read_bytes dest 4 in
  Ok {| version := 4; IHL := 5; DSCP := 0; ECN := 0;
        totalLength := u16 total_len;
        identification := u16 ident;
        reserved := 0; DF := 0;
        MF := if i <? num - 1 then 1 else 0;
        fragmentOffset := Z.quot (i * 1480) 8 mod 2 ^ 13;
        timeToLive := 1; protocol := 17; checksum := 0;
        srcIP := s; destIP := d;
        ip_payload := memcpy (calloc 1480) 0 chunk |}.

(** [IP_Layer::Send].  [r] is the value [rand()] returns. *)
Definition Send (hostName r : Z) (data : list Z) (size : Z) (dest : list Z)
  : res (list net_event) :=
  let* src := arr_get ippool hostName in
  let num_of_fragments := ceil_div size (1500 - 20) in
  let total_len := size + num_of_fragments * 20 in
  let ident := get_Random_Identification r in
  let* dest_machine := find_machine dest in
  for_range (Z.to_nat num_of_fragments) 0
    (fun i out =>
       let* f := make_fragment src dest data size total_len ident i num_of_fragments in
       let buffer := memcpy (calloc 1500) 0 (ip_bytes f) in
       let* mac := arr_get macpool dest_machine in
       let* ev := Ethernet.Send hostName buffer mac in
       Ok (out ++ ev))
    [].

(** ** Reassembly *)

Record Fragment := mkFragment {
  frag_MF : bool;
  frag_data : list Z;
  frag_offset : Z
}.

#[global] Instance Fragment_eq_dec : EqDecision Fragment.
Proof. solve_decision. Defined.

(** [IP_Layer::computeHash]: [key += srcIP[i] + destIP[i]] appends the sum of
    the two bytes converted to a [char]. *)
Definition computeHash (src dest : list Z) (ident : Z) : list Z :=
  zip_with (fun s d => u8 (s + d)) (take 4 src) (take 4 dest) ++ to_string ident.

(** The map [fragmentDict] from keys to vectors of fragments. *)
Abbreviation dict := (gmap (list Z) (list Fragment)).

(** The fragment [insertToMap] builds out of the received header. *)
Definition fragment_of (f : IP_Fragment) : Fragment :=
  {| frag_MF := MF f =? 1;
     frag_data := memcpy (calloc 1480) 0 (ip_payload f);
     frag_offset := fragmentOffset f |}.

(** The loop of [insertToMap]: before the first fragment of larger offset, at
    the end if there is none. *)
Fixpoint insert_sorted (f : Fragment) (v : list Fragment) : list Fragment :=
  match v with
  | [] => [f]
  | g :: v' => if frag_offset f <? frag_offset g then f :: v else g :: insert_sorted f v'
  end.

Definition insertToMap (key : list Z) (f : IP_Fragment) (m : dict) : dict :=
  match m !! key with
  | None => <[key := [fragment_of f]]> m
  | Some v => <[key := insert_sorted (fragment_of f) v]> m
  end.

(** The loop of [check] over the offsets, from index [i] on. *)
Fixpoint offsets_ok (i : Z) (v : list Fragment) : bool :=
  match v with
  | [] => true
  | f :: v' => if frag_offset f =? i * 185 then offsets_ok (i + 1) v' else false
  end.

(** [IP_Layer::check]: the datagram handed to [udp_layer->Receive], if any.
    [fragmentDict[key]] creates an empty vector for a missing key, and [back()]
    of an empty vector is an error. *)
Definition check (key : list Z) (m : dict) : res (dict * option (list Z)) :=
  let v := default [] (m !! key) in
  let m' := <[key := v]> m in
  if offsets_ok 0 v then
    match last v with
    | None => Err OutOfBounds
    | Some f =>
        if frag_MF f then Ok (m', None)
        else Ok (delete key m', Some (concat (map frag_data v)))
    end
  else Ok (m', None).

(** [IP_Layer::Receive] *)
Definition Receive (data : list Z) (m : dict) : res (dict * option (list Z)) :=
  let* data := read_bytes data 1500 in
  let f := ip_cast data in
  let key := computeHash (srcIP f) (destIP f) (identification f) in
  check key (insertToMap key f m).

(** ** The packed header *)

Lemma length_ip_bytes f : ip_wf f -> length (ip_bytes f) = 1500%nat.
Proof.
  unfold ip_wf. intros. destruct_and!. unfold ip_bytes.
  rewrite !length_app, !length_le_bytes. cbn [length]. lia.
Qed.

Lemma ip_bytes_u8 f : ip_wf f -> Forall is_u8 (ip_bytes f).
Proof.
  unfold ip_wf. intros. destruct_and!. unfold ip_bytes.
  change (2 ^ 4) with 16 in *; change (2 ^ 6) with 64 in *; change (2 ^ 2) with 4 in *.
  rewrite !Forall_app. split_and!; auto with nachos; repeat constructor; zlia.
Qed.

Lemma ip_cast_bytes f : ip_wf f -> ip_cast (ip_bytes f) = f.
Proof.
  destruct f as [ve ih ds ec tl id rs df mf fo tt pr ck si di pa].
  unfold ip_wf, ip_cast, ip_bytes.
  cbn [version IHL DSCP ECN totalLength identification reserved DF MF fragmentOffset
       timeToLive protocol checksum srcIP destIP ip_payload].
  intros. destruct_and!. slice_fields.
  rewrite !le_value_bytes, !le_value_1. unfold bits.
  change (2 ^ (8 * Z.of_nat 2)) with 65536.
  change (2 ^ 0) with 1; change (2 ^ 1) with 2; change (2 ^ 3) with 8.
  change (2 ^ 2) with 4 in *; change (2 ^ 4) with 16 in *; change (2 ^ 6) with 64 in *;
    change (2 ^ 13) with 8192 in *.
  f_equal; zlia.
Qed.

(** ** Addresses *)

Lemma ippool_entry i m : arr_get ippool i = Ok m -> length m = 4%nat /\ Forall is_u8 m.
Proof.
  rewrite arr_get_Ok. intros [_ H]. apply list_elem_of_lookup_2 in H.
  revert m H. apply Forall_forall. repeat constructor; zlia.
Qed.

Lemma ippool_inj i j m : arr_get ippool i = Ok m -> arr_get ippool j = Ok m -> i = j.
Proof.
  rewrite !arr_get_Ok. intros [Hi Ei] [Hj Ej].
  assert (NoDup ippool) as Hnd by (apply (bool_decide_unpack _); vm_compute; done).
  pose proof (NoDup_lookup _ _ _ _ Hnd Ei Ej). lia.
Qed.

Lemma find_machine_eq dest :
  length dest = 4%nat ->
  find_machine dest =
    Ok (default (-1) (first_in 10 0 (fun i =>
      if bool_decide (arr_get ippool i = Ok dest) then Some i else None))).
Proof.
  intros Hd. unfold find_machine.
  erewrite (for_break_first (fun i => if bool_decide (arr_get ippool i = Ok dest) then Some i else None)).
  - cbn [rbind]. by destruct (first_in _ _ _).
  - intros i Hi. destruct (arr_get_in_range ippool i) as [ip Hip]; [cbn; lia|].
    rewrite Hip. cbn [rbind]. destruct (ippool_entry _ _ Hip) as [Hl _].
    rewrite bytes_equal_spec by done. cbn [rbind].
    do 2 case_bool_decide; congruence.
Qed.

Lemma find_machine_known dest k : arr_get ippool k = Ok dest -> find_machine dest = Ok k.
Proof.
  intros Hk. destruct (ippool_entry _ _ Hk) as [Hl _]. pose proof (arr_get_range _ _ _ Hk) as Hr.
  rewrite find_machine_eq by done. do 2 f_equal.
  rewrite (proj2 (first_in_Some _ _ _ k)); [done|]. exists k.
  split_and!; [cbn in *; lia|cbn in *; lia|by rewrite bool_decide_true|].
  intros j Hj. rewrite bool_decide_false; [done|]. intros E.
  pose proof (ippool_inj _ _ _ Hk E). lia.
Qed.

Lemma find_machine_unknown dest :
  length dest = 4%nat -> dest ∉ ippool -> find_machine dest = Ok (-1).
Proof.
  intros Hl Hn. rewrite find_machine_eq by done. do 2 f_equal.
  rewrite (proj2 (first_in_None _ _ _)); [done|]. intros i _.
  rewrite bool_decide_false; [done|]. rewrite arr_get_Ok. intros [_ E].
  by apply list_elem_of_lookup_2 in E.
Qed.

(** ** Fragmentation *)

(** Zeros up to the length of a fragment's payload. *)
Definition pad (c : list Z) : list Z := c ++ replicate (1480 - length c) 0.

(** The bytes of the datagram that fragment [i] carries. *)
Definition chunk (data : list Z) (i : Z) : list Z := take 1480 (drop (Z.to_nat (i * 1480)) data).

Definition num_fragments (data : list Z) : Z := ceil_div (Z.of_nat (length data)) 1480.

(** Fragment [i] of a datagram, in RFC 791 terms. *)
Definition fragment (src dest data : list Z) (ident i : Z) : IP_Fragment := {|
  version := 4; IHL := 5; DSCP := 0; ECN := 0;
  totalLength := u16 (Z.of_nat (length data) + num_fragments data * 20);
  identification := u16 ident; reserved := 0; DF := 0;
  MF := if i <? num_fragments data - 1 then 1 else 0;
  fragmentOffset := i * 185;
  timeToLive := 1; protocol := 17; checksum := 0;
  srcIP := src; destIP := dest;
  ip_payload := pad (chunk data i)
|}.

Definition fragments (src dest data : list Z) (ident : Z) : list IP_Fragment :=
  map (fragment src dest data ident) (seqZ 0 (num_fragments data)).

Lemma ceil_div_spec a b : 0 < b -> b * (ceil_div a b - 1) < a <= b * ceil_div a b.
Proof.
  intros Hb. unfold ceil_div.
  pose proof (Z.div_mod (- a) b). pose proof (Z.mod_pos_bound (- a) b). nia.
Qed.

Lemma num_fragments_spec data :
  1480 * (num_fragments data - 1) < Z.of_nat (length data) <= 1480 * num_fragments data.
Proof. apply ceil_div_spec. lia. Qed.

Lemma memcpy_pad c : (length c <= 1480)%nat -> memcpy (calloc 1480) 0 c = pad c.
Proof.
  intros H. rewrite memcpy_prefix. unfold pad, calloc. by rewrite drop_replicate.
Qed.

Lemma length_chunk data i : (length (chunk data i) <= 1480)%nat.
Proof. unfold chunk. rewrite length_take. lia. Qed.

Lemma length_pad c : (length c <= 1480)%nat -> length (pad c) = 1480%nat.
Proof. intros H. unfold pad. rewrite length_app, length_replicate. lia. Qed.

Lemma pad_u8 c : Forall is_u8 c -> Forall is_u8 (pad c).
Proof. intros H. unfold pad. apply Forall_app. split; [done|]. apply (calloc_u8 _). Qed.

Lemma fragment_wf src dest data ident i :
  length src = 4%nat -> Forall is_u8 src -> length dest = 4%nat -> Forall is_u8 dest ->
  Forall is_u8 data -> 0 <= i <= 44 -> ip_wf (fragment src dest data ident i).
Proof.
  intros. pose proof (length_chunk data i) as Hc.
  unfold ip_wf, fragment.
  cbn [version IHL DSCP ECN totalLength identification reserved DF MF fragmentOffset
       timeToLive protocol checksum srcIP destIP ip_payload].
  change (2 ^ 13) with 8192.
  repeat match goal with |- context [if ?b then _ else _] => destruct b end;
  split_and!; auto using length_pad with nachos; try (by apply pad_u8, Forall_take, Forall_drop);
    try zlia; lia.
Qed.

Lemma make_fragment_Ok src dest data ident i :
  length src = 4%nat -> length dest = 4%nat ->
  0 <= i < num_fragments data -> i <= 44 ->
  make_fragment src dest data (Z.of_nat (length data))
    (Z.of_nat (length data) + num_fragments data * 20) ident i (num_fragments data) =
  Ok (fragment src dest data ident i).
Proof.
  intros Hs Hd Hi H44. pose proof (num_fragments_spec data) as Hn. unfold make_fragment.
  rewrite (proj2 (Z.ltb_ge _ 0)), (proj2 (Z.ltb_ge _ (i * 1480))) by lia. cbn [orb].
  rewrite read_bytes_Ok by (rewrite length_drop; lia). cbn [rbind].
  rewrite !read_bytes_exact by done. cbn [rbind].
  assert (take (Z.to_nat (Z.min (Z.of_nat (length data) - i * 1480) 1480))
            (drop (Z.to_nat (i * 1480)) data) = chunk data i) as ->.
  { unfold chunk. destruct (Z.min_spec (Z.of_nat (length data) - i * 1480) 1480) as [[? ->]|[? ->]].
    - rewrite !take_ge by (rewrite length_drop; lia). done.
    - done. }
  rewrite memcpy_pad by apply length_chunk. unfold fragment. do 2 f_equal.
  change (2 ^ 13) with 8192. rewrite Z.quot_div_nonneg by lia.
  rewrite Z.mod_small; zify_div; lia.
Qed.

(** The chunks of the fragments are the datagram. *)
Lemma concat_chunk_n n : forall data,
  Z.of_nat (length data) <= 1480 * Z.of_nat n ->
  concat (map (chunk data) (seqZ 0 (Z.of_nat n))) = data.
Proof.
  induction n as [|n IH]; intros data Hl.
  - destruct data; [done|]. cbn in Hl. lia.
  - rewrite seqZ_cons by lia. cbn [map concat].
    replace (Z.pred (Z.of_nat (S n))) with (Z.of_nat n) by lia.
    replace (Z.succ 0) with (0 + 1) by lia. rewrite <- (fmap_add_seqZ 1 0).
    rewrite (map_map (Z.add 1)). erewrite (map_ext_in _ (chunk (drop 1480 data))).
    + rewrite IH by (rewrite length_drop; lia). unfold chunk. cbn [Z.mul Z.to_nat].
      rewrite drop_0. apply take_drop.
    + intros i Hi. apply list_elem_of_In, elem_of_seqZ in Hi. unfold chunk.
      rewrite drop_drop. do 2 f_equal. lia.
Qed.

Lemma concat_chunk data : concat (map (chunk data) (seqZ 0 (num_fragments data))) = data.
Proof.
  pose proof (num_fragments_spec data) as Hs.
  destruct (Z.le_gt_cases (num_fragments data) 0).
  - replace (num_fragments data) with (Z.of_nat 0) by lia. apply concat_chunk_n. lia.
  - rewrite <- (Z2Nat.id (num_fragments data)) by lia. apply concat_chunk_n. lia.
Qed.

(** The events of sending one fragment in its own frame. *)
Definition frame_events (h : Z) (srcmac dstmac : list Z) (f : IP_Fragment) : list net_event :=
  [SendLockAcquire; ScheduleSendInt NetworkTime; SocketWrite h (eth_bytes (sent_packet srcmac dstmac (ip_bytes f)));
   SendLockRelease].

Lemma Send_fragments h k r src dest srcmac dstmac data :
  arr_get ippool h = Ok src -> arr_get macpool h = Ok srcmac ->
  arr_get ippool k = Ok dest -> arr_get macpool k = Ok dstmac ->
  Forall is_u8 data -> num_fragments data <= 45 ->
  Send h r data (Z.of_nat (length data)) dest =
    Ok (concat (map (frame_events h srcmac dstmac)
          (fragments src dest data (get_Random_Identification r)))).
Proof.
  intros Hs Hsm Hd Hdm Hu Hn. destruct (ippool_entry _ _ Hs) as [Hsl Hsu].
  destruct (ippool_entry _ _ Hd) as [Hdl Hdu]. destruct (macpool_entry _ _ Hdm) as [Hml Hmu].
  pose proof (num_fragments_spec data) as Hspec.
  unfold Send. rewrite Hs. cbn [rbind]. rewrite (find_machine_known dest k) by done. cbn [rbind].
  change (1500 - 20) with 1480. fold (num_fragments data).
  set (id := get_Random_Identification r).
  destruct (Z.le_gt_cases (num_fragments data) 0) as [Hz|Hz].
  { assert (num_fragments data = 0) as E by lia. unfold fragments. by rewrite E. }
  rewrite (for_range_collect (fun i => frame_events h srcmac dstmac (fragment src dest data id i))).
  { cbn [app]. unfold fragments. rewrite map_map, Z2Nat.id by lia. done. }
  intros i out Hi. rewrite make_fragment_Ok by (done || lia). cbn [rbind]. rewrite Hdm. cbn [rbind].
  assert (ip_wf (fragment src dest data id i)) as Hwf by (apply fragment_wf; done || lia).
  rewrite memcpy_full by (by rewrite length_calloc, length_ip_bytes).
  rewrite (Ethernet.Send_Ok h srcmac) by eauto using length_ip_bytes, ip_bytes_u8. done.
Qed.

(** ** Properties *)

(** The packed header [IP_Fragment], bit fields included, survives the copy
    into the 1500-byte payload of a frame and the cast back. *)
Theorem ip_fragment_roundtrip f :
  ip_wf f -> length (ip_bytes f) = 1500%nat /\ ip_cast (ip_bytes f) = f.
Proof. auto using length_ip_bytes, ip_cast_bytes. Qed.

Lemma ip_fragment_roundtrip_witness :
  let f := fragment (calloc 4) (calloc 4) [1; 2; 3] 7 0 in
  length (ip_bytes f) = 1500%nat /\ ip_cast (ip_bytes f) = f.
Proof.
  apply (ip_fragment_roundtrip (fragment (calloc 4) (calloc 4) [1; 2; 3] 7 0)).
  apply fragment_wf; try apply calloc_u8; try apply length_calloc; [|lia].
  repeat constructor; zlia.
Defined.

(** [IP_Layer::Send] splits a datagram of up to 45 * 1480 bytes into frames
    that are written one by one under the send lock; fragment [i] carries bytes
    [1480 i, 1480 (i + 1)) of the datagram at offset [185 i] (in units of eight
    bytes), every fragment but the last has [MF] set, the last is padded with
    zeros, and the carried bytes put together are the datagram. *)
Theorem Send_fragments_datagram h k r src dest srcmac dstmac data :
  arr_get ippool h = Ok src -> arr_get macpool h = Ok srcmac ->
  arr_get ippool k = Ok dest -> arr_get macpool k = Ok dstmac ->
  Forall is_u8 data -> num_fragments data <= 45 ->
  Send h r data (Z.of_nat (length data)) dest =
    Ok (concat (map (frame_events h srcmac dstmac)
          (fragments src dest data (get_Random_Identification r)))) /\
  (forall i f, fragments src dest data (get_Random_Identification r) !! i = Some f ->
     ip_wf f /\ fragmentOffset f = Z.of_nat i * 185 /\
     (MF f = 0 <-> Z.of_nat (S i) = num_fragments data)) /\
  concat (map (chunk data) (seqZ 0 (num_fragments data))) = data.
Proof.
  intros Hs Hsm Hd Hdm Hu Hn. split; [by apply (Send_fragments h k r)|].
  split; [|apply concat_chunk].
  intros i f Hf. unfold fragments in Hf. apply list_lookup_fmap_Some in Hf as (j & -> & Hj).
  apply lookup_seqZ in Hj as [-> Hj].
  destruct (ippool_entry _ _ Hs), (ippool_entry _ _ Hd).
  split; [apply fragment_wf; done || lia|]. cbn [fragment fragmentOffset MF].
  split; [done|]. case_match; bools; lia.
Qed.

Lemma Send_fragments_datagram_witness :
  exists evs, Send 0 7 [10; 20; 30] 3 [0xae; 0x32; 0x18; 0xd9] = Ok evs /\ length evs = 4%nat.
Proof.
  destruct (Send_fragments_datagram 0 1 7 _ [0xae; 0x32; 0x18; 0xd9] _ _ [10; 20; 30]
    eq_refl eq_refl eq_refl eq_refl) as [E _].
  - repeat constructor; zlia.
  - vm_compute. discriminate.
  - eexists. split; [exact E|]. reflexivity.
Defined.

(** A destination outside [ippool] is not rejected: [IP_Layer::Send] goes on
    with machine number -1 and indexes [macpool] out of bounds as soon as there
    is anything to send. *)
Theorem Send_unknown_destination h r data dest src :
  arr_get ippool h = Ok src -> length dest = 4%nat -> dest ∉ ippool ->
  data <> [] -> num_fragments data <= 45 ->
  Send h r data (Z.of_nat (length data)) dest = Err OutOfBounds.
Proof.
  intros Hs Hd Hn Hne H45. destruct (ippool_entry _ _ Hs) as [Hsl _].
  pose proof (num_fragments_spec data) as Hspec.
  assert (0 < num_fragments data) as Hpos by (destruct data; [done|cbn in Hspec; lia]).
  unfold Send. rewrite Hs. cbn [rbind]. rewrite find_machine_unknown by done. cbn [rbind].
  change (1500 - 20) with 1480. fold (num_fragments data).
  destruct (Z.to_nat (num_fragments data)) eqn:E; [lia|]. cbn [for_range].
  rewrite make_fragment_Ok by (done || lia). done.
Qed.

Lemma Send_unknown_destination_witness :
  Send 0 7 [10; 20; 30] 3 [1; 2; 3; 4] = Err OutOfBounds.
Proof.
  apply (Send_unknown_destination 0 7 [10; 20; 30] [1; 2; 3; 4] _ eq_refl eq_refl).
  - apply (bool_decide_unpack _). vm_compute. exact I.
  - discriminate.
  - vm_compute. discriminate.
Defined.

(** At a given receiver the reassembly key determines the sender's address
    and the identification, although each byte of the key only keeps the sum of
    a source and a destination byte. *)
Theorem computeHash_injective src src' dest i i' :
  length src = 4%nat -> length src' = 4%nat -> length dest = 4%nat ->
  Forall is_u8 src -> Forall is_u8 src' -> is_u16 i -> is_u16 i' ->
  computeHash src dest i = computeHash src' dest i' -> src = src' /\ i = i'.
Proof.
  intros Hs Hs' Hd Hu Hu' Hi Hi' E. unfold computeHash in E.
  rewrite !take_ge in E by lia.
  apply app_inj_1 in E as [E1 E2]; [|rewrite !length_zip_with; lia].
  apply to_string_inj in E2; [|zlia|zlia]. split; [|done].
  apply (list_eq_same_length _ _ 4); [done|done|]. intros k x y Hk Hx Hy.
  destruct (lookup_lt_is_Some_2 dest k) as [d Hdk]; [lia|].
  assert (zip_with (fun s d => u8 (s + d)) src dest !! k = Some (u8 (x + d))) as Ex
    by (apply lookup_zip_with_Some; eauto).
  assert (zip_with (fun s d => u8 (s + d)) src' dest !! k = Some (u8 (y + d))) as Ey
    by (apply lookup_zip_with_Some; eauto).
  rewrite E1, Ey in Ex. injection Ex as Ex.
  rewrite Forall_lookup in Hu, Hu'. specialize (Hu _ _ Hx). specialize (Hu' _ _ Hy). zlia.
Qed.

Lemma computeHash_injective_witness : [1; 2; 3; 4] = [1; 2; 3; 4] /\ 7 = 7.
Proof.
  apply (computeHash_injective [1; 2; 3; 4] [1; 2; 3; 4] [9; 9; 9; 255] 7 7);
    try reflexivity; repeat constructor; zlia.
Defined.

End Ip.
