(* ===== verification/Reassembly.v ===== *)
(** * Reassembly of fragmented datagrams

    What [IP_Layer::Receive] does with the fragments of one datagram, in
    whatever order they arrive. *)

From S2P Require Import Prelude Ints CString Ethernet Ip.

Module Reassembly.
Import Ip.

(** Feeding a sequence of received IP packets to [IP_Layer::Receive], with the
    datagrams passed up to UDP in order. *)
Fixpoint receive_all (pkts : list (list Z)) (m : dict) : res (dict * list (list Z)) :=
  match pkts with
  | [] => Ok (m, [])
  | p :: pkts' =>
      let* (m1, d) := Ip.Receive p m in
      let* (m2, ds) := receive_all pkts' m1 in
      Ok (m2, match d with Some x => x :: ds | None => ds end)
  end.

(** The key under which the fragments of a datagram are collected. *)
Definition key_of (f : IP_Fragment) : list Z :=
  computeHash (srcIP f) (destIP f) (identification f).

(** ** The sorted vector *)

Definition by_offset (a b : Fragment) : Prop := frag_offset a <= frag_offset b.

Lemma insert_sorted_perm f v : insert_sorted f v ≡ₚ f :: v.
Proof.
  induction v as [|g v IH]; cbn [insert_sorted]; [done|].
  case_match; [done|]. rewrite IH. apply Permutation_swap.
Qed.

Lemma insert_sorted_not_nil f v : insert_sorted f v <> [].
Proof. destruct v; cbn; [done|]. by case_match. Qed.

Lemma insert_sorted_sorted f v :
  StronglySorted by_offset v -> StronglySorted by_offset (insert_sorted f v).
Proof.
  induction 1 as [|g v Hv IH Hg]; cbn [insert_sorted].
  - repeat constructor.
  - destruct (Z.ltb_spec (frag_offset f) (frag_offset g)) as [Hlt|Hge].
    + constructor; [by constructor|]. constructor; [unfold by_offset; lia|].
      eapply Forall_impl; [done|]. unfold by_offset. intros; cbn in *; lia.
    + constructor; [done|]. rewrite insert_sorted_perm. by constructor.
Qed.

(** ** Completeness of a vector *)

Definition complete (v : list Fragment) : bool :=
  offsets_ok 0 v && match last v with Some f => negb (frag_MF f) | None => false end.

Lemma offsets_ok_lookup v : forall i,
  offsets_ok i v = true <->
  forall k f, v !! k = Some f -> frag_offset f = (i + Z.of_nat k) * 185.
Proof.
  induction v as [|g v IH]; intros i; cbn [offsets_ok].
  - split; [done|done].
  - destruct (Z.eqb_spec (frag_offset g) (i * 185)) as [E|E].
    + rewrite IH. split; intros H k f Hk.
      * destruct k as [|k]; cbn in Hk; [injection Hk as <-; lia|].
        rewrite (H k f Hk). lia.
      * rewrite (H (S k) f Hk). lia.
    + split; [done|]. intros H. specialize (H 0%nat g eq_refl). lia.
Qed.

(** A vector of [n] fragments at the offsets 0, 185, 370, ... of which only the
    last has [MF] clear: what the sender produced. *)
Definition is_train (F : list Fragment) : Prop :=
  forall k f, F !! k = Some f ->
    frag_offset f = Z.of_nat k * 185 /\ frag_MF f = negb (bool_decide (S k = length F)).

Lemma train_complete F : F <> [] -> is_train F -> complete F = true.
Proof.
  intros Hne HF. unfold complete. rewrite (proj2 (offsets_ok_lookup F 0)).
  2:{ intros k f Hk. apply HF in Hk as [-> _]. lia. }
  cbn [andb]. destruct (last F) as [f|] eqn:E; [|by apply last_None in E].
  rewrite last_lookup in E. apply HF in E as [_ ->]. rewrite negb_involutive.
  apply bool_decide_true. destruct F; [done|]. cbn. lia.
Qed.

Lemma train_injective F f g :
  is_train F -> f ∈ F -> g ∈ F -> frag_offset f = frag_offset g -> f = g.
Proof.
  intros HF Hf Hg E. apply list_elem_of_lookup in Hf as [i Hi].
  apply list_elem_of_lookup in Hg as [j Hj].
  destruct (HF _ _ Hi) as [Ei _]. destruct (HF _ _ Hj) as [Ej _].
  assert (i = j) as -> by lia. congruence.
Qed.

Lemma train_sorted F : is_train F -> StronglySorted by_offset F.
Proof.
  intros HF. assert (forall i, StronglySorted by_offset (drop i F)) as H.
  2:{ apply (H 0%nat). }
  intros i. remember (length F - i)%nat as n eqn:En.
  revert i En. induction n as [|n IH]; intros i En.
  - rewrite drop_ge by lia. constructor.
  - destruct (lookup_lt_is_Some_2 F i) as [f Hf]; [lia|]. rewrite (drop_S _ _ _ Hf).
    constructor; [apply IH; lia|]. apply Forall_lookup. intros k g Hg.
    rewrite lookup_drop in Hg. apply HF in Hf as [Hf _]. apply HF in Hg as [Hg _].
    unfold by_offset. lia.
Qed.

(** A sorted rearrangement of the whole train is the train. *)
Lemma sorted_train F v :
  is_train F -> v ≡ₚ F -> StronglySorted by_offset v -> v = F.
Proof.
  intros HF Hp Hs. apply (StronglySorted_unique_strong by_offset); [|done|by apply train_sorted|done].
  intros a b Ha Hb H1 H2. apply (train_injective F); [done| |done|unfold by_offset in *; lia].
  by rewrite <- Hp.
Qed.

(** Part of a train is never taken for complete. *)
Lemma partial_incomplete F v :
  is_train F -> (forall f, f ∈ v -> f ∈ F) -> (length v < length F)%nat -> complete v = false.
Proof.
  intros HF Hsub Hlen. destruct (complete v) eqn:E; [|done]. exfalso.
  unfold complete in E. apply andb_true_iff in E as [Ho Hl].
  destruct (last v) as [f|] eqn:El; [|done].
  rewrite last_lookup in El.
  pose proof (proj1 (offsets_ok_lookup v 0) Ho _ _ El) as Hoff.
  assert (f ∈ F) as HfF by (apply Hsub; by eapply list_elem_of_lookup_2).
  apply list_elem_of_lookup in HfF as [j Hj]. destruct (HF _ _ Hj) as [Ej EM].
  rewrite EM, negb_involutive in Hl. apply bool_decide_eq_true in Hl.
  assert (j = pred (length v)) by lia.
  apply lookup_lt_Some in El. lia.
Qed.

(** ** One step of reassembly *)

Lemma insertToMap_eq key f m :
  insertToMap key f m = <[key := insert_sorted (fragment_of f) (default [] (m !! key))]> m.
Proof. unfold insertToMap. by destruct (m !! key). Qed.

Lemma check_eq key m v :
  m !! key = Some v -> v <> [] ->
  check key m =
    Ok (if complete v then (delete key m, Some (concat (map frag_data v))) else (m, None)).
Proof.
  intros Hv Hne. unfold check, complete. rewrite Hv.
  change (default [] (Some v)) with v. rewrite (insert_id m key v Hv).
  destruct (offsets_ok 0 v); [|done]. cbn [andb].
  destruct (last v) as [f|] eqn:E; [|by apply last_None in E].
  by destruct (frag_MF f).
Qed.

Lemma Receive_eq f m :
  ip_wf f ->
  let v := insert_sorted (fragment_of f) (default [] (m !! key_of f)) in
  Ip.Receive (ip_bytes f) m =
    Ok (if complete v then (delete (key_of f) m, Some (concat (map frag_data v)))
        else (<[key_of f := v]> m, None)).
Proof.
  intros Hwf v. unfold Ip.Receive. rewrite read_bytes_exact by (by apply length_ip_bytes).
  cbn [rbind]. rewrite ip_cast_bytes by done. fold (key_of f).
  rewrite insertToMap_eq. fold v.
  rewrite (check_eq _ _ v); [|apply lookup_insert_eq|apply insert_sorted_not_nil].
  by rewrite delete_insert_eq.
Qed.

(** A packet touches only the entry of its own key. *)
Lemma Receive_frame f m m' d k :
  ip_wf f -> k <> key_of f -> Ip.Receive (ip_bytes f) m = Ok (m', d) -> m' !! k = m !! k.
Proof.
  intros Hwf Hk. rewrite Receive_eq by done. intros E. res_inv.
  destruct (complete _); injection E as <- <-.
  - by rewrite lookup_delete_ne.
  - by rewrite lookup_insert_ne.
Qed.

(** ** The whole datagram *)

Section Datagram.

Context (k : list Z) (F : list IP_Fragment) (m0 : dict).
Context (F_wf : forall f, f ∈ F -> ip_wf f /\ key_of f = k).
Context (F_train : is_train (map fragment_of F)).
Context (m0_fresh : m0 !! k = None).

(** After the fragments [done], the entry of [k] holds them sorted and the
    rest of the map is as before. *)
Definition collecting (m : dict) (v : list Fragment) (seen : list IP_Fragment) : Prop :=
  (v = [] /\ m = m0 \/ m = <[k := v]> m0) /\
  StronglySorted by_offset v /\ v ≡ₚ map fragment_of seen.

Lemma collecting_lookup m v seen : collecting m v seen -> default [] (m !! k) = v.
Proof.
  intros [[[-> ->]| ->] _]; [by rewrite m0_fresh|by rewrite lookup_insert_eq].
Qed.

Lemma collecting_insert m v seen w : collecting m v seen -> <[k := w]> m = <[k := w]> m0.
Proof. intros [[[_ ->]| ->] _]; [done|by rewrite insert_insert_eq]. Qed.

Lemma collecting_delete m v seen : collecting m v seen -> delete k m = m0.
Proof.
  intros [[[_ ->]| ->] _]; [by apply delete_id|by rewrite delete_insert_eq, delete_id].
Qed.

Lemma receive_rest todo : forall m v seen,
  todo <> [] -> seen ++ todo ≡ₚ F -> collecting m v seen ->
  receive_all (map ip_bytes todo) m =
    Ok (m0, [concat (map frag_data (map fragment_of F))]).
Proof.
  induction todo as [|f todo IH]; intros m v seen Hne Hp Hc; [done|]. clear Hne.
  assert (f ∈ F) as Hf by (rewrite <- Hp; apply elem_of_app; right; left).
  destruct (F_wf f Hf) as [Hwf Hkey]. cbn [map receive_all].
  rewrite Receive_eq, Hkey by done.
  rewrite (collecting_lookup _ _ _ Hc), (collecting_insert _ _ _ _ Hc), (collecting_delete _ _ _ Hc).
  destruct Hc as (_ & Hs & Hv). set (w := insert_sorted (fragment_of f) v).
  assert (StronglySorted by_offset w) as Hws by (by apply insert_sorted_sorted).
  assert (w ≡ₚ map fragment_of (seen ++ [f])) as Hw.
  { unfold w. rewrite insert_sorted_perm, Hv, map_app. cbn. by rewrite Permutation_cons_append. }
  assert ((seen ++ [f]) ++ todo ≡ₚ F) as Hp' by (by rewrite <- app_assoc).
  destruct todo as [|g todo].
  - rewrite app_nil_r in Hp'.
    assert (w = map fragment_of F) as ->.
    { apply sorted_train; [done| |done]. by rewrite Hw, Hp'. }
    rewrite train_complete; [done| |done]. intros E. apply map_eq_nil in E. subst F.
    by apply elem_of_nil in Hf.
  - rewrite (partial_incomplete (map fragment_of F)); [|done| |].
    + cbn [rbind]. rewrite (IH (<[k:=w]> m0) w (seen ++ [f])); [done|done|done|].
      split_and!; [by right|done|done].
    + intros x Hx. rewrite Hw in Hx. rewrite <- Hp', map_app. apply elem_of_app. by left.
    + rewrite Hw, <- Hp'. rewrite !length_map, !length_app. cbn. lia.
Qed.

Lemma receive_train pkts :
  F <> [] -> pkts ≡ₚ map ip_bytes F ->
  receive_all pkts m0 = Ok (m0, [concat (map frag_data (map fragment_of F))]).
Proof.
  intros Hne Hp. apply Permutation_map_inv in Hp as (todo & -> & Hp).
  apply (receive_rest todo m0 [] []).
  - intros ->. by apply Permutation_nil_r in Hp.
  - by rewrite Hp.
  - split_and!; [by left|constructor|done].
Qed.

End Datagram.

(** ** The fragments of a datagram *)

Lemma fragments_lookup src dest data ident i f :
  fragments src dest data ident !! i = Some f <->
  Z.of_nat i < num_fragments data /\ f = fragment src dest data ident (Z.of_nat i).
Proof.
  unfold fragments. rewrite list_lookup_fmap, fmap_Some. setoid_rewrite lookup_seqZ. split.
  - intros (j & [-> Hj] & ->). split; [lia|]. f_equal.
  - intros [Hi ->]. exists (Z.of_nat i). split; [lia|done].
Qed.

Lemma length_fragments src dest data ident :
  Z.of_nat (length (fragments src dest data ident)) = Z.max 0 (num_fragments data).
Proof. unfold fragments. rewrite length_map, length_seqZ. lia. Qed.

Lemma fragments_train src dest data ident :
  0 < num_fragments data ->
  is_train (map fragment_of (fragments src dest data ident)).
Proof.
  intros Hn i g Hg. rewrite length_map.
  pose proof (length_fragments src dest data ident) as Hl.
  apply list_lookup_fmap_Some in Hg as (f & -> & Hf).
  apply fragments_lookup in Hf as [Hi ->]. cbn. split; [done|].
  destruct (Z.ltb_spec (Z.of_nat i) (num_fragments data - 1)); case_bool_decide; cbn; lia || done.
Qed.

(** The padded chunks are the datagram followed by zeros. *)
Lemma concat_chunks n : forall data,
  1480 * (Z.of_nat n - 1) < Z.of_nat (length data) <= 1480 * Z.of_nat n ->
  concat (map (fun i => pad (chunk data i)) (seqZ 0 (Z.of_nat n))) =
    data ++ replicate (n * 1480 - length data) 0.
Proof.
  induction n as [|n IH]; intros data Hlen.
  - destruct data; cbn in *; [done|lia].
  - rewrite seqZ_cons by lia. cbn [map concat].
    replace (Z.pred (Z.of_nat (S n))) with (Z.of_nat n) by lia.
    replace (Z.succ 0) with (0 + 1) by lia. rewrite <- (fmap_add_seqZ 1 0).
    rewrite (map_map (Z.add 1) (fun i => pad (chunk data i))).
    destruct n as [|n].
    + cbn. rewrite app_nil_r. unfold chunk, pad. cbn [Z.mul Z.to_nat]. rewrite drop_0, take_ge by lia.
      by replace (1480 + 0 - length data)%nat with (1480 - length data)%nat by lia.
    + assert (length (take 1480 data) = 1480%nat) as Hl by (rewrite length_take; lia).
      assert (pad (chunk data 0) = take 1480 data) as ->.
      { unfold chunk, pad. change (Z.to_nat (0 * 1480)) with 0%nat.
        rewrite drop_0, Hl, Nat.sub_diag. cbn [replicate]. by rewrite app_nil_r. }
      erewrite (map_ext_in _ (fun i => pad (chunk (drop 1480 data) i))).
      * rewrite IH by (rewrite length_drop; lia). rewrite app_assoc, take_drop, length_drop.
        do 2 f_equal. lia.
      * intros i Hi. apply list_elem_of_In, elem_of_seqZ in Hi. unfold chunk.
        rewrite drop_drop. do 3 f_equal. lia.
Qed.

Lemma fragments_data src dest data ident :
  Forall is_u8 data -> 0 < num_fragments data ->
  concat (map frag_data (map fragment_of (fragments src dest data ident))) =
    data ++ replicate (Z.to_nat (num_fragments data) * 1480 - length data) 0.
Proof.
  intros Hu Hn. pose proof (num_fragments_spec data) as Hs.
  rewrite <- concat_chunks by (rewrite Z2Nat.id by lia; lia).
  rewrite Z2Nat.id by lia. unfold fragments. rewrite !map_map. f_equal. apply map_ext.
  intros i. cbn [fragment_of frag_data fragment ip_payload]. rewrite memcpy_full; [done|].
  rewrite length_pad, length_calloc by apply length_chunk. done.
Qed.

(** ** Duplicates *)

(** Two fragments of the same offset at different places. *)
Definition has_duplicate (v : list Fragment) : Prop := ~ NoDup (map frag_offset v).

Lemma duplicate_incomplete v : has_duplicate v -> complete v = false.
Proof.
  intros Hd. destruct (complete v) eqn:C; [|done]. destruct Hd.
  unfold complete in C. apply andb_true_iff in C as [C _].
  pose proof (proj1 (offsets_ok_lookup v 0) C) as Ho.
  apply NoDup_alt. intros i j x Hi Hj.
  apply list_lookup_fmap_Some in Hi as (f & -> & Hf).
  apply list_lookup_fmap_Some in Hj as (g & E & Hg).
  rewrite (Ho _ _ Hf), (Ho _ _ Hg) in E. lia.
Qed.

Lemma has_duplicate_insert f v : has_duplicate v -> has_duplicate (insert_sorted f v).
Proof.
  unfold has_duplicate. rewrite insert_sorted_perm. cbn [map]. rewrite NoDup_cons. tauto.
Qed.

Lemma insert_twice f v : has_duplicate (insert_sorted f (insert_sorted f v)).
Proof.
  unfold has_duplicate. rewrite insert_sorted_perm. cbn [map]. rewrite NoDup_cons.
  intros [Hn _]. apply Hn, list_elem_of_fmap. exists f. split; [done|].
  rewrite insert_sorted_perm. left.
Qed.

(** Once a key holds a duplicate, its fragments are only collected. *)
Lemma duplicate_stuck k fs : forall m v,
  Forall (fun f => ip_wf f /\ key_of f = k) fs -> m !! k = Some v -> has_duplicate v ->
  exists v', receive_all (map ip_bytes fs) m = Ok (<[k := v']> m, []) /\ has_duplicate v'.
Proof.
  induction fs as [|f fs IH]; intros m v Hfs Hv Hd; cbn [map receive_all].
  - exists v. by rewrite insert_id.
  - apply Forall_cons in Hfs as [[Hwf Hk] Hfs].
    rewrite Receive_eq, Hk, Hv by done. cbn [default from_option id].
    pose proof (has_duplicate_insert (fragment_of f) v Hd) as Hd'.
    rewrite duplicate_incomplete by done. cbn [rbind].
    destruct (IH (<[k:=insert_sorted (fragment_of f) v]> m) _ Hfs (lookup_insert_eq _ _ _) Hd')
      as (v' & E & Hv'). rewrite E. cbn [rbind].
    exists v'. by rewrite insert_insert_eq.
Qed.

(** ** Properties *)

(** C7: the fragments of a datagram are reassembled in whatever order they
    arrive: exactly one datagram is passed up, with the last fragment: the
    original bytes followed by the padding of the last fragment; and the map of
    fragments is left as it was. *)
Theorem reassembly_any_order src dest data ident m pkts :
  length src = 4%nat -> Forall is_u8 src -> length dest = 4%nat -> Forall is_u8 dest ->
  Forall is_u8 data -> 0 < num_fragments data <= 45 ->
  m !! computeHash src dest (u16 ident) = None ->
  pkts ≡ₚ map ip_bytes (fragments src dest data ident) ->
  receive_all pkts m =
    Ok (m, [data ++ replicate (Z.to_nat (num_fragments data) * 1480 - length data) 0]).
Proof.
  intros Hs Hsu Hd Hdu Hu Hn Hm Hp. rewrite <- (fragments_data src dest data ident) by (done || lia).
  apply (receive_train (computeHash src dest (u16 ident)) (fragments src dest data ident)).
  - intros f Hf. apply list_elem_of_lookup in Hf as [i Hi].
    apply fragments_lookup in Hi as [Hi ->]. split; [apply fragment_wf; done || lia|done].
  - apply fragments_train. lia.
  - done.
  - intros E. pose proof (length_fragments src dest data ident) as HL.
    rewrite E in HL. cbn in HL. lia.
  - done.
Qed.

(** Two fragments, the second received first. *)
Lemma reassembly_any_order_witness :
  let data := replicate 1500 65 in
  receive_all (reverse (map ip_bytes (fragments (calloc 4) (calloc 4) data 7))) ∅ =
    Ok (∅, [data ++ replicate (Z.to_nat (num_fragments data) * 1480 - length data) 0]).
Proof.
  apply (reassembly_any_order (calloc 4) (calloc 4) (replicate 1500 65) 7).
  - apply length_calloc.
  - apply calloc_u8.
  - apply length_calloc.
  - apply calloc_u8.
  - apply Forall_replicate. zlia.
  - vm_compute. split; [reflexivity|discriminate].
  - apply lookup_empty.
  - apply reverse_Permutation.
Defined.

(** A duplicated fragment blocks its datagram.  [insertToMap] keeps both
    copies and [check] counts positions, so when a fragment that did not
    complete the datagram arrives twice, no later fragment of the same key is
    ever passed up, and the vector stays in the map. *)
Theorem duplicate_fragment_blocks k f fs m m1 :
  ip_wf f -> key_of f = k -> Ip.Receive (ip_bytes f) m = Ok (m1, None) ->
  Forall (fun g => ip_wf g /\ key_of g = k) fs ->
  exists v, receive_all (map ip_bytes (f :: f :: fs)) m = Ok (<[k := v]> m, []) /\
    has_duplicate v.
Proof.
  intros Hwf Hk E1 Hfs. cbn [map receive_all]. rewrite E1. cbn [rbind].
  rewrite Receive_eq, Hk in E1 by done. destruct (complete _); [discriminate|].
  injection E1 as <-. rewrite Receive_eq, Hk, lookup_insert_eq by done. cbn [default from_option id].
  rewrite (duplicate_incomplete _ (insert_twice _ _)). cbn [rbind].
  rewrite insert_insert_eq.
  destruct (duplicate_stuck k fs (<[k:=insert_sorted (fragment_of f)
    (insert_sorted (fragment_of f) (default [] (m !! k)))]> m) _ Hfs (lookup_insert_eq _ _ _)
    (insert_twice _ _)) as (v & E & Hv).
  rewrite E. cbn [rbind]. exists v. by rewrite insert_insert_eq.
Qed.

Lemma duplicate_fragment_blocks_witness :
  let f := fragment (calloc 4) (calloc 4) (replicate 1500 65) 7 0 in
  let g := fragment (calloc 4) (calloc 4) (replicate 1500 65) 7 1 in
  exists v, receive_all (map ip_bytes (f :: f :: [g])) ∅ = Ok (<[key_of f := v]> ∅, []) /\
    has_duplicate v.
Proof.
  assert (forall i, 0 <= i <= 44 ->
    ip_wf (fragment (calloc 4) (calloc 4) (replicate 1500 65) 7 i)) as Hwf.
  { intros i Hi. apply fragment_wf; try apply calloc_u8; try apply length_calloc; [|done].
    apply Forall_replicate. zlia. }
  eapply (duplicate_fragment_blocks _ (fragment (calloc 4) (calloc 4) (replicate 1500 65) 7 0)
    [fragment (calloc 4) (calloc 4) (replicate 1500 65) 7 1] ∅).
  - apply Hwf. lia.
  - reflexivity.
  - rewrite Receive_eq by (apply Hwf; lia). reflexivity.
  - apply Forall_singleton. split; [apply Hwf; lia|reflexivity].
Defined.

End Reassembly.
