(* ===== verification/Sockets.v ===== *)
(** * The transport layer (code/network/post.cc: UDP_Layer) and the socket
    tables of the kernel (code/threads/kernel.cc) *)

From S2P Require Import Prelude Ints CString Ethernet Ip.

Module Udp.

(** The packed struct [UDP_Datagram]. *)
Record UDP_Datagram := mkUDP {
  sourcePort : Z;
  destinationPort : Z;
  udp_length : Z;
  udp_checksum : Z;
  udp_data : list Z     (* 65536 bytes *)
}.

Definition udp_bytes (d : UDP_Datagram) : list Z :=
  le_bytes 2 (sourcePort d) ++ le_bytes 2 (destinationPort d) ++
  le_bytes 2 (udp_length d) ++ le_bytes 2 (udp_checksum d) ++ udp_data d.

(** [UDP_Layer::Send].  [checksum] is the value of the field the code leaves
    uninitialised, [r] the value of [rand()] that the IP layer draws. *)
Definition Send (hostName r checksum : Z) (data : list Z) (size : Z) (destIP : list Z)
    (srcPort destPort : Z) : res (list Ethernet.net_event) :=
  if (size <? 0) || (65536 <? size) then Err OutOfBounds else
  let* d := read_bytes data (Z.to_nat size) in
  let udp := {| sourcePort := u16 srcPort; destinationPort := u16 destPort;
                udp_length := u16 (size + 8); udp_checksum := checksum;
                udp_data := memcpy (calloc (Z.to_nat 65536)) 0 d |} in
  let* buffer := read_bytes (udp_bytes udp) (Z.to_nat (size + 8)) in
  Ip.Send hostName r buffer (size + 8) destIP.

End Udp.

Module Kernel.

Record sock_struct := mkSock {
  ip : list Z;
  srcPort : Z;
  destPort : Z
}.

(** The socket state of the kernel object. *)
Record kernel := mkKernel {
  current_socket : Z;
  connected_sockets : gmap Z sock_struct;
  bind_sockets : gmap Z Z;                 (* port -> socket *)
  datagrams : gmap Z (list (Z * list Z))   (* port -> queue of (size, bytes) *)
}.

Definition Initialize : kernel :=
  {| current_socket := 1; connected_sockets := ∅; bind_sockets := ∅; datagrams := ∅ |}.

Definition get_socket (k : kernel) : Z * kernel :=
  (current_socket k,
   {| current_socket := s32 (current_socket k + 1); connected_sockets := connected_sockets k;
      bind_sockets := bind_sockets k; datagrams := datagrams k |}).

(** The loop of [Kernel::get_ip_strToChar] over the characters: [ip] holds the
    bytes stored so far ([j] of them), [inter] the pending characters. *)
Fixpoint ip_loop (str ip inter : list Z) : res (option (list Z * list Z)) :=
  match str with
  | [] => Ok (Some (ip, inter))
  | c :: str' =>
      if c =? 46 then
        if bool_decide (4 <= length ip)%nat then Ok None else
        let* v := stoi inter in
        ip_loop str' (ip ++ [u8 v]) []
      else ip_loop str' ip (inter ++ [c])
  end.

(** [Kernel::get_ip_strToChar]: the four bytes, [None] for the result -1. *)
Definition get_ip_strToChar (str : list Z) : res (option (list Z)) :=
  let* r := ip_loop str [] [] in
  match r with
  | None => Ok None
  | Some (ip, inter) =>
      if bool_decide (4 <= length ip)%nat then Ok None else
      let* v := stoi inter in
      let ip' := ip ++ [u8 v] in
      Ok (if bool_decide (length ip' = 4%nat) then Some ip' else None)
  end.

Definition insert_connect_socket (sockID : Z) (ip_str : list Z) (srcP destP : Z) (k : kernel)
  : res (Z * kernel) :=
  let* r := get_ip_strToChar ip_str in
  match r with
  | None => Ok (-1, k)
  | Some ip =>
      Ok (1, {| current_socket := current_socket k;
                connected_sockets :=
                  <[sockID := {| ip := ip; srcPort := srcP; destPort := destP |}]>
                    (connected_sockets k);
                bind_sockets := bind_sockets k; datagrams := datagrams k |})
  end.

(** [Kernel::send_message]: the result and what goes out on the wire. *)
Definition send_message (hostName r checksum sockID : Z) (msg : list Z) (k : kernel)
  : res (Z * list Ethernet.net_event) :=
  match connected_sockets k !! sockID with
  | None => Ok (0, [])
  | Some s =>
      let* n := strlen msg in
      let* ev := Udp.Send hostName r checksum msg n (ip s) (srcPort s) (destPort s) in
      Ok (1, ev)
  end.

(** [std::map::operator[]] on [datagrams] after the code has made sure of the
    entry; an absent entry would have no queue. *)
Definition open_queue (port : Z) (q : gmap Z (list (Z * list Z))) : gmap Z (list (Z * list Z)) :=
  match q !! port with
  | Some _ => q
  | None => <[port := []]> q
  end.

Definition insert_bind_socket (sockID port : Z) (k : kernel) : Z * kernel :=
  match bind_sockets k !! port with
  | Some _ => (-1, k)
  | None =>
      (1, {| current_socket := current_socket k; connected_sockets := connected_sockets k;
             bind_sockets := <[port := sockID]> (bind_sockets k);
             datagrams := open_queue port (datagrams k) |})
  end.

(** The iteration order of a [std::map<int, _>]: increasing keys. *)
Definition key_le {A} (a b : Z * A) : Prop := fst a <= fst b.

#[global] Instance key_le_dec {A} : RelDecision (@key_le A).
Proof. intros a b. unfold key_le. apply _. Defined.

Definition map_items {A} (m : gmap Z A) : list (Z * A) := merge_sort key_le (map_to_list m).

(** [for (auto i : bind_sockets) if (i.second == sockID) { port = i.first; break; }] *)
Definition port_of (sockID : Z) (m : gmap Z Z) : Z :=
  match list_find (fun i => snd i = sockID) (map_items m) with
  | Some (_, i) => fst i
  | None => -1
  end.

(** The outcome of a receive: it returns a value and the filled buffer, or the
    thread waits in [RemoveFront] for a message on the port. *)
Inductive recv_result :=
| RecvReturns (ret : Z) (msg : list Z) (k : kernel)
| RecvWaits (port : Z).

(** [Kernel::getData]; [msg] is the caller's buffer. *)
Definition getData (msg : list Z) (size sockID : Z) (k : kernel) : res recv_result :=
  let port := port_of sockID (bind_sockets k) in
  if port =? -1 then Ok (RecvReturns (-1) msg k) else
  match datagrams k !! port with
  | None => Err NullPointer
  | Some [] => Ok (RecvWaits port)
  | Some ((n, bytes) :: rest) =>
      let len := Z.min size n in
      if (len <? 0) || (Z.of_nat (length msg) <? len) then Err OutOfBounds else
      let* b := read_bytes bytes (Z.to_nat len) in
      Ok (RecvReturns 1 (memcpy msg 0 b)
        {| current_socket := current_socket k; connected_sockets := connected_sockets k;
           bind_sockets := bind_sockets k; datagrams := <[port := rest]> (datagrams k) |})
  end.

(** [Kernel::putData] *)
Definition putData (data : list Z) (size port : Z) (k : kernel) : kernel :=
  {| current_socket := current_socket k; connected_sockets := connected_sockets k;
     bind_sockets := bind_sockets k;
     datagrams := alter (fun q => q ++ [(size, data)]) port (open_queue port (datagrams k)) |}.

(** [Kernel::deleteSocket] *)
Definition deleteSocket (sockID : Z) (k : kernel) : kernel :=
  let port := port_of sockID (bind_sockets k) in
  {| current_socket := current_socket k;
     connected_sockets := delete sockID (connected_sockets k);
     bind_sockets := if port =? -1 then bind_sockets k else delete port (bind_sockets k);
     datagrams := datagrams k |}.

(** [UDP_Layer::Receive] *)
Definition Udp_Receive (data : list Z) (k : kernel) : res kernel :=
  if bool_decide (length data < 8)%nat then Err OutOfBounds else
  Ok (putData (drop 8 data) (le_value (slice 4 2 data) - 8) (le_value (slice 2 2 data)) k).

(** ** Iteration in key order *)

#[global] Instance key_le_total {A} : Total (@key_le A).
Proof. intros a b. unfold key_le. lia. Qed.

#[global] Instance key_le_trans {A} : Transitive (@key_le A).
Proof. intros a b c. unfold key_le. lia. Qed.

Lemma elem_of_map_items {A} (m : gmap Z A) p x : (p, x) ∈ map_items m <-> m !! p = Some x.
Proof. unfold map_items. rewrite merge_sort_Permutation. apply elem_of_map_to_list. Qed.

(** [port_of] is the least port bound to the socket. *)
Lemma port_of_bound s (m : gmap Z Z) q :
  m !! q = Some s -> m !! port_of s m = Some s /\ port_of s m <= q.
Proof.
  intros Hq. unfold port_of.
  pose proof (StronglySorted_merge_sort key_le (map_to_list m)) as Hs. fold (map_items m) in Hs.
  destruct (list_find _ _) as [[i [p s']]|] eqn:E.
  - apply list_find_Some in E as (Hi & Hps & Hlt). cbn in *. subst s'.
    split; [apply elem_of_map_items; by eapply list_elem_of_lookup_2|].
    apply elem_of_map_items, list_elem_of_lookup in Hq as [j Hj].
    destruct (Nat.lt_trichotomy j i) as [Hji|[->|Hji]].
    + by destruct (Hlt j (q, s) Hj Hji).
    + rewrite Hi in Hj. injection Hj as ->. lia.
    + exact (StronglySorted_lookup_lt key_le _ i j (p, s) (q, s) Hs Hi Hj Hji).
  - apply list_find_None in E. apply elem_of_map_items in Hq.
    rewrite Forall_forall in E. by destruct (E _ Hq).
Qed.

Lemma port_of_unbound s (m : gmap Z Z) : (forall q, m !! q <> Some s) -> port_of s m = -1.
Proof.
  intros Hn. unfold port_of. destruct (list_find _ _) as [[i [p s']]|] eqn:E; [|done].
  apply list_find_Some in E as (Hi & Hps & _). cbn in *. subst s'.
  apply list_elem_of_lookup_2, elem_of_map_items in Hi. by destruct (Hn p).
Qed.

(** ** Dotted notation *)

Definition print_ip (a b c d : Z) : list Z :=
  to_string a ++ [46] ++ to_string b ++ [46] ++ to_string c ++ [46] ++ to_string d.

Lemma ip_loop_segment seg rest ip inter :
  Forall (fun c => 48 <= c <= 57) seg -> ip_loop (seg ++ rest) ip inter = ip_loop rest ip (inter ++ seg).
Proof.
  intros H. revert inter. induction H as [|c seg Hc _ IH]; intros inter.
  - by rewrite app_nil_r.
  - cbn [app ip_loop]. rewrite (proj2 (Z.eqb_neq c 46)) by lia.
    rewrite IH, <- app_assoc. done.
Qed.

Lemma to_string_digits n : 0 <= n -> Forall (fun c => 48 <= c <= 57) (to_string n).
Proof. intros H. rewrite to_string_nonneg by done. apply digits_digits. Qed.

Lemma stoi_octet n : is_u8 n -> stoi (to_string n) = Ok n.
Proof.
  intros H. rewrite <- (app_nil_r (to_string n)). apply stoi_to_string; [zlia|done].
Qed.

(** A byte and the dot after it. *)
Lemma ip_loop_octet n rest ip :
  is_u8 n -> (length ip < 4)%nat ->
  ip_loop (to_string n ++ [46] ++ rest) ip [] = ip_loop rest (ip ++ [n]) [].
Proof.
  intros Hn Hl. rewrite ip_loop_segment by (apply to_string_digits; zlia).
  cbn [app ip_loop]. rewrite Z.eqb_refl, bool_decide_false by lia.
  rewrite stoi_octet by done. cbn [rbind]. by rewrite u8_id.
Qed.

(** ** Well-formed socket tables *)

(** Every bound port has a queue, so that a receive never follows a null
    pointer. *)
Definition kernel_wf (k : kernel) : Prop :=
  forall p s, bind_sockets k !! p = Some s -> is_Some (datagrams k !! p).

Lemma open_queue_lookup port q : is_Some (open_queue port q !! port).
Proof. unfold open_queue. destruct (q !! port) eqn:E; [by rewrite E|by rewrite lookup_insert_eq]. Qed.

Lemma open_queue_mono port q p : is_Some (q !! p) -> is_Some (open_queue port q !! p).
Proof.
  intros H. unfold open_queue. destruct (q !! port); [done|].
  destruct (decide (port = p)) as [->|]; [by rewrite lookup_insert_eq|by rewrite lookup_insert_ne].
Qed.

Lemma alter_mono {A} (f : A -> A) (q : gmap Z A) port p : is_Some (q !! p) -> is_Some (alter f port q !! p).
Proof.
  intros [x Hx]. destruct (decide (port = p)) as [->|].
  - rewrite lookup_alter_eq, Hx. by eexists.
  - rewrite lookup_alter_ne, Hx by done. by eexists.
Qed.

Lemma Initialize_wf : kernel_wf Initialize.
Proof. intros p s H. cbn in H. by rewrite lookup_empty in H. Qed.

Lemma insert_bind_socket_wf s p k : kernel_wf k -> kernel_wf (snd (insert_bind_socket s p k)).
Proof.
  intros H. unfold insert_bind_socket. destruct (bind_sockets k !! p); [done|].
  intros q t Hq. cbn in *. destruct (decide (p = q)) as [->|].
  - apply open_queue_lookup.
  - rewrite lookup_insert_ne in Hq by done. apply open_queue_mono. by apply (H q t).
Qed.

Lemma putData_wf data n p k : kernel_wf k -> kernel_wf (putData data n p k).
Proof. intros H q t Hq. cbn in *. apply alter_mono, open_queue_mono. by apply (H q t). Qed.

Lemma getData_wf msg n s k r m k' :
  kernel_wf k -> getData msg n s k = Ok (RecvReturns r m k') -> kernel_wf k'.
Proof.
  intros H. unfold getData. case_match; [intros; by res_inv|].
  destruct (datagrams k !! _) as [[|[sz bs] rest]|] eqn:E; [done| |done].
  case_match; [done|]. intros E2. apply bind_Ok_inv in E2 as (b & _ & E2).
  injection E2 as <- <- <-. intros q t Hq. cbn in *.
  destruct (decide (port_of s (bind_sockets k) = q)) as [<-|].
  - rewrite lookup_insert_eq. by eexists.
  - rewrite lookup_insert_ne by done. by apply (H q t).
Qed.

Lemma deleteSocket_wf s k : kernel_wf k -> kernel_wf (deleteSocket s k).
Proof.
  intros H q t. cbn. case_match; [by apply H|]. intros Hq.
  apply lookup_delete_Some in Hq as [_ Hq]. by apply (H q t).
Qed.

(** ** Delivery to a port *)

Lemma putData_queue data n p k q :
  datagrams k !! p = Some q -> datagrams (putData data n p k) !! p = Some (q ++ [(n, data)]).
Proof.
  intros Hq. cbn. unfold open_queue. rewrite Hq, lookup_alter_eq, Hq. done.
Qed.

(** The oldest message of the port the socket is bound to. *)
Lemma getData_front msg size s k p n bytes rest :
  port_of s (bind_sockets k) = p -> p <> -1 ->
  datagrams k !! p = Some ((n, bytes) :: rest) ->
  0 <= Z.min size n -> Z.min size n <= Z.of_nat (length msg) ->
  Z.min size n <= Z.of_nat (length bytes) ->
  exists k',
    getData msg size s k =
      Ok (RecvReturns 1 (memcpy msg 0 (take (Z.to_nat (Z.min size n)) bytes)) k') /\
    datagrams k' = <[p := rest]> (datagrams k) /\ bind_sockets k' = bind_sockets k.
Proof.
  intros Hp Hne Hq H0 H1 H2. unfold getData. rewrite Hp, (proj2 (Z.eqb_neq p (-1))) by done.
  rewrite Hq, (proj2 (Z.ltb_ge _ 0)), (proj2 (Z.ltb_ge _ (Z.min size n))) by lia. cbn [orb].
  rewrite read_bytes_Ok by lia. cbn [rbind]. eexists. split_and!; done.
Qed.

(** ** Sequences of operations *)

(** One operation on the socket tables: the system calls and the arrival of a
    datagram. *)
Inductive kernel_step : kernel -> kernel -> Prop :=
| step_socket k : kernel_step k (snd (get_socket k))
| step_connect s ip sp dp k r k' :
    insert_connect_socket s ip sp dp k = Ok (r, k') -> kernel_step k k'
| step_bind s p k : kernel_step k (snd (insert_bind_socket s p k))
| step_put data n p k : kernel_step k (putData data n p k)
| step_udp data k k' : Udp_Receive data k = Ok k' -> kernel_step k k'
| step_get msg n s k r m k' :
    getData msg n s k = Ok (RecvReturns r m k') -> kernel_step k k'
| step_delete s k : kernel_step k (deleteSocket s k).

Definition reachable (k : kernel) : Prop := rtc kernel_step Initialize k.

Lemma kernel_step_wf k k' : kernel_step k k' -> kernel_wf k -> kernel_wf k'.
Proof.
  destruct 1 as [|s ip sp dp k r k' E| | |data k k' E| |]; intros Hwf.
  - exact Hwf.
  - unfold insert_connect_socket in E. apply bind_Ok_inv in E as ([ip'|] & _ & E);
      injection E as _ <-; exact Hwf.
  - by apply insert_bind_socket_wf.
  - by apply putData_wf.
  - unfold Udp_Receive in E. case_match; res_inv. by apply putData_wf.
  - by eapply getData_wf.
  - by apply deleteSocket_wf.
Qed.

Lemma reachable_wf k : reachable k -> kernel_wf k.
Proof.
  apply (rtc_preserve kernel_wf); [apply kernel_step_wf|apply Initialize_wf].
Qed.

(** The port a socket is bound to is -1, or carries the socket. *)
Lemma port_of_cases s (m : gmap Z Z) : port_of s m = -1 \/ m !! port_of s m = Some s.
Proof.
  unfold port_of. destruct (list_find _ _) as [[i [p t]]|] eqn:E; [right|by left].
  apply list_find_Some in E as (Hi & Ht & _). cbn in *. subst t.
  apply elem_of_map_items. by eapply list_elem_of_lookup_2.
Qed.

Lemma port_of_only s (m : gmap Z Z) p :
  m !! p = Some s -> (forall q, m !! q = Some s -> q = p) -> port_of s m = p.
Proof. intros Hp Hu. apply Hu. by apply (port_of_bound s m p). Qed.

(** Datagrams arriving on a port, and a socket receiving [n] of them into a
    buffer that is large enough. *)
Definition put_all (p : Z) (msgs : list (list Z)) (k : kernel) : kernel :=
  foldl (fun k m => putData m (Z.of_nat (length m)) p k) k msgs.

Definition next_size (s : Z) (k : kernel) : Z :=
  match datagrams k !! port_of s (bind_sockets k) with
  | Some ((n, _) :: _) => n
  | _ => 0
  end.

Fixpoint get_all (n : nat) (s : Z) (k : kernel) : res (list (list Z) * kernel) :=
  match n with
  | O => Ok ([], k)
  | S n' =>
      let size := next_size s k in
      let* r := getData (calloc (Z.to_nat size)) size s k in
      match r with
      | RecvWaits _ => Err NullPointer
      | RecvReturns _ msg k' =>
          let* (ms, k'') := get_all n' s k' in
          Ok (msg :: ms, k'')
      end
  end.

Lemma put_all_queue p msgs : forall k q,
  datagrams k !! p = Some q ->
  bind_sockets (put_all p msgs k) = bind_sockets k /\
  datagrams (put_all p msgs k) !! p =
    Some (q ++ map (fun m => (Z.of_nat (length m), m)) msgs).
Proof.
  induction msgs as [|m msgs IH]; intros k q Hq; cbn [put_all foldl map].
  - by rewrite app_nil_r.
  - destruct (IH (putData m (Z.of_nat (length m)) p k) _ (putData_queue _ _ _ _ _ Hq)) as [Hb Hd].
    split; [exact Hb|]. unfold put_all in Hd. rewrite Hd, <- app_assoc. done.
Qed.

Lemma get_all_queue s p msgs : forall k,
  port_of s (bind_sockets k) = p -> p <> -1 ->
  datagrams k !! p = Some (map (fun m => (Z.of_nat (length m), m)) msgs) ->
  exists k', get_all (length msgs) s k = Ok (msgs, k') /\ datagrams k' !! p = Some [].
Proof.
  induction msgs as [|m msgs IH]; intros k Hp Hne Hq; cbn [length get_all]; [eauto|].
  assert (next_size s k = Z.of_nat (length m)) as -> by (unfold next_size; by rewrite Hp, Hq).
  rewrite Nat2Z.id.
  destruct (getData_front (calloc (length m)) (Z.of_nat (length m)) s k p _ _ _ Hp Hne Hq)
    as (k1 & E & Hd & Hb); rewrite ?Z.min_id, ?length_calloc; try lia.
  rewrite E, Z.min_id, Nat2Z.id, take_ge by done. cbn [rbind].
  rewrite memcpy_full by apply length_calloc.
  destruct (IH k1) as (k' & E' & H'); [by rewrite Hb|done|by rewrite Hd, lookup_insert_eq|].
  rewrite E'. cbn [rbind]. eauto.
Qed.

(** ** Properties *)

(** Every dotted address is parsed back to its four bytes. *)
Theorem ip_string_roundtrip a b c d :
  is_u8 a -> is_u8 b -> is_u8 c -> is_u8 d ->
  get_ip_strToChar (print_ip a b c d) = Ok (Some [a; b; c; d]).
Proof.
  intros Ha Hb Hc Hd. unfold get_ip_strToChar, print_ip.
  rewrite !ip_loop_octet by (done || cbn; lia). cbn [app].
  rewrite <- (app_nil_r (to_string d)), ip_loop_segment by (apply to_string_digits; zlia).
  cbn [ip_loop rbind app length]. rewrite bool_decide_false by lia.
  rewrite stoi_octet by done. cbn [rbind]. by rewrite u8_id.
Qed.

Lemma ip_string_roundtrip_witness :
  get_ip_strToChar (print_ip 174 50 24 217) = Ok (Some [174; 50; 24; 217]).
Proof. apply (ip_string_roundtrip 174 50 24 217); zlia. Defined.

(** C21: in every reachable state each bound port has a queue, so a receive
    never dereferences a null pointer: it returns -1 exactly when the socket is
    unbound (or bound to port -1), and otherwise takes the oldest datagram of
    the socket's lowest port or waits for one. *)
Theorem reachable_receive_safe k msg size s :
  reachable k -> 0 <= size <= Z.of_nat (length msg) ->
  (port_of s (bind_sockets k) = -1 /\ getData msg size s k = Ok (RecvReturns (-1) msg k)) \/
  exists p q, port_of s (bind_sockets k) = p /\ bind_sockets k !! p = Some s /\
    datagrams k !! p = Some q /\
    match q with
    | [] => getData msg size s k = Ok (RecvWaits p)
    | (n, bytes) :: rest =>
        0 <= n <= Z.of_nat (length bytes) ->
        exists k', getData msg size s k =
            Ok (RecvReturns 1 (memcpy msg 0 (take (Z.to_nat (Z.min size n)) bytes)) k') /\
          datagrams k' = <[p := rest]> (datagrams k) /\ bind_sockets k' = bind_sockets k
    end.
Proof.
  intros Hr Hs. destruct (decide (port_of s (bind_sockets k) = -1)) as [E|E].
  - left. split; [done|]. unfold getData. by rewrite E.
  - right. destruct (port_of_cases s (bind_sockets k)) as [?|Hp]; [done|].
    destruct (reachable_wf k Hr _ _ Hp) as [q Hq].
    exists (port_of s (bind_sockets k)), q. split_and!; try done.
    destruct q as [|[n bytes] rest].
    + unfold getData. by rewrite (proj2 (Z.eqb_neq _ _) E), Hq.
    + intros Hn. apply (getData_front msg size s k); done || lia.
Qed.

Lemma reachable_receive_safe_witness :
  getData [0; 0] 2 1 (putData [65; 66; 67] 3 9 (snd (insert_bind_socket 1 9 Initialize))) =
    Ok (RecvReturns 1 [65; 66] (snd (insert_bind_socket 1 9 Initialize))).
Proof.
  destruct (reachable_receive_safe
    (putData [65; 66; 67] 3 9 (snd (insert_bind_socket 1 9 Initialize))) [0; 0] 2 1)
    as [[E _]|(p & q & Ep & _ & Eq & H)].
  - eapply rtc_l; [apply (step_bind 1 9)|]. eapply rtc_once, step_put.
  - cbn. lia.
  - exfalso. vm_compute in E. discriminate E.
  - assert (p = 9) as -> by (rewrite <- Ep; vm_compute; reflexivity).
    clear Ep. vm_compute in Eq. injection Eq as <-. vm_compute. reflexivity.
Defined.

(** A port belongs to at most one socket.  Binding a free port returns 1,
    gives the port to the socket and changes no other binding; binding a bound
    port returns -1 and changes nothing. *)
Theorem bind_exclusive s p k :
  (bind_sockets k !! p = None /\ exists k', insert_bind_socket s p k = (1, k') /\
     bind_sockets k' !! p = Some s /\
     (forall q, q <> p -> bind_sockets k' !! q = bind_sockets k !! q) /\
     (forall q, is_Some (datagrams k !! q) -> datagrams k' !! q = datagrams k !! q)) \/
  (is_Some (bind_sockets k !! p) /\ insert_bind_socket s p k = (-1, k)).
Proof.
  unfold insert_bind_socket. destruct (bind_sockets k !! p) as [t|] eqn:E; [right; eauto|left].
  split; [done|]. eexists. split; [done|]. cbn. rewrite lookup_insert_eq.
  split_and!; [done| |].
  - intros q Hq. by rewrite lookup_insert_ne.
  - intros q Hq. unfold open_queue. destruct (datagrams k !! p) eqn:Ep; [done|].
    rewrite lookup_insert_ne; [done|]. intros ->. rewrite Ep in Hq. by destruct Hq.
Qed.

(** Datagrams are received in the order of their arrival: after any number
    of arrivals on the port of a socket, as many receives return exactly these
    datagrams, oldest first, and leave the queue empty. *)
Theorem receive_fifo s p msgs k :
  port_of s (bind_sockets k) = p -> p <> -1 -> datagrams k !! p = Some [] ->
  exists k', get_all (length msgs) s (put_all p msgs k) = Ok (msgs, k') /\
    datagrams k' !! p = Some [].
Proof.
  intros Hp Hne Hq. destruct (put_all_queue p msgs k [] Hq) as [Hb Hd].
  apply (get_all_queue s p); [by rewrite Hb|done|done].
Qed.

Lemma receive_fifo_witness :
  exists k', get_all 2 1 (put_all 9 [[65]; [66; 67]] (snd (insert_bind_socket 1 9 Initialize))) =
    Ok ([[65]; [66; 67]], k') /\ datagrams k' !! 9 = Some [].
Proof.
  apply (receive_fifo 1 9 [[65]; [66; 67]] (snd (insert_bind_socket 1 9 Initialize))).
  - vm_compute. reflexivity.
  - discriminate.
  - vm_compute. reflexivity.
Defined.

(** Closing a socket forgets its connection and the lowest port bound to
    it, but no other port of the socket, and none of the queued datagrams: the
    next socket bound to the freed port receives what was sent to the closed
    one. *)
Theorem delete_keeps_datagrams s s' p k n bytes rest msg :
  port_of s (bind_sockets k) = p -> p <> -1 -> s' <> s ->
  (forall t, bind_sockets k !! t <> Some s') ->
  datagrams k !! p = Some ((n, bytes) :: rest) ->
  0 <= n <= Z.of_nat (length bytes) -> n <= Z.of_nat (length msg) ->
  connected_sockets (deleteSocket s k) !! s = None /\
  (forall q, q <> p -> bind_sockets (deleteSocket s k) !! q = bind_sockets k !! q) /\
  exists k1 k2, insert_bind_socket s' p (deleteSocket s k) = (1, k1) /\
    getData msg n s' k1 = Ok (RecvReturns 1 (memcpy msg 0 (take (Z.to_nat n) bytes)) k2).
Proof.
  intros Hp Hne Hs Hfree Hq Hn Hm.
  unfold deleteSocket. rewrite Hp, (proj2 (Z.eqb_neq p (-1))) by done.
  cbn [connected_sockets bind_sockets]. split; [apply lookup_delete_eq|].
  split; [intros; by rewrite lookup_delete_ne|].
  unfold insert_bind_socket. cbn [bind_sockets datagrams]. rewrite lookup_delete_eq.
  set (k1 := mkKernel _ _ _ _).
  assert (port_of s' (bind_sockets k1) = p) as Hp'.
  { apply port_of_only; cbn.
    - by rewrite lookup_insert_eq.
    - intros t Ht. destruct (decide (t = p)) as [->|]; [done|].
      rewrite lookup_insert_ne, lookup_delete_ne in Ht by done. by destruct (Hfree t). }
  destruct (getData_front msg n s' k1 p n bytes rest) as (k2 & E & _ & _); try done; try lia.
  - cbn. unfold open_queue. by rewrite Hq.
  - exists k1, k2. split; [done|]. rewrite E. by rewrite Z.min_id.
Qed.

Lemma delete_keeps_datagrams_witness :
  let k := putData [65] 1 9 (snd (insert_bind_socket 1 9 Initialize)) in
  exists k1 k2, insert_bind_socket 2 9 (deleteSocket 1 k) = (1, k1) /\
    getData [0] 1 2 k1 = Ok (RecvReturns 1 (memcpy [0] 0 (take (Z.to_nat 1) [65])) k2).
Proof.
  apply (delete_keeps_datagrams 1 2 9 (putData [65] 1 9 (snd (insert_bind_socket 1 9 Initialize)))
    1 [65] [] [0]).
  - vm_compute. reflexivity.
  - discriminate.
  - discriminate.
  - intros t Ht. change (<[9 := 1]> (∅ : gmap Z Z) !! t = Some 2) in Ht.
    apply lookup_insert_Some in Ht as [[_ E]|[_ E]]; [discriminate E|].
    by rewrite lookup_empty in E.
  - vm_compute. reflexivity.
  - cbn. lia.
  - cbn. lia.
Defined.

End Kernel.
