(* ===== verification/Switch.v ===== *)
(** * The learning switch (Switch/switch.cpp, Switch/ethernet.h) *)

From S2P Require Import Prelude Ints CString.

Module Switch.

(** The fields of the struct [Ethernet] of Switch/ethernet.h that forwarding
    reads: [preamble] takes bytes 0-6, [SFD] byte 7. *)
Definition destMAC (buffer : list Z) : list Z := slice 8 6 buffer.
Definition srcMAC (buffer : list Z) : list Z := slice 14 6 buffer.

(** [getString(eth, b)]: the bytes in decimal, separated by dashes. *)
Definition mac_string (mac : list Z) : res (list Z) :=
  let* s := for_range 5 0
    (fun i s => let* b := arr_get mac i in Ok (s ++ (to_string b ++ [45]))) [] in
  let* b := arr_get mac 5 in
  Ok (s ++ to_string b).

Definition getString (buffer : list Z) (b : bool) : res (list Z) :=
  mac_string (if b then destMAC buffer else srcMAC buffer).

(** "255-255-255-255-255-255" *)
Definition broadcast : list Z :=
  [50; 53; 53; 45; 50; 53; 53; 45; 50; 53; 53; 45; 50; 53; 53; 45; 50; 53; 53; 45; 50; 53; 53].

(** A datagram sent to the socket of machine [port]. *)
Definition transmission : Type := Z * list Z.

(** [for (j = 0; j < 4; j++) if (j != i) send(machine_ports[j], buffer, 1526, 0)] *)
Definition flood (i : Z) (buffer : list Z) : list transmission :=
  map (fun j => (j, buffer)) (filter (fun j => j <> i) (seqZ 0 4)).

(** The body of the port loop of [main] for a frame received on port [i]:
    learn the sender's port, then forward. *)
Definition handle (i : Z) (frame : list Z) (switchMap : gmap (list Z) Z)
  : res (gmap (list Z) Z * list transmission) :=
  let* buffer := read_bytes frame 1526 in
  let* src := getString buffer false in
  let switchMap := <[src := i]> switchMap in
  let* dest := getString buffer true in
  if bool_decide (dest = broadcast) then Ok (switchMap, flood i buffer)
  else
    match switchMap !! dest with
    | Some p => Ok (switchMap, [(p, buffer)])
    | None => Ok (switchMap, flood i buffer)
    end.

(** One turn of the [while] loop of [main]: the ports that [select] reports
    ready are served in order; [ready i] is the datagram waiting on port [i]. *)
Definition main_turn (ready : Z -> option (list Z)) (switchMap : gmap (list Z) Z)
  : res (gmap (list Z) Z * list transmission) :=
  for_range 4 0
    (fun i st =>
       match ready i with
       | None => Ok st
       | Some frame =>
           let* (m, out) := handle i frame (fst st) in
           Ok (m, snd st ++ out)
       end)
    (switchMap, []).

(** ** Keys *)

Lemma split_at_dash p q x y :
  Forall (fun c => 48 <= c <= 57) p -> Forall (fun c => 48 <= c <= 57) q ->
  p ++ 45 :: x = q ++ 45 :: y -> p = q /\ x = y.
Proof.
  intros Hp. revert q. induction Hp as [|a p Ha Hp IH]; intros [|b q] Hq E; cbn in *.
  - split; congruence.
  - apply Forall_cons in Hq as [Hb _]. injection E as <- _. lia.
  - injection E as -> _. lia.
  - apply Forall_cons in Hq as [Hb Hq]. injection E as -> E.
    destruct (IH q Hq E) as [-> ->]. done.
Qed.

(** The string of a six-byte address, in closed form. *)
Definition mac_text (mac : list Z) : list Z :=
  match mac with
  | [a; b; c; d; e; f] =>
      to_string a ++ 45 :: to_string b ++ 45 :: to_string c ++ 45 ::
      to_string d ++ 45 :: to_string e ++ 45 :: to_string f
  | _ => []
  end.

Lemma mac_string_text mac : length mac = 6%nat -> mac_string mac = Ok (mac_text mac).
Proof.
  intros H. do 6 (destruct mac as [|? mac]; [discriminate H|]). destruct mac; [|discriminate H].
  lazy -[to_string app]. f_equal. by rewrite <- !app_assoc.
Qed.

Lemma mac_text_inj m n :
  length m = 6%nat -> Forall is_u8 m -> length n = 6%nat -> Forall is_u8 n ->
  mac_text m = mac_text n -> m = n.
Proof.
  intros Hm Hum Hn Hun E.
  do 6 (destruct m as [|? m]; [discriminate Hm|]). destruct m; [|discriminate Hm].
  do 6 (destruct n as [|? n]; [discriminate Hn|]). destruct n; [|discriminate Hn].
  rewrite !Forall_cons in Hum, Hun. destruct_and!. cbn [mac_text] in E.
  assert (forall b, is_u8 b -> Forall (fun c => 48 <= c <= 57) (to_string b)) as Hd.
  { intros b Hb. rewrite to_string_nonneg by (unfold is_u8 in Hb; lia). apply digits_digits. }
  assert (forall a b, is_u8 a -> is_u8 b -> to_string a = to_string b -> a = b) as Hi.
  { intros a b Ha Hb. unfold is_u8 in *. apply to_string_inj; lia. }
  do 5 (apply split_at_dash in E as [E1 E]; [|by apply Hd|by apply Hd]; apply Hi in E1; [|done|done]; subst).
  apply Hi in E; [|done|done]. by subst.
Qed.

Definition broadcast_mac : list Z := [255; 255; 255; 255; 255; 255].

Lemma broadcast_text : broadcast = mac_text broadcast_mac.
Proof. reflexivity. Qed.

(** ** The abstract switch: a table from addresses to ports *)

Definition abs_handle (i : Z) (frame : list Z) (table : gmap (list Z) Z)
  : gmap (list Z) Z * list transmission :=
  let table := <[srcMAC frame := i]> table in
  (table,
   if bool_decide (destMAC frame = broadcast_mac) then flood i frame
   else match table !! destMAC frame with
        | Some p => [(p, frame)]
        | None => flood i frame
        end).

Fixpoint abs_run (arrivals : list (Z * list Z)) (table : gmap (list Z) Z)
  : gmap (list Z) Z * list transmission :=
  match arrivals with
  | [] => (table, [])
  | (i, f) :: arrivals' =>
      let (t1, out1) := abs_handle i f table in
      let (t2, out2) := abs_run arrivals' t1 in
      (t2, out1 ++ out2)
  end.

Definition is_mac (m : list Z) : Prop := length m = 6%nat /\ Forall is_u8 m.

(** The concrete table holds, under the text of each address, what the
    abstract table holds under the address. *)
Definition tables_agree (c a : gmap (list Z) Z) : Prop :=
  forall mac, is_mac mac -> c !! mac_text mac = a !! mac.

Definition is_frame (frame : list Z) : Prop := length frame = 1526%nat /\ Forall is_u8 frame.

Lemma replicate_frame b : is_u8 b -> is_frame (replicate 1526 b).
Proof. intros Hb. split; [apply length_replicate|by apply Forall_replicate]. Qed.

Lemma frame_macs frame : is_frame frame -> is_mac (destMAC frame) /\ is_mac (srcMAC frame).
Proof.
  intros [Hl Hu]. unfold is_mac, destMAC, srcMAC.
  rewrite !length_slice by lia. auto using slice_u8.
Qed.

Lemma handle_eq i frame m :
  is_frame frame ->
  handle i frame m =
    Ok (let m' := <[mac_text (srcMAC frame) := i]> m in
        (m', if bool_decide (mac_text (destMAC frame) = broadcast) then flood i frame
             else match m' !! mac_text (destMAC frame) with
                  | Some p => [(p, frame)]
                  | None => flood i frame
                  end)).
Proof.
  intros Hf. destruct (frame_macs _ Hf) as [[Hd _] [Hs _]]. unfold handle, getString.
  rewrite read_bytes_exact by apply Hf. cbn [rbind].
  rewrite !mac_string_text by done. cbn [rbind].
  case_bool_decide; [done|]. by destruct (_ !! _).
Qed.

Lemma dest_broadcast frame : is_frame frame ->
  bool_decide (mac_text (destMAC frame) = broadcast) = bool_decide (destMAC frame = broadcast_mac).
Proof.
  intros Hf. destruct (frame_macs _ Hf) as [[Hdl Hdu] _]. rewrite broadcast_text.
  apply bool_decide_ext. split; [|by intros ->].
  apply mac_text_inj; [done|done|done|repeat constructor; zlia].
Qed.

Lemma handle_simulates i frame c a :
  is_frame frame -> tables_agree c a ->
  exists c', handle i frame c = Ok (c', snd (abs_handle i frame a)) /\
             tables_agree c' (fst (abs_handle i frame a)).
Proof.
  intros Hf Hag. destruct (frame_macs _ Hf) as [[Hdl Hdu] [Hsl Hsu]].
  rewrite handle_eq by done. eexists. cbn [abs_handle fst snd].
  assert (tables_agree (<[mac_text (srcMAC frame):=i]> c) (<[srcMAC frame:=i]> a)) as Hag'.
  { intros mac [Hl Hu]. destruct (decide (srcMAC frame = mac)) as [->|Hne].
    - by rewrite !lookup_insert_eq.
    - rewrite !lookup_insert_ne; [by apply Hag|done|].
      intros E. by apply Hne, mac_text_inj. }
  split; [|done]. do 2 f_equal. rewrite (Hag' (destMAC frame)) by done.
  by rewrite dest_broadcast.
Qed.

(** ** Where frames go *)

Lemma elem_of_flood i frame j f : (j, f) ∈ flood i frame <-> f = frame /\ 0 <= j < 4 /\ j <> i.
Proof.
  unfold flood. rewrite list_elem_of_fmap. setoid_rewrite list_elem_of_filter. setoid_rewrite elem_of_seqZ.
  split; [intros (x & [= -> ->] & ? & ?); lia || auto with lia|].
  intros (-> & ? & ?). exists j. split; [done|lia].
Qed.

Lemma NoDup_flood i frame : NoDup (flood i frame).
Proof.
  unfold flood. apply NoDup_fmap_2; [by intros ? ? [=]|]. apply NoDup_filter, NoDup_seqZ.
Qed.

(** ** Histories *)

(** Frames handled one after the other, each with the port it came in on. *)
Fixpoint run (arrivals : list (Z * list Z)) (m : gmap (list Z) Z)
  : res (gmap (list Z) Z * list transmission) :=
  match arrivals with
  | [] => Ok (m, [])
  | (i, f) :: arrivals' =>
      let* (m1, out1) := handle i f m in
      let* (m2, out2) := run arrivals' m1 in
      Ok (m2, out1 ++ out2)
  end.

(** The port of the last frame with the given source address. *)
Definition last_port (mac : list Z) (history : list (Z * list Z)) : option Z :=
  foldl (fun o a => if bool_decide (srcMAC (snd a) = mac) then Some (fst a) else o) None history.

Lemma run_app a b : forall m,
  run (a ++ b) m =
    (let* (m1, out1) := run a m in let* (m2, out2) := run b m1 in Ok (m2, out1 ++ out2)).
Proof.
  induction a as [|[i f] a IH]; intros m; cbn [app run].
  - cbn [rbind]. by destruct (run b m) as [[m2 out2]|].
  - destruct (handle i f m) as [[m1 o1]|]; [|done]. cbn [rbind]. rewrite IH.
    destruct (run a m1) as [[m2 o2]|]; [|done]. cbn [rbind].
    destruct (run b m2) as [[m3 o3]|]; [|done]. cbn [rbind]. by rewrite app_assoc.
Qed.

(** A turn of the main loop serves the ready ports in increasing order. *)
Lemma main_turn_run ready m :
  main_turn ready m = run (omap (fun i => pair i <$> ready i) (seqZ 0 4)) m.
Proof.
  assert (forall n lo m out,
    for_range n lo (fun i st =>
       match ready i with
       | None => Ok st
       | Some frame => let* (m, out) := handle i frame (fst st) in Ok (m, snd st ++ out)
       end) (m, out) =
    (let* (m', out') := run (omap (fun i => pair i <$> ready i) (seqZ lo (Z.of_nat n))) m in
     Ok (m', out ++ out'))) as H.
  { clear m. induction n as [|n IH]; intros lo m out; cbn [for_range].
    - rewrite seqZ_nil by lia. cbn [omap list_omap run rbind]. by rewrite app_nil_r.
    - rewrite seqZ_cons by lia. cbn [omap list_omap].
      replace (Z.pred (Z.of_nat (S n))) with (Z.of_nat n) by lia.
      replace (Z.succ lo) with (lo + 1) by lia.
      destruct (ready lo) as [f|]; cbn [fmap option_fmap option_map run]; [|apply IH].
      cbn [fst snd]. destruct (handle lo f m) as [[m1 o1]|]; [|done]. cbn [rbind].
      rewrite IH. destruct (run _ m1) as [[m2 o2]|]; [|done]. cbn [rbind]. by rewrite app_assoc. }
  unfold main_turn. rewrite H. by destruct (run _ m) as [[m' o]|].
Qed.

(** After a history the table holds, for each address, the port it was last
    seen on. *)
Lemma run_learns history :
  Forall (fun a => is_frame (snd a)) history ->
  exists m out, run history ∅ = Ok (m, out) /\
    forall mac, is_mac mac -> m !! mac_text mac = last_port mac history.
Proof.
  induction history as [|[i f] history IH] using rev_ind; intros Hf.
  - exists ∅, []. split; [done|]. intros mac _. by rewrite lookup_empty.
  - apply Forall_app in Hf as [Hh Hf%Forall_cons_1]. destruct Hf as [Hf _]. cbn in Hf.
    destruct (IH Hh) as (m & out & E & Hm).
    destruct (frame_macs _ Hf) as [_ [Hsl Hsu]].
    rewrite run_app, E. cbn [rbind run]. rewrite handle_eq by done. cbn [rbind].
    eexists _, _. split; [done|]. intros mac [Hl Hu].
    unfold last_port. rewrite foldl_app. cbn [foldl fst snd]. case_bool_decide as Es.
    + subst mac. by rewrite lookup_insert_eq.
    + rewrite lookup_insert_ne; [by apply Hm|]. intros Et. by apply Es, mac_text_inj.
Qed.

(** ** Properties *)

(** C20: started empty, the switch forwards by what it has learnt: a frame goes
    to the single port its destination address was last seen on as a source
    (which is its own ingress port if that is where it was seen), and to every
    other port exactly once when the address was never seen or is the broadcast
    address. *)
Theorem switch_forwards history i frame :
  Forall (fun a => is_frame (snd a)) history -> is_frame frame ->
  exists m out m', run history ∅ = Ok (m, out) /\
    handle i frame m = Ok (m',
      if bool_decide (destMAC frame = broadcast_mac) then flood i frame
      else match last_port (destMAC frame) (history ++ [(i, frame)]) with
           | Some p => [(p, frame)]
           | None => flood i frame
           end) /\
    NoDup (flood i frame) /\
    forall j f, (j, f) ∈ flood i frame <-> f = frame /\ 0 <= j < 4 /\ j <> i.
Proof.
  intros Hh Hf. destruct (run_learns history Hh) as (m & out & E & Hm).
  destruct (frame_macs _ Hf) as [[Hdl Hdu] [Hsl Hsu]].
  exists m, out, (<[mac_text (srcMAC frame) := i]> m). split; [done|].
  rewrite handle_eq by done. split; [|split; [apply NoDup_flood|intros; apply elem_of_flood]].
  cbn zeta. rewrite dest_broadcast by done. do 2 f_equal.
  unfold last_port. rewrite foldl_app. cbn [foldl fst snd]. case_bool_decide; [done|].
  case_bool_decide as Es.
  - rewrite Es. by rewrite lookup_insert_eq.
  - rewrite lookup_insert_ne; [by rewrite Hm|]. intros Et. by apply Es, mac_text_inj.
Qed.

Lemma switch_forwards_witness :
  let frame := replicate 1526 1 in
  exists m out m', run [(2, frame)] ∅ = Ok (m, out) /\
    handle 0 frame m = Ok (m', [(0, frame)]).
Proof.
  assert (is_frame (replicate 1526 1)) as Hf by (apply replicate_frame; zlia).
  destruct (switch_forwards [(2, replicate 1526 1)] 0 (replicate 1526 1))
    as (m & out & m' & E & H & _); [by apply Forall_singleton|exact Hf|].
  exists m, out, m'. split; [exact E|]. rewrite H. vm_compute. reflexivity.
Defined.

(** The switch implements the abstract switch, whose table is keyed by
    addresses instead of their printed form: on every sequence of arrivals both
    send the same frames to the same ports. *)
Theorem switch_refines_abstract arrivals c a :
  Forall (fun x => is_frame (snd x)) arrivals -> tables_agree c a ->
  exists c', run arrivals c = Ok (c', snd (abs_run arrivals a)) /\
    tables_agree c' (fst (abs_run arrivals a)).
Proof.
  revert c a. induction arrivals as [|[i f] arrivals IH]; intros c a Hf Hag; cbn [run abs_run].
  - eauto.
  - apply Forall_cons in Hf as [Hf Hfs].
    destruct (handle_simulates i f c a Hf Hag) as (c1 & E1 & Hag1).
    rewrite E1. cbn [rbind]. destruct (IH c1 (fst (abs_handle i f a)) Hfs Hag1) as (c2 & E2 & Hag2).
    rewrite E2. cbn [rbind]. exists c2.
    destruct (abs_handle i f a) as [a1 o1]. cbn [fst snd] in *.
    by destruct (abs_run arrivals a1).
Qed.

Lemma switch_refines_abstract_witness :
  let arrivals := [(2, replicate 1526 1); (0, replicate 1526 1)] in
  exists c', run arrivals ∅ = Ok (c', snd (abs_run arrivals ∅)) /\
    tables_agree c' (fst (abs_run arrivals ∅)).
Proof.
  apply (switch_refines_abstract [(2, replicate 1526 1); (0, replicate 1526 1)] ∅ ∅).
  - repeat apply Forall_cons_2; try apply Forall_nil_2; apply replicate_frame; zlia.
  - intros mac _. by rewrite !lookup_empty.
Defined.

End Switch.
