(* ===== verification/Network.v ===== *)
(** * The network end to end

    A host as the kernel puts it together: the card and link layer, the IP
    layer's map of fragments and the socket tables; the threads [pktrecv] and
    [ethrecv]; and the switch between hosts. *)

From S2P Require Import Prelude Ints CString Ethernet Ip Reassembly Sockets Switch.

Module Network.
Import Ethernet.

Record host := mkHost {
  link : eth_state;
  fragmentDict : Ip.dict;
  sockets : Kernel.kernel
}.

(** One turn of [Ethernet_Layer::ethrecv]: take a payload off the queue, hand
    it to [ip_layer->Receive], which calls [udp_layer->Receive] when a datagram
    is complete; [None] when the thread waits for a packet. *)
Definition ethrecv (h : host) : res (option host) :=
  match Ethernet.Receive (link h) with
  | None => Ok None
  | Some (data, l) =>
      let* (m, d) := Ip.Receive data (fragmentDict h) in
      match d with
      | None => Ok (Some {| link := l; fragmentDict := m; sockets := sockets h |})
      | Some datagram =>
          let* k := Kernel.Udp_Receive datagram (sockets h) in
          Ok (Some {| link := l; fragmentDict := m; sockets := k |})
      end
  end.

(** A frame reaches a host: the network interrupt, then a turn of each of the
    two receiving threads. *)
Definition deliver (hostName : Z) (frame : list Z) (h : host) : res host :=
  let* l1 := NetworkInput_CallBack (Some frame) (link h) in
  let* o := pktrecv hostName l1 in
  let h2 := {| link := default l1 o; fragmentDict := fragmentDict h; sockets := sockets h |} in
  let* o2 := ethrecv h2 in
  Ok (default h2 o2).

Fixpoint deliver_all (hostName : Z) (frames : list (list Z)) (h : host) : res host :=
  match frames with
  | [] => Ok h
  | f :: frames' => let* h' := deliver hostName f h in deliver_all hostName frames' h'
  end.

(** What the sender writes to its switch socket. *)
Definition frames_of (evs : list net_event) : list (list Z) :=
  omap (fun e => match e with SocketWrite _ b => Some b | _ => None end) evs.

(** The frames the switch sends to machine [k]. *)
Definition to_port (k : Z) (out : list Switch.transmission) : list (list Z) :=
  map snd (filter (fun t => fst t = k) out).

(** A host waiting for packets: nothing signalled, nothing queued. *)
Definition idle (h : host) : Prop := messageAvailable (link h) = 0 /\ messages (link h) = [].

Fixpoint udp_all (ds : list (list Z)) (k : Kernel.kernel) : res Kernel.kernel :=
  match ds with
  | [] => Ok k
  | d :: ds' => let* k' := Kernel.Udp_Receive d k in udp_all ds' k'
  end.

(** ** From frames to IP packets *)

(** The link layer after its only queued packet was taken. *)
Definition drained (l : eth_state) : eth_state :=
  set_in (messageAvailable l) [] (current_packet l) l.

Lemma ethrecv_one l p m k m' d :
  eth_wf p -> messages l = [eth_bytes p] -> Ip.Receive (payload p) m = Ok (m', d) ->
  ethrecv {| link := l; fragmentDict := m; sockets := k |} =
    match d with
    | None => Ok (Some {| link := drained l; fragmentDict := m'; sockets := k |})
    | Some datagram =>
        let* k' := Kernel.Udp_Receive datagram k in
        Ok (Some {| link := drained l; fragmentDict := m'; sockets := k' |})
    end.
Proof.
  intros Hwf Hm HR. unfold ethrecv. cbn [link fragmentDict sockets].
  rewrite (Receive_queued l p [] Hwf Hm), HR. done.
Qed.

Lemma deliver_eq j p h l1 l2 o :
  NetworkInput_CallBack (Some (eth_bytes p)) (link h) = Ok l1 -> pktrecv j l1 = Ok (Some l2) ->
  ethrecv {| link := l2; fragmentDict := fragmentDict h; sockets := sockets h |} = Ok (Some o) ->
  deliver j (eth_bytes p) h = Ok o.
Proof.
  intros E1 E2 ER. unfold deliver. rewrite E1. cbn [rbind]. rewrite E2. cbn [rbind].
  change (default l1 (Some l2)) with l2. rewrite ER. done.
Qed.

Lemma drained_idle l m k :
  messageAvailable l = 0 -> idle {| link := drained l; fragmentDict := m; sockets := k |}.
Proof. done. Qed.

Lemma deliver_step j p h m' d :
  arr_get macpool j = Ok (destMAC p) -> idle h -> eth_wf p ->
  Ip.Receive (payload p) (fragmentDict h) = Ok (m', d) ->
  match d with
  | None => exists h', deliver j (eth_bytes p) h = Ok h' /\
              idle h' /\ fragmentDict h' = m' /\ sockets h' = sockets h
  | Some x => forall k', Kernel.Udp_Receive x (sockets h) = Ok k' ->
              exists h', deliver j (eth_bytes p) h = Ok h' /\
              idle h' /\ fragmentDict h' = m' /\ sockets h' = k'
  end.
Proof.
  intros Hown [Hidle Hq] Hwf HR.
  destruct (arrive_and_receive j _ (link h) p Hown Hidle Hwf)
    as (l1 & l2 & E1 & E2 & Hm & Ha & _).
  rewrite bool_decide_true, Hq in Hm by done.
  pose proof (ethrecv_one l2 p (fragmentDict h) (sockets h) _ _ Hwf Hm HR) as ER.
  destruct d as [x|]; [intros k' Hk; rewrite Hk in ER|]; eexists.
  - split; [exact (deliver_eq j p h l1 l2 _ E1 E2 ER)|]. auto using drained_idle.
  - split; [exact (deliver_eq j p h l1 l2 _ E1 E2 ER)|]. auto using drained_idle.
Qed.

Lemma deliver_all_cons j f fs h h1 :
  deliver j f h = Ok h1 -> deliver_all j (f :: fs) h = deliver_all j fs h1.
Proof. intros E. cbn [deliver_all]. by rewrite E. Qed.

#[local] Opaque Ip.Receive deliver.

Lemma deliver_packets j own src pkts : forall h m' ds k',
  arr_get macpool j = Ok own -> idle h -> length src = 6%nat -> Forall is_u8 src ->
  Forall (fun p => length p = 1500%nat /\ Forall is_u8 p) pkts ->
  Reassembly.receive_all pkts (fragmentDict h) = Ok (m', ds) ->
  udp_all ds (sockets h) = Ok k' ->
  exists h', deliver_all j (map (fun p => eth_bytes (sent_packet src own p)) pkts) h = Ok h' /\
    idle h' /\ fragmentDict h' = m' /\ sockets h' = k'.
Proof.
  induction pkts as [|p pkts IH]; intros h m' ds k' Hown Hidle Hsl Hsu Hp HR HU;
    cbn [Reassembly.receive_all] in HR; rewrite ?map_cons.
  - injection HR as <- <-. injection HU as <-. eauto.
  - apply Forall_cons in Hp as [[Hpl Hpu] Hp].
    apply bind_Ok_inv in HR as ([m1 d] & E1 & HR). apply bind_Ok_inv in HR as ([m2 ds'] & E2 & HR).
    injection HR as <- <-.
    destruct (macpool_entry _ _ Hown) as [Hol Hou].
    pose proof (deliver_step j (sent_packet src own p) h m1 d Hown Hidle
      (sent_packet_wf _ _ _ Hsl Hsu Hol Hou Hpl Hpu) E1) as Hstep.
    destruct d as [x|].
    + cbn [udp_all] in HU. apply bind_Ok_inv in HU as (k1 & Ek & HU).
      destruct (Hstep k1 Ek) as (h1 & Eh & Hi & <- & <-).
      rewrite (deliver_all_cons _ _ _ _ _ Eh). eapply IH; eauto.
    + destruct Hstep as (h1 & Eh & Hi & <- & Hk). rewrite (deliver_all_cons _ _ _ _ _ Eh).
      rewrite <- Hk in HU. eapply IH; eauto.
Qed.

#[local] Transparent Ip.Receive deliver.

(** ** One UDP message *)

(** The bytes [UDP_Layer::Send] hands to the IP layer. *)
Definition udp_packet (sp dp ck : Z) (data : list Z) : list Z :=
  le_bytes 2 (u16 sp) ++ le_bytes 2 (u16 dp) ++
  le_bytes 2 (u16 (Z.of_nat (length data) + 8)) ++ le_bytes 2 ck ++ data.

Lemma length_udp_packet sp dp ck data :
  length (udp_packet sp dp ck data) = (8 + length data)%nat.
Proof. unfold udp_packet. rewrite !length_app, !length_le_bytes. lia. Qed.

Lemma udp_packet_u8 sp dp ck data : Forall is_u8 data -> Forall is_u8 (udp_packet sp dp ck data).
Proof. intros H. unfold udp_packet. rewrite !Forall_app. auto 10 with nachos. Qed.

Lemma udp_Send_Ok h r ck data dest sp dp :
  Z.of_nat (length data) <= 65536 ->
  Udp.Send h r ck data (Z.of_nat (length data)) dest sp dp =
  Ip.Send h r (udp_packet sp dp ck data) (Z.of_nat (length (udp_packet sp dp ck data))) dest.
Proof.
  intros Hl. unfold Udp.Send.
  rewrite (proj2 (Z.ltb_ge _ 0)), (proj2 (Z.ltb_ge 65536 _)) by lia. cbn [orb].
  rewrite Nat2Z.id, read_bytes_exact by done. cbn [rbind]. unfold Udp.udp_bytes.
  cbn [Udp.sourcePort Udp.destinationPort Udp.udp_length Udp.udp_checksum Udp.udp_data].
  rewrite memcpy_prefix, !app_assoc. rewrite <- !app_assoc.
  set (rest := drop (length data) _).
  assert (le_bytes 2 (u16 sp) ++ le_bytes 2 (u16 dp) ++ le_bytes 2 (u16 (Z.of_nat (length data) + 8)) ++
    le_bytes 2 ck ++ data ++ rest = udp_packet sp dp ck data ++ rest) as ->.
  { unfold udp_packet. by rewrite <- !app_assoc. }
  pose proof (length_udp_packet sp dp ck data) as Hp.
  rewrite read_bytes_Ok by (rewrite length_app; lia). cbn [rbind].
  rewrite take_app_le, take_ge by lia. f_equal. lia.
Qed.

(** A received packet, followed by the padding of its last fragment. *)
Lemma Udp_Receive_packet sp dp ck data zeros k :
  Z.of_nat (length data) <= 65527 ->
  Kernel.Udp_Receive (udp_packet sp dp ck data ++ zeros) k =
    Ok (Kernel.putData (data ++ zeros) (Z.of_nat (length data)) (u16 dp) k).
Proof.
  intros Hl. unfold Kernel.Udp_Receive.
  rewrite bool_decide_false by (rewrite length_app, length_udp_packet; lia).
  unfold udp_packet. rewrite <- !app_assoc. slice_fields. rewrite !le_value_bytes.
  f_equal. f_equal; zlia.
Qed.

(** The frames of a message from [h] to [j]. *)
Definition message_frames (srcmac own src dest : list Z) (r : Z) (packet : list Z) : list (list Z) :=
  map (fun f => eth_bytes (sent_packet srcmac own (Ip.ip_bytes f)))
    (Ip.fragments src dest packet (Ip.get_Random_Identification r)).

Lemma frames_of_events h srcmac own fs :
  frames_of (concat (map (Ip.frame_events h srcmac own) fs)) =
  map (fun f => eth_bytes (sent_packet srcmac own (Ip.ip_bytes f))) fs.
Proof.
  induction fs as [|f fs IH]; [done|]. cbn [map concat Ip.frame_events app].
  unfold frames_of in *. cbn [omap list_omap]. by rewrite IH.
Qed.

Section OneMessage.

Context (h j r ck sp dp : Z) (src dest srcmac own data : list Z).
Context (Hsrc : arr_get Ip.ippool h = Ok src) (Hsmac : arr_get macpool h = Ok srcmac).
Context (Hdest : arr_get Ip.ippool j = Ok dest) (Hown : arr_get macpool j = Ok own).
Context (Hdata : Forall is_u8 data) (Hlen : Z.of_nat (length data) <= 65527).

Let packet := udp_packet sp dp ck data.

Lemma packet_fragments : 0 < Ip.num_fragments packet <= 45.
Proof.
  pose proof (Ip.num_fragments_spec packet) as Hs.
  pose proof (length_udp_packet sp dp ck data) as Hl. fold packet in Hl. lia.
Qed.

Lemma udp_Send_frames :
  exists evs, Udp.Send h r ck data (Z.of_nat (length data)) dest sp dp = Ok evs /\
    frames_of evs = message_frames srcmac own src dest r packet.
Proof.
  pose proof packet_fragments as Hn.
  rewrite udp_Send_Ok by lia. fold packet.
  rewrite (Ip.Send_fragments h j r src dest srcmac own) by (done || apply udp_packet_u8, Hdata || lia).
  eexists. split; [done|]. apply frames_of_events.
Qed.

Lemma fragments_wf f :
  f ∈ Ip.fragments src dest packet (Ip.get_Random_Identification r) -> Ip.ip_wf f.
Proof.
  intros Hf. apply list_elem_of_lookup in Hf as [i Hi].
  apply Reassembly.fragments_lookup in Hi as [Hi ->]. pose proof packet_fragments.
  destruct (Ip.ippool_entry _ _ Hsrc), (Ip.ippool_entry _ _ Hdest).
  apply Ip.fragment_wf; try done; [apply udp_packet_u8, Hdata|lia].
Qed.

(** The key of the message's fragments at the receiver. *)
Definition message_key : list Z :=
  Ip.computeHash src dest (u16 (Ip.get_Random_Identification r)).

Lemma message_received hst frames :
  idle hst -> fragmentDict hst !! message_key = None ->
  frames ≡ₚ message_frames srcmac own src dest r packet ->
  exists hst' zeros,
    deliver_all j frames hst = Ok hst' /\ idle hst' /\
    fragmentDict hst' = fragmentDict hst /\
    sockets hst' =
      Kernel.putData (data ++ zeros) (Z.of_nat (length data)) (u16 dp) (sockets hst).
Proof.
  intros Hidle Hfresh Hp. set (id := Ip.get_Random_Identification r) in *.
  pose proof packet_fragments as Hn. destruct (macpool_entry _ _ Hsmac) as [Hml Hmu].
  set (F := Ip.fragments src dest packet id).
  apply Permutation_map_inv in Hp as (fs & -> & Hp). fold F in Hp.
  set (zeros := replicate (Z.to_nat (Ip.num_fragments packet) * 1480 - length packet) 0).
  pose proof (Reassembly.fragments_data src dest packet id (udp_packet_u8 _ _ _ _ Hdata)) as HD.
  fold zeros F in HD. specialize (HD ltac:(lia)).
  assert (Reassembly.receive_all (map Ip.ip_bytes fs) (fragmentDict hst) =
    Ok (fragmentDict hst, [packet ++ zeros])) as HR.
  { rewrite <- HD. apply (Reassembly.receive_train message_key F).
    - intros f Hf. split; [by apply fragments_wf|].
      apply list_elem_of_lookup in Hf as [i Hi].
      apply Reassembly.fragments_lookup in Hi as [_ ->]. done.
    - apply Reassembly.fragments_train. lia.
    - done.
    - intros E. pose proof (Reassembly.length_fragments src dest packet id) as HL.
      fold F in HL. rewrite E in HL. cbn in HL. lia.
    - by rewrite <- Hp. }
  destruct (deliver_packets j own srcmac (map Ip.ip_bytes fs) hst (fragmentDict hst) [packet ++ zeros]
    (Kernel.putData (data ++ zeros) (Z.of_nat (length data)) (u16 dp) (sockets hst)))
    as (hst' & E & Hi & Hf & Hk); try done.
  - apply Forall_map, Forall_forall. intros f Hf. rewrite <- Hp in Hf. apply fragments_wf in Hf.
    split; [by apply Ip.length_ip_bytes|by apply Ip.ip_bytes_u8].
  - cbn [udp_all]. unfold packet. by rewrite Udp_Receive_packet.
  - exists hst', zeros. rewrite map_map in E. done.
Qed.

End OneMessage.

(** ** Through the switch *)

(** The switch has seen each of its four machines on that machine's own port
    only. *)
Definition table_ok (t : gmap (list Z) Z) : Prop :=
  forall k mac, 0 <= k < 4 -> arr_get macpool k = Ok mac ->
    t !! Switch.mac_text mac = None \/ t !! Switch.mac_text mac = Some k.

Lemma table_ok_learn t h mac :
  0 <= h < 4 -> arr_get macpool h = Ok mac -> table_ok t ->
  table_ok (<[Switch.mac_text mac := h]> t).
Proof.
  intros Hh Hmac Ht k m Hk Hm. destruct (decide (h = k)) as [<-|Hne].
  - assert (m = mac) as -> by congruence. right. apply lookup_insert_eq.
  - rewrite lookup_insert_ne; [by apply Ht|]. intros E.
    destruct (macpool_entry _ _ Hmac), (macpool_entry _ _ Hm).
    apply Switch.mac_text_inj in E; [|done..]. subst m. by apply Hne, (macpool_inj _ _ mac).
Qed.

Lemma to_port_flood h j frame :
  0 <= h < 4 -> 0 <= j < 4 -> h <> j -> to_port j (Switch.flood h frame) = [frame].
Proof.
  intros Hh Hj Hne.
  assert (h = 0 \/ h = 1 \/ h = 2 \/ h = 3) as Ch by lia.
  assert (j = 0 \/ j = 1 \/ j = 2 \/ j = 3) as Cj by lia.
  destruct Ch as [->|[->|[->| ->]]], Cj as [->|[->|[->| ->]]]; done || reflexivity.
Qed.

Lemma to_port_app j a b : to_port j (a ++ b) = to_port j a ++ to_port j b.
Proof. unfold to_port. by rewrite filter_app, map_app. Qed.

Lemma eth_frame p : eth_wf p ->
  Switch.is_frame (eth_bytes p) /\
  Switch.destMAC (eth_bytes p) = destMAC p /\ Switch.srcMAC (eth_bytes p) = srcMAC p.
Proof.
  intros Hwf. split; [split; [by apply length_eth_bytes|by apply eth_bytes_u8]|].
  pose proof (eth_cast_bytes p Hwf) as E. split.
  - by rewrite <- (f_equal destMAC E).
  - by rewrite <- (f_equal srcMAC E).
Qed.

Lemma macpool_not_broadcast k : arr_get macpool k <> Ok Switch.broadcast_mac.
Proof.
  rewrite arr_get_Ok. intros [_ E]. apply list_elem_of_lookup_2 in E.
  revert E. apply (bool_decide_unpack _). vm_compute. exact I.
Qed.

Lemma switch_one h j srcmac own p t :
  0 <= h < 4 -> 0 <= j < 4 -> h <> j -> arr_get macpool h = Ok srcmac -> arr_get macpool j = Ok own ->
  eth_wf p -> srcMAC p = srcmac -> destMAC p = own -> table_ok t ->
  exists t' out, Switch.handle h (eth_bytes p) t = Ok (t', out) /\ table_ok t' /\
    to_port j out = [eth_bytes p].
Proof.
  intros Hh Hj Hne Hs Ho Hwf Es Ed Ht. destruct (eth_frame p Hwf) as (Hf & HD & HS).
  pose proof (table_ok_learn t h srcmac Hh Hs Ht) as Ht'.
  rewrite Switch.handle_eq, HD, HS, Es, Ed by done.
  eexists _, _. split; [done|]. split; [done|].
  rewrite <- Ed, <- HD, Switch.dest_broadcast, HD, Ed, bool_decide_false by
    (done || intros E; rewrite E in Ho; by apply (macpool_not_broadcast j)).
  destruct (Ht' j own Hj Ho) as [E|E]; rewrite E; [by apply to_port_flood|].
  unfold to_port. cbn [filter list_filter fst]. by rewrite decide_True.
Qed.

Lemma switch_frames h j srcmac own ps :
  0 <= h < 4 -> 0 <= j < 4 -> h <> j -> arr_get macpool h = Ok srcmac -> arr_get macpool j = Ok own ->
  Forall (fun p => eth_wf p /\ srcMAC p = srcmac /\ destMAC p = own) ps ->
  forall t, table_ok t ->
  exists t' out, Switch.run (map (pair h) (map eth_bytes ps)) t = Ok (t', out) /\
    table_ok t' /\ to_port j out = map eth_bytes ps.
Proof.
  intros Hh Hj Hne Hs Ho. induction 1 as [|p ps (Hwf & Es & Ed) _ IH]; intros t Ht.
  - exists t, []. done.
  - destruct (switch_one h j srcmac own p t) as (t1 & o1 & E1 & Ht1 & Hp1); try done.
    destruct (IH t1 Ht1) as (t2 & o2 & E2 & Ht2 & Hp2).
    exists t2, (o1 ++ o2). cbn [map Switch.run]. rewrite E1. cbn [rbind]. rewrite E2. cbn [rbind].
    rewrite to_port_app, Hp1, Hp2. done.
Qed.

(** The text of a C string in a buffer. *)
Lemma strlen_text text junk :
  Forall (fun c => c <> 0) text -> strlen (text ++ 0 :: junk) = Ok (Z.of_nat (length text)).
Proof.
  induction 1 as [|c text Hc _ IH]; cbn [app strlen]; [done|].
  rewrite (proj2 (Z.eqb_neq c 0)) by done. rewrite IH. cbn [rbind length]. f_equal. lia.
Qed.

Lemma udp_Send_prefix h r ck text junk dest sp dp :
  Udp.Send h r ck (text ++ junk) (Z.of_nat (length text)) dest sp dp =
  Udp.Send h r ck text (Z.of_nat (length text)) dest sp dp.
Proof.
  unfold Udp.Send. case_match; [done|]. rewrite Nat2Z.id.
  rewrite read_bytes_Ok by (rewrite length_app; lia). rewrite take_app_length.
  by rewrite read_bytes_exact.
Qed.

(** The text of a UDP datagram, from the sending layer through the switch to the
    socket tables of the destination. *)
Lemma udp_end_to_end h j r ck sp dp dest text t hst :
  0 <= h < 4 -> 0 <= j < 4 -> h <> j -> arr_get Ip.ippool j = Ok dest ->
  Forall is_u8 text -> Z.of_nat (length text) <= 65527 -> table_ok t -> idle hst ->
  (forall src, arr_get Ip.ippool h = Ok src -> fragmentDict hst !! message_key r src dest = None) ->
  exists evs t' out,
    Udp.Send h r ck text (Z.of_nat (length text)) dest sp dp = Ok evs /\
    Switch.run (map (pair h) (frames_of evs)) t = Ok (t', out) /\ table_ok t' /\
    forall arrived, arrived ≡ₚ to_port j out ->
    exists hst' zeros, deliver_all j arrived hst = Ok hst' /\
      sockets hst' = Kernel.putData (text ++ zeros) (Z.of_nat (length text)) (u16 dp) (sockets hst).
Proof.
  intros Hh Hj Hne Hdest Hu Hlen Ht Hidle Hfresh.
  destruct (arr_get_in_range Ip.ippool h) as [src Hsrc]; [cbn; lia|].
  destruct (arr_get_in_range macpool h) as [srcmac Hsmac]; [cbn; lia|].
  destruct (arr_get_in_range macpool j) as [own Hown]; [cbn; lia|].
  destruct (udp_Send_frames h j r ck sp dp src dest srcmac own text) as (evs & Eevs & Hframes); try done.
  destruct (switch_frames h j srcmac own
    (map (fun f => sent_packet srcmac own (Ip.ip_bytes f))
       (Ip.fragments src dest (udp_packet sp dp ck text) (Ip.get_Random_Identification r))))
    with (t := t) as (t' & out & Erun & Ht' & Hto); try done.
  { apply Forall_map, Forall_forall. intros f Hf.
    apply (fragments_wf h j r ck sp dp src dest text) in Hf; try done.
    destruct (macpool_entry _ _ Hsmac), (macpool_entry _ _ Hown).
    split; [|done]. apply sent_packet_wf; auto using Ip.length_ip_bytes, Ip.ip_bytes_u8. }
  rewrite (map_map _ eth_bytes) in Hto, Erun. unfold message_frames in Hframes. rewrite <- Hframes in Erun, Hto.
  exists evs, t', out. split; [done|]. split; [done|]. split; [done|]. intros arrived Harr. rewrite Hto, Hframes in Harr.
  destruct (message_received h j r ck sp dp src dest srcmac own text) with (hst := hst) (frames := arrived)
    as (hst' & zeros & Ed & _ & _ & Hk); try done; [by apply Hfresh|]. by exists hst', zeros.
Qed.

(** ** Properties *)



(** A machine keeps only the frames addressed to it: a frame for another
    machine that reaches an idle host (by a flood of the switch) is counted by
    the card and leaves the receive queue, the map of fragments and the sockets
    as they were. *)
Theorem foreign_frame_dropped j own p hst :
  arr_get macpool j = Ok own -> eth_wf p -> destMAC p <> own -> idle hst ->
  exists hst', deliver j (eth_bytes p) hst = Ok hst' /\ idle hst' /\
    fragmentDict hst' = fragmentDict hst /\ sockets hst' = sockets hst /\
    numPacketsRecvd (link hst') = numPacketsRecvd (link hst) + 1.
Proof.
  intros Hown Hwf Hne [Hi Hq].
  destruct (arrive_and_receive j own (link hst) p Hown Hi Hwf) as (l1 & l2 & E1 & E2 & Hm & Ha & Hn).
  rewrite bool_decide_false, Hq in Hm by done.
  unfold deliver. rewrite E1. cbn [rbind]. rewrite E2. cbn [rbind default from_option id].
  unfold ethrecv, Ethernet.Receive. cbn [link]. rewrite Hm. cbn [rbind default from_option id].
  eexists. split; [done|]. done.
Qed.

Lemma foreign_frame_dropped_witness :
  let hst := {| link := Ethernet_Layer_init; fragmentDict := ∅; sockets := Kernel.Initialize |} in
  exists hst', deliver 1 (eth_bytes (sent_packet (calloc 6) (calloc 6) (calloc 1500))) hst = Ok hst' /\
    idle hst' /\ fragmentDict hst' = ∅ /\ sockets hst' = Kernel.Initialize /\
    numPacketsRecvd (link hst') = 0 + 1.
Proof.
  apply (foreign_frame_dropped 1 _ (sent_packet (calloc 6) (calloc 6) (calloc 1500))
    {| link := Ethernet_Layer_init; fragmentDict := ∅; sockets := Kernel.Initialize |} eq_refl).
  - apply sent_packet_wf; try apply calloc_u8; apply length_calloc.
  - discriminate.
  - split; reflexivity.
Defined.

(** ** The network test *)

(** [for (i = lo; i < hi; i++) data[i] = c] *)
Definition fill (lo hi c : Z) (data : list Z) : res (list Z) :=
  for_range (Z.to_nat (hi - lo)) lo (fun i data => arr_set data i c) data.

(** [Kernel::NetworkTest]: what it makes the card do. *)
Definition NetworkTest (hostName r ck : Z) : res (list net_event) :=
  if hostName =? 0 then
    let data := calloc 3000 in
    let* data := fill 0 1480 97 data in
    let* data := fill 1480 2960 98 data in
    let* data := fill 2960 3000 99 data in
    Udp.Send hostName r ck data 3000 [0xae; 0x32; 0x18; 0xd9] 0 0
  else Ok [].

Lemma fill_spec (c : Z) n : forall pre old rest : list Z, length old = n ->
  for_range n (Z.of_nat (length pre)) (fun i data => arr_set data i c) (pre ++ old ++ rest) =
    Ok (pre ++ replicate n c ++ rest).
Proof.
  induction n as [|n IH]; intros pre [|x old] rest Hl; try done. cbn [for_range app].
  rewrite arr_set_in_range by (rewrite length_app; cbn [length]; lia). cbn [rbind].
  rewrite Nat2Z.id, insert_app_r_alt, Nat.sub_diag by done. cbn [insert list_insert]. injection Hl as Hl. specialize (IH (pre ++ [c]) old rest Hl).
  rewrite length_app, Nat2Z.inj_add in IH. cbn [length] in IH. change (Z.of_nat 1) with 1 in IH.
  rewrite <- !app_assoc in IH. exact IH.
Qed.

Definition test_text : list Z := replicate 1480 97 ++ replicate 1480 98 ++ replicate 40 99.

Lemma NetworkTest_sends r ck : NetworkTest 0 r ck = Udp.Send 0 r ck test_text 3000 [0xae; 0x32; 0x18; 0xd9] 0 0.
Proof.
  unfold NetworkTest, fill. change (0 =? 0) with true. cbv iota.
  pose proof (fill_spec 97 1480 [] (calloc 1480) (calloc 1520) (length_calloc _)) as E1.
  pose proof (fill_spec 98 1480 (replicate 1480 97) (calloc 1480) (calloc 40) (length_calloc _)) as E2.
  pose proof (fill_spec 99 40 (replicate 1480 97 ++ replicate 1480 98) (calloc 40) [] (length_calloc _)) as E3.
  change ([] ++ calloc 1480 ++ calloc 1520) with (calloc 3000) in E1.
  rewrite !length_app, !length_replicate in *. 
  change (Z.to_nat (1480 - 0)) with 1480%nat. change (Z.to_nat (2960 - 1480)) with 1480%nat. change (Z.to_nat (3000 - 2960)) with 40%nat.
  change (Z.of_nat (length [])) with 0 in E1. change (Z.of_nat 1480) with 1480 in E2. change (Z.of_nat (1480 + 1480)) with 2960 in E3.
  rewrite E1. cbn [rbind app]. change (calloc 1520) with (calloc 1480 ++ calloc 40). rewrite E2. cbn [rbind].
  rewrite (app_assoc (replicate 1480 97)), <- (app_nil_r (calloc 40)), E3. cbn [rbind].
  by rewrite app_nil_r, <- app_assoc.
Qed.

(** The network test: machine 0 sends 3000 bytes to port 0 of machine 1, in
    whose queue they are appended, however the fragments are reordered; other
    machines send nothing. *)
Theorem network_test_delivered r ck t hst q :
  table_ok t -> idle hst ->
  (forall src, arr_get Ip.ippool 0 = Ok src -> fragmentDict hst !! message_key r src [0xae; 0x32; 0x18; 0xd9] = None) ->
  Kernel.datagrams (sockets hst) !! 0 = Some q ->
  (forall h, h <> 0 -> NetworkTest h r ck = Ok []) /\
  exists evs t' out,
    NetworkTest 0 r ck = Ok evs /\
    Switch.run (map (pair 0) (frames_of evs)) t = Ok (t', out) /\ table_ok t' /\
    forall arrived, arrived ≡ₚ to_port 1 out ->
    exists hst' zeros, deliver_all 1 arrived hst = Ok hst' /\
      Kernel.datagrams (sockets hst') !! 0 = Some (q ++ [(3000, test_text ++ zeros)]).
Proof.
  intros Ht Hidle Hfresh Hq. split.
  { intros h Hh. unfold NetworkTest. by rewrite (proj2 (Z.eqb_neq h 0) Hh). }
  assert (Z.of_nat (length test_text) = 3000) as Hl by (unfold test_text; rewrite !length_app, !length_replicate; done).
  assert (Forall is_u8 test_text) as Hu.
  { unfold test_text. rewrite !Forall_app. split_and!; by apply Forall_replicate. }
  rewrite NetworkTest_sends. generalize dependent test_text. intros text Hl Hu.
  destruct (udp_end_to_end 0 1 r ck 0 0 [0xae; 0x32; 0x18; 0xd9] text t hst)
    as (evs & t' & out & Eevs & Erun & Ht' & Hall); try done; [lia|].
  exists evs, t', out. rewrite Hl in Eevs. split; [done|]. split; [done|]. split; [done|].
  intros arrived Harr. destruct (Hall arrived Harr) as (hst' & zeros & Ed & Hk). exists hst', zeros. split; [done|].
  rewrite Hk, Hl. by apply Kernel.putData_queue.
Qed.

End Network.
