(* ===== verification/Bitmap.v ===== *)
(** * Bitmaps (code/lib/bitmap.h, code/lib/bitmap.cc)

    The array of 32-bit words, its operations, and the interface that the
    allocators of page frames, disk sectors and process numbers rely on. *)

From S2P Require Import Prelude Ints.

(** ** The interface: an allocator over the numbers [0, n)

    [view a] tells of each number whether it is in use. *)

(** The least unused number, -1 if there is none. *)
Definition first_clear (l : list bool) : Z :=
  match list_find (fun b => b = false) l with
  | Some (i, _) => Z.of_nat i
  | None => -1
  end.

Definition num_clear (l : list bool) : Z := Z.of_nat (length (filter (fun b => b = false) l)).

Class Allocator (A : Type) := {
  al_wf : A -> Prop;
  view : A -> list bool;
  al_find : A -> res (Z * A);
  al_clear : Z -> A -> res A;
  al_count : A -> res Z;
  al_test : Z -> A -> res bool;
  (** Finding takes the least free number, or fails with -1. *)
  al_find_law : forall a, al_wf a ->
    exists a', al_find a = Ok (first_clear (view a), a') /\ al_wf a' /\
      view a' = if first_clear (view a) =? -1 then view a
                else <[Z.to_nat (first_clear (view a)) := true]> (view a);
  (** Clearing frees exactly the given number. *)
  al_clear_law : forall a i, al_wf a -> 0 <= i < Z.of_nat (length (view a)) ->
    exists a', al_clear i a = Ok a' /\ al_wf a' /\ view a' = <[Z.to_nat i := false]> (view a);
  al_count_law : forall a, al_wf a -> al_count a = Ok (num_clear (view a));
  al_test_law : forall a i b, al_wf a -> 0 <= i -> view a !! Z.to_nat i = Some b ->
    al_test i a = Ok b
}.

Module Bitmap.

Definition BitsInByte : Z := 8.
Definition BitsInWord : Z := 4 * BitsInByte.

Record bitmap := mkBitmap {
  numBits : Z;
  numWords : Z;
  words : list Z   (* unsigned int *map *)
}.

(** [1 << (which % BitsInWord)], converted to [unsigned int] *)
Definition mask (which : Z) : Z := u32 (Z.shiftl 1 (Z.rem which BitsInWord)).

Definition in_range (b : bitmap) (which : Z) : bool := (0 <=? which) && (which <? numBits b).

Definition Test (which : Z) (b : bitmap) : res bool :=
  ASSERT (in_range b which) ;;;
  let* w := arr_get (words b) (Z.quot which BitsInWord) in
  Ok (negb (Z.land w (mask which) =? 0)).

Definition Mark (which : Z) (b : bitmap) : res bitmap :=
  ASSERT (in_range b which) ;;;
  let* w := arr_get (words b) (Z.quot which BitsInWord) in
  let* ws := arr_set (words b) (Z.quot which BitsInWord) (Z.lor w (mask which)) in
  let b' := {| numBits := numBits b; numWords := numWords b; words := ws |} in
  let* t := Test which b' in
  ASSERT t ;;;
  Ok b'.

Definition Clear (which : Z) (b : bitmap) : res bitmap :=
  ASSERT (in_range b which) ;;;
  let* w := arr_get (words b) (Z.quot which BitsInWord) in
  let* ws := arr_set (words b) (Z.quot which BitsInWord) (Z.land w (u32 (Z.lnot (mask which)))) in
  let b' := {| numBits := numBits b; numWords := numWords b; words := ws |} in
  let* t := Test which b' in
  ASSERT (negb t) ;;;
  Ok b'.

(** The constructor [Bitmap::Bitmap]; [garbage] is the memory [new] returns. *)
Definition Bitmap (garbage : list Z) (numItems : Z) : res bitmap :=
  ASSERT (0 <? numItems) ;;;
  let n := divRoundUp numItems BitsInWord in
  let* ws := for_range (Z.to_nat n) 0 (fun i m => arr_set m i 0) (take (Z.to_nat n) garbage) in
  for_range (Z.to_nat numItems) 0 Clear {| numBits := numItems; numWords := n; words := ws |}.

Definition FindAndSet (b : bitmap) : res (Z * bitmap) :=
  let* r := for_break (Z.to_nat (numBits b)) 0
    (fun i (_ : unit) =>
       let* t := Test i b in
       if negb t then let* b' := Mark i b in Ok (inr (i, b')) else Ok (inl tt)) tt in
  match r with
  | inr x => Ok x
  | inl _ => Ok (-1, b)
  end.

Definition NumClear (b : bitmap) : res Z :=
  for_range (Z.to_nat (numBits b)) 0
    (fun i count => let* t := Test i b in Ok (if negb t then count + 1 else count)) 0.

(** [Bitmap::Print]: the numbers printed, in order. *)
Definition Print (b : bitmap) : res (list Z) :=
  for_range (Z.to_nat (numBits b)) 0
    (fun i out => let* t := Test i b in Ok (if t then out ++ [i] else out)) [].

(** [Bitmap::SelfTest] *)
Definition SelfTest (b : bitmap) : res bitmap :=
  ASSERT (BitsInWord <=? numBits b) ;;;
  let* n := NumClear b in
  ASSERT (n =? numBits b) ;;;
  let* (i, b) := FindAndSet b in
  ASSERT (i =? 0) ;;;
  let* b := Mark 31 b in
  let* t0 := Test 0 b in
  let* t31 := Test 31 b in
  ASSERT (t0 && t31) ;;;
  let* (i, b) := FindAndSet b in
  ASSERT (i =? 1) ;;;
  let* b := Clear 0 b in
  let* b := Clear 1 b in
  let* b := Clear 31 b in
  let* b := for_range (Z.to_nat (numBits b)) 0 Mark b in
  let* (i, b) := FindAndSet b in
  ASSERT (i =? -1) ;;;
  for_range (Z.to_nat (numBits b)) 0 Clear b.

(** ** The bits of a bitmap *)

Definition bit (b : bitmap) (i : Z) : bool :=
  Z.testbit (words b !!! Z.to_nat (i / 32)) (i mod 32).

Definition bits (b : bitmap) : list bool := map (bit b) (seqZ 0 (numBits b)).

Definition wf (b : bitmap) : Prop :=
  0 < numBits b /\ numWords b = divRoundUp (numBits b) 32 /\
  Z.of_nat (length (words b)) = numWords b /\ Forall is_u32 (words b).

Lemma length_bits b : wf b -> Z.of_nat (length (bits b)) = numBits b.
Proof. intros (H & _). unfold bits. rewrite length_map, length_seqZ. lia. Qed.

Lemma bits_lookup b i : 0 <= i < numBits b -> bits b !! Z.to_nat i = Some (bit b i).
Proof.
  intros Hi. unfold bits. rewrite list_lookup_fmap, (proj2 (lookup_seqZ 0 _ _ i)); [done|lia].
Qed.

(** Two lists of bits are equal when they agree bit by bit. *)
Lemma bits_ext b l :
  Z.of_nat (length l) = Z.max 0 (numBits b) ->
  (forall i, 0 <= i < numBits b -> l !! Z.to_nat i = Some (bit b i)) -> bits b = l.
Proof.
  intros Hl H. apply list_eq. intros i.
  destruct (Z.lt_ge_cases (Z.of_nat i) (numBits b)).
  - rewrite <- (Nat2Z.id i), bits_lookup, H by lia. done.
  - rewrite !lookup_ge_None_2; [done|lia|]. unfold bits. rewrite length_map, length_seqZ. lia.
Qed.

Lemma mask_pow which : 0 <= which -> mask which = 2 ^ (which mod 32).
Proof.
  intros H. unfold mask, u32. change BitsInWord with 32.
  rewrite Z.rem_mod_nonneg, Z.shiftl_1_l by lia.
  pose proof (Z.mod_pos_bound which 32). apply Z.mod_small.
  split; [apply Z.pow_nonneg; lia|]. apply Z.pow_lt_mono_r; lia.
Qed.

Lemma mask_testbit which k :
  0 <= which -> 0 <= k -> Z.testbit (mask which) k = (k =? which mod 32).
Proof.
  intros H Hk. pose proof (Z.mod_pos_bound which 32). rewrite mask_pow by done.
  rewrite Z.pow2_bits_eqb by lia. apply Z.eqb_sym.
Qed.

Lemma notmask_testbit which k :
  0 <= which -> 0 <= k < 32 -> Z.testbit (u32 (Z.lnot (mask which))) k = negb (k =? which mod 32).
Proof.
  intros H Hk. unfold u32. rewrite Z.mod_pow2_bits_low, Z.lnot_spec by lia.
  by rewrite mask_testbit by lia.
Qed.

Lemma u32_bits_high w k : is_u32 w -> 32 <= k -> Z.testbit w k = false.
Proof.
  intros [H0 H1] Hk. destruct (Z.eq_dec w 0) as [->|]; [apply Z.testbit_0_l|].
  apply Z.bits_above_log2; [lia|].
  apply Z.lt_le_trans with 32; [apply Z.log2_lt_pow2; lia|done].
Qed.

Lemma u32_of_bits w : 0 <= w -> (forall k, 32 <= k -> Z.testbit w k = false) -> is_u32 w.
Proof.
  intros H0 H. split; [done|]. destruct (Z.eq_dec w 0) as [->|]; [lia|].
  apply Z.log2_lt_pow2; [lia|]. destruct (Z.lt_ge_cases (Z.log2 w) 32) as [|Hge]; [done|].
  pose proof (Z.bit_log2 w). rewrite H in H1 by done. discriminate H1. lia.
Qed.

Lemma land_mask_testbit w which :
  0 <= which -> negb (Z.land w (mask which) =? 0) = Z.testbit w (which mod 32).
Proof.
  intros H. pose proof (Z.mod_pos_bound which 32).
  destruct (Z.testbit w (which mod 32)) eqn:E.
  - apply negb_true_iff, Z.eqb_neq. intros E0.
    apply (f_equal (fun z => Z.testbit z (which mod 32))) in E0.
    rewrite Z.land_spec, mask_testbit, E, Z.eqb_refl, Z.testbit_0_l in E0 by lia. done.
  - apply negb_false_iff, Z.eqb_eq. apply Z.bits_inj'. intros k Hk.
    rewrite Z.land_spec, mask_testbit, Z.testbit_0_l by lia.
    destruct (Z.eqb_spec k (which mod 32)) as [->|]; [by rewrite E|by rewrite andb_false_r].
Qed.

(** ** The operations on the bits *)

Lemma in_range_true b i : 0 <= i < numBits b -> in_range b i = true.
Proof. intros H. unfold in_range. apply andb_true_iff. lia. Qed.

Lemma word_index b i : wf b -> 0 <= i < numBits b ->
  Z.quot i BitsInWord = i / 32 /\ 0 <= i / 32 < Z.of_nat (length (words b)).
Proof.
  intros (H & Hn & Hl & _) Hi. change BitsInWord with 32.
  rewrite Z.quot_div_nonneg by lia. split; [done|].
  pose proof (divRoundUp_spec (numBits b) 32 ltac:(lia) ltac:(lia)).
  rewrite Hl, Hn. zify_div. lia.
Qed.

Lemma word_get b i : wf b -> 0 <= i < numBits b ->
  arr_get (words b) (Z.quot i BitsInWord) = Ok (words b !!! Z.to_nat (i / 32)) /\
  is_u32 (words b !!! Z.to_nat (i / 32)).
Proof.
  intros Hwf Hi. destruct (word_index b i Hwf Hi) as [E Hr]. rewrite E.
  destruct (arr_get_in_range _ _ Hr) as [w Hw]. pose proof Hw as Hw'.
  apply arr_get_Ok in Hw as [_ Hw]. rewrite (list_lookup_total_correct _ _ _ Hw).
  split; [done|]. destruct Hwf as (_ & _ & _ & Hu). rewrite Forall_lookup in Hu. by eapply Hu.
Qed.

Lemma Test_bit b i : wf b -> 0 <= i < numBits b -> Test i b = Ok (bit b i).
Proof.
  intros Hwf Hi. unfold Test. rewrite in_range_true by done. cbn [ASSERT rbind].
  rewrite (proj1 (word_get b i Hwf Hi)). cbn [rbind]. by rewrite land_mask_testbit by lia.
Qed.

(** Replacing the word of [i] by one that differs from it in bit [i] only. *)
Lemma set_word b i w v :
  wf b -> 0 <= i < numBits b -> is_u32 w ->
  (forall k, 0 <= k < 32 -> Z.testbit w k =
     if k =? i mod 32 then v else Z.testbit (words b !!! Z.to_nat (i / 32)) k) ->
  exists ws, arr_set (words b) (Z.quot i BitsInWord) w = Ok ws /\
    let b' := {| numBits := numBits b; numWords := numWords b; words := ws |} in
    wf b' /\ bit b' i = v /\ bits b' = <[Z.to_nat i := v]> (bits b).
Proof.
  intros Hwf Hi Hw Hk. destruct (word_index b i Hwf Hi) as [E Hr]. rewrite E.
  rewrite arr_set_in_range by done. eexists. split; [done|]. intros b'.
  assert (forall j, 0 <= j < numBits b -> bit b' j = if decide (i = j) then v else bit b j) as Hbit.
  { intros j Hj. unfold bit, b'; cbn [words].
    destruct (decide (Z.to_nat (i / 32) = Z.to_nat (j / 32))) as [Eq|Ne].
    - rewrite <- Eq, list_lookup_total_insert_eq by lia. rewrite Hk by (zify_div; lia).
      destruct (Z.eqb_spec (j mod 32) (i mod 32)); case_decide; try done; zify_div; lia.
    - rewrite list_lookup_total_insert_ne by done. rewrite decide_False; [done|]. congruence. }
  pose proof Hwf as (Hpos & Hn & Hl & Hu).
  split; [|split].
  - split_and!; [done|done|cbn; by rewrite length_insert|]. cbn. by apply Forall_insert.
  - rewrite Hbit by done. by rewrite decide_True.
  - apply bits_ext; [rewrite length_insert, length_bits by done; cbn; lia|].
    intros j Hj. cbn in Hj. rewrite Hbit by done. case_decide as Eij.
    + subst j. rewrite list_lookup_insert_eq; [done|]. pose proof (length_bits b Hwf). lia.
    + rewrite list_lookup_insert_ne by lia. by apply bits_lookup.
Qed.

Lemma Mark_bits b i : wf b -> 0 <= i < numBits b ->
  exists b', Mark i b = Ok b' /\ wf b' /\ numBits b' = numBits b /\
    bits b' = <[Z.to_nat i := true]> (bits b).
Proof.
  intros Hwf Hi. unfold Mark. rewrite in_range_true by done. cbn [ASSERT rbind].
  destruct (word_get b i Hwf Hi) as [-> Hu]. cbn [rbind].
  destruct (set_word b i (Z.lor (words b !!! Z.to_nat (i / 32)) (mask i)) true)
    as (ws & -> & Hwf' & Hb & Hbits); [done|done| | |].
  - apply u32_of_bits.
    + apply Z.lor_nonneg. split; [apply Hu|]. rewrite mask_pow by lia. apply Z.pow_nonneg. lia.
    + intros k Hk. pose proof (Z.mod_pos_bound i 32).
      rewrite Z.lor_spec, u32_bits_high, mask_testbit by (done || lia). cbn. lia.
  - intros k Hk. rewrite Z.lor_spec, mask_testbit by lia.
    destruct (k =? i mod 32); [by rewrite orb_true_r|by rewrite orb_false_r].
  - cbn [rbind]. rewrite Test_bit by done. cbn [rbind]. rewrite Hb. cbn [ASSERT rbind].
    eexists. split; [done|]. done.
Qed.

Lemma Clear_bits b i : wf b -> 0 <= i < numBits b ->
  exists b', Clear i b = Ok b' /\ wf b' /\ numBits b' = numBits b /\
    bits b' = <[Z.to_nat i := false]> (bits b).
Proof.
  intros Hwf Hi. unfold Clear. rewrite in_range_true by done. cbn [ASSERT rbind].
  destruct (word_get b i Hwf Hi) as [-> Hu]. cbn [rbind].
  destruct (set_word b i (Z.land (words b !!! Z.to_nat (i / 32)) (u32 (Z.lnot (mask i)))) false)
    as (ws & -> & Hwf' & Hb & Hbits); [done|done| | |].
  - apply u32_of_bits.
    + apply Z.land_nonneg. left. apply Hu.
    + intros k Hk. rewrite Z.land_spec, u32_bits_high by done. done.
  - intros k Hk. rewrite Z.land_spec, notmask_testbit by lia.
    destruct (k =? i mod 32); [by rewrite andb_false_r|by rewrite andb_true_r].
  - cbn [rbind]. rewrite Test_bit by done. cbn [rbind]. rewrite Hb. cbn [negb ASSERT rbind].
    eexists. split; [done|]. done.
Qed.

Lemma FindAndSet_bits b : wf b ->
  exists b', FindAndSet b = Ok (first_clear (bits b), b') /\ wf b' /\ numBits b' = numBits b /\
    bits b' = if first_clear (bits b) =? -1 then bits b
              else <[Z.to_nat (first_clear (bits b)) := true]> (bits b).
Proof.
  intros Hwf. unfold FindAndSet.
  set (p := fun i => if negb (bit b i) then
     match Mark i b with Ok b' => Some (i, b') | Err _ => None end else None).
  rewrite (for_break_first p).
  2:{ intros i Hi. destruct Hwf as [Hpos Hwf']. assert (wf b) as Hwf by (by split).
      rewrite Test_bit by (done || lia). cbn [rbind]. unfold p.
      destruct (Mark_bits b i Hwf ltac:(lia)) as (b' & -> & _). by destruct (negb (bit b i)). }
  cbn [rbind]. destruct (first_in _ 0 p) as [[i b']|] eqn:E.
  - apply first_in_Some in E as (j & Hj & Hpj & Hbefore). unfold p in Hpj.
    assert (0 < numBits b) by apply Hwf.
    destruct (Mark_bits b j Hwf ltac:(lia)) as (b1 & EM & Hwf' & Hnb & Hbits). rewrite EM in Hpj.
    destruct (bit b j) eqn:Ej; [discriminate Hpj|]. injection Hpj as <- <-.
    assert (first_clear (bits b) = j) as ->.
    { unfold first_clear. rewrite (proj2 (list_find_Some _ _ (Z.to_nat j) false)); [lia|].
      split_and!; [by rewrite bits_lookup, Ej by lia|done|].
      intros k y Hk Hlt Hy. subst y. specialize (Hbefore (Z.of_nat k) ltac:(lia)). unfold p in Hbefore.
      rewrite <- (Nat2Z.id k), bits_lookup in Hk by lia. injection Hk as Hk. rewrite Hk in Hbefore.
      destruct (Mark_bits b (Z.of_nat k) Hwf ltac:(lia)) as (b2 & EM2 & _). by rewrite EM2 in Hbefore. }
    rewrite (proj2 (Z.eqb_neq j (-1))) by lia. eauto.
  - assert (first_clear (bits b) = -1) as ->; [|eauto].
    unfold first_clear. rewrite (proj2 (list_find_None _ _)); [done|].
    apply Forall_lookup. intros k x Hx Hf. subst x.
    assert (Z.of_nat k < numBits b) as Hk
      by (apply lookup_lt_Some in Hx; rewrite <- (length_bits b Hwf); lia).
    rewrite <- (Nat2Z.id k), bits_lookup in Hx by lia. injection Hx as Hx.
    assert (p (Z.of_nat k) = None) as Hp by (apply (proj1 (first_in_None _ _ _) E); lia).
    unfold p in Hp. rewrite Hx in Hp.
    destruct (Mark_bits b (Z.of_nat k) Hwf ltac:(lia)) as (b2 & EM2 & _). by rewrite EM2 in Hp.
Qed.

Lemma count_fold (p : Z -> bool) l : forall c,
  foldl (fun count i => if negb (p i) then count + 1 else count) c l =
    c + num_clear (map p l).
Proof.
  unfold num_clear. induction l as [|i l IH]; intros c; cbn [foldl map]; [cbn; lia|].
  rewrite IH. destruct (p i); cbn [negb].
  - rewrite filter_cons_False by done. done.
  - rewrite filter_cons_True by done. cbn [length]. lia.
Qed.

Lemma NumClear_bits b : wf b -> NumClear b = Ok (num_clear (bits b)).
Proof.
  intros Hwf. assert (0 < numBits b) by apply Hwf. unfold NumClear.
  rewrite (for_range_fold (fun i count => if negb (bit b i) then count + 1 else count)).
  - rewrite Z2Nat.id by lia. by rewrite count_fold.
  - intros i c Hi. rewrite Test_bit by (done || lia). done.
Qed.

Lemma replicate_false_insert n i : <[i := false]> (replicate n false) = replicate n false.
Proof. apply insert_replicate. Qed.

Lemma Bitmap_fresh garbage n :
  0 < n -> divRoundUp n 32 <= Z.of_nat (length garbage) ->
  exists b, Bitmap garbage n = Ok b /\ wf b /\ numBits b = n /\ bits b = replicate (Z.to_nat n) false.
Proof.
  intros Hn Hg. unfold Bitmap. rewrite (proj2 (Z.ltb_lt 0 n)) by done. cbn [ASSERT rbind].
  change BitsInWord with 32. set (w := divRoundUp n 32) in *.
  assert (0 <= w) as Hw0 by (pose proof (divRoundUp_spec n 32); lia).
  destruct (for_range_inv (fun i (m : list Z) => Z.of_nat (length m) = w /\
      forall k, (Z.of_nat k < i) -> m !! k = Some 0) (Z.to_nat w) 0
      (fun i m => arr_set m i 0) (take (Z.to_nat w) garbage)) as (ws & -> & Hlw & Hz).
  { split; [rewrite length_take; lia|]. intros k Hk. lia. }
  { intros i m Hi [Hl Hk]. rewrite arr_set_in_range by lia. eexists. split; [done|].
    rewrite length_insert. split; [done|]. intros k Hlt.
    destruct (decide (Z.to_nat i = k)) as [<-|]; [apply list_lookup_insert_eq; lia|].
    rewrite list_lookup_insert_ne by done. apply Hk. lia. }
  cbn [rbind]. assert (ws = replicate (Z.to_nat w) 0) as ->.
  { apply list_eq_same_length with (n := Z.to_nat w); [by rewrite length_replicate|lia|].
    intros k x y Hk Hx Hy. rewrite Hz in Hx by lia. apply lookup_replicate in Hy as [-> _]. congruence. }
  destruct (for_range_inv (fun _ b => wf b /\ numBits b = n /\ bits b = replicate (Z.to_nat n) false)
    (Z.to_nat n) 0 Clear {| numBits := n; numWords := w; words := replicate (Z.to_nat w) 0 |})
    as (b & E & Hb); [| |by exists b].
  - split_and!; [|done|].
    + split_and!; [done|done|cbn; rewrite length_replicate; lia|]. apply Forall_replicate. zlia.
    + apply bits_ext; [rewrite length_replicate; cbn; lia|]. intros i Hi. cbn in Hi.
      rewrite lookup_replicate_2 by lia. unfold bit; cbn [words].
      rewrite (list_lookup_total_correct _ _ 0); [by rewrite Z.testbit_0_l|].
      apply lookup_replicate_2. pose proof (divRoundUp_spec n 32). zify_div. lia.
  - intros i b Hi (Hwf & Hnb & Hb). destruct (Clear_bits b i Hwf ltac:(lia)) as (b' & -> & Hwf' & Hnb' & Hb').
    exists b'. split; [done|]. rewrite Hb', Hb, Hnb', replicate_false_insert. done.
Qed.

#[global] Instance bitmap_allocator : Allocator bitmap.
Proof.
  refine {| al_wf := wf; view := bits; al_find := FindAndSet; al_clear := Clear;
            al_count := NumClear; al_test := Test |}.
  - intros b Hwf. destruct (FindAndSet_bits b Hwf) as (b' & ? & ? & _ & ?). eauto.
  - intros b i Hwf Hi. rewrite length_bits in Hi by done.
    destruct (Clear_bits b i Hwf Hi) as (b' & ? & ? & _ & ?). eauto.
  - exact NumClear_bits.
  - intros b i v Hwf Hi Hv. assert (i < numBits b) as Hlt.
    { apply lookup_lt_Some in Hv. pose proof (length_bits b Hwf). lia. }
    rewrite Test_bit by done. rewrite bits_lookup in Hv by done. by injection Hv as ->.
Defined.

(** ** Loops over all bits *)

(** Setting every bit to [v], one after the other. *)
Lemma all_bits op (v : bool) b :
  (forall b i, wf b -> 0 <= i < numBits b ->
     exists b', op i b = Ok b' /\ wf b' /\ numBits b' = numBits b /\
       bits b' = <[Z.to_nat i := v]> (bits b)) ->
  wf b ->
  exists b', for_range (Z.to_nat (numBits b)) 0 op b = Ok b' /\ wf b' /\ numBits b' = numBits b /\
    bits b' = replicate (Z.to_nat (numBits b)) v.
Proof.
  intros Hop Hwf. assert (0 < numBits b) as Hpos by apply Hwf.
  destruct (for_range_inv (fun i c => wf c /\ numBits c = numBits b /\
      forall k, 0 <= k < i -> bits c !! Z.to_nat k = Some v) (Z.to_nat (numBits b)) 0 op b)
    as (b' & E & Hwf' & Hnb & Hv).
  - split_and!; [done|done|]. intros. lia.
  - intros i c Hi (Hc & Hn & Hk). destruct (Hop c i Hc ltac:(lia)) as (c' & -> & Hc' & Hn' & Hb').
    exists c'. split; [done|]. split_and!; [done|congruence|]. intros k Hlt. rewrite Hb'.
    destruct (decide (k = i)) as [->|].
    + apply list_lookup_insert_eq. pose proof (length_bits c Hc). lia.
    + rewrite list_lookup_insert_ne by lia. apply Hk. lia.
  - exists b'. split_and!; [done|done|done|]. apply bits_ext; [rewrite length_replicate; lia|].
    intros k Hk. rewrite <- (bits_lookup b' k Hk), Hv by lia. apply lookup_replicate_2. lia.
Qed.

Lemma first_clear_prefix k n :
  (k < n)%nat -> forall l, l = replicate k true ++ replicate (n - k) false ->
  first_clear l = Z.of_nat k.
Proof.
  intros Hk l ->. unfold first_clear.
  rewrite (proj2 (list_find_Some _ _ k false)); [done|]. split_and!; [|done|].
  - rewrite lookup_app_r by (rewrite length_replicate; lia).
    rewrite length_replicate. apply lookup_replicate_2. lia.
  - intros j y Hy Hj ->. rewrite lookup_app_l in Hy by (rewrite length_replicate; lia).
    apply lookup_replicate in Hy as [? _]. done.
Qed.

Lemma first_clear_full n : first_clear (replicate n true) = -1.
Proof.
  unfold first_clear. rewrite (proj2 (list_find_None _ _)); [done|]. by apply Forall_replicate.
Qed.

Lemma num_clear_fresh n : num_clear (replicate n false) = Z.of_nat n.
Proof.
  unfold num_clear. f_equal. induction n as [|n IH]; [done|]. cbn [replicate].
  rewrite filter_cons_True by done. cbn [length]. lia.
Qed.

(** One step of a chain of operations: run it and keep its effect on the bits. *)
Ltac bitmap_step L :=
  let c := fresh "c" in let E := fresh "E" in let Hwf := fresh "Hwf" in
  let Hn := fresh "Hn" in let Hb := fresh "Hb" in
  destruct L as (c & E & Hwf & Hn & Hb); rewrite E; cbn [rbind].

Lemma SelfTest_fresh b :
  wf b -> bits b = replicate (Z.to_nat (numBits b)) false -> 32 <= numBits b ->
  exists b', SelfTest b = Ok b' /\ wf b' /\ bits b' = replicate (Z.to_nat (numBits b)) false.
Proof.
  intros Hwf Hb H32. set (n := Z.to_nat (numBits b)) in *. unfold SelfTest.
  assert (exists k, n = (32 + k)%nat) as [k Hk] by (exists (n - 32)%nat; lia).
  change BitsInWord with 32. rewrite (proj2 (Z.leb_le 32 _)) by done. cbn [ASSERT rbind].
  rewrite NumClear_bits, Hb, num_clear_fresh by done. cbn [rbind].
  rewrite (proj2 (Z.eqb_eq _ (numBits b))) by lia. cbn [ASSERT rbind].
  bitmap_step (FindAndSet_bits b Hwf). rewrite Hb in *.
  rewrite (first_clear_prefix 0 n) in * by (lia || by rewrite Nat.sub_0_r). cbn [Z.eqb ASSERT rbind] in *.
  bitmap_step (Mark_bits c 31 Hwf0 ltac:(lia)).
  rewrite !Test_bit by (done || lia). cbn [rbind].
  assert (bits c0 = true :: replicate 30 false ++ true :: replicate k false) as Hc0
    by (rewrite Hb1, Hb0, Hk, replicate_add; reflexivity).
  assert (bit c0 0 = true /\ bit c0 31 = true) as [-> ->].
  { split; apply Some_inj; rewrite <- bits_lookup, Hc0 by lia; reflexivity. }
  cbn [andb ASSERT rbind]. bitmap_step (FindAndSet_bits c0 Hwf1).
  assert (first_clear (bits c0) = 1) as F1 by (rewrite Hc0; reflexivity). rewrite F1 in *.
  cbn [Z.eqb ASSERT rbind] in *.
  bitmap_step (Clear_bits c1 0 Hwf2 ltac:(lia)). bitmap_step (Clear_bits c2 1 Hwf3 ltac:(lia)).
  bitmap_step (Clear_bits c3 31 Hwf4 ltac:(lia)).
  bitmap_step (all_bits Mark true c4 Mark_bits Hwf5). bitmap_step (FindAndSet_bits c5 Hwf6).
  rewrite Hb6, first_clear_full in *. cbn [Z.eqb ASSERT rbind] in *.
  bitmap_step (all_bits Clear false c6 Clear_bits Hwf7).
  exists c7. split_and!; [done|done|]. rewrite Hb8. f_equal. lia.
Qed.

(** ** Properties *)

(** A bitmap is an array of independent bits over its 32-bit words.  In
    range, [Test] reads bit [i], [Mark] and [Clear] change it and no other,
    [FindAndSet] returns the least clear bit and sets it, or returns -1 and
    changes nothing when there is none, and [NumClear] counts the clear bits;
    out of range, [Test], [Mark] and [Clear] fail their assertion. *)
Theorem bitmap_operations b i :
  wf b ->
  (0 <= i < numBits b ->
     (exists v, bits b !! Z.to_nat i = Some v /\ Test i b = Ok v) /\
     (exists b', Mark i b = Ok b' /\ wf b' /\ bits b' = <[Z.to_nat i := true]> (bits b)) /\
     (exists b', Clear i b = Ok b' /\ wf b' /\ bits b' = <[Z.to_nat i := false]> (bits b))) /\
  (~ 0 <= i < numBits b ->
     Test i b = Err AssertFailure /\ Mark i b = Err AssertFailure /\
     Clear i b = Err AssertFailure) /\
  (exists b', FindAndSet b = Ok (first_clear (bits b), b') /\ wf b' /\
     bits b' = if first_clear (bits b) =? -1 then bits b
               else <[Z.to_nat (first_clear (bits b)) := true]> (bits b)) /\
  NumClear b = Ok (num_clear (bits b)).
Proof.
  intros Hwf. split_and!.
  - intros Hi. split_and!.
    + exists (bit b i). by rewrite bits_lookup, Test_bit.
    + destruct (Mark_bits b i Hwf Hi) as (b' & ? & ? & _ & ?). eauto.
    + destruct (Clear_bits b i Hwf Hi) as (b' & ? & ? & _ & ?). eauto.
  - intros Hi. assert (in_range b i = false) as E by (unfold in_range; lia).
    unfold Test, Mark, Clear. by rewrite E.
  - destruct (FindAndSet_bits b Hwf) as (b' & ? & ? & _ & ?). eauto.
  - by apply NumClear_bits.
Qed.

Lemma bitmap_operations_witness :
  NumClear {| numBits := 33; numWords := 2; words := [5; 1] |} = Ok 30.
Proof.
  apply (bitmap_operations {| numBits := 33; numWords := 2; words := [5; 1] |} 0).
  split_and!; [cbn; lia|reflexivity|reflexivity|]. repeat constructor; zlia.
Defined.

(** A new bitmap has every bit clear, whatever the memory it was allocated
    in held, and if it has at least one word of bits its own self test runs to
    the end without a failed assertion and leaves every bit clear again. *)
Theorem bitmap_new_passes_selftest garbage n :
  0 < n -> divRoundUp n 32 <= Z.of_nat (length garbage) ->
  exists b, Bitmap garbage n = Ok b /\ wf b /\ bits b = replicate (Z.to_nat n) false /\
    (32 <= n -> exists b', SelfTest b = Ok b' /\ wf b' /\ bits b' = replicate (Z.to_nat n) false).
Proof.
  intros Hn Hg. destruct (Bitmap_fresh garbage n Hn Hg) as (b & E & Hwf & Hnb & Hb).
  exists b. split_and!; [done|done|done|]. intros H32. subst n. by apply SelfTest_fresh.
Qed.

Lemma bitmap_new_passes_selftest_witness :
  exists b, Bitmap [7; 9] 40 = Ok b /\ wf b /\ bits b = replicate 40 false /\
    (32 <= 40 -> exists b', SelfTest b = Ok b' /\ wf b' /\ bits b' = replicate 40 false).
Proof.
  apply (bitmap_new_passes_selftest [7; 9] 40); [lia|]. vm_compute. discriminate.
Defined.

End Bitmap.
