(* ===== verification/LinkedList.v ===== *)
(** * Linked lists (code/lib/list.h, code/lib/list.cc)

    The pointer structure of [List<T>] and [SortedList<T>] on a store of list
    elements, and its refinement of functional lists. *)

From S2P Require Import Prelude Ints.

Module LinkedList.

Section List.

Context {T : Type} `{EqDecision T}.

(** An element of the store; a pointer is [None] for NULL. *)
Record ListElement := mkElement {
  item : T;
  next : option Z
}.

(** A list object together with the store its elements live in.  [brk] is the
    address the next [new] returns; [delete] removes a cell. *)
Record list_state := mkList {
  cells : gmap Z ListElement;
  brk : Z;
  first : option Z;
  last : option Z;
  numInList : Z
}.

(** [List<T>::List] *)
Definition List (c : gmap Z ListElement) (b : Z) : list_state :=
  {| cells := c; brk := b; first := None; last := None; numInList := 0 |}.

(** [new ListElement<T>(item)] *)
Definition new_element (x : T) (s : list_state) : Z * list_state :=
  (brk s, {| cells := <[brk s := {| item := x; next := None |}]> (cells s); brk := brk s + 1;
             first := first s; last := last s; numInList := numInList s |}).

Definition set_next (p : option Z) (q : option Z) (s : list_state) : res list_state :=
  let* a := deref p in
  let* e := deref (cells s !! a) in
  Ok {| cells := <[a := {| item := item e; next := q |}]> (cells s); brk := brk s;
        first := first s; last := last s; numInList := numInList s |}.

Definition delete_element (p : option Z) (s : list_state) : res list_state :=
  let* a := deref p in
  Ok {| cells := delete a (cells s); brk := brk s;
        first := first s; last := last s; numInList := numInList s |}.

Definition set_ends (f l : option Z) (s : list_state) : list_state :=
  {| cells := cells s; brk := brk s; first := f; last := l; numInList := numInList s |}.

Definition add_count (d : Z) (s : list_state) : list_state :=
  {| cells := cells s; brk := brk s; first := first s; last := last s;
     numInList := s32 (numInList s + d) |}.

(** [p->item], [p->next] *)
Definition element (p : option Z) (s : list_state) : res ListElement :=
  let* a := deref p in deref (cells s !! a).

Definition IsEmpty (s : list_state) : bool := numInList s =? 0.

(** A walk along the list ends after at most as many steps as there are cells,
    or passes through a cell a second time and never ends. *)
Definition walk_fuel (s : list_state) : nat := S (size (cells s)).

Fixpoint IsInList_loop (fuel : nat) (x : T) (ptr : option Z) (s : list_state) : res bool :=
  match ptr with
  | None => Ok false
  | Some _ =>
      match fuel with
      | O => Err Diverges
      | S fuel' =>
          let* e := element ptr s in
          if decide (x = item e) then Ok true else IsInList_loop fuel' x (next e) s
      end
  end.

Definition IsInList (x : T) (s : list_state) : res bool :=
  IsInList_loop (walk_fuel s) x (first s) s.

Definition Append (x : T) (s : list_state) : res list_state :=
  let (e, s) := new_element x s in
  let* b := IsInList x s in
  ASSERT (negb b) ;;;
  let* s := if IsEmpty s then Ok (set_ends (Some e) (Some e) s)
            else let* s := set_next (last s) (Some e) s in Ok (set_ends (first s) (Some e) s) in
  let s := add_count 1 s in
  let* b := IsInList x s in
  ASSERT b ;;;
  Ok s.

Definition Prepend (x : T) (s : list_state) : res list_state :=
  let (e, s) := new_element x s in
  let* b := IsInList x s in
  ASSERT (negb b) ;;;
  let* s := if IsEmpty s then Ok (set_ends (Some e) (Some e) s)
            else let* s := set_next (Some e) (first s) s in Ok (set_ends (Some e) (last s) s) in
  let s := add_count 1 s in
  let* b := IsInList x s in
  ASSERT b ;;;
  Ok s.

Definition Front (s : list_state) : res T := let* e := element (first s) s in Ok (item e).

Definition RemoveFront (s : list_state) : res (T * list_state) :=
  let p := first s in
  ASSERT (negb (IsEmpty s)) ;;;
  let* e := element p s in
  let s := if decide (first s = last s) then set_ends None None s
           else set_ends (next e) (last s) s in
  let s := add_count (-1) s in
  let* s := delete_element p s in
  Ok (item e, s).

(** The loop of [Remove]: [true] when the item was unlinked. *)
Fixpoint Remove_loop (fuel : nat) (x : T) (prev ptr : option Z) (s : list_state)
  : res (bool * list_state) :=
  match ptr with
  | None => Ok (false, s)
  | Some _ =>
      match fuel with
      | O => Err Diverges
      | S fuel' =>
          let* e := element ptr s in
          if decide (x = item e) then
            let* s := set_next prev (next e) s in
            let s := match next e with
                     | None => set_ends (first s) prev s
                     | Some _ => s
                     end in
            let* s := delete_element ptr s in
            Ok (true, add_count (-1) s)
          else Remove_loop fuel' x ptr (next e) s
      end
  end.

Definition Remove (x : T) (s : list_state) : res list_state :=
  let* b := IsInList x s in
  ASSERT b ;;;
  let* f := element (first s) s in
  let* s :=
    if decide (x = item f) then
      let* (removed, s) := RemoveFront s in
      ASSERT (bool_decide (x = removed)) ;;;
      Ok s
    else
      let* (found, s) := Remove_loop (walk_fuel s) x (first s) (next f) s in
      ASSERT found ;;;
      Ok s in
  let* b := IsInList x s in
  ASSERT (negb b) ;;;
  Ok s.

(** [List<T>::Apply]: the items [func] is called with, in order; also what a
    [ListIterator] steps through. *)
Fixpoint Apply_loop (fuel : nat) (ptr : option Z) (s : list_state) : res (list T) :=
  match ptr with
  | None => Ok []
  | Some _ =>
      match fuel with
      | O => Err Diverges
      | S fuel' =>
          let* e := element ptr s in
          let* xs := Apply_loop fuel' (next e) s in
          Ok (item e :: xs)
      end
  end.

Definition Apply (s : list_state) : res (list T) := Apply_loop (walk_fuel s) (first s) s.

(** The loop of [SanityCheck], ended by its own assertion. *)
Fixpoint Sanity_loop (fuel : nat) (numFound : Z) (ptr : option Z) (s : list_state) : res Z :=
  if decide (ptr = last s) then Ok numFound else
  match fuel with
  | O => Err Diverges
  | S fuel' =>
      let numFound := numFound + 1 in
      ASSERT (numFound <=? numInList s) ;;;
      let* e := element ptr s in
      Sanity_loop fuel' numFound (next e) s
  end.

Definition SanityCheck (s : list_state) : res unit :=
  if decide (first s = None) then
    ASSERT ((numInList s =? 0) && bool_decide (last s = None))
  else if decide (first s = last s) then
    let* e := element (last s) s in
    ASSERT ((numInList s =? 1) && bool_decide (next e = None))
  else
    let* n := Sanity_loop (S (Z.to_nat (numInList s))) 1 (first s) s in
    ASSERT (n =? numInList s) ;;;
    let* e := element (last s) s in
    ASSERT (bool_decide (next e = None)).

(** ** Sorted lists *)

Context (compare : T -> T -> Z).

(** The loop of [SortedList<T>::Insert]: [true] when the element was linked in
    before a bigger one. *)
Fixpoint Insert_loop (fuel : nat) (x : T) (e : Z) (ptr : option Z) (s : list_state)
  : res (bool * list_state) :=
  match fuel with
  | O => Err Diverges
  | S fuel' =>
      let* n := element ptr s in
      match next n with
      | None => Ok (false, s)
      | Some _ =>
          let* m := element (next n) s in
          if compare x (item m) <? 0 then
            let* s := set_next (Some e) (next n) s in
            let* s := set_next ptr (Some e) s in
            Ok (true, add_count 1 s)
          else Insert_loop fuel' x e (next n) s
      end
  end.

Definition Insert (x : T) (s : list_state) : res list_state :=
  let (e, s) := new_element x s in
  let* b := IsInList x s in
  ASSERT (negb b) ;;;
  let finish (s : list_state) :=
    let s := add_count 1 s in
    let* b := IsInList x s in
    ASSERT b ;;;
    Ok s in
  if IsEmpty s then finish (set_ends (Some e) (Some e) s)
  else
    let* f := element (first s) s in
    if compare x (item f) <? 0 then
      let* s := set_next (Some e) (first s) s in
      finish (set_ends (Some e) (last s) s)
    else
      let* (inserted, s) := Insert_loop (walk_fuel s) x e (first s) s in
      if inserted then Ok s
      else
        let* s := set_next (last s) (Some e) s in
        finish (set_ends (first s) (Some e) s).

(** The loop of [SortedList<T>::SanityCheck]. *)
Fixpoint Sorted_loop (fuel : nat) (prev ptr : option Z) (s : list_state) : res unit :=
  match ptr with
  | None => Ok tt
  | Some _ =>
      match fuel with
      | O => Err Diverges
      | S fuel' =>
          let* a := element prev s in
          let* b := element ptr s in
          ASSERT (compare (item a) (item b) <=? 0) ;;;
          Sorted_loop fuel' ptr (next b) s
      end
  end.

Definition SortedSanityCheck (s : list_state) : res unit :=
  SanityCheck s ;;;
  if decide (first s = last s) then Ok tt
  else
    let* f := element (first s) s in
    Sorted_loop (walk_fuel s) (first s) (next f) s.

End List.

Arguments ListElement T : clear implicits.
Arguments list_state T : clear implicits.

(** ** Segments of a list *)

Section Refinement.

Context {T : Type} `{EqDecision T}.
Implicit Types (s : list_state T) (ns : list (Z * T)).

(** The cells [ns] (address and item), linked one after the other from [p] up
    to [q]. *)
Fixpoint seg (c : gmap Z (ListElement T)) (p : option Z) (ns : list (Z * T)) (q : option Z) : Prop :=
  match ns with
  | [] => p = q
  | (a, x) :: ns' =>
      p = Some a /\ exists n, c !! a = Some {| item := x; next := n |} /\ seg c n ns' q
  end.

Lemma seg_app c ns1 ns2 : forall p q,
  seg c p (ns1 ++ ns2) q <-> exists r, seg c p ns1 r /\ seg c r ns2 q.
Proof.
  induction ns1 as [|[a x] ns1 IH]; intros p q; cbn [app seg].
  - split; [eauto|]. intros (r & -> & H). done.
  - split.
    + intros (-> & n & Ha & H). apply IH in H as (r & H1 & H2). eauto 10.
    + intros (r & (-> & n & Ha & H1) & H2). split; [done|]. exists n. split; [done|].
      apply IH. eauto.
Qed.

(** Cells outside the segment do not matter. *)
Lemma seg_frame c c' ns : forall p q,
  (forall a, a ∈ ns.*1 -> c' !! a = c !! a) -> seg c p ns q -> seg c' p ns q.
Proof.
  induction ns as [|[a x] ns IH]; intros p q Hf H; cbn [seg] in *; [done|].
  destruct H as (-> & n & Ha & H). split; [done|]. exists n. rewrite Hf by (cbn; left).
  split; [done|]. apply IH; [|done]. intros b Hb. apply Hf. cbn. by right.
Qed.

Lemma seg_insert c ns p q a e : a ∉ ns.*1 -> seg c p ns q -> seg (<[a := e]> c) p ns q.
Proof.
  intros Ha. apply seg_frame. intros b Hb. apply lookup_insert_ne. by intros ->.
Qed.

Lemma seg_delete c ns p q a : a ∉ ns.*1 -> seg c p ns q -> seg (delete a c) p ns q.
Proof.
  intros Ha. apply seg_frame. intros b Hb. apply lookup_delete_ne. by intros ->.
Qed.

Lemma seg_in c ns p q a : seg c p ns q -> a ∈ ns.*1 -> is_Some (c !! a).
Proof.
  revert p. induction ns as [|[b x] ns IH]; intros p H Ha; cbn in *; [by apply elem_of_nil in Ha|].
  destruct H as (_ & n & Hb & H). apply elem_of_cons in Ha as [->|Ha]; [eauto|by eapply IH].
Qed.

(** The last cell of a segment points to where the segment ends. *)
Lemma seg_last c ns a x p q :
  seg c p (ns ++ [(a, x)]) q -> c !! a = Some {| item := x; next := q |}.
Proof.
  intros H. apply seg_app in H as (r & _ & H). cbn in H. destruct H as (-> & n & Ha & <-). done.
Qed.

(** Redirecting the last pointer of a segment. *)
Lemma seg_relink c ns a x p q q' :
  a ∉ ns.*1 -> seg c p (ns ++ [(a, x)]) q ->
  seg (<[a := {| item := x; next := q' |}]> c) p (ns ++ [(a, x)]) q'.
Proof.
  intros Ha H. apply seg_app in H as (r & H1 & H2). apply seg_app. exists r.
  split; [by apply seg_insert|]. cbn in *. destruct H2 as (-> & n & _ & _).
  split; [done|]. exists q'. by rewrite lookup_insert_eq.
Qed.

(** ** The invariant *)

(** [s] is a well-formed list object holding the items [l], in cells whose
    addresses were all allocated before. *)
Definition list_inv s ns : Prop :=
  seg (cells s) (first s) ns None /\ NoDup ns.*1 /\
  last s = fst <$> list.last ns /\
  numInList s = Z.of_nat (length ns) /\
  (forall a, is_Some (cells s !! a) -> a < brk s).

(** Lists are shorter than the range of an [int]. *)
Definition bounded ns : Prop := Z.of_nat (length ns) < 2 ^ 31 - 1.

(** [s] holds the items [l], which are distinct. *)
Definition list_rep s (l : list T) : Prop :=
  exists ns, list_inv s ns /\ bounded ns /\ ns.*2 = l /\ NoDup l.

Lemma brk_fresh s ns : list_inv s ns -> brk s ∉ ns.*1.
Proof.
  intros (Hseg & _ & _ & _ & Hb) Hin. pose proof (Hb _ (seg_in _ _ _ _ _ Hseg Hin)). lia.
Qed.

(** A segment fits in the fuel of a walk. *)
Lemma seg_size s ns p q : seg (cells s) p ns q -> NoDup ns.*1 -> (length ns < walk_fuel s)%nat.
Proof.
  intros H Hnd. unfold walk_fuel. apply Nat.lt_succ_r.
  rewrite <- (length_fmap fst), <- (size_list_to_set (C := gset Z)) by done.
  rewrite <- size_dom. apply subseteq_size. intros a Ha%elem_of_list_to_set.
  apply elem_of_dom. by eapply seg_in.
Qed.

Lemma IsInList_seg x s ns : forall fuel p,
  seg (cells s) p ns None -> (length ns <= fuel)%nat ->
  IsInList_loop fuel x p s = Ok (bool_decide (x ∈ ns.*2)).
Proof.
  induction ns as [|[a y] ns IH]; intros fuel p H Hf; cbn [seg] in H.
  - subst p. destruct fuel; cbn; by rewrite bool_decide_false by apply not_elem_of_nil.
  - destruct H as (-> & n & Ha & H). destruct fuel as [|fuel]; [cbn in Hf; lia|].
    cbn [IsInList_loop element deref rbind]. rewrite Ha. cbn [deref rbind item next].
    destruct (decide (x = y)) as [->|Hne].
    + rewrite bool_decide_true; [done|]. cbn. left.
    + rewrite IH by (done || cbn in Hf; lia). f_equal. apply bool_decide_ext. cbn.
      rewrite elem_of_cons. naive_solver.
Qed.

Lemma IsInList_inv x s ns : list_inv s ns -> IsInList x s = Ok (bool_decide (x ∈ ns.*2)).
Proof.
  intros H. destruct H as (Hseg & Hnd & _). apply IsInList_seg; [done|].
  pose proof (seg_size s ns _ _ Hseg Hnd). lia.
Qed.

Lemma Apply_seg s ns : forall fuel p,
  seg (cells s) p ns None -> (length ns <= fuel)%nat -> Apply_loop fuel p s = Ok ns.*2.
Proof.
  induction ns as [|[a y] ns IH]; intros fuel p H Hf; cbn [seg] in H.
  - subst p. by destruct fuel.
  - destruct H as (-> & n & Ha & H). destruct fuel as [|fuel]; [cbn in Hf; lia|].
    cbn [Apply_loop element deref rbind]. rewrite Ha. cbn [deref rbind item next].
    rewrite IH by (done || cbn in Hf; lia). done.
Qed.

Lemma IsEmpty_inv s ns : list_inv s ns -> IsEmpty s = bool_decide (ns = []).
Proof.
  intros (_ & _ & _ & Hn & _). unfold IsEmpty. rewrite Hn. destruct ns; [done|].
  rewrite bool_decide_false by done. cbn [length]. apply Z.eqb_neq. lia.
Qed.

(** Allocating an element keeps the list as it is. *)
Lemma new_element_inv x s ns :
  list_inv s ns -> list_inv (snd (new_element x s)) ns /\
  cells (snd (new_element x s)) !! brk s = Some {| item := x; next := None |}.
Proof.
  intros H. pose proof (brk_fresh _ _ H) as Hf. destruct H as (Hseg & Hnd & Hl & Hn & Hb).
  cbn. rewrite lookup_insert_eq. split; [|done]. split_and!; cbn; [by apply seg_insert|done|done|done|].
  intros a [e Ha]. destruct (decide (brk s = a)) as [->|]; [lia|].
  rewrite lookup_insert_ne in Ha by done. specialize (Hb a (ex_intro _ _ Ha)). lia.
Qed.

(** ** Linking elements in *)

(** An element [e] that was allocated for [x] and is not linked yet. *)
Definition loose s ns (e : Z) (x : T) : Prop :=
  cells s !! e = Some {| item := x; next := None |} /\ e ∉ ns.*1.

Lemma new_element_loose x s ns :
  list_inv s ns -> loose (snd (new_element x s)) ns (brk s) x.
Proof.
  intros H. split; [by apply (new_element_inv x s ns)|by apply brk_fresh].
Qed.

Lemma set_next_Ok s a e q :
  cells s !! a = Some e ->
  set_next (Some a) q s =
    Ok {| cells := <[a := {| item := item e; next := q |}]> (cells s); brk := brk s;
          first := first s; last := last s; numInList := numInList s |}.
Proof. intros Ha. unfold set_next. cbn [deref rbind]. by rewrite Ha. Qed.

Lemma count_up s n ns' :
  numInList s = Z.of_nat n -> Z.of_nat n < 2 ^ 31 - 1 -> length ns' = S n ->
  s32 (numInList s + 1) = Z.of_nat (length (A := Z * T) ns').
Proof. intros -> H ->. rewrite s32_id; [lia|]. unfold is_s32. lia. Qed.

Lemma count_down s n :
  numInList s = Z.of_nat (S n) -> Z.of_nat n < 2 ^ 31 - 1 ->
  s32 (numInList s + -1) = Z.of_nat n.
Proof. intros -> H. rewrite s32_id; [lia|]. unfold is_s32. lia. Qed.

Lemma list_inv_cells s ns (c : gmap Z (ListElement T)) :
  list_inv s ns -> forall a e, is_Some (cells s !! a) -> c = <[a := e]> (cells s) ->
  forall b, is_Some (c !! b) -> b < brk s.
Proof.
  intros (_ & _ & _ & _ & Hb) a e Ha -> b Hin. destruct (decide (a = b)) as [->|]; [by apply Hb|].
  rewrite lookup_insert_ne in Hin by done. by apply Hb.
Qed.

(** As the last element. *)
Lemma link_last s ns e x :
  list_inv s ns -> bounded ns -> loose s ns e x ->
  exists s', (if IsEmpty s then Ok (set_ends (Some e) (Some e) s)
              else let* s := set_next (last s) (Some e) s in Ok (set_ends (first s) (Some e) s)) = Ok s' /\
    list_inv (add_count 1 s') (ns ++ [(e, x)]).
Proof.
  intros Hinv Hbd [He Hfresh]. pose proof Hinv as (Hseg & Hnd & Hl & Hn & Hb).
  rewrite (IsEmpty_inv _ _ Hinv).
  destruct ns as [|[a y] ns0 _] using rev_ind.
  - rewrite bool_decide_true by done. eexists. split; [done|].
    split_and!; cbn; [|apply NoDup_singleton|done|by rewrite Hn|done].
    split; [done|]. eauto.
  - rewrite bool_decide_false by (by destruct ns0).
    assert (cells s !! a = Some {| item := y; next := None |}) as Ha by (by eapply seg_last).
    rewrite Hl, last_snoc. cbn [fmap option_fmap option_map fst].
    rewrite (set_next_Ok _ _ _ _ Ha). cbn [rbind]. eexists. split; [done|].
    rewrite fmap_app in Hnd, Hfresh. cbn in Hnd, Hfresh.
    apply NoDup_app in Hnd as (Hnd0 & Hdis & _). rewrite not_elem_of_app in Hfresh.
    assert (e <> a) as Hea by set_solver.
    split_and!; cbn [cells first last numInList brk add_count set_ends].
    + apply seg_app. exists (Some e). split.
      * apply seg_relink with (q := None); [|done]. intros Hin. by apply (Hdis a Hin), list_elem_of_singleton.
      * cbn. split; [done|]. exists None. rewrite lookup_insert_ne by done. done.
    + rewrite !fmap_app. cbn. apply NoDup_app. split; [apply NoDup_app; split_and!; [done|done|apply NoDup_singleton]|].
      split; [|apply NoDup_singleton]. intros z Hz. rewrite list_elem_of_singleton. intros ->.
      apply elem_of_app in Hz as [?|?%list_elem_of_singleton]; tauto || congruence.
    + by rewrite last_snoc.
    + eapply count_up; [done|done|]. rewrite (length_app (ns0 ++ [(a, y)])). cbn. lia.
    + by eapply list_inv_cells.
Qed.

(** As the first element. *)
Lemma link_first s ns e x :
  list_inv s ns -> bounded ns -> loose s ns e x -> ns <> [] ->
  exists s', (let* s := set_next (Some e) (first s) s in Ok (set_ends (Some e) (last s) s)) = Ok s' /\
    list_inv (add_count 1 s') ((e, x) :: ns).
Proof.
  intros Hinv Hbd [He Hfresh] Hne. pose proof Hinv as (Hseg & Hnd & Hl & Hn & Hb).
  rewrite (set_next_Ok _ _ _ _ He). cbn [rbind]. eexists. split; [done|].
  split_and!; cbn [cells first last numInList brk add_count set_ends].
  - cbn. split; [done|]. exists (first s). rewrite lookup_insert_eq. split; [done|]. by apply seg_insert.
  - cbn. by constructor.
  - rewrite Hl. by destruct ns.
  - eapply count_up; done.
  - by eapply list_inv_cells.
Qed.

(** ** The operations *)

(** The state after the new element was allocated: what every insertion starts
    with, and the assertion that the item is not there yet. *)
Lemma not_in_ok {B} (x : T) s ns (k : res B) :
  list_inv s ns -> x ∉ ns.*2 -> (let* b := IsInList x s in ASSERT (negb b) ;;; k) = k.
Proof.
  intros H Hx. rewrite (IsInList_inv _ _ _ H), bool_decide_false by done. done.
Qed.

Lemma in_ok (x : T) s ns :
  list_inv s ns -> x ∈ ns.*2 -> (let* b := IsInList x s in ASSERT b ;;; Ok s) = Ok s.
Proof.
  intros H Hx. rewrite (IsInList_inv _ _ _ H), bool_decide_true by done. done.
Qed.

Lemma duplicate_fails {B} (x : T) s ns (k : res B) :
  list_inv s ns -> x ∈ ns.*2 -> (let* b := IsInList x s in ASSERT (negb b) ;;; k) = Err AssertFailure.
Proof.
  intros H Hx. rewrite (IsInList_inv _ _ _ H), bool_decide_true by done. done.
Qed.

Lemma Append_inv x s ns :
  list_inv s ns -> bounded ns -> x ∉ ns.*2 ->
  exists s', Append x s = Ok s' /\ list_inv s' (ns ++ [(brk s, x)]).
Proof.
  intros H Hb Hx. destruct (new_element_inv x s ns H) as [H1 _].
  pose proof (new_element_loose x s ns H) as Hloose. unfold Append.
  change (new_element x s) with (brk s, snd (new_element x s)). cbv beta iota.
  set (s1 := snd (new_element x s)) in *. rewrite (not_in_ok _ _ ns) by done.
  destruct (link_last s1 ns (brk s) x H1 Hb Hloose) as (s2 & -> & H2). cbn [rbind].
  rewrite (in_ok _ _ _ H2); [eauto|]. rewrite fmap_app. apply elem_of_app. right. cbn. left.
Qed.

Lemma Prepend_inv x s ns :
  list_inv s ns -> bounded ns -> x ∉ ns.*2 ->
  exists s', Prepend x s = Ok s' /\ list_inv s' ((brk s, x) :: ns).
Proof.
  intros H Hb Hx. destruct (new_element_inv x s ns H) as [H1 _].
  pose proof (new_element_loose x s ns H) as Hloose. unfold Prepend.
  change (new_element x s) with (brk s, snd (new_element x s)). cbv beta iota.
  set (s1 := snd (new_element x s)) in *. rewrite (not_in_ok _ _ ns) by done.
  destruct (decide (ns = [])) as [->|Hne].
  - destruct (link_last s1 [] (brk s) x H1 Hb Hloose) as (s2 & E2 & H2).
    rewrite (IsEmpty_inv _ _ H1), bool_decide_true in * by done. rewrite E2. cbn [rbind].
    rewrite (in_ok _ _ _ H2); [eauto|]. cbn. left.
  - destruct (link_first s1 ns (brk s) x H1 Hb Hloose Hne) as (s2 & E2 & H2).
    rewrite (IsEmpty_inv _ _ H1), bool_decide_false by done. rewrite E2. cbn [rbind].
    rewrite (in_ok _ _ _ H2); [eauto|]. cbn. left.
Qed.

Lemma RemoveFront_inv s a x ns :
  list_inv s ((a, x) :: ns) -> bounded ns ->
  exists s', RemoveFront s = Ok (x, s') /\ list_inv s' ns.
Proof.
  intros H Hb. pose proof H as ((Hf & n & Ha & Hseg) & Hnd & Hl & Hn & Hbrk).
  unfold RemoveFront. rewrite (IsEmpty_inv _ _ H), bool_decide_false by done. cbn [negb ASSERT rbind].
  unfold element. rewrite Hf. cbn [deref rbind]. rewrite Ha. cbn [deref rbind item next delete_element].
  eexists. split; [done|]. cbn in Hnd. apply NoDup_cons in Hnd as [Hna Hnd].
  assert (forall s1, cells s1 = cells s -> brk s1 = brk s ->
    forall b, is_Some (delete a (cells s1) !! b) -> b < brk s1) as Hdel.
  { intros s1 -> -> b [e Hb']. apply lookup_delete_Some in Hb' as [_ Hb']. apply Hbrk. eauto. }
  destruct ns as [|[b y] ns].
  - rewrite decide_True by (rewrite Hl; done). cbn in Hseg. subst n.
    split_and!; cbn; [done|constructor| done|by rewrite Hn|by apply (Hdel s)].
  - rewrite decide_False.
    2:{ rewrite Hl. cbn [list.last]. destruct (list.last ((b, y) :: ns)) as [[z w]|] eqn:El;
          [|by apply last_None in El]. cbn. intros [= ->].
        apply Hna. rewrite last_lookup in El. apply list_elem_of_lookup_2 in El.
        apply list_elem_of_fmap. by exists (z, w). }
    split_and!; cbn [cells first last numInList brk add_count set_ends].
    + by apply seg_delete.
    + done.
    + rewrite Hl. done.
    + eapply count_down; [by rewrite Hn|done].
    + by apply (Hdel s).
Qed.

(** Unlinking a later element: [ns1] are the cells passed so far, the last of
    them the one [prev] points to. *)
Lemma Remove_loop_inv x ns2 : forall fuel s ns1 p y,
  list_inv s (ns1 ++ (p, y) :: ns2) -> bounded (ns1 ++ (p, y) :: ns2) ->
  (length ns2 <= fuel)%nat -> x ∈ ns2.*2 ->
  exists s' a m1 m2 nx, ns2 = m1 ++ (a, x) :: m2 /\ x ∉ m1.*2 /\
    cells s !! p = Some {| item := y; next := nx |} /\
    Remove_loop fuel x (Some p) nx s = Ok (true, s') /\
    list_inv s' (ns1 ++ (p, y) :: m1 ++ m2).
Proof.
  induction ns2 as [|[a z] ns2 IH]; intros fuel s ns1 p y H Hb Hf Hx; [by apply elem_of_nil in Hx|].
  pose proof H as (Hseg & Hnd & Hl & Hn & Hbrk).
  apply seg_app in Hseg as (r & Hseg1 & Hr & nx & Hp & Hseg2).
  pose proof Hseg2 as (Hnx & nn & Ha & Hseg3). subst r nx.
  destruct fuel as [|fuel]; [cbn in Hf; lia|].
  destruct (decide (x = z)) as [<-|Hne].
  - exists (add_count (-1) {| cells := delete a (<[p := {| item := y; next := nn |}]> (cells s));
       brk := brk s; first := first s;
       last := match nn with None => Some p | Some _ => last s end; numInList := numInList s |}),
      a, [], ns2, (Some a). split; [done|]. split; [apply not_elem_of_nil|]. split; [done|].
    split.
    { cbn [Remove_loop element deref rbind]. rewrite Ha. cbn [deref rbind item next].
      rewrite decide_True by done. rewrite (set_next_Ok _ _ _ _ Hp). cbn [rbind item].
      by destruct nn. }
    rewrite fmap_app, !fmap_cons in Hnd. cbn [fst] in Hnd.
    apply NoDup_app in Hnd as (Hnd1 & Hdis & Hnd2).
    apply NoDup_cons in Hnd2 as [Hp2 Hnd2]. apply NoDup_cons in Hnd2 as [Ha2 Hnd2].
    assert (a ∉ ns1.*1 /\ p ∉ ns1.*1) as [Ha1 Hp1]
      by (split; intros Hin; by destruct (Hdis _ Hin); rewrite !elem_of_cons; auto).
    apply not_elem_of_cons in Hp2 as [Hpa Hp2].
    split_and!; cbn [cells first last numInList brk add_count app].
    + apply seg_app. exists (Some p). split; [by apply seg_delete, seg_insert|].
      cbn. split; [done|]. exists nn. rewrite lookup_delete_ne, lookup_insert_eq by done.
      split; [done|]. by apply seg_delete, seg_insert.
    + rewrite fmap_app, fmap_cons. apply NoDup_app. split; [done|]. split; [|by constructor].
      intros w Hw Hin. apply (Hdis w Hw). rewrite !elem_of_cons in *. tauto.
    + destruct ns2 as [|[b w] ns2]; cbn in Hseg3.
      * subst nn. by rewrite last_snoc.
      * destruct Hseg3 as (-> & _). rewrite Hl, !last_app. done.
    + apply (count_down s (length (ns1 ++ (p, y) :: ns2))).
      * rewrite Hn, !length_app. cbn. lia.
      * unfold bounded in Hb. rewrite length_app in *. cbn in *. lia.
    + intros b [e Hin]. apply lookup_delete_Some in Hin as [_ Hin].
      eapply list_inv_cells; [done| |done|by eexists]. by eexists.
  - cbn in Hx. apply elem_of_cons in Hx as [?|Hx]; [done|].
    destruct (IH fuel s (ns1 ++ [(p, y)]) a z) as (s' & b & m1 & m2 & nx & E & Hm & Hc & EL & Hi).
    + by rewrite <- app_assoc.
    + by rewrite <- app_assoc.
    + cbn in Hf. lia.
    + done.
    + rewrite Ha in Hc. injection Hc as <-.
      exists s', b, ((a, z) :: m1), m2, (Some a). split; [by rewrite E|].
      split; [cbn; rewrite elem_of_cons; tauto|]. split; [done|]. split.
      * cbn [Remove_loop element deref rbind]. rewrite Ha. cbn [deref rbind item next].
        by rewrite decide_False.
      * by rewrite <- app_assoc in Hi.
Qed.

Lemma Remove_inv x s ns :
  list_inv s ns -> bounded ns -> NoDup ns.*2 -> x ∈ ns.*2 ->
  exists s' ns', Remove x s = Ok s' /\ list_inv s' ns' /\ (length ns' <= length ns)%nat /\
    ns'.*2 = filter (fun y => y <> x) ns.*2.
Proof.
  intros H Hb Hnd Hx. unfold Remove. rewrite (IsInList_inv _ _ _ H), bool_decide_true by done.
  cbn [rbind ASSERT]. destruct ns as [|[p y] ns]; [by apply elem_of_nil in Hx|].
  pose proof H as ((Hf & n & Hp & Hseg) & Hnd1 & _).
  unfold element at 1. rewrite Hf. cbn [deref rbind]. rewrite Hp. cbn [deref rbind item next].
  cbn in Hnd. apply NoDup_cons in Hnd as [Hyn Hnd].
  assert (bounded ns) as Hb' by (unfold bounded in *; cbn in Hb; lia).
  destruct (decide (x = y)) as [->|Hne].
  - destruct (RemoveFront_inv s p y ns H Hb') as (s' & -> & Hs'). cbn [rbind].
    rewrite bool_decide_true by done. cbn [ASSERT rbind]. rewrite (not_in_ok _ _ ns) by done.
    exists s', ns. split_and!; [done|done|cbn; lia|]. rewrite fmap_cons. cbn [snd].
    rewrite filter_cons_False by naive_solver. symmetry. by apply filter_ne_id.
  - cbn in Hx. apply elem_of_cons in Hx as [?|Hx]; [done|].
    assert (NoDup ((p, y) :: ns).*1) as Hnd1' by done.
    pose proof (seg_size s ((p, y) :: ns) _ _ (proj1 H) Hnd1') as Hsz. cbn in Hsz.
    destruct (Remove_loop_inv x ns (walk_fuel s) s [] p y H Hb ltac:(lia) Hx)
      as (s' & a & m1 & m2 & nx & -> & Hm & Hc & EL & Hi).
    rewrite Hp in Hc. injection Hc as <-. rewrite EL. cbn [rbind ASSERT].
    rewrite fmap_app in Hnd. cbn in Hnd. apply NoDup_app in Hnd as (_ & Hdis & Hm2).
    apply NoDup_cons in Hm2 as [Hxm2 _].
    assert (x ∉ ((p, y) :: m1 ++ m2).*2) as Hxn.
    { cbn. rewrite fmap_app, elem_of_cons, elem_of_app. tauto. }
    rewrite (not_in_ok _ _ ((p, y) :: m1 ++ m2)) by done.
    exists s', ((p, y) :: m1 ++ m2). split_and!; [done|done|cbn; rewrite !length_app; cbn; lia|].
    rewrite !fmap_cons. cbn [snd]. rewrite filter_cons_True by done. f_equal.
    rewrite !fmap_app, fmap_cons, filter_app, filter_cons_False by naive_solver.
    by rewrite !filter_ne_id.
Qed.

(** ** Consistency checks *)

Lemma Sanity_loop_seg s ns : forall fuel k p,
  ns <> [] -> seg (cells s) p ns None -> NoDup ns.*1 -> last s = fst <$> list.last ns ->
  k + Z.of_nat (length ns) - 1 <= numInList s -> (length ns <= fuel)%nat ->
  Sanity_loop fuel k p s = Ok (k + Z.of_nat (length ns) - 1).
Proof.
  induction ns as [|[a x] ns IH]; intros fuel k p Hne Hseg Hnd Hl Hk Hf; [done|].
  destruct Hseg as (-> & n & Ha & Hseg). destruct ns as [|[b y] ns].
  - cbn in Hl. destruct fuel; [cbn in Hf; lia|]. cbn [Sanity_loop].
    rewrite Hl, decide_True by done. f_equal. cbn. lia.
  - destruct fuel as [|fuel]; [cbn in Hf; lia|]. cbn [Sanity_loop].
    cbn in Hnd. apply NoDup_cons in Hnd as [Hna Hnd].
    rewrite decide_False.
    2:{ rewrite Hl. intros E. apply Hna.
        destruct (list.last ((a, x) :: (b, y) :: ns)) as [[z w]|] eqn:El; [|done].
        cbn in E. injection E as <-. rewrite last_cons_cons, last_lookup in El.
        apply list_elem_of_lookup_2 in El. apply (list_elem_of_fmap_2 fst) in El. done. }
    cbn in Hk. rewrite (proj2 (Z.leb_le _ _)) by lia. cbn [ASSERT rbind].
    unfold element; cbn [deref rbind]; rewrite Ha; cbn [deref rbind next].
    rewrite IH; [f_equal; cbn; lia|done|done|done|done|cbn; lia|cbn in *; lia].
Qed.

Lemma SanityCheck_inv s ns : list_inv s ns -> SanityCheck s = Ok tt.
Proof.
  intros (Hseg & Hnd & Hl & Hn & _). unfold SanityCheck. destruct ns as [|[a x] ns].
  - cbn in Hseg. rewrite decide_True, Hn, Hl by done. done.
  - pose proof Hseg as (Hf & n & Ha & Hseg'). rewrite decide_False by (by rewrite Hf).
    assert (exists b y, last s = Some b /\ cells s !! b = Some {| item := y; next := None |})
      as (b & y & Hlast & Hb).
    { clear - Hseg Hl. destruct ((a, x) :: ns) as [|[b y] ms _] eqn:E using rev_ind; [done|].
      exists b, y. rewrite last_snoc in Hl. split; [done|]. by eapply seg_last. }
    case_decide as Heq.
    + rewrite Hlast. unfold element; cbn [deref rbind]; rewrite Hb; cbn [deref rbind next].
      destruct ns as [|[c z] ns]; [by rewrite Hn|].
      exfalso. cbn in Hnd. apply NoDup_cons in Hnd as [Hna _]. apply Hna.
      rewrite Hf, Hl, last_cons_cons in Heq.
      destruct (list.last ((c, z) :: ns)) as [[d w]|] eqn:El; [|done]. cbn in Heq. injection Heq as ->.
      rewrite last_lookup in El. apply list_elem_of_lookup_2 in El.
      by apply (list_elem_of_fmap_2 fst) in El.
    + rewrite (Sanity_loop_seg s ((a, x) :: ns)) by (done || lia). cbn [rbind].
      rewrite (proj2 (Z.eqb_eq _ _)) by lia. cbn [ASSERT rbind].
      rewrite Hlast. unfold element; cbn [deref rbind]; rewrite Hb. done.
Qed.

(** ** Functional view *)

Lemma rep_bounded s l : list_rep s l -> Z.of_nat (length l) < 2 ^ 31 - 1.
Proof. intros (ns & _ & Hb & <- & _). by rewrite length_fmap. Qed.

Lemma Append_rep x s l :
  list_rep s l -> x ∉ l -> Z.of_nat (length l) + 1 < 2 ^ 31 - 1 ->
  exists s', Append x s = Ok s' /\ list_rep s' (l ++ [x]).
Proof.
  intros (ns & H & Hb & <- & Hnd) Hx Hlen. destruct (Append_inv x s ns H Hb Hx) as (s' & E & H').
  exists s'. split; [done|]. exists (ns ++ [(brk s, x)]). rewrite fmap_app. split_and!; [done| |done|].
  - unfold bounded. rewrite length_fmap in Hlen. rewrite length_app. cbn. lia.
  - apply NoDup_app. split_and!; [done| |apply NoDup_singleton].
    intros y Hy Hin. apply list_elem_of_singleton in Hin. by subst.
Qed.

Lemma Prepend_rep x s l :
  list_rep s l -> x ∉ l -> Z.of_nat (length l) + 1 < 2 ^ 31 - 1 ->
  exists s', Prepend x s = Ok s' /\ list_rep s' (x :: l).
Proof.
  intros (ns & H & Hb & <- & Hnd) Hx Hlen. destruct (Prepend_inv x s ns H Hb Hx) as (s' & E & H').
  exists s'. split; [done|]. exists ((brk s, x) :: ns). split_and!; [done| |done|by constructor].
  unfold bounded. rewrite length_fmap in Hlen. cbn. lia.
Qed.

Lemma RemoveFront_rep s x l :
  list_rep s (x :: l) -> exists s', RemoveFront s = Ok (x, s') /\ list_rep s' l.
Proof.
  intros (ns & H & Hb & E & Hnd). destruct ns as [|[a y] ns]; [done|].
  rewrite fmap_cons in E. cbn in E. injection E as -> <-. apply NoDup_cons in Hnd as [_ Hnd].
  assert (bounded ns) as Hb' by (unfold bounded in *; cbn in Hb; lia).
  destruct (RemoveFront_inv s a x ns H Hb') as (s' & E & H'). exists s'. split; [done|]. by exists ns.
Qed.

Lemma Remove_rep x s l :
  list_rep s l -> x ∈ l ->
  exists s', Remove x s = Ok s' /\ list_rep s' (filter (fun y => y <> x) l).
Proof.
  intros (ns & H & Hb & <- & Hnd) Hx.
  destruct (Remove_inv x s ns H Hb Hnd Hx) as (s' & ns' & E & H' & Hl & Hf).
  exists s'. split; [done|]. exists ns'. split_and!; [done|unfold bounded in *; lia|done|].
  by apply NoDup_filter.
Qed.

Lemma IsInList_rep x s l : list_rep s l -> IsInList x s = Ok (bool_decide (x ∈ l)).
Proof. intros (ns & H & _ & <- & _). by apply IsInList_inv. Qed.

Lemma Apply_rep s l : list_rep s l -> Apply s = Ok l.
Proof.
  intros (ns & (Hseg & Hnd & _) & _ & <- & _). apply Apply_seg; [done|].
  pose proof (seg_size s ns _ _ Hseg Hnd). lia.
Qed.

Lemma IsEmpty_rep s l : list_rep s l -> IsEmpty s = bool_decide (l = []).
Proof.
  intros (ns & H & _ & <- & _). rewrite (IsEmpty_inv _ _ H). by destruct ns.
Qed.

Lemma SanityCheck_rep s l : list_rep s l -> SanityCheck s = Ok tt.
Proof. intros (ns & H & _). by eapply SanityCheck_inv. Qed.

Lemma List_rep c b : (forall a, is_Some (c !! a) -> a < b) -> list_rep (List c b) [].
Proof.
  intros Hb. exists []. split_and!; [|unfold bounded; cbn; lia|done|constructor].
  split_and!; cbn; done || constructor.
Qed.

(** ** Sorted insertion *)

Section Sorted.

Context (compare : T -> T -> Z).

(** Before the first bigger element. *)
Fixpoint ins (x : T) (l : list T) : list T :=
  match l with
  | [] => [x]
  | y :: l' => if compare x y <? 0 then x :: l else y :: ins x l'
  end.

Lemma ins_app x m l : Forall (fun y => compare x y <? 0 = false) m -> ins x (m ++ l) = m ++ ins x l.
Proof.
  induction 1 as [|y m Hy _ IH]; [done|]. cbn [app ins]. by rewrite Hy, IH.
Qed.

Lemma Insert_loop_inv x e ns2 : forall fuel s ns1 p y,
  list_inv s (ns1 ++ (p, y) :: ns2) -> bounded (ns1 ++ (p, y) :: ns2) ->
  loose s (ns1 ++ (p, y) :: ns2) e x -> (length ns2 < fuel)%nat ->
  (Forall (fun z => compare x z <? 0 = false) ns2.*2 /\
     Insert_loop compare fuel x e (Some p) s = Ok (false, s)) \/
  exists s' m1 a z m2, ns2 = m1 ++ (a, z) :: m2 /\ compare x z <? 0 = true /\
    Forall (fun z => compare x z <? 0 = false) m1.*2 /\
    Insert_loop compare fuel x e (Some p) s = Ok (true, s') /\
    list_inv s' (ns1 ++ (p, y) :: m1 ++ (e, x) :: (a, z) :: m2).
Proof.
  induction ns2 as [|[a z] ns2 IH]; intros fuel s ns1 p y H Hb Hloose Hf;
    (destruct fuel as [|fuel]; [cbn in Hf; lia|]);
    pose proof H as (Hseg & Hnd & Hl & Hn & Hbrk);
    apply seg_app in Hseg as (r & Hseg1 & Hr & nx & Hp & Hseg2);
    cbn [Insert_loop element deref rbind]; rewrite Hp; cbn [deref rbind next].
  - cbn in Hseg2. subst nx. left. split; [constructor|done].
  - pose proof Hseg2 as (Hnx & nn & Ha & Hseg3). subst r nx. cbn [element deref rbind].
    rewrite Ha. cbn [deref rbind item]. destruct (compare x z <? 0) eqn:Ez.
    + right. destruct Hloose as [He Hfresh].
      rewrite fmap_app, !fmap_cons in Hnd, Hfresh. cbn [fst] in Hnd, Hfresh.
      apply NoDup_app in Hnd as (Hnd1 & Hdis & Hnd2). pose proof Hnd2 as Hnd2'.
      apply NoDup_cons in Hnd2' as [Hp2 Hnd3]. rewrite not_elem_of_app, !not_elem_of_cons in Hfresh.
      destruct Hfresh as (He1 & Hep & Hea & He2).
      assert (p ∉ ns1.*1) as Hp1 by (intros Hin; by destruct (Hdis _ Hin); rewrite elem_of_cons; auto).
      rewrite (set_next_Ok _ _ _ _ He). cbn [rbind item].
      rewrite (set_next_Ok _ p {| item := y; next := Some a |}) by (cbn; by rewrite lookup_insert_ne).
      cbn [rbind item cells brk first last numInList].
      eexists _, [], a, z, ns2. split; [done|]. split; [done|]. split; [constructor|]. split; [done|].
      split_and!; cbn [cells first last numInList brk add_count app].
      * apply seg_app. exists (Some p). split; [by apply seg_insert, seg_insert|].
        cbn [seg]. split; [done|]. exists (Some e). rewrite lookup_insert_eq. split; [done|]. split; [done|].
        exists (Some a). rewrite lookup_insert_ne, lookup_insert_eq by done. split; [done|].
        apply (seg_insert _ ((a, z) :: ns2) (Some a) None p); [done|].
        apply (seg_insert _ ((a, z) :: ns2) (Some a) None e); [|done]. cbn. by rewrite not_elem_of_cons.
      * rewrite fmap_app, !fmap_cons. cbn [fst]. apply NoDup_app. split; [done|]. split.
        -- intros w Hw. rewrite elem_of_cons. intros Hin. rewrite elem_of_cons in Hin.
           destruct Hin as [->|[->|Hin]]; [done|done|]. apply (Hdis w Hw). rewrite elem_of_cons. auto.
        -- apply NoDup_cons. split; [rewrite elem_of_cons; intros [->|?]; done|].
           apply NoDup_cons. split; [rewrite elem_of_cons; tauto|done].
      * rewrite Hl, !last_app. done.
      * apply (count_up s (length (ns1 ++ (p, y) :: (a, z) :: ns2))); [done|done|].
        rewrite !length_app. cbn. lia.
      * intros b Hin. destruct (decide (p = b)) as [<-|]; [apply Hbrk; eauto|].
        rewrite lookup_insert_ne in Hin by done.
        eapply (list_inv_cells s _ _ H e); [by eexists|done|done].
    + destruct (IH fuel s (ns1 ++ [(p, y)]) a z) as [[HF EL]|(s' & m1 & b & w & m2 & E & Hw & HF & EL & Hi)].
      * by rewrite <- app_assoc.
      * by rewrite <- app_assoc.
      * by rewrite <- app_assoc.
      * cbn in Hf. lia.
      * left. split; [cbn; by constructor|done].
      * right. exists s', ((a, z) :: m1), b, w, m2. split; [by rewrite E|]. split; [done|].
        split; [cbn; by constructor|]. split; [done|]. by rewrite <- app_assoc in Hi.
Qed.

Lemma Insert_inv x s ns :
  list_inv s ns -> bounded ns -> x ∉ ns.*2 ->
  exists s' ns', Insert compare x s = Ok s' /\ list_inv s' ns' /\ length ns' = S (length ns) /\
    ns'.*2 = ins x ns.*2.
Proof.
  intros H Hb Hx. destruct (new_element_inv x s ns H) as [H1 _].
  pose proof (new_element_loose x s ns H) as Hloose. unfold Insert.
  change (new_element x s) with (brk s, snd (new_element x s)). cbv beta iota.
  set (s1 := snd (new_element x s)) in *. rewrite (not_in_ok _ _ ns) by done. cbv zeta.
  pose proof (link_last s1 ns (brk s) x H1 Hb Hloose) as (sl & El & Hlast).
  rewrite (IsEmpty_inv _ _ H1) in *.
  destruct ns as [|[p y] ns].
  - rewrite bool_decide_true in * by done. injection El as El. rewrite El.
    rewrite (in_ok _ _ _ Hlast) by (cbn; left). eauto 10.
  - rewrite bool_decide_false in * by done.
    pose proof H1 as ((Hf & n & Hp & Hseg) & Hnd & _).
    unfold element. rewrite Hf. cbn [deref rbind]. rewrite Hp. cbn [deref rbind item].
    rewrite fmap_cons. cbn [ins snd]. destruct (compare x y <? 0) eqn:Ey.
    + destruct (link_first s1 ((p, y) :: ns) (brk s) x H1 Hb Hloose) as (sf & Ef & Hfirst); [done|].
      rewrite Hf in Ef. apply bind_Ok_inv in Ef as (s2 & -> & Ef). injection Ef as Ef. cbn [rbind].
      rewrite Ef. rewrite (in_ok _ _ _ Hfirst) by (cbn; left). eauto 10.
    + pose proof (seg_size s1 ((p, y) :: ns) _ _ (proj1 H1) Hnd) as Hsz. cbn [length] in Hsz.
      destruct (Insert_loop_inv x (brk s) ns (walk_fuel s1) s1 [] p y H1 Hb Hloose ltac:(lia))
        as [[HF EL]|(s' & m1 & a & z & m2 & -> & Hz & HF & EL & Hi)]; rewrite EL; cbn [rbind].
      * apply bind_Ok_inv in El as (s2 & E2 & El). rewrite E2. cbn [rbind]. injection El as El.
        rewrite El. rewrite (in_ok _ _ _ Hlast)
          by (rewrite fmap_app; apply elem_of_app; right; cbn; left).
        eexists _, _. split; [done|]. split; [done|]. split; [rewrite length_app; cbn; lia|].
        rewrite fmap_app, fmap_cons. cbn [snd app]. f_equal.
        rewrite <- (app_nil_r ns.*2), ins_app by done. by rewrite app_nil_r.
      * eexists _, _. split; [done|]. split; [done|]. split; [cbn; rewrite !length_app; cbn; lia|].
        cbn [app]. rewrite fmap_cons. cbn [snd]. f_equal.
        rewrite !fmap_app, ins_app by done. rewrite !fmap_cons. cbn [snd ins]. by rewrite Hz.
Qed.

Lemma ins_perm x l : ins x l ≡ₚ x :: l.
Proof.
  induction l as [|y l IH]; cbn [ins]; [done|]. case_match; [done|].
  rewrite IH. apply Permutation_swap.
Qed.

Lemma Insert_rep x s l :
  list_rep s l -> x ∉ l -> Z.of_nat (length l) + 1 < 2 ^ 31 - 1 ->
  exists s', Insert compare x s = Ok s' /\ list_rep s' (ins x l).
Proof.
  intros (ns & H & Hb & <- & Hnd) Hx Hlen.
  destruct (Insert_inv x s ns H Hb Hx) as (s' & ns' & E & H' & Hl & Hns).
  exists s'. split; [done|]. exists ns'. split_and!; [done| |done|].
  - unfold bounded. rewrite length_fmap in Hlen. lia.
  - rewrite ins_perm. by constructor.
Qed.

(** What list.h asks of a comparison function. *)
Class Comparison : Prop := {
  compare_total : forall x y, 0 <= compare x y -> compare y x <= 0;
  compare_trans : forall x y z, compare x y <= 0 -> compare y z <= 0 -> compare x z <= 0
}.

Definition in_order (x y : T) : Prop := compare x y <= 0.

Lemma ins_sorted `{Comparison} x l : StronglySorted in_order l -> StronglySorted in_order (ins x l).
Proof.
  induction 1 as [|y l Hl IH Hy]; cbn [ins]; [repeat constructor|].
  destruct (Z.ltb_spec (compare x y) 0) as [Hlt|Hge].
  - constructor; [by constructor|]. constructor; [unfold in_order; lia|].
    eapply Forall_impl; [done|]. intros z Hz. apply (compare_trans x y z); [lia|done].
  - constructor; [done|]. rewrite ins_perm. constructor; [by apply compare_total|done].
Qed.

Lemma Sorted_loop_seg s ns : forall fuel a x p,
  seg (cells s) p ns None -> (length ns <= fuel)%nat ->
  (exists n, cells s !! a = Some {| item := x; next := n |}) ->
  StronglySorted in_order (x :: ns.*2) ->
  Sorted_loop compare fuel (Some a) p s = Ok tt.
Proof.
  induction ns as [|[b y] ns IH]; intros fuel a x p Hseg Hf [n Ha] Hs.
  - cbn in Hseg. subst p. by destruct fuel.
  - destruct Hseg as (-> & m & Hb & Hseg). destruct fuel as [|fuel]; [cbn in Hf; lia|].
    cbn [Sorted_loop]. unfold element. cbn [deref rbind]. rewrite Ha, Hb. cbn [deref rbind item next].
    rewrite fmap_cons in Hs. apply StronglySorted_inv in Hs as [Hs Hx].
    apply Forall_cons in Hx as [Hx _]. cbn in Hx. rewrite (proj2 (Z.leb_le _ 0)) by done.
    cbn [ASSERT rbind]. apply (IH fuel b y m); [done|cbn in Hf; lia|eauto|done].
Qed.

Lemma SortedSanityCheck_rep s l :
  list_rep s l -> StronglySorted in_order l -> SortedSanityCheck compare s = Ok tt.
Proof.
  intros (ns & H & Hb & <- & Hnd) Hs. unfold SortedSanityCheck.
  rewrite (SanityCheck_inv s ns H). cbn [rbind]. case_decide as Hfl; [done|].
  destruct H as (Hseg & Hnd1 & Hl & Hn & _). pose proof (seg_size s ns _ _ Hseg Hnd1) as Hsz.
  destruct ns as [|[a x] ns]; [cbn in *; congruence|]. destruct Hseg as (Hf & n & Ha & Hseg).
  rewrite Hf. unfold element; cbn [deref rbind]; rewrite Ha; cbn [deref rbind next].
  apply (Sorted_loop_seg s ns _ a x); [done|cbn in Hsz; lia|eauto|by rewrite fmap_cons in Hs].
Qed.

End Sorted.

End Refinement.

(** ** Properties *)

(** C33: the pointer structure of [List<T>] implements a list of distinct items:
    from a list object that holds [l], membership, traversal and the sanity
    check answer for [l]; [Append] and [Prepend] of a new item, [RemoveFront]
    of a non-empty list and [Remove] of a present item succeed and leave a list
    object that holds the expected items; inserting a present item, removing
    from the empty list and removing an absent item fail their assertion. *)
Theorem list_operations {T} `{EqDecision T} (s : list_state T) (l : list T) (x : T) :
  list_rep s l -> Z.of_nat (length l) + 1 < 2 ^ 31 - 1 ->
  IsInList x s = Ok (bool_decide (x ∈ l)) /\ Apply s = Ok l /\ SanityCheck s = Ok tt /\
  (if decide (x ∈ l) then
     Append x s = Err AssertFailure /\ Prepend x s = Err AssertFailure /\
     (exists s', Remove x s = Ok s' /\ list_rep s' (filter (fun y => y <> x) l))
   else
     (exists s', Append x s = Ok s' /\ list_rep s' (l ++ [x])) /\
     (exists s', Prepend x s = Ok s' /\ list_rep s' (x :: l)) /\
     Remove x s = Err AssertFailure) /\
  match l with
  | [] => RemoveFront s = Err AssertFailure
  | y :: l' => exists s', RemoveFront s = Ok (y, s') /\ list_rep s' l'
  end.
Proof.
  intros H Hlen. split; [by apply IsInList_rep|]. split; [by apply Apply_rep|].
  split; [by eapply SanityCheck_rep|]. split; [case_decide as Hx|].
  - destruct H as (ns & Hi & Hb & <- & Hnd). destruct (new_element_inv x s ns Hi) as [Hi' _].
    split; [by apply (duplicate_fails x _ ns)|]. split; [by apply (duplicate_fails x _ ns)|].
    apply Remove_rep; [by exists ns|done].
  - split; [by apply Append_rep|]. split; [by apply Prepend_rep|].
    unfold Remove. by rewrite (IsInList_rep x s l H), bool_decide_false by done.
  - destruct l as [|y l']; [|by apply RemoveFront_rep].
    unfold RemoveFront. by rewrite (IsEmpty_rep s [] H).
Qed.

Lemma list_operations_witness :
  Apply (List (T := Z) ∅ 1) = Ok [].
Proof.
  apply (list_operations (List (T := Z) ∅ 1) [] 7); [|cbn; lia].
  apply List_rep. intros a [e Ha]. by rewrite lookup_empty in Ha.
Defined.

(** A [SortedList<T>] is a priority queue: [Insert] of a new item keeps the
    items in increasing order (an item goes behind those it equals), the sorted
    sanity check passes, and the front is then an item that no other precedes. *)
Theorem sorted_list_insert {T} `{EqDecision T} (compare : T -> T -> Z) (s : list_state T) (l : list T) (x : T) :
  Comparison compare -> list_rep s l -> StronglySorted (in_order compare) l -> x ∉ l ->
  Z.of_nat (length l) + 1 < 2 ^ 31 - 1 ->
  exists s' y l' s'', Insert compare x s = Ok s' /\
    list_rep s' (y :: l') /\ y :: l' ≡ₚ x :: l /\ StronglySorted (in_order compare) (y :: l') /\
    SortedSanityCheck compare s' = Ok tt /\
    RemoveFront s' = Ok (y, s'') /\ list_rep s'' l' /\ Forall (fun z => compare y z <= 0) l'.
Proof.
  intros Hc H Hs Hx Hlen. destruct (Insert_rep compare x s l H Hx Hlen) as (s' & E & H').
  pose proof (ins_sorted compare x l Hs) as Hs'. pose proof (ins_perm compare x l) as Hp.
  destruct (ins compare x l) as [|y l'] eqn:El; [by apply Permutation_nil_l in Hp|].
  destruct (RemoveFront_rep s' y l' H') as (s'' & E'' & H'').
  exists s', y, l', s''. split_and!; try done.
  - by eapply SortedSanityCheck_rep.
  - by apply StronglySorted_inv in Hs' as [_ ?].
Qed.

Lemma sorted_list_insert_witness :
  exists s' y l' s'', Insert Z.sub 5 (List (T := Z) ∅ 1) = Ok s' /\
    list_rep s' (y :: l') /\ y :: l' ≡ₚ 5 :: [] /\ StronglySorted (in_order Z.sub) (y :: l') /\
    SortedSanityCheck Z.sub s' = Ok tt /\
    RemoveFront s' = Ok (y, s'') /\ list_rep s'' l' /\ Forall (fun z => Z.sub y z <= 0) l'.
Proof.
  apply (sorted_list_insert Z.sub (List (T := Z) ∅ 1) [] 5).
  - split; intros; lia.
  - apply List_rep. intros a [e Ha]. by rewrite lookup_empty in Ha.
  - constructor.
  - apply not_elem_of_nil.
  - cbn. lia.
Defined.

End LinkedList.
