(* ===== verification/Hash.v ===== *)
(** * Hash tables (code/lib/hash.h, code/lib/hash.cc)

    [HashTable<Key, T>] with its iterator.  The table only uses the interface of
    its buckets: the class [Bucket] lists the operations, [BucketLaws] what they
    do to the items a bucket holds, and the lists of LinkedList.v are an
    instance.  The two functions given to the constructor, [getKey] and [hash],
    are arguments. *)

From S2P Require Import Prelude Ints LinkedList.

(** ** What a table needs of its buckets *)

Class Bucket (L T : Type) := {
  bucket_new : L;
  bucket_append : T -> L -> res L;
  bucket_remove_front : L -> res (T * L);
  bucket_remove : T -> L -> res L;
  bucket_empty : L -> bool;
  bucket_count : L -> Z;
  bucket_items : L -> res (list T);        (* Apply, or a ListIterator *)
  bucket_check : L -> res unit
}.

Class BucketLaws (L T : Type) `{Bucket L T} := {
  holds : L -> list T -> Prop;
  holds_new : holds bucket_new [];
  holds_append : forall l xs x, holds l xs -> x ∉ xs -> Z.of_nat (length xs) + 1 < 2 ^ 31 - 1 ->
    exists l', bucket_append x l = Ok l' /\ holds l' (xs ++ [x]);
  holds_remove_front : forall l x xs, holds l (x :: xs) ->
    exists l', bucket_remove_front l = Ok (x, l') /\ holds l' xs;
  holds_remove : forall l xs1 x xs2, holds l (xs1 ++ x :: xs2) -> x ∉ xs1 -> x ∉ xs2 ->
    exists l', bucket_remove x l = Ok l' /\ holds l' (xs1 ++ xs2);
  holds_empty : forall l xs, holds l xs -> bucket_empty l = match xs with [] => true | _ => false end;
  holds_count : forall l xs, holds l xs -> bucket_count l = Z.of_nat (length xs);
  holds_items : forall l xs, holds l xs -> bucket_items l = Ok xs;
  holds_check : forall l xs, holds l xs -> bucket_check l = Ok tt
}.

#[global] Instance list_bucket {T} `{EqDecision T} : Bucket (LinkedList.list_state T) T := {
  bucket_new := LinkedList.List ∅ 1;
  bucket_append := LinkedList.Append;
  bucket_remove_front := LinkedList.RemoveFront;
  bucket_remove := LinkedList.Remove;
  bucket_empty := LinkedList.IsEmpty;
  bucket_count := LinkedList.numInList;
  bucket_items := LinkedList.Apply;
  bucket_check := LinkedList.SanityCheck
}.

#[global] Instance list_bucket_laws {T} `{EqDecision T} : BucketLaws (LinkedList.list_state T) T.
Proof.
  refine {| holds := LinkedList.list_rep |}; cbn.
  - apply LinkedList.List_rep. intros a [e Ha]. by rewrite lookup_empty in Ha.
  - intros l xs x. apply LinkedList.Append_rep.
  - intros l x xs. apply LinkedList.RemoveFront_rep.
  - intros l xs1 x xs2 Hl H1 H2. destruct (LinkedList.Remove_rep x l _ Hl) as (l' & E & Hl').
    { apply elem_of_app. right. left. }
    exists l'. split; [done|]. rewrite filter_app, filter_cons_False, !filter_ne_id in Hl' by naive_solver. done.
  - intros l xs Hl. rewrite (LinkedList.IsEmpty_rep l xs Hl). by destruct xs.
  - intros l xs (ns & (_ & _ & _ & Hn & _) & _ & <- & _). by rewrite length_fmap.
  - intros l xs. apply LinkedList.Apply_rep.
  - intros l xs. apply LinkedList.SanityCheck_rep.
Defined.

Module Hash.

Definition InitialBuckets : Z := 4.
Definition ResizeRatio : Z := 3.
Definition IncreaseSizeBy : Z := 4.

Record HashTable (L : Type) := mkTable {
  buckets : list L;
  numBuckets : Z;
  numItems : Z
}.

Arguments mkTable {L}. Arguments buckets {L}. Arguments numBuckets {L}. Arguments numItems {L}.

Section HashTable.
Context {K T L : Type} `{EqDecision K} `{EqDecision T} `{Bucket L T}.
Variable getKey : T -> K.
Variable hash : K -> Z.

(** ** The operations *)

(** [InitBuckets]: [new] throws for a negative size. *)
Definition InitBuckets (sz : Z) (t : HashTable L) : res (HashTable L) :=
  if sz <? 0 then Err Uncaught
  else
    let* b := for_range (Z.to_nat sz) 0 (fun _ b => Ok (b ++ [bucket_new])) [] in
    Ok (mkTable b sz (numItems t)).

Definition HashTable_init : res (HashTable L) := InitBuckets InitialBuckets (mkTable [] 0 0).

(** [HashValue]: the remainder is one of unsigned numbers. *)
Definition HashValue (key : K) (t : HashTable L) : res Z :=
  if u32 (numBuckets t) =? 0 then Err ArithTrap
  else
    let result := s32 (u32 (hash key) mod u32 (numBuckets t)) in
    ASSERT ((0 <=? result) && (result <? numBuckets t)) ;;;
    Ok result.

Fixpoint FindInBucket_loop (key : K) (items : list T) : option T :=
  match items with
  | [] => None
  | x :: items' => if decide (key = getKey x) then Some x else FindInBucket_loop key items'
  end.

(** [FindInBucket] and [Find]: [None] when FALSE is returned. *)
Definition FindInBucket (bucket : Z) (key : K) (t : HashTable L) : res (option T) :=
  let* b := arr_get (buckets t) bucket in
  let* items := bucket_items b in
  Ok (FindInBucket_loop key items).

Definition Find (key : K) (t : HashTable L) : res (option T) :=
  let* bucket := HashValue key t in
  FindInBucket bucket key t.

Definition IsInTable (key : K) (t : HashTable L) : res bool :=
  let* o := Find key t in
  Ok (bool_decide (is_Some o)).

Definition IsEmpty (t : HashTable L) : bool := numItems t =? 0.

(** [buckets[HashValue(getKey(item))]->Append(item)] *)
Definition put (item : T) (t : HashTable L) : res (HashTable L) :=
  let* h := HashValue (getKey item) t in
  let* b := arr_get (buckets t) h in
  let* b := bucket_append item b in
  let* bs := arr_set (buckets t) h b in
  Ok (mkTable bs (numBuckets t) (numItems t)).

Fixpoint check_items (i : Z) (items : list T) (t : HashTable L) : res unit :=
  match items with
  | [] => Ok tt
  | x :: items' =>
      let* h := HashValue (getKey x) t in
      ASSERT (i =? h) ;;;
      check_items i items' t
  end.

Definition SanityCheck (t : HashTable L) : res unit :=
  let* numFound := for_range (Z.to_nat (numBuckets t)) 0
    (fun i numFound =>
       let* b := arr_get (buckets t) i in
       bucket_check b ;;;
       let numFound := s32 (numFound + bucket_count b) in
       let* items := bucket_items b in
       check_items i items t ;;;
       Ok numFound) 0 in
  ASSERT (numItems t =? numFound).

(** The inner loop of [ReHash], which empties a bucket of the old table. *)
Fixpoint move_loop (fuel : nat) (b : L) (t : HashTable L) : res (HashTable L) :=
  if bucket_empty b then Ok t
  else
    match fuel with
    | O => Err Diverges
    | S fuel' =>
        let2* (item, b) := bucket_remove_front b in
        let* t := put item t in
        move_loop fuel' b t
    end.

(** Each turn takes an item, so there are as many turns as items. *)
Definition ReHash (t : HashTable L) : res (HashTable L) :=
  let oldTable := buckets t in
  let oldSize := numBuckets t in
  SanityCheck t ;;;
  let* t := InitBuckets (s32 (numBuckets t * IncreaseSizeBy)) t in
  let* t := for_range (Z.to_nat oldSize) 0
    (fun i t =>
       let* b := arr_get oldTable i in
       move_loop (Z.to_nat (bucket_count b)) b t) t in
  SanityCheck t ;;;
  Ok t.

Definition Insert (item : T) (t : HashTable L) : res (HashTable L) :=
  let key := getKey item in
  let* b := IsInTable key t in
  ASSERT (negb b) ;;;
  let* t := if ResizeRatio <=? Z.quot (numItems t) (numBuckets t) then ReHash t else Ok t in
  let* t := put item t in
  let t := mkTable (buckets t) (numBuckets t) (s32 (numItems t + 1)) in
  let* b := IsInTable key t in
  ASSERT b ;;;
  Ok t.

Definition Remove (key : K) (t : HashTable L) : res (T * HashTable L) :=
  let* bucket := HashValue key t in
  let* found := FindInBucket bucket key t in
  match found with
  | None => Err AssertFailure
  | Some item =>
      let* b := arr_get (buckets t) bucket in
      let* b := bucket_remove item b in
      let* bs := arr_set (buckets t) bucket b in
      let t := mkTable bs (numBuckets t) (s32 (numItems t - 1)) in
      let* b := IsInTable key t in
      ASSERT (negb b) ;;;
      Ok (item, t)
  end.

(** The destructor, which then deletes the buckets. *)
Definition HashTable_delete (t : HashTable L) : res unit := ASSERT (IsEmpty t).

(** The items [func] is called with, in order. *)
Definition Apply (t : HashTable L) : res (list T) :=
  for_range (Z.to_nat (numBuckets t)) 0
    (fun i out =>
       let* b := arr_get (buckets t) i in
       let* items := bucket_items b in
       Ok (out ++ items)) [].

(** [FindNextFullBucket] *)
Definition FindNextFullBucket (bucket : Z) (t : HashTable L) : res Z :=
  let* r := for_break (Z.to_nat (numBuckets t - bucket)) bucket
    (fun i (_ : unit) =>
       let* b := arr_get (buckets t) i in
       Ok (if bucket_empty b then inl tt else inr i)) tt in
  Ok (match r with inr i => i | inl _ => Z.max bucket (numBuckets t) end).

(** ** The iterator *)

(** The list iterator of the current bucket, as the items it has still to
    give; [None] for NULL. *)
Record HashIterator := mkIterator { bucket : Z; bucketIter : option (list T) }.

(** The iterator at a bucket, as the constructor and [Next] make it. *)
Definition enter (b : Z) (t : HashTable L) : res HashIterator :=
  if b <? numBuckets t then
    let* l := arr_get (buckets t) b in
    let* items := bucket_items l in
    Ok (mkIterator b (Some items))
  else Ok (mkIterator b None).

Definition HashIterator_init (t : HashTable L) : res HashIterator :=
  let* b := FindNextFullBucket 0 t in
  enter b t.

Definition IsDone (it : HashIterator) (t : HashTable L) : bool := bucket it =? numBuckets t.

Definition Item (it : HashIterator) (t : HashTable L) : res T :=
  ASSERT (negb (IsDone it t)) ;;;
  let* items := deref (bucketIter it) in
  match items with
  | [] => Err AssertFailure
  | x :: _ => Ok x
  end.

Definition Next (it : HashIterator) (t : HashTable L) : res HashIterator :=
  let* items := deref (bucketIter it) in
  match items with
  | [] => Err NullPointer
  | [_] =>
      let* b := FindNextFullBucket (bucket it + 1) t in
      enter b t
  | _ :: items' => Ok (mkIterator (bucket it) (Some items'))
  end.

(** [for (; !it->IsDone(); it->Next()) ... it->Item() ...]: what it visits. *)
Fixpoint iterate (fuel : nat) (it : HashIterator) (t : HashTable L) : res (list T) :=
  if IsDone it t then Ok []
  else
    match fuel with
    | O => Err Diverges
    | S fuel' =>
        let* x := Item it t in
        let* it := Next it t in
        let* xs := iterate fuel' it t in
        Ok (x :: xs)
    end.

(** ** The self test *)

Fixpoint SelfTest_insert (p : list T) (t : HashTable L) : res (HashTable L) :=
  match p with
  | [] => Ok t
  | x :: p' =>
      let* t := Insert x t in
      let* b := IsInTable (getKey x) t in
      ASSERT b ;;;
      ASSERT (negb (IsEmpty t)) ;;;
      SelfTest_insert p' t
  end.

Fixpoint SelfTest_remove (p : list T) (t : HashTable L) : res (HashTable L) :=
  match p with
  | [] => Ok t
  | x :: p' =>
      let2* (y, t) := Remove (getKey x) t in
      ASSERT (bool_decide (y = x)) ;;;
      SelfTest_remove p' t
  end.

Definition SelfTest (p : list T) (t : HashTable L) : res (HashTable L) :=
  let* it := HashIterator_init t in
  SanityCheck t ;;;
  ASSERT (IsEmpty t) ;;;
  ASSERT (IsDone it t) ;;;
  let* t := SelfTest_insert p t in
  let* t := SelfTest_remove p t in
  ASSERT (IsEmpty t) ;;;
  SanityCheck t ;;;
  Ok t.

End HashTable.

(** ** The invariant *)

Section Refinement.
Context {K T L : Type} `{Countable K} `{EqDecision T} `{BucketLaws L T}.
Variable getKey : T -> K.
Variable hash : K -> Z.
Implicit Types (t : HashTable L) (l : list T) (items : list (list T)).

(** The bucket of a key in a table of [n] buckets. *)
Definition slot (n : Z) (k : K) : Z := u32 (hash k) mod n.

(** The buckets hold [items], each in its bucket, which are together [l]; no
    two have the same key. *)
Record placed_in t l items : Prop := {
  pl_holds : Forall2 holds (buckets t) items;
  pl_len : Z.of_nat (length (buckets t)) = numBuckets t;
  pl_size : 0 < numBuckets t < 2 ^ 31;
  pl_slot : forall i xs x, items !! i = Some xs -> x ∈ xs -> slot (numBuckets t) (getKey x) = Z.of_nat i;
  pl_perm : concat items ≡ₚ l;
  pl_keys : NoDup (getKey <$> l);
  pl_bound : Z.of_nat (length l) < 2 ^ 30
}.

Definition placed t l : Prop := exists items, placed_in t l items.

Definition table_of l : gmap K T := list_to_map ((fun x => (getKey x, x)) <$> l).

(** The table [t] represents the map [m]. *)
Definition rep t (m : gmap K T) : Prop :=
  exists l, placed t l /\ numItems t = Z.of_nat (length l) /\ m = table_of l.

(** *** Lists of items as maps *)

Lemma entries_keys l : ((fun x => (getKey x, x)) <$> l).*1 = getKey <$> l.
Proof. by rewrite <- list_fmap_compose. Qed.

Lemma table_of_lookup l k x : NoDup (getKey <$> l) -> table_of l !! k = Some x <-> x ∈ l /\ getKey x = k.
Proof.
  intros Hnd. unfold table_of. rewrite <- elem_of_list_to_map by (by rewrite entries_keys).
  rewrite list_elem_of_fmap. naive_solver.
Qed.

Lemma table_of_None l k : table_of l !! k = None <-> k ∉ getKey <$> l.
Proof. unfold table_of. by rewrite <- not_elem_of_list_to_map, entries_keys. Qed.

Lemma table_of_perm l l' : NoDup (getKey <$> l) -> l ≡ₚ l' -> table_of l = table_of l'.
Proof. intros Hnd Hp. apply list_to_map_proper; [by rewrite entries_keys|by rewrite Hp]. Qed.

Lemma table_of_cons x l : table_of (x :: l) = <[getKey x := x]> (table_of l).
Proof. done. Qed.

Lemma table_of_size l : NoDup (getKey <$> l) -> size (table_of l) = length l.
Proof. intros Hnd. unfold table_of. rewrite map_size_list_to_map by (by rewrite entries_keys). by rewrite length_fmap. Qed.

Lemma keys_perm l l' : l ≡ₚ l' -> NoDup (getKey <$> l) -> NoDup (getKey <$> l').
Proof. by intros ->. Qed.

Lemma keys_items l : NoDup (getKey <$> l) -> NoDup l.
Proof. apply NoDup_fmap_1. Qed.

(** Replacing a bucket. *)
Lemma concat_insert items (i : nat) xs ys : items !! i = Some xs ->
  concat (<[i := ys]> items) ++ xs ≡ₚ concat items ++ ys.
Proof.
  intros Hi. apply list_elem_of_split_length in Hi as (a & b & -> & ->).
  rewrite insert_app_r_alt, Nat.sub_diag by lia. cbn [list_insert insert].
  rewrite !concat_app. cbn [concat]. solve_Permutation.
Qed.

(** *** Buckets *)

Lemma HashValue_slot t l k : placed t l ->
  HashValue hash k t = Ok (slot (numBuckets t) k) /\ 0 <= slot (numBuckets t) k < numBuckets t.
Proof.
  intros [items Hp]. pose proof (pl_size _ _ _ Hp) as Hn. unfold HashValue, slot.
  pose proof (Z.mod_pos_bound (u32 (hash k)) (numBuckets t) ltac:(lia)).
  rewrite (u32_id (numBuckets t)) by (unfold is_u32; lia). rewrite (proj2 (Z.eqb_neq _ _)) by lia.
  rewrite s32_id by (unfold is_s32; lia). cbv zeta.
  rewrite (proj2 (Z.leb_le 0 _)), (proj2 (Z.ltb_lt _ (numBuckets t))) by lia. done.
Qed.

Lemma bucket_at t l items i : placed_in t l items -> 0 <= i < numBuckets t ->
  exists b xs, arr_get (buckets t) i = Ok b /\ items !! Z.to_nat i = Some xs /\ holds b xs.
Proof.
  intros Hp Hi. pose proof (pl_len _ _ _ Hp) as Hl.
  destruct (lookup_lt_is_Some_2 (buckets t) (Z.to_nat i)) as [b Hb]; [lia|].
  destruct (Forall2_lookup_l _ _ _ _ _ (pl_holds _ _ _ Hp) Hb) as (xs & Hxs & Hh).
  exists b, xs. split; [by apply arr_get_lookup; [lia|]|done].
Qed.

Lemma elem_of_concat items x : x ∈ concat items <-> exists i xs, items !! i = Some xs /\ x ∈ xs.
Proof.
  rewrite list_elem_of_In, in_concat. setoid_rewrite <- list_elem_of_In. split.
  - intros (xs & [i Hi]%list_elem_of_lookup & Hx). eauto.
  - intros (i & xs & Hi%list_elem_of_lookup_2 & Hx). eauto.
Qed.

Lemma bucket_keys t l items i xs : placed_in t l items -> items !! i = Some xs -> NoDup (getKey <$> xs).
Proof.
  intros Hp Hi. apply list_elem_of_split_length in Hi as (a & b & E & _).
  pose proof (keys_perm _ _ (symmetry (pl_perm _ _ _ Hp)) (pl_keys _ _ _ Hp)) as Hnd.
  rewrite E, concat_app, !fmap_app in Hnd. cbn [concat] in Hnd. rewrite fmap_app in Hnd.
  apply NoDup_app in Hnd as (_ & _ & Hnd). by apply NoDup_app in Hnd as (Hnd & _).
Qed.

(** The items of a bucket with a key are those of the table. *)
Lemma in_slot t l items k xs x : placed_in t l items ->
  items !! Z.to_nat (slot (numBuckets t) k) = Some xs -> getKey x = k -> x ∈ xs <-> x ∈ l.
Proof.
  intros Hp Hxs Hk. rewrite <- (pl_perm _ _ _ Hp), elem_of_concat. split; [eauto|].
  intros (i & ys & Hi & Hx). pose proof (pl_slot _ _ _ Hp _ _ _ Hi Hx) as Hs. rewrite Hk in Hs.
  rewrite Hs, Nat2Z.id in Hxs. congruence.
Qed.

Lemma FindInBucket_loop_spec k xs : NoDup (getKey <$> xs) ->
  FindInBucket_loop getKey k xs = table_of xs !! k.
Proof.
  induction xs as [|x xs IH]; [done|]. rewrite fmap_cons. intros [Hx Hnd]%NoDup_cons. cbn [FindInBucket_loop].
  rewrite table_of_cons. destruct (decide (k = getKey x)) as [->|Hne].
  - by rewrite lookup_insert_eq.
  - rewrite lookup_insert_ne by done. by apply IH.
Qed.

Lemma table_of_slot t l items k xs : placed_in t l items ->
  items !! Z.to_nat (slot (numBuckets t) k) = Some xs -> table_of xs !! k = table_of l !! k.
Proof.
  intros Hp Hxs. pose proof (bucket_keys _ _ _ _ _ Hp Hxs) as Hnd. apply option_eq. intros x.
  rewrite !table_of_lookup by (done || by apply (pl_keys _ _ _ Hp)).
  split; intros [Hx Hk]; (split; [by apply (in_slot t l items k xs)|done]).
Qed.

Lemma FindInBucket_placed t l k : placed t l ->
  FindInBucket getKey (slot (numBuckets t) k) k t = Ok (table_of l !! k).
Proof.
  intros Hpl. destruct (HashValue_slot t l k Hpl) as [_ Hs]. destruct Hpl as [items Hp].
  destruct (bucket_at t l items _ Hp Hs) as (b & xs & Eb & Hxs & Hh). unfold FindInBucket. rewrite Eb. cbn [rbind].
  rewrite (holds_items _ _ Hh). cbn [rbind].
  rewrite FindInBucket_loop_spec by (by eapply bucket_keys). by rewrite (table_of_slot t l items).
Qed.

Lemma Find_placed t l k : placed t l -> Find getKey hash k t = Ok (table_of l !! k).
Proof.
  intros Hp. unfold Find. rewrite (proj1 (HashValue_slot t l k Hp)). cbn [rbind]. by apply FindInBucket_placed.
Qed.

Lemma IsInTable_placed t l k : placed t l ->
  IsInTable getKey hash k t = Ok (bool_decide (is_Some (table_of l !! k))).
Proof. intros Hp. unfold IsInTable. by rewrite (Find_placed t l k Hp). Qed.

(** Only the buckets and their number matter. *)
Lemma placed_count t l n : placed t l -> placed (mkTable (buckets t) (numBuckets t) n) l.
Proof. intros [items [? ? ? ? ? ? ?]]. exists items. by split. Qed.

Lemma placed_equiv t l l' : l ≡ₚ l' -> placed t l -> placed t l'.
Proof.
  intros Hll [items [? ? ? ? Hperm Hk Hb]]. exists items. split; [done..|by rewrite Hperm| |].
  - by apply (keys_perm l).
  - by rewrite <- Hll.
Qed.

(** Replacing the bucket of a key by one that holds [ys]. *)
Lemma placed_replace t l items k xs b ys l' :
  placed_in t l items -> items !! Z.to_nat (slot (numBuckets t) k) = Some xs ->
  holds b ys -> l' ++ xs ≡ₚ l ++ ys -> (forall x, x ∈ ys -> x ∈ xs \/ getKey x = k) ->
  NoDup (getKey <$> l') -> Z.of_nat (length l') < 2 ^ 30 ->
  exists bs, arr_set (buckets t) (slot (numBuckets t) k) b = Ok bs /\
    placed (mkTable bs (numBuckets t) (numItems t)) l'.
Proof.
  intros Hp Hxs Hb Hl' Hys Hnd Hlen. destruct (HashValue_slot t l k) as [_ Hs]; [by exists items|].
  pose proof (pl_len _ _ _ Hp) as Hn. rewrite arr_set_in_range by lia.
  eexists. split; [done|]. exists (<[Z.to_nat (slot (numBuckets t) k) := ys]> items).
  split; cbn [buckets numBuckets]; try done.
  - apply Forall2_insert; [apply Hp|done].
  - by rewrite length_insert.
  - apply Hp.
  - intros i zs x Hi Hx. destruct (decide (i = Z.to_nat (slot (numBuckets t) k))) as [->|Hne].
    + rewrite list_lookup_insert_eq in Hi by (by eapply lookup_lt_Some). injection Hi as <-.
      rewrite Z2Nat.id by lia. destruct (Hys x Hx) as [Hx'| ->]; [|done].
      rewrite (pl_slot _ _ _ Hp _ _ _ Hxs Hx'). lia.
    + rewrite list_lookup_insert_ne in Hi by done. by eapply (pl_slot _ _ _ Hp).
  - apply (Permutation_app_inv_r xs). rewrite Hl', (concat_insert _ _ xs) by done. by rewrite (pl_perm _ _ _ Hp).
Qed.

(** [buckets[HashValue(getKey(item))]->Append(item)] *)
Lemma put_placed t l x : placed t l -> getKey x ∉ getKey <$> l -> Z.of_nat (length l) + 1 < 2 ^ 30 ->
  exists t', put getKey hash x t = Ok t' /\ placed t' (l ++ [x]) /\
    numBuckets t' = numBuckets t /\ numItems t' = numItems t.
Proof.
  intros Hpl Hx Hlen. destruct (HashValue_slot t l (getKey x) Hpl) as [Ev Hs]. destruct Hpl as [items Hp].
  unfold put. rewrite Ev. cbn [rbind]. destruct (bucket_at t l items _ Hp Hs) as (b & xs & Eb & Hxs & Hh).
  rewrite Eb. cbn [rbind].
  assert (x ∉ l) as Hxl by (intros Hin; apply Hx; by apply list_elem_of_fmap_2).
  assert (length xs <= length l)%nat as Hle.
  { rewrite <- (Permutation_length (pl_perm _ _ _ Hp)). apply list_elem_of_split_length in Hxs as (a & c & -> & _).
    rewrite concat_app, !length_app. cbn [concat]. rewrite length_app. lia. }
  destruct (holds_append b xs x Hh) as (b' & -> & Hb'); [by rewrite (in_slot t l items (getKey x))|lia|]. cbn [rbind].
  destruct (placed_replace t l items (getKey x) xs b' (xs ++ [x]) (l ++ [x]) Hp Hxs Hb') as (bs & -> & Hbs).
  - solve_Permutation.
  - intros y. rewrite elem_of_app, list_elem_of_singleton. naive_solver.
  - rewrite fmap_app. apply NoDup_app. split; [apply Hp|]. split; [|apply NoDup_singleton].
    intros k Hk. cbn. rewrite list_elem_of_singleton. by intros ->.
  - rewrite length_app. cbn. lia.
  - cbn [rbind]. eauto.
Qed.

(** *** Loops over the buckets *)

Lemma concat_take_S items i xs : 0 <= i -> items !! Z.to_nat i = Some xs ->
  concat (take (Z.to_nat (i + 1)) items) = concat (take (Z.to_nat i) items) ++ xs.
Proof.
  intros Hi Hxs. replace (Z.to_nat (i + 1)) with (S (Z.to_nat i)) by lia.
  rewrite (take_S_r _ _ _ Hxs), concat_app. cbn. by rewrite app_nil_r.
Qed.

Lemma placed_len t l items : placed_in t l items -> length items = Z.to_nat (numBuckets t).
Proof. intros Hp. rewrite <- (Forall2_length _ _ _ (pl_holds _ _ _ Hp)), <- (pl_len _ _ _ Hp). lia. Qed.

Lemma concat_take_all t l items : placed_in t l items ->
  concat (take (Z.to_nat (0 + Z.of_nat (Z.to_nat (numBuckets t)))) items) = concat items.
Proof.
  intros Hp. pose proof (placed_len _ _ _ Hp). f_equal. apply take_ge. lia.
Qed.

Lemma concat_take_le items n : (length (concat (take n items)) <= length (concat items))%nat.
Proof. rewrite <- (take_drop n items) at 2. rewrite concat_app, length_app. lia. Qed.

Lemma check_items_Ok i xs t : (forall x, x ∈ xs -> HashValue hash (getKey x) t = Ok i) ->
  check_items getKey hash i xs t = Ok tt.
Proof.
  induction xs as [|x xs IH]; intros Hx; [done|]. cbn [check_items]. rewrite Hx by left. cbn [rbind].
  rewrite Z.eqb_refl. cbn [ASSERT rbind]. apply IH. intros y Hy. apply Hx. by right.
Qed.

Lemma SanityCheck_placed t l : placed t l -> numItems t = Z.of_nat (length l) -> SanityCheck getKey hash t = Ok tt.
Proof.
  intros Hpl Hn. pose proof Hpl as [items Hp]. pose proof (pl_size _ _ _ Hp). unfold SanityCheck.
  destruct (for_range_inv (fun i n => n = Z.of_nat (length (concat (take (Z.to_nat i) items)))) (Z.to_nat (numBuckets t)) 0
    (fun i numFound =>
       let* b := arr_get (buckets t) i in
       bucket_check b ;;;
       let* xs := bucket_items b in
       check_items getKey hash i xs t ;;; Ok (s32 (numFound + bucket_count b))) 0) as (n & -> & Hfound); [done| |].
  - intros i n Hi ->. destruct (bucket_at t l items i Hp ltac:(lia)) as (b & xs & -> & Hxs & Hh). cbn [rbind].
    rewrite (holds_check _ _ Hh), (holds_items _ _ Hh), (holds_count _ _ Hh). cbn [rbind].
    rewrite check_items_Ok; cycle 1.
    { intros x Hx. rewrite (proj1 (HashValue_slot t l (getKey x) Hpl)), (pl_slot _ _ _ Hp _ _ _ Hxs Hx). f_equal. lia. }
    eexists. split; [done|]. pose proof (concat_take_le items (Z.to_nat (i + 1))) as Hle.
    rewrite (Permutation_length (pl_perm _ _ _ Hp)) in Hle. pose proof (pl_bound _ _ _ Hp).
    rewrite (concat_take_S items i xs) in * by (done || lia). rewrite length_app in *. rewrite s32_id by (unfold is_s32; lia). lia.
  - cbn [rbind]. rewrite (concat_take_all t l items Hp) in Hfound.
    rewrite (Permutation_length (pl_perm _ _ _ Hp)) in Hfound. by rewrite Hn, Hfound, Z.eqb_refl.
Qed.

Lemma Apply_placed t l items : placed_in t l items -> Apply t = Ok (concat items).
Proof.
  intros Hp. unfold Apply. pose proof (pl_size _ _ _ Hp).
  destruct (for_range_inv (fun i out => out = concat (take (Z.to_nat i) items)) (Z.to_nat (numBuckets t)) 0
    (fun i out => let* b := arr_get (buckets t) i in let* xs := bucket_items b in Ok (out ++ xs)) [])
    as (out & -> & ->); [done| |by rewrite (concat_take_all t l items Hp)].
  intros i out Hi ->. destruct (bucket_at t l items i Hp ltac:(lia)) as (b & xs & -> & Hxs & Hh). cbn [rbind].
  rewrite (holds_items _ _ Hh). cbn [rbind]. eexists. split; [done|]. by rewrite (concat_take_S items i xs) by (done || lia).
Qed.

(** *** Growing the table *)

Lemma InitBuckets_placed sz t : 0 < sz < 2 ^ 31 ->
  exists t', InitBuckets sz t = Ok t' /\ placed t' [] /\ numBuckets t' = sz /\ numItems t' = numItems t.
Proof.
  intros Hsz. unfold InitBuckets. rewrite (proj2 (Z.ltb_ge sz 0)) by lia.
  destruct (for_range_inv (fun i b => b = replicate (Z.to_nat i) bucket_new) (Z.to_nat sz) 0
    (fun _ b => Ok (b ++ [bucket_new])) ([] : list L)) as (b & -> & ->); [done| |].
  { intros i b Hi ->. eexists. split; [done|]. replace (Z.to_nat (i + 1)) with (S (Z.to_nat i)) by lia.
    by rewrite replicate_S_end. }
  cbn [rbind]. eexists. split; [done|]. split; [|done]. exists (replicate (Z.to_nat sz) []).
  replace (Z.to_nat (0 + Z.of_nat (Z.to_nat sz))) with (Z.to_nat sz) by lia.
  assert (concat (replicate (Z.to_nat sz) ([] : list T)) = []) as Hnil by (by induction (Z.to_nat sz)).
  split; cbn [buckets numBuckets]; try done.
  - apply Forall2_replicate, holds_new.
  - rewrite length_replicate. lia.
  - intros i xs x Hi Hx. apply lookup_replicate in Hi as [-> _]. by apply elem_of_nil in Hx.
  - by rewrite Hnil.
  - constructor.
Qed.

Lemma move_loop_placed xs : forall fuel b t l,
  holds b xs -> (length xs <= fuel)%nat -> placed t l -> NoDup (getKey <$> l ++ xs) ->
  Z.of_nat (length (l ++ xs)) < 2 ^ 30 ->
  exists t', move_loop getKey hash fuel b t = Ok t' /\ placed t' (l ++ xs) /\
    numBuckets t' = numBuckets t /\ numItems t' = numItems t.
Proof.
  induction xs as [|x xs IH]; intros fuel b t l Hh Hf Hp Hnd Hlen.
  - exists t. rewrite app_nil_r. split; [|done]. destruct fuel; cbn [move_loop]; by rewrite (holds_empty _ _ Hh).
  - destruct fuel as [|fuel]; [cbn in Hf; lia|]. cbn [move_loop]. rewrite (holds_empty _ _ Hh).
    destruct (holds_remove_front b x xs Hh) as (b' & -> & Hb'). cbn [rbind].
    assert (l ++ x :: xs = (l ++ [x]) ++ xs) as El by (by rewrite <- app_assoc). rewrite El in *.
    destruct (put_placed t l x Hp) as (t1 & -> & Hp1 & Hn1 & Hi1).
    + rewrite !fmap_app in Hnd. apply NoDup_app in Hnd as (Hnd & _ & _).
      apply NoDup_app in Hnd as (_ & Hd & _). intros Hin. apply (Hd _ Hin). by apply list_elem_of_singleton.
    + rewrite !length_app in Hlen. cbn in Hlen. lia.
    + cbn [rbind]. destruct (IH fuel b' t1 (l ++ [x]) Hb') as (t' & -> & Hp' & Hn' & Hi'); [cbn in Hf; lia|done..|].
      exists t'. split; [done|]. split; [done|]. split; congruence.
Qed.

Lemma ReHash_placed t l : placed t l -> numItems t = Z.of_nat (length l) -> numBuckets t * IncreaseSizeBy < 2 ^ 31 ->
  exists t', ReHash getKey hash t = Ok t' /\ placed t' l /\ numItems t' = numItems t.
Proof.
  intros Hpl Hn Hb. unfold ReHash. cbv zeta. rewrite (SanityCheck_placed t l) by done. cbn [rbind].
  destruct Hpl as [items Hp]. pose proof (pl_size _ _ _ Hp) as Hsz. unfold IncreaseSizeBy in *.
  rewrite s32_id by (unfold is_s32; lia).
  destruct (InitBuckets_placed (numBuckets t * 4) t) as (t0 & -> & Hp0 & Hn0 & Hi0); [lia|]. cbn [rbind].
  pose proof (keys_perm _ _ (symmetry (pl_perm _ _ _ Hp)) (pl_keys _ _ _ Hp)) as Hnd.
  destruct (for_range_inv (fun i t' => placed t' (concat (take (Z.to_nat i) items)) /\ numItems t' = numItems t)
    (Z.to_nat (numBuckets t)) 0
    (fun i t' => let* b := arr_get (buckets t) i in move_loop getKey hash (Z.to_nat (bucket_count b)) b t') t0)
    as (t' & -> & Hp' & Hi'); [done| |].
  - intros i t1 Hi [Hp1 Hi1]. destruct (bucket_at t l items i Hp ltac:(lia)) as (b & xs & -> & Hxs & Hh). cbn [rbind].
    pose proof (concat_take_le items (Z.to_nat (i + 1))) as Hle. pose proof (pl_bound _ _ _ Hp) as Hbd.
    rewrite (Permutation_length (pl_perm _ _ _ Hp)) in Hle.
    assert (NoDup (getKey <$> concat (take (Z.to_nat (i + 1)) items))) as Hnd1.
    { rewrite <- (take_drop (Z.to_nat (i + 1)) items), concat_app, fmap_app in Hnd. by apply NoDup_app in Hnd as (? & _). }
    rewrite (concat_take_S items i xs) in * by (done || lia). rewrite (holds_count _ _ Hh), Nat2Z.id.
    destruct (move_loop_placed xs (length xs) b t1 _ Hh (le_n _) Hp1 Hnd1) as (t2 & -> & Hp2 & _ & Hi2); [lia|].
    eexists. split; [done|]. split; [done|congruence].
  - rewrite (concat_take_all t l items Hp) in Hp'. cbn [rbind].
    apply (placed_equiv _ _ l (pl_perm _ _ _ Hp)) in Hp'. rewrite (SanityCheck_placed t' l) by (done || congruence).
    cbn [rbind]. eauto.
Qed.

(** *** Insertion and removal *)

Lemma rep_placed t m : rep t m -> exists l, placed t l /\ numItems t = Z.of_nat (length l) /\ m = table_of l /\
  NoDup (getKey <$> l) /\ size m = length l.
Proof.
  intros (l & Hp & Hn & ->). exists l. assert (NoDup (getKey <$> l)) as Hnd by (destruct Hp as [? Hp]; apply Hp).
  split_and!; [done..|by apply table_of_size].
Qed.

Lemma hash_Insert_rep t m x : rep t m -> Z.of_nat (size m) + 1 < 2 ^ 30 ->
  match m !! getKey x with
  | None => exists t', Insert getKey hash x t = Ok t' /\ rep t' (<[getKey x := x]> m)
  | Some _ => Insert getKey hash x t = Err AssertFailure
  end.
Proof.
  intros (l & Hp & Hn & -> & Hnd & Hsz)%rep_placed Hlen. unfold Insert. cbv zeta. rewrite (IsInTable_placed t l) by done.
  destruct (table_of l !! getKey x) as [y|] eqn:Ex; cbn [rbind].
  { by rewrite bool_decide_true by (by eexists). }
  rewrite bool_decide_false by (intros [? ?]; done). cbn [negb ASSERT rbind].
  assert (exists t1, (if ResizeRatio <=? Z.quot (numItems t) (numBuckets t) then ReHash getKey hash t else Ok t) = Ok t1 /\
    placed t1 l /\ numItems t1 = numItems t) as (t1 & -> & Hp1 & Hi1).
  { destruct (Z.leb_spec ResizeRatio (Z.quot (numItems t) (numBuckets t))) as [Hr|]; [|by exists t].
    apply ReHash_placed; [done..|]. destruct Hp as [items Hp]. pose proof (pl_size _ _ _ Hp).
    rewrite Z.quot_div_nonneg in Hr by lia. unfold ResizeRatio, IncreaseSizeBy in *.
    pose proof (Z.mul_div_le (numItems t) (numBuckets t)). nia. }
  cbn [rbind]. rewrite table_of_None in Ex.
  destruct (put_placed t1 l x Hp1 Ex) as (t2 & -> & Hp2 & Hb2 & Hi2); [lia|]. cbn [rbind].
  apply (placed_equiv _ _ (x :: l)) in Hp2; [|solve_Permutation].
  rewrite (IsInTable_placed _ (x :: l)) by (by apply placed_count). rewrite table_of_cons, lookup_insert_eq.
  cbn [rbind]. rewrite bool_decide_true by (by eexists). cbn [ASSERT rbind].
  eexists. split; [done|]. exists (x :: l). split; [by apply placed_count|]. split; [|done]. cbn [numItems length].
  rewrite s32_id by (unfold is_s32; lia). lia.
Qed.

Lemma hash_Remove_rep t m k : rep t m ->
  match m !! k with
  | Some y => exists t', Remove getKey hash k t = Ok (y, t') /\ rep t' (delete k m)
  | None => Remove getKey hash k t = Err AssertFailure
  end.
Proof.
  intros (l & Hp & Hn & -> & Hnd & Hsz)%rep_placed. unfold Remove.
  destruct (HashValue_slot t l k Hp) as [-> Hs]. cbn [rbind]. rewrite (FindInBucket_placed t l) by done. cbn [rbind].
  destruct (table_of l !! k) as [y|] eqn:Ey; [|done]. apply (table_of_lookup l k y Hnd) in Ey as [Hy <-].
  apply list_elem_of_split in Hy as (l1 & l2 & ->). destruct Hp as [items Hp].
  destruct (bucket_at t _ items _ Hp Hs) as (b & xs & -> & Hxs & Hh). cbn [rbind].
  pose proof (keys_items _ (bucket_keys _ _ _ _ _ Hp Hxs)) as Hndx.
  assert (y ∈ xs) as Hyx by (apply (in_slot _ _ items (getKey y) xs y Hp Hxs eq_refl); apply elem_of_app; right; left).
  apply list_elem_of_split in Hyx as (x1 & x2 & ->).
  apply NoDup_app in Hndx as (_ & Hd & Hnd2). apply NoDup_cons in Hnd2 as [Hy2 _].
  assert (y ∉ x1) as Hy1 by (intros Hin; apply (Hd y Hin); left).
  destruct (holds_remove b x1 y x2 Hh Hy1 Hy2) as (b' & -> & Hb'). cbn [rbind].
  assert (getKey <$> l1 ++ y :: l2 ≡ₚ getKey y :: (getKey <$> l1 ++ l2)) as Hkeys.
  { rewrite !fmap_app, fmap_cons. solve_Permutation. }
  pose proof Hnd as Hnd'. rewrite Hkeys in Hnd'. apply NoDup_cons in Hnd' as [Hfresh Hnd'].
  destruct (placed_replace t _ items (getKey y) _ b' (x1 ++ x2) (l1 ++ l2) Hp Hxs Hb') as (bs & -> & Hbs).
  - solve_Permutation.
  - intros z. rewrite !elem_of_app, elem_of_cons. naive_solver.
  - done.
  - pose proof (pl_bound _ _ _ Hp) as Hbd. rewrite length_app in *. cbn in Hbd. lia.
  - cbn [rbind]. rewrite (IsInTable_placed _ (l1 ++ l2)) by (by apply (placed_count (mkTable bs (numBuckets t) (numItems t)))).
    rewrite (proj2 (table_of_None _ _) Hfresh). cbn [rbind]. rewrite bool_decide_false by (by intros [? ?]).
    cbn [negb ASSERT rbind]. eexists. split; [done|]. exists (l1 ++ l2). split; [by apply (placed_count (mkTable bs (numBuckets t) (numItems t)))|].
    cbn [numItems]. pose proof (pl_bound _ _ _ Hp) as Hbd. rewrite length_app in *. cbn [length] in *. split.
    + rewrite s32_id by (unfold is_s32; lia). lia.
    + rewrite (table_of_perm (l1 ++ y :: l2) (y :: l1 ++ l2)) by (done || solve_Permutation).
      rewrite table_of_cons, delete_insert_id; [done|]. by apply table_of_None.
Qed.

(** *** The iterator *)

Lemma FindNextFullBucket_spec t l items b : placed_in t l items -> 0 <= b <= numBuckets t ->
  exists b', FindNextFullBucket b t = Ok b' /\ b <= b' <= numBuckets t /\
    concat (drop (Z.to_nat b) items) = concat (drop (Z.to_nat b') items) /\
    (b' < numBuckets t -> exists x xs, items !! Z.to_nat b' = Some (x :: xs)).
Proof.
  intros Hp Hb. unfold FindNextFullBucket.
  destruct (for_break_inv (fun i (_ : unit) => concat (drop (Z.to_nat b) items) = concat (drop (Z.to_nat i) items))
    (fun i => b <= i < numBuckets t /\ concat (drop (Z.to_nat b) items) = concat (drop (Z.to_nat i) items) /\
       exists x xs, items !! Z.to_nat i = Some (x :: xs))
    (Z.to_nat (numBuckets t - b)) b
    (fun i (_ : unit) => let* b := arr_get (buckets t) i in Ok (if bucket_empty b then inl tt else inr i)) tt)
    as (r & -> & Hr); [done| |].
  - intros i _ Hi Hd. destruct (bucket_at t l items i Hp ltac:(lia)) as (bk & xs & -> & Hxs & Hh). cbn [rbind].
    rewrite (holds_empty _ _ Hh). eexists. split; [done|]. destruct xs as [|x xs]; [|split; [lia|eauto]].
    rewrite Hd, (drop_S _ _ _ Hxs). cbn [concat app]. by replace (Z.to_nat (i + 1)) with (S (Z.to_nat i)) by lia.
  - cbn [rbind]. destruct r as [u|i]; eexists; (split; [done|]).
    + replace (b + Z.of_nat (Z.to_nat (numBuckets t - b))) with (numBuckets t) in Hr by lia.
      rewrite Z.max_r by lia. split; [lia|]. split; [done|lia].
    + destruct Hr as (? & ? & ?). split; [lia|done].
Qed.

(** What an iterator has still to visit. *)
Definition remaining t items (it : HashIterator) (ys : list T) : Prop :=
  (bucket it = numBuckets t /\ ys = []) \/
  (0 <= bucket it < numBuckets t /\ exists x xs, bucketIter it = Some (x :: xs) /\
     ys = x :: xs ++ concat (drop (S (Z.to_nat (bucket it))) items)).

Lemma enter_spec t l items b : placed_in t l items -> 0 <= b <= numBuckets t ->
  exists b' it, FindNextFullBucket b t = Ok b' /\ enter b' t = Ok it /\
    remaining t items it (concat (drop (Z.to_nat b) items)).
Proof.
  intros Hp Hb. destruct (FindNextFullBucket_spec t l items b Hp Hb) as (b' & Eb & Hb' & Hd & Hfull).
  exists b'. rewrite Hd. unfold enter. destruct (Z.ltb_spec b' (numBuckets t)) as [Hlt|Hge].
  - destruct (Hfull Hlt) as (x & xs & Hx). destruct (bucket_at t l items b' Hp ltac:(lia)) as (bk & ys & -> & Hys & Hh).
    rewrite Hx in Hys. injection Hys as <-. cbn [rbind]. rewrite (holds_items _ _ Hh). cbn [rbind].
    eexists. split; [done|]. split; [done|]. right. cbn [bucket bucketIter]. split; [lia|]. exists x, xs.
    split; [done|]. by rewrite (drop_S _ _ _ Hx).
  - eexists. split; [done|]. split; [done|]. left. cbn [bucket]. split; [lia|]. rewrite drop_ge; [done|].
    rewrite (placed_len _ _ _ Hp). lia.
Qed.

Lemma iterate_remaining t l items ys : placed_in t l items -> forall fuel it,
  remaining t items it ys -> (length ys <= fuel)%nat -> iterate fuel it t = Ok ys.
Proof.
  intros Hp. induction ys as [|y ys IH]; intros fuel it [[Hb E]|[Hb (x & xs & Ei & E)]] Hf; try done.
  - destruct fuel; cbn [iterate]; unfold IsDone; by rewrite Hb, Z.eqb_refl.
  - injection E as -> E. destruct fuel as [|fuel]; [cbn in Hf; lia|]. cbn [iterate]. unfold Item, IsDone.
    rewrite (proj2 (Z.eqb_neq _ _)) by lia. cbn [negb ASSERT rbind]. rewrite Ei. cbn [deref rbind].
    assert (exists it', Next it t = Ok it' /\ remaining t items it' ys) as (it' & -> & Hr).
    { unfold Next. rewrite Ei. cbn [deref rbind]. destruct xs as [|z xs].
      - destruct (enter_spec t l items (bucket it + 1) Hp ltac:(lia)) as (b' & it' & -> & Ee & Hr). cbn [rbind].
        exists it'. split; [done|]. rewrite E. by replace (S (Z.to_nat (bucket it))) with (Z.to_nat (bucket it + 1)) by lia.
      - eexists. split; [done|]. right. cbn [bucket bucketIter]. split; [done|]. exists z, xs. split; [done|]. by rewrite E. }
    cbn [rbind]. rewrite (IH fuel it' Hr) by (cbn in Hf; lia). done.
Qed.

(** An iterator visits what [Apply] visits. *)
Lemma iterate_placed t l items : placed_in t l items ->
  exists it, HashIterator_init t = Ok it /\ iterate (length l) it t = Ok (concat items) /\
    IsDone it t = bool_decide (l = []).
Proof.
  intros Hp. pose proof (pl_size _ _ _ Hp). unfold HashIterator_init.
  destruct (enter_spec t l items 0 Hp ltac:(lia)) as (b & it & -> & Ee & Hr). cbn [rbind]. rewrite drop_0 in Hr.
  pose proof (pl_perm _ _ _ Hp) as Hperm. exists it. split; [done|].
  split; [apply (iterate_remaining t l items); [done|done|by rewrite Hperm]|]. unfold IsDone.
  destruct Hr as [[-> Hnil]|[Hlt (x & xs & _ & Hc)]].
  - rewrite Z.eqb_refl, bool_decide_true; [done|]. rewrite Hnil in Hperm. by apply Permutation_nil_l in Hperm.
  - rewrite (proj2 (Z.eqb_neq _ _)), bool_decide_false; [done| |lia]. intros ->. rewrite Hc in Hperm.
    by apply Permutation_nil_r in Hperm.
Qed.

Lemma HashTable_init_rep : exists t, HashTable_init = Ok t /\ rep t ∅.
Proof.
  unfold HashTable_init. destruct (InitBuckets_placed InitialBuckets (mkTable [] 0 0)) as (t & -> & Hp & _ & Hn).
  { unfold InitialBuckets. lia. }
  exists t. split; [done|]. by exists [].
Qed.

(** *** The self test *)

Lemma hash_SelfTest_insert_rep p : forall t m,
  rep t m -> NoDup (getKey <$> p) -> (forall x, x ∈ p -> m !! getKey x = None) ->
  Z.of_nat (size m + length p) < 2 ^ 30 ->
  exists t', SelfTest_insert getKey hash p t = Ok t' /\ rep t' (table_of p ∪ m).
Proof.
  induction p as [|x p IH]; intros t m Ht Hnd Hm Hlen; cbn [SelfTest_insert].
  - exists t. split; [done|]. change (table_of []) with (∅ : gmap K T). by rewrite (left_id_L ∅ (∪)).
  - rewrite fmap_cons in Hnd. apply NoDup_cons in Hnd as [Hx Hnd]. cbn [length] in Hlen.
    pose proof (hash_Insert_rep t m x Ht ltac:(lia)) as Hins. rewrite (Hm x) in Hins by left. destruct Hins as (t1 & -> & Ht1).
    cbn [rbind]. pose proof (rep_placed _ _ Ht1) as (l & Hp & Hn & El & Hndl & Hsz).
    rewrite (IsInTable_placed t1 l) by done. rewrite <- El, lookup_insert_eq. cbn [rbind].
    rewrite bool_decide_true by (by eexists). cbn [ASSERT rbind]. rewrite map_size_insert_None in Hsz by (apply Hm; left).
    unfold IsEmpty. rewrite Hn, (proj2 (Z.eqb_neq _ 0)) by lia. cbn [negb ASSERT rbind].
    destruct (IH t1 _ Ht1 Hnd) as (t' & -> & Ht').
    + intros y Hy. rewrite lookup_insert_ne; [apply Hm; by right|]. intros E. apply Hx. rewrite E. by apply list_elem_of_fmap_2.
    + rewrite map_size_insert_None by (apply Hm; left). lia.
    + exists t'. split; [done|]. rewrite table_of_cons, <- insert_union_l.
      rewrite <- insert_union_r in Ht' by (by apply table_of_None). done.
Qed.

Lemma hash_SelfTest_remove_rep p : forall t,
  rep t (table_of p) -> NoDup (getKey <$> p) ->
  exists t', SelfTest_remove getKey hash p t = Ok t' /\ rep t' ∅.
Proof.
  induction p as [|x p IH]; intros t Ht Hnd; cbn [SelfTest_remove]; [by exists t|].
  rewrite fmap_cons in Hnd. apply NoDup_cons in Hnd as [Hx Hnd].
  pose proof (hash_Remove_rep t _ (getKey x) Ht) as Hrm. rewrite table_of_cons, lookup_insert_eq in Hrm.
  destruct Hrm as (t1 & -> & Ht1). cbn [rbind]. rewrite bool_decide_true by done. cbn [ASSERT rbind].
  apply IH; [|done]. by rewrite delete_insert_id in Ht1 by (by apply table_of_None).
Qed.

Lemma hash_IsEmpty_rep t m : rep t m -> IsEmpty t = bool_decide (m = ∅).
Proof.
  intros (l & Hp & Hn & -> & Hnd & Hsz)%rep_placed. unfold IsEmpty. rewrite Hn, <- Hsz.
  apply eq_bool_prop_intro. rewrite bool_decide_spec, <- map_size_empty_iff. rewrite Is_true_true, Z.eqb_eq. lia.
Qed.

Lemma hash_SanityCheck_rep t m : rep t m -> SanityCheck getKey hash t = Ok tt.
Proof. intros (l & Hp & Hn & _). by eapply SanityCheck_placed. Qed.

Lemma hash_SelfTest_rep p t : rep t ∅ -> NoDup (getKey <$> p) -> Z.of_nat (length p) < 2 ^ 30 ->
  exists t', SelfTest getKey hash p t = Ok t' /\ rep t' ∅.
Proof.
  intros Ht Hnd Hlen. unfold SelfTest. pose proof (rep_placed _ _ Ht) as (l & [items Hp] & _ & _ & _ & Hsz).
  destruct (iterate_placed t l items Hp) as (it & -> & _ & Hdone). cbn [rbind].
  rewrite (hash_SanityCheck_rep t ∅ Ht), (hash_IsEmpty_rep t ∅ Ht), Hdone. cbn [rbind].
  rewrite map_size_empty in Hsz. destruct l; [|done]. rewrite !bool_decide_true by done. cbn [ASSERT rbind].
  destruct (hash_SelfTest_insert_rep p t ∅ Ht Hnd) as (t1 & -> & Ht1); [done|by rewrite map_size_empty|].
  rewrite (right_id_L ∅ (∪)) in Ht1. cbn [rbind]. destruct (hash_SelfTest_remove_rep p t1 Ht1 Hnd) as (t2 & -> & Ht2). cbn [rbind].
  rewrite (hash_IsEmpty_rep t2 ∅ Ht2), (hash_SanityCheck_rep t2 ∅ Ht2), bool_decide_true by done. cbn [ASSERT rbind]. eauto.
Qed.

Lemma table_of_values l : NoDup (getKey <$> l) -> (map_to_list (table_of l)).*2 ≡ₚ l.
Proof.
  intros Hnd. unfold table_of. rewrite map_to_list_to_map by (by rewrite entries_keys).
  rewrite <- list_fmap_compose. by rewrite list_fmap_id.
Qed.

Lemma visits_rep t m : rep t m -> exists xs it, Apply t = Ok xs /\ HashIterator_init t = Ok it /\
  iterate (size m) it t = Ok xs /\ xs ≡ₚ (map_to_list m).*2.
Proof.
  intros (l & [items Hp] & Hn & -> & Hnd & Hsz)%rep_placed. destruct (iterate_placed t l items Hp) as (it & Ei & Exs & _).
  exists (concat items), it. split; [by eapply Apply_placed|]. split; [done|]. rewrite Hsz. split; [done|].
  by rewrite table_of_values, (pl_perm _ _ _ Hp).
Qed.

(** ** Properties *)

(** C22: A hash table is a finite map from keys to items, whatever the hash
    function.  [Find] looks the key up; [Insert] of a new key adds the item,
    also when it makes the table grow and moves every item to its new bucket,
    and [Remove] takes out exactly the item with the key; inserting a key that
    is present and removing one that is not fail their assertion.  [Apply] and
    an iterator visit every item exactly once, and the sanity check passes. *)
Theorem hash_table_refines_map t m k x :
  rep t m -> Z.of_nat (size m) + 1 < 2 ^ 30 ->
  Find getKey hash k t = Ok (m !! k) /\ IsEmpty t = bool_decide (m = ∅) /\ SanityCheck getKey hash t = Ok tt /\
  match m !! getKey x with
  | None => exists t', Insert getKey hash x t = Ok t' /\ rep t' (<[getKey x := x]> m)
  | Some _ => Insert getKey hash x t = Err AssertFailure
  end /\
  match m !! k with
  | Some y => exists t', Remove getKey hash k t = Ok (y, t') /\ rep t' (delete k m)
  | None => Remove getKey hash k t = Err AssertFailure
  end /\
  exists xs it, Apply t = Ok xs /\ HashIterator_init t = Ok it /\ iterate (size m) it t = Ok xs /\
    xs ≡ₚ (map_to_list m).*2.
Proof.
  intros Ht Hsz. split_and!.
  - destruct Ht as (l & Hp & _ & ->). by apply Find_placed.
  - by apply hash_IsEmpty_rep.
  - by eapply hash_SanityCheck_rep.
  - by apply hash_Insert_rep.
  - by apply hash_Remove_rep.
  - by apply visits_rep.
Qed.

End Refinement.

(** Twelve items, with their own value as key and all in one bucket: the next
    insertion makes the table grow. *)
Definition twelve : res (HashTable (LinkedList.list_state Z)) :=
  let* t := HashTable_init in SelfTest_insert (fun x => x) (fun _ => 2) (seqZ 0 12) t.

Lemma hash_table_refines_map_witness :
  exists t t', twelve = Ok t /\ Insert (fun x => x) (fun _ => 2) 20 t = Ok t' /\ numBuckets t' = 16.
Proof.
  destruct (HashTable_init_rep (T := Z) (fun x => x) (fun _ => 2)) as (t0 & E0 & H0).
  destruct (hash_SelfTest_insert_rep (fun x => x) (fun _ => 2) (seqZ 0 12) t0 ∅ H0) as (t & E & Ht);
    [apply (bool_decide_unpack _); vm_compute; exact I|done|vm_compute; reflexivity|].
  assert (twelve = Ok t) as Et by (unfold twelve; by rewrite E0).
  destruct (hash_table_refines_map (fun x => x) (fun _ => 2) t _ 5 20 Ht) as (_ & _ & _ & HI & _);
    [vm_compute; reflexivity|].
  assert ((table_of (fun x : Z => x) (seqZ 0 12) ∪ ∅ : gmap Z Z) !! 20 = None) as En by (vm_compute; reflexivity).
  rewrite En in HI. destruct HI as (t' & EI & _). exists t, t'. split; [done|]. split; [done|].
  assert ((let* t := twelve in let* t' := Insert (fun x => x) (fun _ => 2) 20 t in Ok (numBuckets t')) = Ok 16) as E16
    by (vm_compute; reflexivity).
  rewrite Et in E16. cbn [rbind] in E16. rewrite EI in E16. by injection E16.
Defined.

End Hash.
