(* ===== verification/LibTest.v ===== *)
(** * Self tests of the library (code/lib/list.cc, code/lib/libtest.cc)

    The self tests of [List<T>] and [SortedList<T>], and [LibSelfTest], which
    runs them with those of the bitmap and the hash table.  [Append] and
    [SanityCheck] are virtual: the self test of the base class, called on a
    sorted list, inserts in order and checks the order.  The virtual methods
    are a record, and what the self test relies on is a class with an instance
    for each kind of list. *)

From S2P Require Import Prelude Ints CString Bitmap LinkedList Hash.

Module LibTest.

Import LinkedList.

(** ** Lists *)

Section ListTests.
Context {T : Type} `{EqDecision T}.

(** The virtual methods the self test calls. *)
Record methods := mkMethods {
  m_Append : T -> list_state T -> res (list_state T);
  m_SanityCheck : list_state T -> res unit
}.

Definition List_methods : methods := mkMethods Append SanityCheck.

Definition SortedList_methods (compare : T -> T -> Z) : methods :=
  mkMethods (Insert compare) (SortedSanityCheck compare).

(** The loops of [List<T>::SelfTest] on the entries [p]. *)
Fixpoint SelfTest_append (m : methods) (p : list T) (s : list_state T) : res (list_state T) :=
  match p with
  | [] => Ok s
  | x :: p' =>
      let* s := m_Append m x s in
      let* b := IsInList x s in
      ASSERT b ;;;
      ASSERT (negb (IsEmpty s)) ;;;
      SelfTest_append m p' s
  end.

Fixpoint SelfTest_remove (p : list T) (s : list_state T) : res (list_state T) :=
  match p with
  | [] => Ok s
  | x :: p' =>
      let* s := Remove x s in
      let* b := IsInList x s in
      ASSERT (negb b) ;;;
      SelfTest_remove p' s
  end.

(** [List<T>::SelfTest] *)
Definition SelfTest (m : methods) (p : list T) (s : list_state T) : res (list_state T) :=
  m_SanityCheck m s ;;;
  ASSERT (IsEmpty s && bool_decide (first s = None)) ;;;
  let* xs := Apply s in
  ASSERT (bool_decide (xs = [])) ;;;
  let* s := SelfTest_append m p s in
  m_SanityCheck m s ;;;
  let* s := SelfTest_remove p s in
  ASSERT (IsEmpty s) ;;;
  m_SanityCheck m s ;;;
  Ok s.

(** The loops of [SortedList<T>::SelfTest]. *)
Fixpoint Sorted_insert (compare : T -> T -> Z) (p : list T) (s : list_state T) : res (list_state T) :=
  match p with
  | [] => Ok s
  | x :: p' =>
      let* s := Insert compare x s in
      let* b := IsInList x s in
      ASSERT b ;;;
      Sorted_insert compare p' s
  end.

Fixpoint Sorted_remove (n : nat) (s : list_state T) : res (list T * list_state T) :=
  match n with
  | O => Ok ([], s)
  | S n' =>
      let2* (x, s) := RemoveFront s in
      let* b := IsInList x s in
      ASSERT (negb b) ;;;
      let2* (q, s) := Sorted_remove n' s in
      Ok (x :: q, s)
  end.

Fixpoint Sorted_compare (compare : T -> T -> Z) (q : list T) : res unit :=
  match q with
  | x :: (y :: _) as q' =>
      ASSERT (compare x y <=? 0) ;;;
      Sorted_compare compare q'
  | _ => Ok tt
  end.

(** [SortedList<T>::SelfTest] *)
Definition SortedSelfTest (compare : T -> T -> Z) (p : list T) (s : list_state T) : res (list_state T) :=
  let* s := SelfTest (SortedList_methods compare) p s in
  let* s := Sorted_insert compare p s in
  SortedSanityCheck compare s ;;;
  let2* (q, s) := Sorted_remove (length p) s in
  ASSERT (IsEmpty s) ;;;
  Sorted_compare compare q ;;;
  SortedSanityCheck compare s ;;;
  Ok s.

(** ** What the self test relies on *)

(** The methods keep the items in an order that removal keeps too. *)
Class MethodLaws (m : methods) (ordered : list T -> Prop) : Prop := {
  law_append : forall x s l, list_rep s l -> ordered l -> x ∉ l -> Z.of_nat (length l) + 1 < 2 ^ 31 - 1 ->
    exists s' l', m_Append m x s = Ok s' /\ list_rep s' l' /\ l' ≡ₚ x :: l /\ ordered l';
  law_check : forall s l, list_rep s l -> ordered l -> m_SanityCheck m s = Ok tt;
  law_nil : ordered [];
  law_remove : forall x l, ordered l -> ordered (filter (fun y => y <> x) l)
}.

#[global] Instance List_laws : MethodLaws List_methods (fun _ => True).
Proof.
  split; cbn; try done.
  - intros x s l Hs _ Hx Hlen. destruct (Append_rep x s l Hs Hx Hlen) as (s' & E & Hs'). exists s', (l ++ [x]).
    split; [done|]. split; [done|]. split; [solve_Permutation|done].
  - intros s l Hs _. by eapply SanityCheck_rep.
Qed.

Lemma StronglySorted_filter (R : T -> T -> Prop) (Q : T -> Prop) `{forall x, Decision (Q x)} l :
  StronglySorted R l -> StronglySorted R (filter Q l).
Proof.
  induction 1 as [|x l Hl IH Hx]; [constructor|]. rewrite filter_cons. case_decide; [|done].
  constructor; [done|]. rewrite Forall_forall in *. intros y [_ Hy]%list_elem_of_filter. auto.
Qed.

#[global] Instance SortedList_laws compare `{!Comparison compare} :
  MethodLaws (SortedList_methods compare) (StronglySorted (in_order compare)).
Proof.
  split; cbn.
  - intros x s l Hs Ho Hx Hlen. destruct (Insert_rep compare x s l Hs Hx Hlen) as (s' & E & Hs').
    exists s', (ins compare x l). split; [done|]. split; [done|]. split; [apply ins_perm|by apply ins_sorted].
  - intros s l. apply SortedSanityCheck_rep.
  - constructor.
  - intros x l. apply StronglySorted_filter.
Qed.

Section Laws.
Context (m : methods) (ordered : list T -> Prop) `{!MethodLaws m ordered}.

Lemma SelfTest_append_rep p : forall s l,
  list_rep s l -> ordered l -> NoDup (l ++ p) -> Z.of_nat (length (l ++ p)) < 2 ^ 31 - 1 ->
  exists s' l', SelfTest_append m p s = Ok s' /\ list_rep s' l' /\ l' ≡ₚ l ++ p /\ ordered l'.
Proof.
  induction p as [|x p IH]; intros s l Hs Ho Hnd Hlen; cbn [SelfTest_append].
  - exists s, l. by rewrite app_nil_r.
  - assert (x ∉ l) as Hx.
    { apply NoDup_app in Hnd as (_ & Hd & _). intros Hin. apply (Hd x Hin). left. }
    destruct (law_append x s l Hs Ho Hx) as (s1 & l1 & -> & Hs1 & Hp1 & Ho1).
    { rewrite length_app in Hlen. cbn in Hlen. lia. }
    cbn [rbind]. rewrite (IsInList_rep x s1 _ Hs1), bool_decide_true by (rewrite Hp1; left).
    cbn [rbind ASSERT]. rewrite (IsEmpty_rep s1 _ Hs1), bool_decide_false by (intros ->; by apply Permutation_nil_l in Hp1).
    cbn [negb ASSERT rbind]. assert (l1 ++ p ≡ₚ l ++ x :: p) as Hp2 by (rewrite Hp1; solve_Permutation).
    destruct (IH s1 l1 Hs1 Ho1) as (s' & l' & -> & Hs' & Hp' & Ho'); [by rewrite Hp2|by rewrite Hp2|].
    exists s', l'. split_and!; [done|done|by rewrite Hp', Hp2|done].
Qed.

Lemma SelfTest_remove_rep p : forall s l,
  list_rep s l -> ordered l -> l ≡ₚ p -> exists s', SelfTest_remove p s = Ok s' /\ list_rep s' [].
Proof.
  induction p as [|x p IH]; intros s l Hs Ho Hp; cbn [SelfTest_remove].
  - apply Permutation_nil_r in Hp as ->. eauto.
  - pose proof Hs as (_ & _ & _ & _ & Hnd). rewrite Hp in Hnd. apply NoDup_cons in Hnd as [Hx _].
    destruct (Remove_rep x s l Hs) as (s1 & -> & Hs1); [rewrite Hp; left|]. cbn [rbind].
    assert (filter (fun y => y <> x) l ≡ₚ p) as Hp1.
    { rewrite Hp, filter_cons_False, filter_ne_id by naive_solver. done. }
    rewrite (IsInList_rep x s1 _ Hs1), bool_decide_false by (by rewrite Hp1). cbn [rbind negb ASSERT].
    eapply IH; [done|by apply law_remove|done].
Qed.

Lemma SelfTest_rep p s :
  list_rep s [] -> NoDup p -> Z.of_nat (length p) < 2 ^ 31 - 1 ->
  exists s', SelfTest m p s = Ok s' /\ list_rep s' [].
Proof.
  intros Hs Hnd Hlen. unfold SelfTest. rewrite (law_check s []) by (done || apply law_nil). cbn [rbind].
  rewrite (IsEmpty_rep s []), bool_decide_true by done.
  assert (first s = None) as -> by (destruct Hs as ([|? ?] & (Hseg & _) & _ & E & _); done).
  cbn [bool_decide andb ASSERT rbind]. rewrite (Apply_rep s []) by done. cbn [rbind].
  rewrite bool_decide_true by done. cbn [ASSERT rbind].
  destruct (SelfTest_append_rep p s [] Hs law_nil Hnd Hlen) as (s1 & l1 & -> & Hs1 & Hp1 & Ho1). cbn [rbind app] in *.
  rewrite (law_check s1 _ Hs1 Ho1). cbn [rbind].
  destruct (SelfTest_remove_rep p s1 l1 Hs1 Ho1 Hp1) as (s2 & -> & Hs2). cbn [rbind].
  rewrite (IsEmpty_rep s2 _ Hs2), bool_decide_true by done. cbn [ASSERT rbind].
  rewrite (law_check s2 _ Hs2 law_nil). cbn [rbind]. eauto.
Qed.

End Laws.

(** ** Sorted lists *)

Section SortedTest.
Context (compare : T -> T -> Z) `{!Comparison compare}.

Lemma Sorted_insert_rep p : forall s l,
  list_rep s l -> StronglySorted (in_order compare) l -> NoDup (l ++ p) -> Z.of_nat (length (l ++ p)) < 2 ^ 31 - 1 ->
  exists s' l', Sorted_insert compare p s = Ok s' /\ list_rep s' l' /\ l' ≡ₚ l ++ p /\ StronglySorted (in_order compare) l'.
Proof.
  induction p as [|x p IH]; intros s l Hs Ho Hnd Hlen; cbn [Sorted_insert].
  - exists s, l. by rewrite app_nil_r.
  - assert (x ∉ l) as Hx.
    { apply NoDup_app in Hnd as (_ & Hd & _). intros Hin. apply (Hd x Hin). left. }
    destruct (Insert_rep compare x s l Hs Hx) as (s1 & -> & Hs1).
    { rewrite length_app in Hlen. cbn in Hlen. lia. }
    cbn [rbind]. rewrite (IsInList_rep x s1 _ Hs1), bool_decide_true by (rewrite ins_perm; left). cbn [rbind ASSERT].
    assert (ins compare x l ++ p ≡ₚ l ++ x :: p) as Hp2 by (rewrite ins_perm; solve_Permutation).
    destruct (IH s1 _ Hs1) as (s' & l' & -> & Hs' & Hp' & Ho'); [by apply ins_sorted|by rewrite Hp2|by rewrite Hp2|].
    exists s', l'. split_and!; [done|done|by rewrite Hp', Hp2|done].
Qed.

Lemma Sorted_remove_rep l : forall s, list_rep s l ->
  exists s', Sorted_remove (length l) s = Ok (l, s') /\ list_rep s' [].
Proof.
  induction l as [|x l IH]; intros s Hs; cbn [length Sorted_remove]; [eauto|].
  pose proof Hs as (_ & _ & _ & _ & Hnd). apply NoDup_cons in Hnd as [Hx _].
  destruct (RemoveFront_rep s x l Hs) as (s1 & -> & Hs1). cbn [rbind].
  rewrite (IsInList_rep x s1 _ Hs1), bool_decide_false by done. cbn [rbind negb ASSERT].
  destruct (IH s1 Hs1) as (s' & -> & Hs'). cbn [rbind]. eauto.
Qed.

Lemma Sorted_compare_Ok q : StronglySorted (in_order compare) q -> Sorted_compare compare q = Ok tt.
Proof.
  induction 1 as [|x [|y q] Hq IH Hx]; [done|done|]. cbn [Sorted_compare] in *.
  apply Forall_cons in Hx as [Hxy _]. unfold in_order in Hxy. rewrite (proj2 (Z.leb_le _ 0)) by done. done.
Qed.

Lemma SortedSelfTest_rep p s :
  list_rep s [] -> NoDup p -> Z.of_nat (length p) < 2 ^ 31 - 1 ->
  exists s', SortedSelfTest compare p s = Ok s' /\ list_rep s' [].
Proof.
  intros Hs Hnd Hlen. unfold SortedSelfTest.
  destruct (SelfTest_rep (SortedList_methods compare) _ p s Hs Hnd Hlen) as (s1 & -> & Hs1). cbn [rbind].
  destruct (Sorted_insert_rep p s1 [] Hs1) as (s2 & l & -> & Hs2 & Hp & Ho); [constructor|done|done|]. cbn [rbind app] in *.
  rewrite (SortedSanityCheck_rep compare s2 l) by done. cbn [rbind]. rewrite <- (Permutation_length Hp).
  destruct (Sorted_remove_rep l s2 Hs2) as (s3 & -> & Hs3). cbn [rbind].
  rewrite (IsEmpty_rep s3 [] Hs3), bool_decide_true by done. cbn [ASSERT rbind].
  rewrite Sorted_compare_Ok by done. cbn [rbind]. rewrite (SortedSanityCheck_rep compare s3 []) by (done || constructor).
  cbn [rbind]. eauto.
Qed.

End SortedTest.

End ListTests.

Arguments methods T : clear implicits.

(** The self test of [List<T>] passes on an empty list object for any distinct
    entries, and leaves the list empty. *)
Theorem list_selftest_passes {T} `{EqDecision T} (p : list T) (s : list_state T) :
  list_rep s [] -> NoDup p -> Z.of_nat (length p) < 2 ^ 31 - 1 ->
  exists s', SelfTest List_methods p s = Ok s' /\ list_rep s' [].
Proof. apply (SelfTest_rep List_methods _). Qed.

(** ** [LibSelfTest] *)

Definition IntCompare (x y : Z) : Z := if x <? y then -1 else if x =? y then 0 else 1.

#[global] Instance IntCompare_comparison : Comparison IntCompare.
Proof.
  split; unfold IntCompare.
  - intros x y. destruct (Z.ltb_spec x y), (Z.eqb_spec x y), (Z.ltb_spec y x), (Z.eqb_spec y x); lia.
  - intros x y z. destruct (Z.ltb_spec x y), (Z.eqb_spec x y), (Z.ltb_spec y z), (Z.eqb_spec y z),
      (Z.ltb_spec x z), (Z.eqb_spec x z); lia.
Qed.

Definition HashInt (key : Z) : Z := u32 key.

Definition HashKey (str : list Z) : Z := atoi str.

Definition listTestVector : list Z := [9; 5; 7].

(** The literals, which are distinct, stand for the pointers to them. *)
Definition hashTestVector : list (list Z) :=
  map str ["0"; "1"; "2"; "3"; "4"; "5"; "6"; "7"; "8"; "9"; "10"; "11"; "12"; "13"; "14"]%string.

(** [LibSelfTest]; [garbage] is what the memory of the bitmap holds before. *)
Definition LibSelfTest (garbage : list Z) : res unit :=
  let* map := Bitmap.Bitmap garbage 200 in
  let intList := LinkedList.List ∅ 1 in
  let sortList := LinkedList.List ∅ 1 in
  let* hashTable := Hash.HashTable_init (L := list_state (list Z)) in
  let* _ := Bitmap.SelfTest map in
  let* _ := SelfTest List_methods listTestVector intList in
  let* _ := SortedSelfTest IntCompare listTestVector sortList in
  let* hashTable := Hash.SelfTest HashKey HashInt hashTestVector hashTable in
  Hash.HashTable_delete hashTable.

Lemma empty_list {T} : list_rep (LinkedList.List (T := T) ∅ 1) [].
Proof. apply List_rep. intros a [e Ha]. by rewrite lookup_empty in Ha. Qed.

(** The self tests of the library pass: bitmaps, lists, sorted lists (whose
    test of the base class runs with their own virtual methods) and hash tables
    (whose test makes the table grow) never fail an assertion of [LibSelfTest],
    whatever the memory of the bitmap held before. *)
Theorem library_selftest garbage :
  7 <= Z.of_nat (length garbage) -> LibSelfTest garbage = Ok tt.
Proof.
  intros Hg. unfold LibSelfTest.
  destruct (Bitmap.Bitmap_fresh garbage 200) as (b & -> & Hwf & Hn & Hb); [lia|vm_compute (divRoundUp _ _); lia|].
  cbn [rbind]. destruct (Hash.HashTable_init_rep (L := list_state (list Z)) HashKey HashInt) as (t & -> & Ht). cbn [rbind].
  destruct (Bitmap.SelfTest_fresh b) as (b' & -> & _); [done|by rewrite Hn|lia|]. cbn [rbind].
  destruct (SelfTest_rep List_methods _ listTestVector _ empty_list) as (s1 & -> & _);
    [apply (bool_decide_unpack _); vm_compute; exact I|cbn; lia|]. cbn [rbind].
  destruct (SortedSelfTest_rep IntCompare listTestVector _ empty_list) as (s2 & -> & _);
    [apply (bool_decide_unpack _); vm_compute; exact I|cbn; lia|]. cbn [rbind].
  destruct (Hash.hash_SelfTest_rep HashKey HashInt hashTestVector t Ht) as (t' & -> & Ht');
    [apply (bool_decide_unpack _); vm_compute; exact I|cbn; lia|]. cbn [rbind].
  unfold Hash.HashTable_delete. by rewrite (Hash.hash_IsEmpty_rep _ _ t' ∅ Ht').
Qed.

Lemma library_selftest_witness : LibSelfTest [3; 1; 4; 1; 5; 9; 2] = Ok tt.
Proof. apply library_selftest. cbn. lia. Defined.

End LibTest.
