(* ===== verification/Machine.v ===== *)
(** * The simulated machine (code/machine/machine.h, machine.cc, translate.h,
    translate.cc): registers, main memory, address translation *)

From S2P Require Import Prelude Ints.

Module Machine.

Definition PageSize : Z := 128.
Definition NumPhysPages : Z := 128.
Definition MemorySize : Z := NumPhysPages * PageSize.
Definition TLBSize : Z := 4.

Inductive ExceptionType :=
| NoException
| SyscallException
| PageFaultException
| ReadOnlyException
| BusErrorException
| AddressErrorException
| OverflowException
| IllegalInstrException.

#[global] Instance ExceptionType_eq_dec : EqDecision ExceptionType.
Proof. solve_decision. Defined.

(** [kernel->interrupt]'s status: in the kernel or in a user program. *)
Inductive MachineStatus := IdleMode | SystemMode | UserMode.

Definition StackReg : Z := 29.
Definition RetAddrReg : Z := 31.
Definition NumGPRegs : Z := 32.
Definition HiReg : Z := 32.
Definition LoReg : Z := 33.
Definition PCReg : Z := 34.
Definition NextPCReg : Z := 35.
Definition PrevPCReg : Z := 36.
Definition LoadReg : Z := 37.
Definition LoadValueReg : Z := 38.
Definition BadVAddrReg : Z := 39.
Definition NumTotalRegs : Z := 40.

Record TranslationEntry := mkEntry {
  virtualPage : Z;
  physicalPage : Z;
  valid : bool;
  readOnly : bool;
  use : bool;
  dirty : bool
}.

Record machine := mkMachine {
  registers : list Z;                       (* int registers[NumTotalRegs] *)
  mainMemory : list Z;                      (* bytes *)
  tlb : option (list TranslationEntry);
  pageTable : option (list TranslationEntry);
  pageTableSize : Z;
  status : MachineStatus
}.

(** The constructor, compiled without [USE_TLB]. *)
Definition Machine : machine :=
  {| registers := replicate (Z.to_nat NumTotalRegs) 0;
     mainMemory := replicate (Z.to_nat MemorySize) 0;
     tlb := None; pageTable := None; pageTableSize := 0; status := SystemMode |}.

Definition reg (n : Z) (m : machine) : res Z := arr_get (registers m) n.

(** [registers[n] = v], an assignment to an [int]. *)
Definition set_reg (n v : Z) (m : machine) : res machine :=
  let* rs := arr_set (registers m) n (s32 v) in
  Ok {| registers := rs; mainMemory := mainMemory m; tlb := tlb m; pageTable := pageTable m;
        pageTableSize := pageTableSize m; status := status m |}.

Definition ReadRegister (num : Z) (m : machine) : res Z :=
  ASSERT ((0 <=? num) && (num <? NumTotalRegs)) ;;;
  reg num m.

Definition WriteRegister (num value : Z) (m : machine) : res machine :=
  ASSERT ((0 <=? num) && (num <? NumTotalRegs)) ;;;
  set_reg num value m.

Definition setStatus (st : MachineStatus) (m : machine) : machine :=
  {| registers := registers m; mainMemory := mainMemory m; tlb := tlb m;
     pageTable := pageTable m; pageTableSize := pageTableSize m; status := st |}.

(** [Machine::DelayedLoad] (machine/mipssim.cc) *)
Definition DelayedLoad (nextReg nextValue : Z) (m : machine) : res machine :=
  let* l := reg LoadReg m in
  let* v := reg LoadValueReg m in
  let* m := set_reg l v m in
  let* m := set_reg LoadReg nextReg m in
  let* m := set_reg LoadValueReg nextValue m in
  set_reg 0 0 m.

Definition set_tables (t p : option (list TranslationEntry)) (m : machine) : machine :=
  {| registers := registers m; mainMemory := mainMemory m; tlb := t; pageTable := p;
     pageTableSize := pageTableSize m; status := status m |}.

(** The use and dirty bits after an access through an entry. *)
Definition mark_entry (writing : bool) (e : TranslationEntry) : TranslationEntry :=
  {| virtualPage := virtualPage e; physicalPage := physicalPage e; valid := valid e;
     readOnly := readOnly e; use := true; dirty := if writing then true else dirty e |}.

(** The search for a page in the TLB. *)
Definition tlb_find (vpn : Z) (t : list TranslationEntry) : res (option Z) :=
  let* r := for_break (R := Z) (Z.to_nat TLBSize) 0
    (fun i (_ : unit) =>
       let* e := arr_get t i in
       Ok (if valid e && (virtualPage e =? s32 vpn) then inr i else inl tt)) tt in
  Ok (match r with inr i => Some i | inl _ => None end).

(** The end of [Translate] for an entry of one of the tables: [put] stores the
    marked entry back. *)
Definition use_entry (e : TranslationEntry) (offset size : Z) (writing : bool)
    (put : TranslationEntry -> res machine) (m : machine)
  : res (ExceptionType * Z * machine) :=
  if readOnly e && writing then Ok (ReadOnlyException, 0, m) else
  let pageFrame := u32 (physicalPage e) in
  if NumPhysPages <=? pageFrame then Ok (BusErrorException, 0, m) else
  let* m' := put (mark_entry writing e) in
  let physAddr := pageFrame * PageSize + offset in
  ASSERT ((0 <=? physAddr) && (physAddr + size <=? MemorySize)) ;;;
  Ok (NoException, physAddr, m').

(** [Machine::Translate]: the exception code, the physical address (0 when
    there is an exception), and the machine with its tables updated. *)
Definition Translate (virtAddr size : Z) (writing : bool) (m : machine)
  : res (ExceptionType * Z * machine) :=
  if ((size =? 4) && negb (Z.land virtAddr 3 =? 0)) || ((size =? 2) && negb (Z.land virtAddr 1 =? 0))
  then Ok (AddressErrorException, 0, m) else
  ASSERT (bool_decide (tlb m = None \/ pageTable m = None)) ;;;
  ASSERT (bool_decide (tlb m <> None \/ pageTable m <> None)) ;;;
  let vpn := u32 virtAddr / PageSize in
  let offset := u32 virtAddr mod PageSize in
  match tlb m with
  | None =>
      if pageTableSize m <=? vpn then Ok (AddressErrorException, 0, m) else
      let* t := deref (pageTable m) in
      let* e := arr_get t vpn in
      if negb (valid e) then Ok (PageFaultException, 0, m) else
      use_entry e offset size writing
        (fun e' => let* t' := arr_set t vpn e' in Ok (set_tables None (Some t') m)) m
  | Some t =>
      let* o := tlb_find vpn t in
      match o with
      | None => Ok (PageFaultException, 0, m)
      | Some i =>
          let* e := arr_get t i in
          use_entry e offset size writing
            (fun e' => let* t' := arr_set t i e' in Ok (set_tables (Some t') (pageTable m) m)) m
      end
  end.

(** The bytes of [mainMemory] an access reads and writes. *)
Definition load_bytes (addr : Z) (n : nat) (m : machine) : res (list Z) :=
  if addr <? 0 then Err OutOfBounds else read_bytes (drop (Z.to_nat addr) (mainMemory m)) n.

Definition store_bytes (addr : Z) (bs : list Z) (m : machine) : res machine :=
  if (addr <? 0) || (Z.of_nat (length (mainMemory m)) <? addr + Z.of_nat (length bs))
  then Err OutOfBounds else
  Ok {| registers := registers m; mainMemory := memcpy (mainMemory m) (Z.to_nat addr) bs;
        tlb := tlb m; pageTable := pageTable m; pageTableSize := pageTableSize m;
        status := status m |}.

(** Conversions between host and machine order, on a little-endian host. *)
Definition WordToHost (word : Z) : Z := word.
Definition ShortToHost (shortword : Z) : Z := shortword.
Definition WordToMachine (word : Z) : Z := WordToHost word.
Definition ShortToMachine (shortword : Z) : Z := ShortToHost shortword.

(** The operations that may trap depend on the kernel's [ExceptionHandler]. *)
Section Traps.

Context (ExceptionHandler : ExceptionType -> machine -> res machine).

(** [Machine::RaiseException] *)
Definition RaiseException (which : ExceptionType) (badVAddr : Z) (m : machine) : res machine :=
  let* m := set_reg BadVAddrReg badVAddr m in
  let* m := DelayedLoad 0 0 m in
  let* m := ExceptionHandler which (setStatus SystemMode m) in
  Ok (setStatus UserMode m).

(** [Machine::ReadMem]: the value read, or [None] after an exception. *)
Definition ReadMem (addr size : Z) (m : machine) : res (option Z * machine) :=
  let* (tr, m) := Translate addr size false m in
  let '(exception, physicalAddress) := tr in
  if decide (exception = NoException) then
    if size =? 1 then
      let* b := load_bytes physicalAddress 1 m in Ok (Some (s8 (le_value b)), m)
    else if size =? 2 then
      let* b := load_bytes physicalAddress 2 m in Ok (Some (ShortToHost (le_value b)), m)
    else if size =? 4 then
      let* b := load_bytes physicalAddress 4 m in Ok (Some (s32 (WordToHost (le_value b))), m)
    else Err AssertFailure
  else
    let* m := RaiseException exception addr m in
    Ok (None, m).

(** [Machine::WriteMem]: whether the write was done. *)
Definition WriteMem (addr size value : Z) (m : machine) : res (bool * machine) :=
  let* (tr, m) := Translate addr size true m in
  let '(exception, physicalAddress) := tr in
  if decide (exception = NoException) then
    let* m :=
      if size =? 1 then store_bytes physicalAddress (le_bytes 1 (Z.land value 0xff)) m
      else if size =? 2 then
        store_bytes physicalAddress (le_bytes 2 (ShortToMachine (Z.land value 0xffff))) m
      else if size =? 4 then
        store_bytes physicalAddress (le_bytes 4 (WordToMachine (u32 value))) m
      else Err AssertFailure in
    Ok (true, m)
  else
    let* m := RaiseException exception addr m in
    Ok (false, m).

End Traps.

(** Bounds on register numbers. *)
Ltac regnum :=
  unfold HiReg, LoReg, PCReg, NextPCReg, PrevPCReg, LoadReg, LoadValueReg, BadVAddrReg,
    NumTotalRegs, NumGPRegs, RetAddrReg, StackReg in *; lia.

(** ** The machine invariant *)

Definition regs_ok (rs : list Z) : Prop :=
  length rs = 40%nat /\ Forall is_s32 rs /\ rs !! 0%nat = Some 0 /\
  exists l, rs !! Z.to_nat LoadReg = Some l /\ 0 <= l < 32.

Definition memory_ok (mem : list Z) : Prop :=
  length mem = Z.to_nat MemorySize /\ Forall is_u8 mem.

(** The machine runs a user program on a linear page table. *)
Definition tables_ok (m : machine) : Prop :=
  tlb m = None /\ exists t, pageTable m = Some t /\ Z.of_nat (length t) = pageTableSize m.

Definition machine_ok (m : machine) : Prop :=
  regs_ok (registers m) /\ memory_ok (mainMemory m) /\ tables_ok m.

(** ** Registers *)

Lemma reg_Ok m n : machine_ok m -> 0 <= n < 40 -> exists v, reg n m = Ok v /\ is_s32 v.
Proof.
  intros ((Hl & Hs & _) & _) Hn. unfold reg.
  destruct (arr_get_in_range (registers m) n) as [v Hv]; [lia|]. exists v. split; [done|].
  apply arr_get_Ok in Hv as [_ Hv]. rewrite Forall_lookup in Hs. by eapply Hs.
Qed.

(** The machine with register [n] replaced. *)
Definition with_reg (n v : Z) (m : machine) : machine :=
  {| registers := <[Z.to_nat n := s32 v]> (registers m); mainMemory := mainMemory m;
     tlb := tlb m; pageTable := pageTable m; pageTableSize := pageTableSize m; status := status m |}.

Lemma set_reg_Ok m n v :
  length (registers m) = 40%nat -> 0 <= n < 40 -> set_reg n v m = Ok (with_reg n v m).
Proof. intros Hl Hn. unfold set_reg. by rewrite arr_set_in_range by lia. Qed.

Lemma reg_with_reg m n v k :
  length (registers m) = 40%nat -> 0 <= n < 40 ->
  reg k (with_reg n v m) = if decide (n = k) then Ok (s32 v) else reg k m.
Proof.
  intros Hl Hn. unfold reg. apply arr_get_set with (a := registers m). by rewrite arr_set_in_range by lia.
Qed.

(** Writing a register other than r0 and the pending load. *)
Lemma with_reg_ok m n v :
  machine_ok m -> 1 <= n < 40 -> (n = LoadReg -> 0 <= v < 32) -> machine_ok (with_reg n v m).
Proof.
  intros ((Hl & Hs & H0 & l & Hload & Hlr) & Hmem & Htab) Hn Hv. split; [|done].
  unfold with_reg; cbn [registers]. split_and!.
  - by rewrite length_insert.
  - apply Forall_insert; [done|]. apply s32_range.
  - by rewrite list_lookup_insert_ne by lia.
  - destruct (decide (n = LoadReg)) as [->|Hne].
    + specialize (Hv eq_refl). exists (s32 v). rewrite list_lookup_insert_eq by (cbn; lia).
      split; [done|]. rewrite s32_id; [done|]. unfold is_s32. lia.
    + exists l. rewrite list_lookup_insert_ne; [done|]. unfold LoadReg in *. lia.
Qed.

Lemma setStatus_ok st m : machine_ok (setStatus st m) <-> machine_ok m.
Proof. done. Qed.

(** The registers after a delayed load. *)
Lemma DelayedLoad_Ok m nr nv :
  length (registers m) = 40%nat ->
  (exists l, registers m !! Z.to_nat LoadReg = Some l /\ 0 <= l < 32) ->
  exists l v, reg LoadReg m = Ok l /\ reg LoadValueReg m = Ok v /\
    DelayedLoad nr nv m =
      Ok (with_reg 0 0 (with_reg LoadValueReg nv (with_reg LoadReg nr (with_reg l v m)))).
Proof.
  intros Hl (l & Hload & Hr). assert (reg LoadReg m = Ok l) as El by (by apply arr_get_lookup).
  destruct (arr_get_in_range (registers m) LoadValueReg) as [v Ev]; [rewrite Hl; regnum|].
  change (reg LoadValueReg m = Ok v) in Ev.
  exists l, v. split; [done|]. split; [done|]. unfold DelayedLoad. rewrite El, Ev. cbn [rbind].
  do 4 (rewrite set_reg_Ok by (done || regnum || (cbn; by rewrite !length_insert)); cbn [rbind]).
  done.
Qed.

(** A delayed load restores r0 and makes the next load pending, whatever was
    written to r0 before. *)
Definition almost_ok (m : machine) : Prop :=
  length (registers m) = 40%nat /\ Forall is_s32 (registers m) /\
  (exists l, registers m !! Z.to_nat LoadReg = Some l /\ 0 <= l < 32) /\
  memory_ok (mainMemory m) /\ tables_ok m.

Lemma machine_ok_almost m : machine_ok m -> almost_ok m.
Proof. intros ((Hl & Hs & _ & Hload) & Hmem & Htab). by split_and!. Qed.

Lemma with_reg_almost m n v :
  almost_ok m -> 0 <= n < 37 \/ n = 38 \/ n = 39 -> almost_ok (with_reg n v m).
Proof.
  intros (Hl & Hs & (l & Hload & Hr) & Hmem & Htab) Hn. unfold with_reg. split_and!; cbn; try done.
  - by rewrite length_insert.
  - apply Forall_insert; [done|apply s32_range].
  - exists l. rewrite list_lookup_insert_ne; [done|]. unfold LoadReg in *. cbn in *. lia.
Qed.

Lemma DelayedLoad_ok m nr nv :
  almost_ok m -> 0 <= nr < 32 -> exists m', DelayedLoad nr nv m = Ok m' /\ machine_ok m'.
Proof.
  intros (Hl & Hs & Hload & Hmem & Htab) Hnr.
  destruct (DelayedLoad_Ok m nr nv Hl Hload) as (l & v & El & Ev & E). rewrite E.
  eexists. split; [done|]. unfold with_reg. split_and!; cbn [registers mainMemory]; try done.
  split_and!.
  - by rewrite !length_insert.
  - repeat apply Forall_insert; try apply s32_range. done.
  - rewrite list_lookup_insert_eq; [done|]. rewrite !length_insert. lia.
  - exists (s32 nr). rewrite !(list_lookup_insert_ne _ _ (Z.to_nat LoadReg)) by regnum.
    rewrite list_lookup_insert_eq by (rewrite !length_insert, Hl; regnum).
    split; [done|]. rewrite s32_id; [done|]. unfold is_s32. lia.
Qed.

(** ** Translation *)

Definition is_size (size : Z) : Prop := size = 1 \/ size = 2 \/ size = 4.

(** Virtual address [va] is mapped by entry [e] of table [t] to physical
    address [pa], and an access of this kind is permitted. *)
Definition mapped (t : list TranslationEntry) (va size : Z) (writing : bool)
    (e : TranslationEntry) (pa : Z) : Prop :=
  va mod size = 0 /\
  t !! Z.to_nat (u32 va / PageSize) = Some e /\ valid e = true /\
  (writing = true -> readOnly e = false) /\
  0 <= u32 (physicalPage e) < NumPhysPages /\
  pa = u32 (physicalPage e) * PageSize + u32 va mod PageSize.

Definition touch (t : list TranslationEntry) (va : Z) (writing : bool) (e : TranslationEntry)
    (m : machine) : machine :=
  set_tables None (Some (<[Z.to_nat (u32 va / PageSize) := mark_entry writing e]> t)) m.

Lemma aligned_check va size :
  is_size size ->
  ((size =? 4) && negb (Z.land va 3 =? 0)) || ((size =? 2) && negb (Z.land va 1 =? 0)) =
  negb (va mod size =? 0).
Proof.
  change 3 with (Z.ones 2). change 1 with (Z.ones 1). rewrite !Z.land_ones by lia.
  change (2 ^ 2) with 4. change (2 ^ 1) with 2.
  intros [->|[->| ->]]; cbn [Z.eqb andb orb Pos.eqb].
  - by rewrite Z.mod_1_r.
  - done.
  - by rewrite orb_false_r.
Qed.

(** An aligned access stays within its page. *)
Lemma within_page va size : is_size size -> va mod size = 0 -> u32 va mod PageSize + size <= PageSize.
Proof. unfold u32, PageSize. intros [->|[->| ->]] H; zify_div; lia. Qed.

Lemma Translate_cases m va size w :
  tables_ok m -> is_size size ->
  (exists ex, ex <> NoException /\ Translate va size w m = Ok (ex, 0, m) /\
     forall t e pa, pageTable m = Some t -> ~ mapped t va size w e pa) \/
  (exists t e pa, pageTable m = Some t /\ mapped t va size w e pa /\
     0 <= pa /\ pa + size <= MemorySize /\
     Translate va size w m = Ok (NoException, pa, touch t va w e m)).
Proof.
  intros (Ht & t & Hp & Hlen) Hsize. unfold Translate, mapped. rewrite aligned_check by done.
  destruct (Z.eqb_spec (va mod size) 0) as [Hal|Hal]; cbn [negb].
  2:{ left. exists AddressErrorException. split_and!; [done|done|]. intros t' e pa _ [? _]. done. }
  rewrite Ht, Hp. rewrite !bool_decide_true by (by left || by right). cbn [ASSERT rbind deref].
  assert (0 <= u32 va / PageSize) as Hvpn by (pose proof (u32_range va); unfold PageSize; zlia).
  destruct (Z.leb_spec (pageTableSize m) (u32 va / PageSize)) as [Hbig|Hin].
  { left. exists AddressErrorException. split_and!; [done|done|].
    intros t' e pa [= <-] (_ & He & _). apply lookup_lt_Some in He. lia. }
  destruct (arr_get_in_range t (u32 va / PageSize)) as [e He]; [lia|]. rewrite He. cbn [rbind].
  apply arr_get_Ok in He as [_ He].
  destruct (valid e) eqn:Hv; cbn [negb].
  2:{ left. exists PageFaultException. split_and!; [done|done|].
      intros t' e' pa [= <-] (_ & He' & Hv' & _). congruence. }
  unfold use_entry. destruct (readOnly e && w) eqn:Hro.
  { left. exists ReadOnlyException. split_and!; [done|done|].
    intros t' e' pa [= <-] (_ & He' & _ & Hw & _). apply andb_true_iff in Hro as [Hr ->].
    assert (e' = e) as -> by congruence. by rewrite Hw in Hr. }
  destruct (Z.leb_spec NumPhysPages (u32 (physicalPage e))) as [Hb|Hb].
  { left. exists BusErrorException. split_and!; [done|done|].
    intros t' e' pa [= <-] (_ & He' & _ & _ & Hr & _). assert (e' = e) as -> by congruence. lia. }
  right. exists t, e, (u32 (physicalPage e) * PageSize + u32 va mod PageSize).
  rewrite arr_set_in_range by lia. cbn [rbind].
  pose proof (within_page va size Hsize Hal) as Hpage.
  pose proof (proj1 (u32_range (physicalPage e))) as Hpp.
  assert (0 <= u32 va mod PageSize) by (unfold PageSize; zify_div; lia).
  assert (MemorySize = NumPhysPages * PageSize) as HM by done.
  assert (u32 (physicalPage e) * PageSize + u32 va mod PageSize + size <= MemorySize) as Hmax
    by (unfold NumPhysPages, PageSize, MemorySize in *; lia).
  assert (0 <= u32 (physicalPage e) * PageSize + u32 va mod PageSize) as Hmin
    by (unfold PageSize in *; lia).
  split; [done|]. split; [split_and!; try done|].
  - intros ->. by rewrite andb_true_r in Hro.
  - split_and!; [done|done|].
    by rewrite (proj2 (Z.leb_le 0 _)), (proj2 (Z.leb_le _ MemorySize)) by done.
Qed.

Lemma touch_tables t va w e m :
  tables_ok m -> pageTable m = Some t -> tables_ok (touch t va w e m).
Proof.
  intros (Ht & t' & Hp & Hlen) Hp'. split; [done|]. eexists. split; [done|]. cbn.
  rewrite length_insert. congruence.
Qed.

Lemma load_bytes_Ok m pa n :
  length (mainMemory m) = Z.to_nat MemorySize -> 0 <= pa -> pa + Z.of_nat n <= MemorySize ->
  load_bytes pa n m = Ok (slice (Z.to_nat pa) n (mainMemory m)).
Proof.
  intros Hl H0 H1. unfold load_bytes. rewrite (proj2 (Z.ltb_ge pa 0)) by lia.
  rewrite read_bytes_Ok; [done|]. rewrite length_drop. lia.
Qed.

Definition with_mem (pa : Z) (bs : list Z) (m : machine) : machine :=
  {| registers := registers m; mainMemory := memcpy (mainMemory m) (Z.to_nat pa) bs;
     tlb := tlb m; pageTable := pageTable m; pageTableSize := pageTableSize m; status := status m |}.

Lemma store_bytes_Ok m pa bs :
  length (mainMemory m) = Z.to_nat MemorySize -> 0 <= pa -> pa + Z.of_nat (length bs) <= MemorySize ->
  store_bytes pa bs m = Ok (with_mem pa bs m).
Proof.
  intros Hl H0 H1. unfold store_bytes. unfold MemorySize, NumPhysPages, PageSize in *.
  rewrite (proj2 (Z.ltb_ge pa 0)), (proj2 (Z.ltb_ge _ _)) by lia. done.
Qed.

(** ** Memory accesses *)

(** The value that a read of the given size makes of the bytes at [pa]. *)
Definition read_value (size : Z) (pa : Z) (mem : list Z) : Z :=
  let v := le_value (slice (Z.to_nat pa) (Z.to_nat size) mem) in
  if size =? 1 then s8 v else if size =? 2 then v else s32 v.

Section Access.

Context (ExceptionHandler : ExceptionType -> machine -> res machine).

Lemma ReadMem_mapped m va size t e pa :
  tables_ok m -> length (mainMemory m) = Z.to_nat MemorySize -> is_size size ->
  pageTable m = Some t -> mapped t va size false e pa ->
  ReadMem ExceptionHandler va size m =
    Ok (Some (read_value size pa (mainMemory m)), touch t va false e m).
Proof.
  intros Htab Hlen Hsize Hp Hm.
  destruct (Translate_cases m va size false Htab Hsize)
    as [(ex & _ & _ & Hno)|(t' & e' & pa' & Hp' & Hm' & H0 & H1 & E)].
  { by destruct (Hno t e pa Hp). }
  assert (t' = t) as -> by congruence. destruct Hm as (_ & He & _ & _ & _ & ->).
  destruct Hm' as (_ & He' & _ & _ & _ & ->). assert (e' = e) as -> by congruence.
  unfold ReadMem. rewrite E. cbn [rbind]. rewrite decide_True by done.
  unfold read_value.
  destruct Hsize as [->|[->| ->]]; cbn [Z.eqb Pos.eqb];
    rewrite load_bytes_Ok by (cbn [mainMemory touch set_tables]; done || lia); done.
Qed.

Lemma WriteMem_mapped m va size v t e pa :
  tables_ok m -> length (mainMemory m) = Z.to_nat MemorySize -> is_size size ->
  pageTable m = Some t -> mapped t va size true e pa ->
  WriteMem ExceptionHandler va size v m =
    Ok (true, with_mem pa (le_bytes (Z.to_nat size) v) (touch t va true e m)).
Proof.
  intros Htab Hlen Hsize Hp Hm.
  destruct (Translate_cases m va size true Htab Hsize)
    as [(ex & _ & _ & Hno)|(t' & e' & pa' & Hp' & Hm' & H0 & H1 & E)].
  { by destruct (Hno t e pa Hp). }
  assert (t' = t) as -> by congruence. destruct Hm as (_ & He & _ & _ & _ & ->).
  destruct Hm' as (_ & He' & _ & _ & _ & ->). assert (e' = e) as -> by congruence.
  unfold WriteMem. rewrite E. cbn [rbind]. rewrite decide_True by done.
  unfold ShortToMachine, ShortToHost, WordToMachine, WordToHost.
  change 0xff with (Z.ones 8). change 0xffff with (Z.ones 16). rewrite !Z.land_ones by lia.
  destruct Hsize as [->|[->| ->]]; cbn [Z.eqb Pos.eqb];
    rewrite store_bytes_Ok by (rewrite ?length_le_bytes; cbn [mainMemory touch set_tables]; done || lia);
    cbn [rbind]; do 3 f_equal.
  - apply (le_bytes_mod 1).
  - apply (le_bytes_mod 2).
  - apply (le_bytes_mod 4).
Qed.

End Access.

(** ** Preservation of the invariant *)

Section Preservation.

Context (ExceptionHandler : ExceptionType -> machine -> res machine).

(** The kernel's handler returns to a machine on which user code can go on. *)
Definition handler_ok : Prop :=
  forall which m, machine_ok m -> exists m', ExceptionHandler which m = Ok m' /\ machine_ok m'.

Context (Hhandler : handler_ok).

Lemma RaiseException_ok which bad m :
  almost_ok m -> exists m', RaiseException ExceptionHandler which bad m = Ok m' /\ machine_ok m'.
Proof.
  intros Hm. unfold RaiseException. rewrite set_reg_Ok by (apply Hm || regnum). cbn [rbind].
  destruct (DelayedLoad_ok (with_reg BadVAddrReg bad m) 0 0) as (m1 & -> & Hm1).
  - apply with_reg_almost; [done|]. by right; right.
  - lia.
  - cbn [rbind]. destruct (Hhandler which (setStatus SystemMode m1) Hm1) as (m2 & -> & Hm2).
    cbn [rbind]. eauto.
Qed.

Lemma read_value_s32 size pa mem : is_size size -> Forall is_u8 mem -> is_s32 (read_value size pa mem).
Proof.
  intros Hsize Hu. unfold read_value.
  pose proof (le_value_range _ (slice_u8 (Z.to_nat pa) (Z.to_nat size) mem Hu)) as Hr.
  destruct Hsize as [->|[->| ->]]; cbn [Z.eqb Pos.eqb].
  - zlia.
  - assert (length (slice (Z.to_nat pa) (Z.to_nat 2) mem) <= 2)%nat as Hl
      by (unfold slice; rewrite length_take; lia).
    assert (2 ^ (8 * Z.of_nat (length (slice (Z.to_nat pa) (Z.to_nat 2) mem))) <= 2 ^ 16)
      by (apply Z.pow_le_mono_r; lia). unfold is_s32. lia.
  - apply s32_range.
Qed.

(** A read leaves the invariant; if it did not trap, the registers too. *)
Lemma ReadMem_ok m va size :
  machine_ok m -> is_size size ->
  exists o m', ReadMem ExceptionHandler va size m = Ok (o, m') /\ machine_ok m' /\
    forall v, o = Some v -> is_s32 v /\ registers m' = registers m.
Proof.
  intros Hm Hsize. pose proof Hm as (Hregs & [Hlen Hu] & Htab).
  destruct (Translate_cases m va size false Htab Hsize)
    as [(ex & Hex & E & _)|(t & e & pa & Hp & Hmap & _ & _ & _)].
  - destruct (RaiseException_ok ex va m) as (m' & E' & Hm'); [by apply machine_ok_almost|].
    exists None, m'. unfold ReadMem. rewrite E. cbn [rbind]. rewrite decide_False, E' by done. done.
  - rewrite (ReadMem_mapped _ m va size t e pa) by done.
    eexists _, _. split; [done|]. split.
    + split_and!; [done|by split|by apply touch_tables].
    + intros v [= <-]. split; [by apply read_value_s32|done].
Qed.

Lemma memory_ok_store mem pa bs :
  memory_ok mem -> Forall is_u8 bs -> 0 <= pa -> pa + Z.of_nat (length bs) <= MemorySize ->
  memory_ok (memcpy mem (Z.to_nat pa) bs).
Proof.
  intros [Hl Hu] Hb H0 H1. split; [|by apply memcpy_u8].
  rewrite length_memcpy; [done|]. rewrite Hl. lia.
Qed.

Lemma WriteMem_ok m va size v :
  machine_ok m -> is_size size ->
  exists b m', WriteMem ExceptionHandler va size v m = Ok (b, m') /\ machine_ok m' /\
    (b = true -> registers m' = registers m).
Proof.
  intros Hm Hsize. pose proof Hm as (Hregs & [Hlen Hu] & Htab).
  destruct (Translate_cases m va size true Htab Hsize)
    as [(ex & Hex & E & _)|(t & e & pa & Hp & Hmap & H0 & H1 & _)].
  - destruct (RaiseException_ok ex va m) as (m' & E' & Hm'); [by apply machine_ok_almost|].
    exists false, m'. unfold WriteMem. rewrite E. cbn [rbind]. rewrite decide_False, E' by done. done.
  - rewrite (WriteMem_mapped _ m va size v t e pa) by done.
    eexists _, _. split; [done|]. split; [|done].
    split_and!; [done| |by apply touch_tables]. apply memory_ok_store; [by split|apply le_bytes_u8|done|].
    rewrite length_le_bytes. destruct Hsize as [->|[->| ->]]; cbn in *; lia.
Qed.

End Preservation.

(** ** Reads and writes together *)

Lemma WriteMem_true H m m1 va size v :
  tables_ok m -> length (mainMemory m) = Z.to_nat MemorySize -> is_size size ->
  WriteMem H va size v m = Ok (true, m1) ->
  exists t e pa, pageTable m = Some t /\ mapped t va size true e pa /\
    0 <= pa /\ pa + size <= MemorySize /\
    m1 = with_mem pa (le_bytes (Z.to_nat size) v) (touch t va true e m).
Proof.
  intros Htab Hlen Hsize Hw.
  destruct (Translate_cases m va size true Htab Hsize)
    as [(ex & Hex & E & _)|(t & e & pa & Hp & Hmap & H0 & H1 & _)].
  - exfalso. unfold WriteMem in Hw. rewrite E in Hw. cbn [rbind] in Hw.
    rewrite decide_False in Hw by done. by apply bind_Ok_inv in Hw as (m' & _ & [=]).
  - rewrite (WriteMem_mapped H m va size v t e pa) in Hw by done. injection Hw as <-.
    exists t, e, pa. done.
Qed.

(** The entry of a page after an access still maps it. *)
Lemma mapped_touched t va size e pa :
  mapped t va size true e pa ->
  mapped (<[Z.to_nat (u32 va / PageSize) := mark_entry true e]> t) va size false (mark_entry true e) pa.
Proof.
  intros (Hal & He & Hv & _ & Hr & ->). split_and!; try done; try apply Hr.
  apply list_lookup_insert_eq. by eapply lookup_lt_Some.
Qed.

Lemma read_value_stored size pa v mem :
  is_size size -> length mem = Z.to_nat MemorySize -> 0 <= pa -> pa + size <= MemorySize ->
  read_value size pa (memcpy mem (Z.to_nat pa) (le_bytes (Z.to_nat size) v)) =
    if size =? 1 then s8 v else if size =? 2 then u16 v else s32 v.
Proof.
  intros Hsize Hl H0 H1. unfold read_value. rewrite slice_memcpy.
  2:{ by rewrite length_le_bytes. } 2:{ rewrite Hl. destruct Hsize as [->|[->| ->]]; lia. }
  rewrite le_value_bytes. destruct Hsize as [->|[->| ->]]; cbn [Z.eqb Pos.eqb].
  - change (2 ^ (8 * Z.of_nat (Z.to_nat 1))) with 256. zlia.
  - done.
  - change (2 ^ (8 * Z.of_nat (Z.to_nat 4))) with (2 ^ 32). apply s32_u32.
Qed.

(** The page frames that a table gives access to. *)
Definition frame_of (t : list TranslationEntry) (f : Z) : Prop :=
  exists e, e ∈ t /\ valid e = true /\ u32 (physicalPage e) = f.

Lemma mapped_frame t va size w e pa i :
  is_size size -> mapped t va size w e pa -> pa <= i < pa + size -> frame_of t (i / PageSize).
Proof.
  intros Hsize (Hal & He & Hv & _ & _ & ->) Hi. exists e.
  split; [by eapply list_elem_of_lookup_2|]. split; [done|].
  pose proof (within_page va size Hsize Hal) as Hp.
  unfold PageSize in *. zify_div. lia.
Qed.

(** ** Properties *)

(** C32: what is written to virtual memory is read back: after [WriteMem] of 1,
    2 or 4 bytes succeeded, [ReadMem] of the same size at the same address
    gives the value, cut to its width (signed for bytes and words, unsigned for
    half words); and the page table entry has its use and dirty bits set. *)
Theorem read_after_write H m m1 va size v :
  machine_ok m -> is_size size -> WriteMem H va size v m = Ok (true, m1) ->
  exists m2 t e, ReadMem H va size m1 =
      Ok (Some (if size =? 1 then s8 v else if size =? 2 then u16 v else s32 v), m2) /\
    pageTable m2 = Some t /\ t !! Z.to_nat (u32 va / PageSize) = Some e /\
    use e = true /\ dirty e = true.
Proof.
  intros (_ & [Hlen Hu] & Htab) Hsize Hw.
  destruct (WriteMem_true H m m1 va size v Htab Hlen Hsize Hw) as (t & e & pa & Hp & Hmap & H0 & H1 & ->).
  pose proof (mapped_touched _ _ _ _ _ Hmap) as Hmap'.
  assert (length (memcpy (mainMemory m) (Z.to_nat pa) (le_bytes (Z.to_nat size) v)) = Z.to_nat MemorySize) as Hlen'.
  { rewrite length_memcpy; [done|]. rewrite length_le_bytes, Hlen. destruct Hsize as [->|[->| ->]]; lia. }
  rewrite (ReadMem_mapped H (with_mem pa (le_bytes (Z.to_nat size) v) (touch t va true e m))
    va size _ (mark_entry true e) pa (touch_tables t va true e m Htab Hp) Hlen' Hsize eq_refl Hmap').
  cbn [mainMemory with_mem touch set_tables]. rewrite read_value_stored by done.
  eexists _, _, _. split; [done|]. split; [done|].
  rewrite list_lookup_insert_eq; [done|]. eapply lookup_lt_Some, Hmap'.
Qed.

(** A machine whose single page 0 is mapped to frame 3. *)
Definition one_page : machine :=
  {| registers := replicate 40 0; mainMemory := replicate (Z.to_nat MemorySize) 0; tlb := None;
     pageTable := Some [{| virtualPage := 0; physicalPage := 3; valid := true;
                           readOnly := false; use := false; dirty := false |}];
     pageTableSize := 1; status := UserMode |}.

Lemma one_page_ok : machine_ok one_page.
Proof.
  split_and!.
  - split_and!; [reflexivity|apply Forall_replicate; zlia|reflexivity|].
    exists 0. split; [reflexivity|lia].
  - split; [apply length_replicate|apply Forall_replicate; zlia].
  - split; [reflexivity|]. eexists. split; reflexivity.
Qed.

Lemma read_after_write_setup : exists m1, WriteMem (fun _ m => Ok m) 8 4 (-5) one_page = Ok (true, m1).
Proof.
  eexists. eapply (WriteMem_mapped _ one_page 8 4 (-5) _ _ 392).
  - apply one_page_ok.
  - apply length_replicate.
  - by right; right.
  - reflexivity.
  - split_and!; reflexivity || (vm_compute; done) || done.
Qed.

Lemma read_after_write_witness :
  exists m1 m2 t e, WriteMem (fun _ m => Ok m) 8 4 (-5) one_page = Ok (true, m1) /\
    ReadMem (fun _ m => Ok m) 8 4 m1 = Ok (Some (-5), m2) /\
    pageTable m2 = Some t /\ t !! Z.to_nat (u32 8 / PageSize) = Some e /\
    use e = true /\ dirty e = true.
Proof.
  destruct read_after_write_setup as [m1 E].
  destruct (read_after_write (fun _ m => Ok m) one_page m1 8 4 (-5)) as (m2 & t & e & H);
    [apply one_page_ok|by right; right|exact E|].
  exists m1, m2, t, e. split; [exact E|exact H].
Defined.

(** Memory protection.  A store that a user program performs changes only
    bytes of page frames its own page table maps; a load of another address
    space, whose page table maps none of these frames, reads the same value
    before and after. *)
Theorem address_spaces_isolated H m m1 va size v t t' va' size' w' e' pa' :
  machine_ok m -> is_size size -> WriteMem H va size v m = Ok (true, m1) -> pageTable m = Some t ->
  (forall f, frame_of t f -> ~ frame_of t' f) ->
  is_size size' -> mapped t' va' size' w' e' pa' -> pa' + size' <= MemorySize ->
  (forall i, mainMemory m1 !! Z.to_nat i <> mainMemory m !! Z.to_nat i -> 0 <= i -> frame_of t (i / PageSize)) /\
  read_value size' pa' (mainMemory m1) = read_value size' pa' (mainMemory m).
Proof.
  intros (_ & [Hlen Hu] & Htab) Hsize Hw Hp Hdis Hsize' Hmap' Hmax'.
  destruct (WriteMem_true H m m1 va size v Htab Hlen Hsize Hw) as (t0 & e & pa & Hp0 & Hmap & H0 & H1 & ->).
  assert (t0 = t) as -> by congruence. cbn [mainMemory with_mem touch set_tables].
  assert (Z.of_nat (length (le_bytes (Z.to_nat size) v)) = size) as Hb
    by (rewrite length_le_bytes; destruct Hsize as [->|[->| ->]]; lia).
  assert (forall i, 0 <= i -> ~ pa <= i < pa + size ->
    memcpy (mainMemory m) (Z.to_nat pa) (le_bytes (Z.to_nat size) v) !! Z.to_nat i =
    mainMemory m !! Z.to_nat i) as Hout.
  { intros i Hi Hne. apply lookup_memcpy_out; [rewrite Hlen; lia|lia]. }
  split.
  - intros i Hi Hi0. destruct (decide (pa <= i < pa + size)) as [Hin|Hne].
    + by apply (mapped_frame t va size true e pa).
    + by destruct Hi; apply Hout.
  - assert (0 <= pa') as Hpa'.
    { destruct Hmap' as (_ & _ & _ & _ & Hr & ->). unfold PageSize. zify_div. lia. }
    unfold read_value. rewrite (slice_eq _ _ _ (mainMemory m)); [done|].
    intros i Hi. rewrite <- (Nat2Z.id i). apply Hout; [lia|]. intros Hin.
    assert (pa' <= Z.of_nat i < pa' + size') as Hin'
      by (destruct Hsize' as [->|[->| ->]]; lia).
    apply (Hdis (Z.of_nat i / PageSize)).
    + by apply (mapped_frame t va size true e pa).
    + by apply (mapped_frame t' va' size' w' e' pa').
Qed.

Lemma address_spaces_isolated_witness :
  let other := [{| virtualPage := 0; physicalPage := 9; valid := true; readOnly := false;
                   use := false; dirty := false |}] in
  exists m1, WriteMem (fun _ m => Ok m) 8 4 (-5) one_page = Ok (true, m1) /\
    read_value 4 1160 (mainMemory m1) = read_value 4 1160 (mainMemory one_page).
Proof.
  intros other. destruct read_after_write_setup as [m1 E]. exists m1. split; [exact E|].
  refine (proj2 (address_spaces_isolated (fun _ m => Ok m) one_page m1 8 4 (-5) _ other 8 4 false
    {| virtualPage := 0; physicalPage := 9; valid := true; readOnly := false;
       use := false; dirty := false |} 1160 one_page_ok _ E eq_refl _ _ _ _)).
  - by right; right.
  - intros f (e & He & _ & Hf) (e' & He' & _ & Hf').
    apply list_elem_of_singleton in He as ->. apply list_elem_of_singleton in He' as ->.
    vm_compute in Hf, Hf'. congruence.
  - by right; right.
  - split_and!; reflexivity || (vm_compute; done) || done.
  - vm_compute. discriminate.
Defined.

End Machine.
