(* ===== verification/Mips.v ===== *)
(** * The MIPS simulator (code/machine/mipssim.h, code/machine/mipssim.cc)

    Decoding, multiplication and the execution of one instruction. *)

From S2P Require Import Prelude Ints Machine.

Module Mips.
Import Machine.

(** The values of [opCode], with the two markers of [opTable] for further
    decoding. *)
Inductive op :=
| OP_ADD | OP_ADDI | OP_ADDIU | OP_ADDU | OP_AND | OP_ANDI | OP_BEQ | OP_BGEZ
| OP_BGEZAL | OP_BGTZ | OP_BLEZ | OP_BLTZ | OP_BLTZAL | OP_BNE | OP_DIV | OP_DIVU
| OP_J | OP_JAL | OP_JALR | OP_JR | OP_LB | OP_LBU | OP_LH | OP_LHU | OP_LUI
| OP_LW | OP_LWL | OP_LWR | OP_MFHI | OP_MFLO | OP_MTHI | OP_MTLO | OP_MULT
| OP_MULTU | OP_NOR | OP_OR | OP_ORI | OP_RFE | OP_SB | OP_SH | OP_SLL | OP_SLLV
| OP_SLT | OP_SLTI | OP_SLTIU | OP_SLTU | OP_SRA | OP_SRAV | OP_SRL | OP_SRLV
| OP_SUB | OP_SUBU | OP_SW | OP_SWL | OP_SWR | OP_XOR | OP_XORI | OP_SYSCALL
| OP_UNIMP | OP_RES | SPECIAL | BCOND.

#[global] Instance op_eq_dec : EqDecision op.
Proof. solve_decision. Defined.

Inductive format := IFMT | JFMT | RFMT.

Definition opTable : list (op * format) :=
  [ (SPECIAL, RFMT);  (BCOND, IFMT);    (OP_J, JFMT);     (OP_JAL, JFMT);
    (OP_BEQ, IFMT);   (OP_BNE, IFMT);   (OP_BLEZ, IFMT);  (OP_BGTZ, IFMT);
    (OP_ADDI, IFMT);  (OP_ADDIU, IFMT); (OP_SLTI, IFMT);  (OP_SLTIU, IFMT);
    (OP_ANDI, IFMT);  (OP_ORI, IFMT);   (OP_XORI, IFMT);  (OP_LUI, IFMT);
    (OP_UNIMP, IFMT); (OP_UNIMP, IFMT); (OP_UNIMP, IFMT); (OP_UNIMP, IFMT);
    (OP_RES, IFMT);   (OP_RES, IFMT);   (OP_RES, IFMT);   (OP_RES, IFMT);
    (OP_RES, IFMT);   (OP_RES, IFMT);   (OP_RES, IFMT);   (OP_RES, IFMT);
    (OP_RES, IFMT);   (OP_RES, IFMT);   (OP_RES, IFMT);   (OP_RES, IFMT);
    (OP_LB, IFMT);    (OP_LH, IFMT);    (OP_LWL, IFMT);   (OP_LW, IFMT);
    (OP_LBU, IFMT);   (OP_LHU, IFMT);   (OP_LWR, IFMT);   (OP_RES, IFMT);
    (OP_SB, IFMT);    (OP_SH, IFMT);    (OP_SWL, IFMT);   (OP_SW, IFMT);
    (OP_RES, IFMT);   (OP_RES, IFMT);   (OP_SWR, IFMT);   (OP_RES, IFMT);
    (OP_UNIMP, IFMT); (OP_UNIMP, IFMT); (OP_UNIMP, IFMT); (OP_UNIMP, IFMT);
    (OP_RES, IFMT);   (OP_RES, IFMT);   (OP_RES, IFMT);   (OP_RES, IFMT);
    (OP_UNIMP, IFMT); (OP_UNIMP, IFMT); (OP_UNIMP, IFMT); (OP_UNIMP, IFMT);
    (OP_RES, IFMT);   (OP_RES, IFMT);   (OP_RES, IFMT);   (OP_RES, IFMT) ].

Definition specialTable : list op :=
  [ OP_SLL;  OP_RES;   OP_SRL;  OP_SRA;  OP_SLLV;    OP_RES;   OP_SRLV; OP_SRAV;
    OP_JR;   OP_JALR;  OP_RES;  OP_RES;  OP_SYSCALL; OP_UNIMP; OP_RES;  OP_RES;
    OP_MFHI; OP_MTHI;  OP_MFLO; OP_MTLO; OP_RES;     OP_RES;   OP_RES;  OP_RES;
    OP_MULT; OP_MULTU; OP_DIV;  OP_DIVU; OP_RES;     OP_RES;   OP_RES;  OP_RES;
    OP_ADD;  OP_ADDU;  OP_SUB;  OP_SUBU; OP_AND;     OP_OR;    OP_XOR;  OP_NOR;
    OP_RES;  OP_RES;   OP_SLT;  OP_SLTU; OP_RES;     OP_RES;   OP_RES;  OP_RES;
    OP_RES;  OP_RES;   OP_RES;  OP_RES;  OP_RES;     OP_RES;   OP_RES;  OP_RES;
    OP_RES;  OP_RES;   OP_RES;  OP_RES;  OP_RES;     OP_RES;   OP_RES;  OP_RES ].

(** The decoded part of class [Instruction]. *)
Record Instruction := mkInstr {
  opCode : op;
  rs : Z;
  rt : Z;
  rd : Z;
  extra : Z     (* int: immediate, target or shift amount *)
}.

(** [Instruction::Decode]; [value] is an unsigned 32-bit word. *)
Definition Decode (value : Z) : res Instruction :=
  let rs := Z.land (Z.shiftr value 21) 0x1f in
  let rt := Z.land (Z.shiftr value 16) 0x1f in
  let rd := Z.land (Z.shiftr value 11) 0x1f in
  let* (opc, fmt) := arr_get opTable (Z.land (Z.shiftr value 26) 0x3f) in
  let extra :=
    match fmt with
    | IFMT =>
        let e := Z.land value 0xffff in
        if negb (Z.land e 0x8000 =? 0) then s32 (Z.lor e 0xffff0000) else e
    | RFMT => Z.land (Z.shiftr value 6) 0x1f
    | JFMT => Z.land value 0x3ffffff
    end in
  let* opc :=
    if decide (opc = SPECIAL) then arr_get specialTable (Z.land value 0x3f)
    else if decide (opc = BCOND) then
      let i := Z.land value 0x1f0000 in
      Ok (if i =? 0 then OP_BLTZ
          else if i =? 0x10000 then OP_BGEZ
          else if i =? 0x100000 then OP_BLTZAL
          else if i =? 0x110000 then OP_BGEZAL
          else OP_UNIMP)
    else Ok opc in
  Ok {| opCode := opc; rs := rs; rt := rt; rd := rd; extra := extra |}.

(** ** Multiplication *)

(** The variables of the main loop of [Mult]: [a] is an [int] whose bits are
    consumed by an arithmetic right shift. *)
Record mult_state := mkMult {
  ma : Z;
  bLo : Z;
  bHi : Z;
  lo : Z;
  hi : Z
}.

(** One turn of the loop; [inr] when it breaks. *)
Definition mult_step (_ : Z) (s : mult_state) : res (mult_state + mult_state) :=
  let odd := negb (Z.land (ma s) 1 =? 0) in
  let lo' := if odd then u32 (lo s + bLo s) else lo s in
  let hi1 := if odd && (lo' <? bLo s) then u32 (hi s + 1) else hi s in
  let hi' := if odd then u32 (hi1 + bHi s) else hi s in
  let s1 := {| ma := ma s; bLo := bLo s; bHi := bHi s; lo := lo'; hi := hi' |} in
  if odd && (Z.land (u32 (ma s)) 0xfffffffe =? 0) then Ok (inr s1)
  else
    let bHi1 := u32 (Z.shiftl (bHi s) 1) in
    let bHi2 := if negb (Z.land (bLo s) 0x80000000 =? 0) then Z.lor bHi1 1 else bHi1 in
    Ok (inl {| ma := Z.shiftr (ma s) 1; bLo := u32 (Z.shiftl (bLo s) 1); bHi := bHi2;
               lo := lo'; hi := hi' |}).

(** [Mult]: the values stored through [hiPtr] and [loPtr]. *)
Definition Mult (a b : Z) (signedArith : bool) : res (Z * Z) :=
  if (a =? 0) || (b =? 0) then Ok (0, 0)
  else
    let negative := if signedArith then xorb (a <? 0) (b <? 0) else false in
    let a' := if signedArith && (a <? 0) then s32 (- a) else a in
    let b' := if signedArith && (b <? 0) then s32 (- b) else b in
    let* r := for_break 32 0 mult_step {| ma := a'; bLo := u32 b'; bHi := 0; lo := 0; hi := 0 |} in
    let s := match r with inl s => s | inr s => s end in
    if negative then
      let hi1 := u32 (Z.lnot (hi s)) in
      let lo1 := u32 (u32 (Z.lnot (lo s)) + 1) in
      let hi2 := if lo1 =? 0 then u32 (hi1 + 1) else hi1 in
      Ok (s32 hi2, s32 lo1)
    else Ok (s32 (hi s), s32 (lo s)).

(** ** One instruction *)

Definition IndexToAddr (x : Z) : Z := s32 (Z.shiftl x 2).
Definition R31 : Z := 31.

(** [x & SIGN_BIT] as a condition. *)
Definition sign_bit (x : Z) : bool := negb (Z.land (u32 x) 0x80000000 =? 0).

(** How the [switch] of [OneInstruction] is left: by [break], with the new
    program counter and the delayed load to make pending, or by [return]. *)
Inductive outcome :=
| Break (m : machine) (pcAfter nextLoadReg nextLoadValue : Z)
| Return (m : machine).

Section Execute.

Context (ExceptionHandler : ExceptionType -> machine -> res machine).

Definition raise (which : ExceptionType) (bad : Z) (m : machine) : res outcome :=
  let* m := RaiseException ExceptionHandler which bad m in Ok (Return m).

(** [registers[dst] = v; break;] *)
Definition assign (dst v pcAfter : Z) (m : machine) : res outcome :=
  let* m := set_reg dst v m in Ok (Break m pcAfter 0 0).

(** [pcAfter = registers[NextPCReg] + IndexToAddr(instr->extra)] if [c] *)
Definition branch (c : bool) (i : Instruction) (pcAfter : Z) (m : machine) : res outcome :=
  let* npc := reg NextPCReg m in
  Ok (Break m (if c then s32 (npc + IndexToAddr (extra i)) else pcAfter) 0 0).

(** [registers[R31] = registers[NextPCReg] + 4] *)
Definition link (dst : Z) (m : machine) : res machine :=
  let* npc := reg NextPCReg m in set_reg dst (npc + 4) m.

(** ADD to ANDI. *)
Definition execute_add (i : Instruction) (pcAfter : Z) (m : machine) : option (res outcome) :=
  match opCode i with
  | OP_ADD => Some (
      let* a := reg (rs i) m in
      let* b := reg (rt i) m in
      let sum := s32 (a + b) in
      if negb (sign_bit (Z.lxor a b)) && sign_bit (Z.lxor a sum)
      then raise OverflowException 0 m
      else assign (rd i) sum pcAfter m)
  | OP_ADDI => Some (
      let* a := reg (rs i) m in
      let sum := s32 (a + extra i) in
      if negb (sign_bit (Z.lxor a (extra i))) && sign_bit (Z.lxor (extra i) sum)
      then raise OverflowException 0 m
      else assign (rt i) sum pcAfter m)
  | OP_ADDIU => Some (
      let* a := reg (rs i) m in assign (rt i) (a + extra i) pcAfter m)
  | OP_ADDU => Some (
      let* a := reg (rs i) m in
      let* b := reg (rt i) m in
      assign (rd i) (a + b) pcAfter m)
  | OP_AND => Some (
      let* a := reg (rs i) m in
      let* b := reg (rt i) m in
      assign (rd i) (Z.land a b) pcAfter m)
  | OP_ANDI => Some (
      let* a := reg (rs i) m in
      assign (rt i) (Z.land a (Z.land (extra i) 0xffff)) pcAfter m)
  | _ => None
  end.

(** BEQ to BNE. *)
Definition execute_branch (i : Instruction) (pcAfter : Z) (m : machine) : option (res outcome) :=
  match opCode i with
  | OP_BEQ => Some (
      let* a := reg (rs i) m in
      let* b := reg (rt i) m in
      branch (a =? b) i pcAfter m)
  | OP_BGEZAL => Some (
      let* m := link R31 m in
      let* a := reg (rs i) m in
      branch (negb (sign_bit a)) i pcAfter m)
  | OP_BGEZ => Some (
      let* a := reg (rs i) m in branch (negb (sign_bit a)) i pcAfter m)
  | OP_BGTZ => Some (
      let* a := reg (rs i) m in branch (0 <? a) i pcAfter m)
  | OP_BLEZ => Some (
      let* a := reg (rs i) m in branch (a <=? 0) i pcAfter m)
  | OP_BLTZAL => Some (
      let* m := link R31 m in
      let* a := reg (rs i) m in
      branch (sign_bit a) i pcAfter m)
  | OP_BLTZ => Some (
      let* a := reg (rs i) m in branch (sign_bit a) i pcAfter m)
  | OP_BNE => Some (
      let* a := reg (rs i) m in
      let* b := reg (rt i) m in
      branch (negb (a =? b)) i pcAfter m)
  | _ => None
  end.

(** DIV and DIVU.  On the host the division of -2^31 by -1 traps. *)
Definition execute_div (i : Instruction) (pcAfter : Z) (m : machine) : option (res outcome) :=
  match opCode i with
  | OP_DIV => Some (
      let* a := reg (rs i) m in
      let* b := reg (rt i) m in
      if b =? 0 then
        let* m := set_reg LoReg 0 m in assign HiReg 0 pcAfter m
      else if (a =? - 2 ^ 31) && (b =? -1) then Err ArithTrap
      else
        let* m := set_reg LoReg (Z.quot a b) m in
        let* a := reg (rs i) m in
        let* b := reg (rt i) m in
        assign HiReg (Z.rem a b) pcAfter m)
  | OP_DIVU => Some (
      let* a := reg (rs i) m in
      let* b := reg (rt i) m in
      let urs := u32 a in
      let urt := u32 b in
      if urt =? 0 then
        let* m := set_reg LoReg 0 m in assign HiReg 0 pcAfter m
      else
        let* m := set_reg LoReg (s32 (urs / urt)) m in
        assign HiReg (s32 (urs mod urt)) pcAfter m)
  | _ => None
  end.

(** JAL, J, JALR and JR. *)
Definition execute_jump (i : Instruction) (pcAfter : Z) (m : machine) : option (res outcome) :=
  match opCode i with
  | OP_JAL => Some (
      let* m := link R31 m in
      Ok (Break m (s32 (Z.lor (Z.land (u32 pcAfter) 0xf0000000) (u32 (IndexToAddr (extra i))))) 0 0))
  | OP_J => Some (
      Ok (Break m (s32 (Z.lor (Z.land (u32 pcAfter) 0xf0000000) (u32 (IndexToAddr (extra i))))) 0 0))
  | OP_JALR => Some (
      let* m := link (rd i) m in
      let* a := reg (rs i) m in
      Ok (Break m a 0 0))
  | OP_JR => Some (
      let* a := reg (rs i) m in Ok (Break m a 0 0))
  | _ => None
  end.

(** MFHI to MULTU. *)
Definition execute_hilo (i : Instruction) (pcAfter : Z) (m : machine) : option (res outcome) :=
  match opCode i with
  | OP_MFHI => Some (let* a := reg HiReg m in assign (rd i) a pcAfter m)
  | OP_MFLO => Some (let* a := reg LoReg m in assign (rd i) a pcAfter m)
  | OP_MTHI => Some (let* a := reg (rs i) m in assign HiReg a pcAfter m)
  | OP_MTLO => Some (let* a := reg (rs i) m in assign LoReg a pcAfter m)
  | OP_MULT => Some (
      let* a := reg (rs i) m in
      let* b := reg (rt i) m in
      let* (h, l) := Mult a b true in
      let* m := set_reg HiReg h m in
      assign LoReg l pcAfter m)
  | OP_MULTU => Some (
      let* a := reg (rs i) m in
      let* b := reg (rt i) m in
      let* (h, l) := Mult a b false in
      let* m := set_reg HiReg h m in
      assign LoReg l pcAfter m)
  | _ => None
  end.

(** The effective address [registers[instr->rs] + instr->extra]. *)
Definition address (i : Instruction) (m : machine) : res Z :=
  let* a := reg (rs i) m in Ok (s32 (a + extra i)).

(** [if (!ReadMem(...)) return;] before the rest of a case. *)
Definition read_or_return (addr size : Z) (m : machine) (k : Z -> machine -> res outcome)
  : res outcome :=
  let* (o, m) := ReadMem ExceptionHandler addr size m in
  match o with
  | None => Ok (Return m)
  | Some value => k value m
  end.

Definition write_or_return (addr size value pcAfter : Z) (m : machine) : res outcome :=
  let* (b, m) := WriteMem ExceptionHandler addr size value m in
  Ok (if b : bool then Break m pcAfter 0 0 else Return m).

(** The value a partial load merges into: the pending one if the register has a
    load under way. *)
Definition merge_base (i : Instruction) (m : machine) : res Z :=
  let* l := reg LoadReg m in
  if l =? rt i then reg LoadValueReg m else reg (rt i) m.

(** The [switch (3 - byte)] of LWL and LWR: [base] is [nextLoadValue]. *)
Definition merge_left (k base value : Z) : Z :=
  if k =? 0 then value
  else if k =? 1 then s32 (Z.lor (Z.land base 0xff) (s32 (Z.shiftl value 8)))
  else if k =? 2 then s32 (Z.lor (Z.land base 0xffff) (s32 (Z.shiftl value 16)))
  else s32 (Z.lor (Z.land base 0xffffff) (s32 (Z.shiftl value 24))).

Definition merge_right (k base value : Z) : Z :=
  if k =? 0 then s32 (Z.lor (Z.land (u32 base) 0xffffff00) (Z.land (Z.shiftr value 24) 0xff))
  else if k =? 1 then s32 (Z.lor (Z.land (u32 base) 0xffff0000) (Z.land (Z.shiftr value 16) 0xffff))
  else if k =? 2 then s32 (Z.lor (Z.land (u32 base) 0xff000000) (Z.land (Z.shiftr value 8) 0xffffff))
  else value.

(** LB to LWR (and LUI). *)
Definition execute_load (i : Instruction) (pcAfter : Z) (m : machine) : option (res outcome) :=
  match opCode i with
  | OP_LB | OP_LBU => Some (
      let* tmp := address i m in
      read_or_return tmp 1 m (fun value m =>
        let v := if negb (Z.land value 0x80 =? 0) && bool_decide (opCode i = OP_LB)
                 then s32 (Z.lor (u32 value) 0xffffff00) else Z.land value 0xff in
        Ok (Break m pcAfter (rt i) v)))
  | OP_LH | OP_LHU => Some (
      let* tmp := address i m in
      if negb (Z.land tmp 1 =? 0) then raise AddressErrorException tmp m
      else read_or_return tmp 2 m (fun value m =>
        let v := if negb (Z.land value 0x8000 =? 0) && bool_decide (opCode i = OP_LH)
                 then s32 (Z.lor (u32 value) 0xffff0000) else Z.land value 0xffff in
        Ok (Break m pcAfter (rt i) v)))
  | OP_LUI => Some (assign (rt i) (Z.shiftl (extra i) 16) pcAfter m)
  | OP_LW => Some (
      let* tmp := address i m in
      if negb (Z.land tmp 3 =? 0) then raise AddressErrorException tmp m
      else read_or_return tmp 4 m (fun value m => Ok (Break m pcAfter (rt i) value)))
  | OP_LWL => Some (
      let* tmp := address i m in
      let byte := Z.land tmp 3 in
      read_or_return (tmp - byte) 4 m (fun value m =>
        let* base := merge_base i m in
        Ok (Break m pcAfter (rt i) (merge_left (3 - byte) base value))))
  | OP_LWR => Some (
      let* tmp := address i m in
      let byte := Z.land tmp 3 in
      read_or_return (tmp - byte) 4 m (fun value m =>
        let* base := merge_base i m in
        Ok (Break m pcAfter (rt i) (merge_right (3 - byte) base value))))
  | _ => None
  end.

(** NOR to SUBU. *)
Definition execute_logic (i : Instruction) (pcAfter : Z) (m : machine) : option (res outcome) :=
  match opCode i with
  | OP_NOR => Some (
      let* a := reg (rs i) m in
      let* b := reg (rt i) m in
      assign (rd i) (Z.lnot (Z.lor a b)) pcAfter m)
  | OP_OR => Some (
      let* a := reg (rs i) m in
      let* b := reg (rt i) m in
      assign (rd i) (Z.lor a b) pcAfter m)
  | OP_ORI => Some (
      let* a := reg (rs i) m in
      assign (rt i) (Z.lor a (Z.land (extra i) 0xffff)) pcAfter m)
  | OP_SB => Some (
      let* a := address i m in
      let* v := reg (rt i) m in
      write_or_return a 1 v pcAfter m)
  | OP_SH => Some (
      let* a := address i m in
      let* v := reg (rt i) m in
      write_or_return a 2 v pcAfter m)
  | OP_SLL => Some (
      let* b := reg (rt i) m in assign (rd i) (Z.shiftl b (extra i)) pcAfter m)
  | OP_SLLV => Some (
      let* a := reg (rs i) m in
      let* b := reg (rt i) m in
      assign (rd i) (Z.shiftl b (Z.land a 0x1f)) pcAfter m)
  | OP_SLT => Some (
      let* a := reg (rs i) m in
      let* b := reg (rt i) m in
      assign (rd i) (if a <? b then 1 else 0) pcAfter m)
  | OP_SLTI => Some (
      let* a := reg (rs i) m in
      assign (rt i) (if a <? extra i then 1 else 0) pcAfter m)
  | OP_SLTIU => Some (
      let* a := reg (rs i) m in
      assign (rt i) (if u32 a <? u32 (extra i) then 1 else 0) pcAfter m)
  | OP_SLTU => Some (
      let* a := reg (rs i) m in
      let* b := reg (rt i) m in
      assign (rd i) (if u32 a <? u32 b then 1 else 0) pcAfter m)
  | OP_SRA => Some (
      let* b := reg (rt i) m in assign (rd i) (Z.shiftr b (extra i)) pcAfter m)
  | OP_SRAV => Some (
      let* a := reg (rs i) m in
      let* b := reg (rt i) m in
      assign (rd i) (Z.shiftr b (Z.land a 0x1f)) pcAfter m)
  | OP_SRL => Some (
      let* tmp := reg (rt i) m in assign (rd i) (Z.shiftr tmp (extra i)) pcAfter m)
  | OP_SRLV => Some (
      let* tmp := reg (rt i) m in
      let* a := reg (rs i) m in
      assign (rd i) (Z.shiftr tmp (Z.land a 0x1f)) pcAfter m)
  | OP_SUB => Some (
      let* a := reg (rs i) m in
      let* b := reg (rt i) m in
      let diff := s32 (a - b) in
      if sign_bit (Z.lxor a b) && sign_bit (Z.lxor a diff)
      then raise OverflowException 0 m
      else assign (rd i) diff pcAfter m)
  | OP_SUBU => Some (
      let* a := reg (rs i) m in
      let* b := reg (rt i) m in
      assign (rd i) (a - b) pcAfter m)
  | _ => None
  end.

(** The [switch (3 - byte)] of SWL and SWR: [v] is the stored register. *)
Definition store_left (k value v : Z) : Z :=
  if k =? 0 then v
  else if k =? 1 then s32 (Z.lor (Z.land (u32 value) 0xff000000) (Z.land (Z.shiftr v 8) 0xffffff))
  else if k =? 2 then s32 (Z.lor (Z.land (u32 value) 0xffff0000) (Z.land (Z.shiftr v 16) 0xffff))
  else s32 (Z.lor (Z.land (u32 value) 0xffffff00) (Z.land (Z.shiftr v 24) 0xff)).

Definition store_right (k value v : Z) : Z :=
  if k =? 0 then s32 (Z.lor (Z.land value 0xffffff) (s32 (Z.shiftl v 24)))
  else if k =? 1 then s32 (Z.lor (Z.land value 0xffff) (s32 (Z.shiftl v 16)))
  else if k =? 2 then s32 (Z.lor (Z.land value 0xff) (s32 (Z.shiftl v 8)))
  else v.

(** SW, SWL and SWR. *)
Definition execute_store (i : Instruction) (pcAfter : Z) (m : machine) : option (res outcome) :=
  match opCode i with
  | OP_SW => Some (
      let* a := address i m in
      let* v := reg (rt i) m in
      write_or_return a 4 v pcAfter m)
  | OP_SWL => Some (
      let* tmp := address i m in
      let byte := Z.land tmp 3 in
      read_or_return (tmp - byte) 4 m (fun value m =>
        let* v := reg (rt i) m in
        write_or_return (tmp - byte) 4 (store_left (3 - byte) value v) pcAfter m))
  | OP_SWR => Some (
      let* tmp := address i m in
      let byte := Z.land tmp 3 in
      read_or_return (tmp - byte) 4 m (fun value m =>
        let* v := reg (rt i) m in
        write_or_return (tmp - byte) 4 (store_right (3 - byte) value v) pcAfter m))
  | _ => None
  end.

(** SYSCALL to the illegal instructions; [None] is the [default] case. *)
Definition execute_other (i : Instruction) (pcAfter : Z) (m : machine) : option (res outcome) :=
  match opCode i with
  | OP_SYSCALL => Some (raise SyscallException 0 m)
  | OP_XOR => Some (
      let* a := reg (rs i) m in
      let* b := reg (rt i) m in
      assign (rd i) (Z.lxor a b) pcAfter m)
  | OP_XORI => Some (
      let* a := reg (rs i) m in
      assign (rt i) (Z.lxor a (Z.land (extra i) 0xffff)) pcAfter m)
  | OP_RES | OP_UNIMP => Some (raise IllegalInstrException 0 m)
  | _ => None
  end.

(** The first group that has the instruction. *)
Fixpoint first_case (cases : list (option (res outcome))) : res outcome :=
  match cases with
  | [] => Err AssertFailure
  | Some r :: _ => r
  | None :: cases' => first_case cases'
  end.

Definition execute (i : Instruction) (pcAfter : Z) (m : machine) : res outcome :=
  first_case [execute_add i pcAfter m; execute_branch i pcAfter m; execute_div i pcAfter m;
              execute_jump i pcAfter m; execute_load i pcAfter m; execute_hilo i pcAfter m;
              execute_logic i pcAfter m; execute_store i pcAfter m; execute_other i pcAfter m].

(** [Machine::OneInstruction] *)
Definition OneInstruction (m : machine) : res machine :=
  let* pc := reg PCReg m in
  let* (raw, m) := ReadMem ExceptionHandler pc 4 m in
  match raw with
  | None => Ok m
  | Some raw =>
      let* i := Decode (u32 raw) in
      let* npc := reg NextPCReg m in
      let pcAfter := s32 (npc + 4) in
      let* o := execute i pcAfter m in
      match o with
      | Return m => Ok m
      | Break m pcAfter nextLoadReg nextLoadValue =>
          let* m := DelayedLoad nextLoadReg nextLoadValue m in
          let* pc := reg PCReg m in
          let* m := set_reg PrevPCReg pc m in
          let* npc := reg NextPCReg m in
          let* m := set_reg PCReg npc m in
          set_reg NextPCReg pcAfter m
      end
  end.

End Execute.

(** ** Multiplication is multiplication *)

Lemma land_low_clear y : is_u32 y -> Z.land y 0xfffffffe = 0 -> y = y mod 2.
Proof.
  intros Hy E. change 0xfffffffe with (Z.ldiff (Z.ones 32) 1) in E.
  assert (Z.ldiff y 1 = 0) as E1.
  { rewrite <- E, !Z.ldiff_land, Z.land_assoc, Z.land_ones by lia.
    rewrite (Z.mod_small y) by done. done. }
  rewrite <- (Z.lor_ldiff_and y 1) at 1. rewrite E1, Z.lor_0_l.
  change 1 with (Z.ones 1). rewrite Z.land_ones by lia. done.
Qed.

Lemma land_1_odd x : negb (Z.land x 1 =? 0) = (x mod 2 =? 1).
Proof.
  change 1 with (Z.ones 1) at 1. rewrite Z.land_ones by lia. change (2 ^ 1) with 2.
  pose proof (Z.mod_pos_bound x 2).
  destruct (Z.eqb_spec (x mod 2) 0), (Z.eqb_spec (x mod 2) 1); cbn; lia.
Qed.

(** Bit [i] of a signed word and of its unsigned reading. *)
Lemma shiftr_bit a i : 0 <= i < 32 -> Z.shiftr a i mod 2 = (u32 a / 2 ^ i) mod 2.
Proof.
  intros Hi. rewrite Z.shiftr_div_pow2 by lia. unfold u32. rewrite (Z.mod_eq a (2 ^ 32)) by lia.
  assert (2 ^ 32 = 2 ^ i * (2 * 2 ^ (31 - i))) as E
    by (rewrite <- Z.pow_succ_r, <- Z.pow_add_r by lia; f_equal; lia).
  replace (a - 2 ^ 32 * (a / 2 ^ 32)) with (a + (- (2 ^ (31 - i) * (a / 2 ^ 32)) * 2) * 2 ^ i)
    by (rewrite E at 2; ring).
  by rewrite Z.div_add, Z_mod_plus_full by (apply Z.pow_nonzero; lia).
Qed.

Definition mult_inv (a b i : Z) (s : mult_state) : Prop :=
  ma s = Z.shiftr a i /\ is_u32 (bLo s) /\ is_u32 (bHi s) /\ is_u32 (lo s) /\ is_u32 (hi s) /\
  bHi s * 2 ^ 32 + bLo s = (b * 2 ^ i) mod 2 ^ 64 /\
  hi s * 2 ^ 32 + lo s = b * (u32 a mod 2 ^ i).

(** Adding two double words, with the carry the code computes. *)
Lemma add_double h l bh bl x :
  is_u32 h -> is_u32 l -> is_u32 bh -> is_u32 bl -> 0 <= x < 2 ^ 64 ->
  (h * 2 ^ 32 + l + (bh * 2 ^ 32 + bl)) mod 2 ^ 64 = x ->
  u32 ((if u32 (l + bl) <? bl then u32 (h + 1) else h) + bh) * 2 ^ 32 + u32 (l + bl) = x.
Proof.
  intros Hh Hl Hbh Hbl Hx E. unfold is_u32, u32 in *.
  change (2 ^ 32) with 4294967296 in *. change (2 ^ 64) with 18446744073709551616 in *.
  destruct (Z.ltb_spec ((l + bl) mod 4294967296) bl); zify_div; lia.
Qed.

(** Doubling a double word, as the loop shifts [b]. *)
Lemma shift_double bh bl :
  is_u32 bh -> is_u32 bl ->
  let bh1 := u32 (Z.shiftl bh 1) in
  let bh2 := if negb (Z.land bl 0x80000000 =? 0) then Z.lor bh1 1 else bh1 in
  is_u32 bh2 /\ is_u32 (u32 (Z.shiftl bl 1)) /\
  bh2 * 2 ^ 32 + u32 (Z.shiftl bl 1) = (2 * (bh * 2 ^ 32 + bl)) mod 2 ^ 64.
Proof.
  intros Hh Hl bh1 bh2. change 0x80000000 with (2 ^ 31) in bh2.
  unfold bh2. rewrite land_pow2_testbit, testbit_top by (done || lia).
  assert (bh1 mod 2 = 0) as Heven.
  { unfold bh1, u32. rewrite Z.shiftl_mul_pow2 by lia. zlia. }
  assert (Z.lor bh1 1 = bh1 + 1) as ->.
  { symmetry. apply Z.add_nocarry_lor. change 1 with (Z.ones 1). by rewrite Z.land_ones by lia. }
  unfold bh1, u32, is_u32 in *. rewrite !Z.shiftl_mul_pow2 in * by lia.
  change (2 ^ 1) with 2 in *. change (2 ^ 31) with 2147483648 in *.
  change (2 ^ 32) with 4294967296 in *. change (2 ^ 64) with 18446744073709551616 in *.
  destruct (Z.leb_spec 2147483648 bl); split_and!; zify_div; lia.
Qed.

Lemma mod_pow_succ A i : 0 <= i -> A mod 2 ^ (i + 1) = A mod 2 ^ i + 2 ^ i * ((A / 2 ^ i) mod 2).
Proof. intros Hi. rewrite Z.pow_add_r, Z.pow_1_r by lia. apply Z.rem_mul_r; lia. Qed.

(** Nothing is left of [a] when its shifted value is 0 or 1. *)
Lemma shiftr_small a i :
  is_s32 a -> 0 <= i < 32 -> u32 (Z.shiftr a i) < 2 -> u32 a mod 2 ^ (i + 1) = u32 a.
Proof.
  intros Ha Hi H. assert (0 < 2 ^ i) as Hp by (apply Z.pow_pos_nonneg; lia).
  apply Z.mod_small. split; [apply u32_range|]. rewrite Z.pow_add_r, Z.pow_1_r by lia.
  rewrite Z.shiftr_div_pow2 in H by lia.
  assert (- 2 ^ 31 <= a / 2 ^ i < 2 ^ 31) as Hq.
  { unfold is_s32 in Ha. split; [apply Z.div_le_lower_bound; nia|apply Z.div_lt_upper_bound; nia]. }
  destruct (Z.lt_ge_cases a 0) as [Hneg|Hpos].
  - assert (a / 2 ^ i < 0) by (apply Z.div_lt_upper_bound; lia). unfold u32 in H.
    revert H Hq H0. generalize (a / 2 ^ i). intros q. zlia.
  - unfold is_s32 in Ha. rewrite (u32_id a) by (unfold is_u32; lia).
    assert (0 <= a / 2 ^ i) by (apply Z.div_pos; lia).
    rewrite u32_id in H by (unfold is_u32; lia).
    pose proof (Z.mul_succ_div_gt a (2 ^ i) Hp). nia.
Qed.

Lemma mult_step_inv a b i s :
  is_s32 a -> is_u32 b -> 0 <= i < 32 -> mult_inv a b i s ->
  exists r, mult_step i s = Ok r /\
    match r with
    | inl s' => mult_inv a b (i + 1) s'
    | inr s' => is_u32 (lo s') /\ is_u32 (hi s') /\ hi s' * 2 ^ 32 + lo s' = b * u32 a
    end.
Proof.
  intros Hsa Hb Hi (Ha & Hbl & Hbh & Hl & Hh & HB & HL). unfold mult_step.
  rewrite land_1_odd, Ha, shiftr_bit by done.
  set (bit := (u32 a / 2 ^ i) mod 2). set (odd := bit =? 1).
  assert (bit = 0 \/ bit = 1) as Hbit by (pose proof (Z.mod_pos_bound (u32 a / 2 ^ i) 2); unfold bit; lia).
  assert (0 < 2 ^ i) as Hpi by (apply Z.pow_pos_nonneg; lia).
  pose proof (mod_pow_succ (u32 a) i ltac:(lia)) as Hmod. fold bit in Hmod.
  set (lo' := if odd then u32 (lo s + bLo s) else lo s).
  set (hi' := if odd then u32 ((if odd && (lo' <? bLo s) then u32 (hi s + 1) else hi s) + bHi s) else hi s).
  assert (hi' * 2 ^ 32 + lo' = b * (u32 a mod 2 ^ (i + 1))) as HR.
  { unfold hi', lo'. destruct Hbit as [E|E]; unfold odd; rewrite E in *; cbn [Z.eqb andb Pos.eqb].
    - rewrite Hmod, HL. f_equal. lia.
    - assert (0 <= b * (u32 a mod 2 ^ (i + 1)) < 2 ^ 64) as Hrange.
      { pose proof (u32_range a) as Hu. pose proof (Z.mod_pos_bound (u32 a) (2 ^ (i + 1)) ltac:(apply Z.pow_pos_nonneg; lia)).
        assert (u32 a mod 2 ^ (i + 1) <= u32 a) by (apply Z.mod_le; [apply Hu|apply Z.pow_pos_nonneg; lia]).
        unfold is_u32 in *. change (2 ^ 64) with (2 ^ 32 * 2 ^ 32). nia. }
      apply add_double; try done. rewrite HB, HL, Z.add_mod_idemp_r by lia.
      rewrite <- (Z.mod_small (b * (u32 a mod 2 ^ (i + 1))) (2 ^ 64)) by done.
      f_equal. rewrite Hmod. ring. }
  assert (is_u32 lo' /\ is_u32 hi') as [Hlo' Hhi'].
  { unfold lo', hi'. destruct odd; split; done || apply u32_range. }
  destruct (odd && (Z.land (u32 (Z.shiftr a i)) 4294967294 =? 0)) eqn:Ebreak.
  - eexists. split; [done|]. cbn [lo hi]. split; [done|]. split; [done|].
    change (hi' * 2 ^ 32 + lo' = b * u32 a). rewrite HR. f_equal.
    apply andb_true_iff in Ebreak as [_ E]. apply Z.eqb_eq in E.
    apply land_low_clear in E; [|apply u32_range].
    apply shiftr_small; [done|done|]. rewrite E. pose proof (Z.mod_pos_bound (u32 (Z.shiftr a i)) 2). lia.
  - eexists. split; [done|].
    destruct (shift_double (bHi s) (bLo s) Hbh Hbl) as (H1 & H2 & H3).
    split_and!; cbn [ma bLo bHi lo hi]; try done.
    + rewrite Z.shiftr_shiftr by lia. done.
    + rewrite H3, HB, Z.mul_mod_idemp_r by lia. f_equal. rewrite Z.pow_add_r, Z.pow_1_r by lia. ring.
Qed.

Lemma mult_loop a b :
  is_s32 a ->
  exists s, (let* r := for_break 32 0 mult_step {| ma := a; bLo := u32 b; bHi := 0; lo := 0; hi := 0 |} in
             Ok (match r with inl s => s | inr s => s end)) = Ok s /\
    is_u32 (lo s) /\ is_u32 (hi s) /\ hi s * 2 ^ 32 + lo s = u32 b * u32 a.
Proof.
  intros Ha. pose proof (u32_range b) as Hb.
  destruct (for_break_inv (mult_inv a (u32 b))
    (fun s => is_u32 (lo s) /\ is_u32 (hi s) /\ hi s * 2 ^ 32 + lo s = u32 b * u32 a)
    32 0 mult_step {| ma := a; bLo := u32 b; bHi := 0; lo := 0; hi := 0 |}) as (r & -> & Hr).
  - split_and!; cbn [ma bLo bHi lo hi]; try done; try zlia.
  - intros i s Hi Hs. by apply mult_step_inv; [|done|lia|].
  - cbn [rbind]. eexists. split; [done|]. destruct r as [s|s]; [|done].
    destruct Hr as (_ & _ & _ & Hl & Hh & _ & E). split; [done|]. split; [done|]. rewrite E.
    f_equal. apply Z.mod_small, u32_range.
Qed.

Lemma abs_word a : is_s32 a -> is_s32 (if a <? 0 then s32 (- a) else a) /\
  u32 (if a <? 0 then s32 (- a) else a) = Z.abs a.
Proof.
  intros Ha. destruct (Z.ltb_spec a 0).
  - split; [apply s32_range|]. rewrite u32_s32. zlia.
  - split; [done|]. zlia.
Qed.

(** The double-word two's complement. *)
Lemma negate_double h l :
  is_u32 h -> is_u32 l ->
  let l1 := u32 (u32 (Z.lnot l) + 1) in
  let h2 := if l1 =? 0 then u32 (u32 (Z.lnot h) + 1) else u32 (Z.lnot h) in
  u32 h2 * 2 ^ 32 + u32 l1 = (- (h * 2 ^ 32 + l)) mod 2 ^ 64.
Proof.
  intros Hh Hl l1 h2. unfold h2, l1, Z.lnot, u32, is_u32 in *.
  change (2 ^ 32) with 4294967296 in *. change (2 ^ 64) with 18446744073709551616 in *.
  destruct (Z.eqb_spec (((Z.pred (- l)) mod 4294967296 + 1) mod 4294967296) 0); zify_div; lia.
Qed.

(** The double word that HI and LO hold. *)
Definition hilo (p : Z * Z) : Z := u32 (fst p) * 2 ^ 32 + u32 (snd p).

Lemma Mult_hilo a b (sg : bool) :
  is_s32 a -> is_s32 b ->
  exists h l, Mult a b sg = Ok (h, l) /\ is_s32 h /\ is_s32 l /\
    hilo (h, l) = if sg then (a * b) mod 2 ^ 64 else u32 a * u32 b.
Proof.
  intros Ha Hb. unfold Mult. destruct ((a =? 0) || (b =? 0)) eqn:Ez.
  { exists 0, 0. split; [done|]. split_and!; try zlia. apply orb_true_iff in Ez. rewrite !Z.eqb_eq in Ez.
    destruct Ez as [->| ->], sg; rewrite ?Z.mul_0_r, ?Z.mul_0_l; try done. }
  clear Ez. set (a' := if sg && (a <? 0) then s32 (- a) else a).
  set (b' := if sg && (b <? 0) then s32 (- b) else b).
  assert (is_s32 a') as Ha' by (unfold a'; destruct sg; [apply abs_word|]; done).
  destruct (mult_loop a' b' Ha') as (s & E & Hl & Hh & HE).
  apply bind_Ok_inv in E as (r & -> & E). injection E as E. cbn [rbind]. rewrite E.
  assert (sg = false -> a' = a /\ b' = b) as Hu by (intros ->; done).
  assert (sg = true -> u32 a' = Z.abs a /\ u32 b' = Z.abs b) as Hs.
  { intros ->. split; apply abs_word; done. }
  destruct sg; cbn [andb].
  - destruct (Hs eq_refl) as [Ea Eb]. rewrite Ea, Eb in HE. clear Hs Hu.
    assert (hi s * 2 ^ 32 + lo s < 2 ^ 64) as Hlt by (unfold is_u32 in *; lia).
    destruct (xorb (a <? 0) (b <? 0)) eqn:Ex.
    + eexists _, _. split; [done|]. split; [apply s32_range|]. split; [apply s32_range|].
      unfold hilo; cbn [fst snd]. rewrite !u32_s32. rewrite negate_double, HE by done. f_equal.
      destruct (Z.ltb_spec a 0), (Z.ltb_spec b 0); try discriminate Ex; nia.
    + eexists _, _. split; [done|]. split; [apply s32_range|]. split; [apply s32_range|].
      unfold hilo; cbn [fst snd]. rewrite !u32_s32, !u32_id, HE by done.
      rewrite <- (Z.mod_small (Z.abs b * Z.abs a) (2 ^ 64)) by (rewrite <- HE; unfold is_u32 in *; lia).
      f_equal. destruct (Z.ltb_spec a 0), (Z.ltb_spec b 0); try discriminate Ex; nia.
  - destruct (Hu eq_refl) as [Ea Eb]. rewrite Ea, Eb in HE.
    eexists _, _. split; [done|]. split; [apply s32_range|]. split; [apply s32_range|].
    unfold hilo; cbn [fst snd]. rewrite !u32_s32, !u32_id, HE by done. lia.
Qed.

(** ** Decoding is total *)

(** Register fields in range and an opcode that the [switch] has a case for. *)
Definition instr_ok (i : Instruction) : Prop :=
  0 <= rs i < 32 /\ 0 <= rt i < 32 /\ 0 <= rd i < 32 /\ is_s32 (extra i) /\
  opCode i <> OP_RFE /\ opCode i <> SPECIAL /\ opCode i <> BCOND.

Lemma land_ones_range x n : 0 <= n -> 0 <= Z.land x (Z.ones n) < 2 ^ n.
Proof. intros Hn. rewrite Z.land_ones by done. apply Z.mod_pos_bound. apply Z.pow_pos_nonneg; lia. Qed.

Lemma Decode_Ok value : exists i, Decode value = Ok i /\ instr_ok i.
Proof.
  unfold Decode.
  change 0x1f with (Z.ones 5). change 0x3f with (Z.ones 6). change 0xffff with (Z.ones 16).
  change 0x3ffffff with (Z.ones 26).
  pose proof (fun x => land_ones_range x 5 ltac:(lia)) as H5.
  pose proof (fun x => land_ones_range x 6 ltac:(lia)) as H6.
  pose proof (land_ones_range value 16 ltac:(lia)) as H16.
  pose proof (land_ones_range value 26 ltac:(lia)) as H26.
  change (2 ^ 5) with 32 in *. change (2 ^ 6) with 64 in *. change (2 ^ 16) with 65536 in *.
  change (2 ^ 26) with 67108864 in *.
  destruct (arr_get_in_range opTable (Z.land (Z.shiftr value 26) (Z.ones 6))) as [[opc fmt] Eop];
    [cbn [opTable length]; apply H6|]. rewrite Eop. cbn [rbind].
  destruct (arr_get_in_range specialTable (Z.land value (Z.ones 6))) as [sp Esp];
    [cbn [specialTable length]; apply H6|].
  assert (opc <> OP_RFE) as Hop.
  { apply arr_get_Ok in Eop as [_ Eop]. apply list_elem_of_lookup_2 in Eop. intros ->.
    assert (Forall (fun p => fst p <> OP_RFE) opTable) as HF
      by (apply (bool_decide_unpack _); vm_compute; exact I).
    rewrite Forall_forall in HF. by apply (HF _ Eop). }
  assert (sp <> OP_RFE /\ sp <> SPECIAL /\ sp <> BCOND) as Hsp.
  { apply arr_get_Ok in Esp as [_ Esp]. apply list_elem_of_lookup_2 in Esp.
    assert (Forall (fun p => p <> OP_RFE /\ p <> SPECIAL /\ p <> BCOND) specialTable) as HF
      by (apply (bool_decide_unpack _); vm_compute; exact I).
    rewrite Forall_forall in HF. by apply HF. }
  set (e := match fmt with IFMT => _ | RFMT => _ | JFMT => _ end).
  assert (is_s32 e) as He.
  { unfold e. destruct fmt; [case_match; [apply s32_range|]| |]; unfold is_s32; [lia..|].
    pose proof (H5 (Z.shiftr value 6)). lia. }
  case_decide as D1; [|case_decide as D2].
  - rewrite Esp. cbn [rbind]. eexists. split; [done|]. split_and!; cbn; done || apply H5 || apply Hsp.
  - cbn [rbind]. eexists. split; [done|]. split_and!; cbn; try done; try apply H5;
      repeat case_match; done.
  - cbn [rbind]. eexists. split; [done|]. split_and!; cbn; done || apply H5.
Qed.

(** ** Overflow detection *)

Lemma s32_testbit a : is_s32 a -> Z.testbit a 31 = (a <? 0).
Proof.
  intros Ha. destruct (Z.ltb_spec a 0) as [Hn|Hn].
  - rewrite <- (Z.lnot_involutive a), Z.lnot_spec by lia. unfold is_s32 in Ha.
    rewrite testbit_top by (unfold Z.lnot; lia). unfold Z.lnot. apply negb_true_iff, Z.leb_gt. lia.
  - unfold is_s32 in Ha. rewrite testbit_top by lia. apply Z.leb_gt. lia.
Qed.

Lemma sign_bit_xor a b : is_s32 a -> is_s32 b -> sign_bit (Z.lxor a b) = xorb (a <? 0) (b <? 0).
Proof.
  intros Ha Hb. unfold sign_bit. change 0x80000000 with (2 ^ 31). rewrite land_pow2_testbit by lia.
  unfold u32. rewrite Z.mod_pow2_bits_low by lia. rewrite Z.lxor_spec, !s32_testbit by done. done.
Qed.

Lemma add_overflow a b : is_s32 a -> is_s32 b ->
  negb (sign_bit (Z.lxor a b)) && sign_bit (Z.lxor a (s32 (a + b))) = negb (s32 (a + b) =? a + b).
Proof.
  intros Ha Hb. rewrite !sign_bit_xor by (done || apply s32_range).
  destruct (Z.ltb_spec a 0), (Z.ltb_spec b 0), (Z.ltb_spec (s32 (a + b)) 0),
    (Z.eqb_spec (s32 (a + b)) (a + b)); cbn; zlia.
Qed.

Lemma sub_overflow a b : is_s32 a -> is_s32 b ->
  sign_bit (Z.lxor a b) && sign_bit (Z.lxor a (s32 (a - b))) = negb (s32 (a - b) =? a - b).
Proof.
  intros Ha Hb. rewrite !sign_bit_xor by (done || apply s32_range).
  destruct (Z.ltb_spec a 0), (Z.ltb_spec b 0), (Z.ltb_spec (s32 (a - b)) 0),
    (Z.eqb_spec (s32 (a - b)) (a - b)); cbn; zlia.
Qed.

(** ** Execution is safe *)

Section Safety.

Context (ExceptionHandler : ExceptionType -> machine -> res machine).
Context (Hhandler : handler_ok ExceptionHandler).

Definition outcome_ok (o : outcome) : Prop :=
  match o with
  | Break m _ lr _ => almost_ok m /\ 0 <= lr < 32
  | Return m => machine_ok m
  end.

(** The case runs to its end in a good state. *)
Definition safe (r : res outcome) : Prop := exists o, r = Ok o /\ outcome_ok o.

Lemma safe_break m pc lr lv : almost_ok m -> 0 <= lr < 32 -> safe (Ok (Break m pc lr lv)).
Proof. intros. eexists. split; [done|]. done. Qed.

Lemma safe_reg n m k :
  almost_ok m -> 0 <= n < 40 -> (forall v, is_s32 v -> safe (k v)) -> safe (let* v := reg n m in k v).
Proof.
  intros (Hl & Hs & _) Hn Hk. unfold reg.
  destruct (arr_get_in_range (registers m) n) as [v Hv]; [lia|]. rewrite Hv. cbn [rbind]. apply Hk.
  apply arr_get_Ok in Hv as [_ Hv]. rewrite Forall_lookup in Hs. by eapply Hs.
Qed.

Lemma safe_set_reg n v m k :
  almost_ok m -> 0 <= n < 37 -> (forall m', almost_ok m' -> safe (k m')) ->
  safe (let* m := set_reg n v m in k m).
Proof.
  intros Hm Hn Hk. rewrite set_reg_Ok by (apply Hm || lia). cbn [rbind]. apply Hk.
  apply with_reg_almost; [done|lia].
Qed.

Lemma safe_assign n v pc m : almost_ok m -> 0 <= n < 37 -> safe (assign n v pc m).
Proof.
  intros Hm Hn. unfold assign. apply safe_set_reg; [done|done|]. intros m' Hm'.
  by apply safe_break; [|lia].
Qed.

Lemma safe_branch c i pc m : almost_ok m -> safe (branch c i pc m).
Proof.
  intros Hm. unfold branch. apply safe_reg; [done|regnum|]. intros v _. by apply safe_break; [|lia].
Qed.

Lemma safe_link dst m k :
  almost_ok m -> 0 <= dst < 32 -> (forall m', almost_ok m' -> safe (k m')) ->
  safe (let* m := link dst m in k m).
Proof.
  intros Hm Hd Hk. unfold link. pose proof Hm as (Hl & _).
  destruct (arr_get_in_range (registers m) NextPCReg) as [v Hv]; [rewrite Hl; regnum|].
  unfold reg. rewrite Hv. cbn [rbind]. apply safe_set_reg; [done|lia|done].
Qed.

Lemma safe_raise which bad m : almost_ok m -> safe (raise ExceptionHandler which bad m).
Proof.
  intros Hm. unfold raise. destruct (RaiseException_ok _ Hhandler which bad m Hm) as (m' & -> & Hm').
  cbn [rbind]. by eexists.
Qed.

Lemma safe_read addr size m k :
  machine_ok m -> is_size size ->
  (forall v m', is_s32 v -> machine_ok m' -> safe (k v m')) ->
  safe (read_or_return ExceptionHandler addr size m k).
Proof.
  intros Hm Hsize Hk. unfold read_or_return.
  destruct (ReadMem_ok _ Hhandler m addr size Hm Hsize) as (o & m' & -> & Hm' & Ho). cbn [rbind].
  destruct o as [v|]; [|by eexists]. by apply Hk; [apply Ho|].
Qed.

Lemma safe_write addr size v pc m :
  machine_ok m -> is_size size -> safe (write_or_return ExceptionHandler addr size v pc m).
Proof.
  intros Hm Hsize. unfold write_or_return.
  destruct (WriteMem_ok _ Hhandler m addr size v Hm Hsize) as (b & m' & -> & Hm' & _). cbn [rbind].
  destruct b; [|by eexists]. apply safe_break; [by apply machine_ok_almost|lia].
Qed.

Lemma safe_address i m k :
  almost_ok m -> instr_ok i -> (forall a, safe (k a)) -> safe (let* a := address i m in k a).
Proof.
  intros (Hl & _) (Hrs & _) Hk. unfold address, reg.
  destruct (arr_get_in_range (registers m) (rs i)) as [v Hv]; [lia|]. rewrite Hv. apply Hk.
Qed.

Lemma safe_merge i m k :
  almost_ok m -> instr_ok i -> (forall v, safe (k v)) -> safe (let* v := merge_base i m in k v).
Proof.
  intros Hm (_ & Hrt & _) Hk. unfold merge_base. pose proof Hm as (Hl & _).
  destruct (arr_get_in_range (registers m) LoadReg) as [l Hv]; [rewrite Hl; regnum|].
  unfold reg. rewrite Hv. cbn [rbind]. case_match.
  - destruct (arr_get_in_range (registers m) LoadValueReg) as [v Ev]; [rewrite Hl; regnum|].
    rewrite Ev. apply Hk.
  - destruct (arr_get_in_range (registers m) (rt i)) as [v Ev]; [lia|]. rewrite Ev. apply Hk.
Qed.

Lemma safe_mult a b sg k :
  is_s32 a -> is_s32 b -> (forall h l, safe (k h l)) -> safe (let* (h, l) := Mult a b sg in k h l).
Proof.
  intros Ha Hb Hk. destruct (Mult_hilo a b sg Ha Hb) as (h & l & -> & _). apply Hk.
Qed.

(** Runs a case of the [switch]. *)
Ltac run_case :=
  repeat first
    [ assumption
    | match goal with H : machine_ok ?m |- almost_ok ?m => exact (machine_ok_almost m H) end
    | apply safe_merge | apply safe_address | apply safe_mult
    | apply safe_link
    | apply safe_reg
    | apply safe_set_reg
    | apply safe_assign | apply safe_branch | apply safe_raise
    | apply safe_read | apply safe_write | apply safe_break
    | match goal with |- safe (if ?b then _ else _) => destruct b end
    | regnum
    | (unfold is_size; lia)
    | progress intros ].

Definition safe_case (o : option (res outcome)) : Prop :=
  match o with Some r => safe r | None => True end.

Lemma add_safe i pc m : instr_ok i -> machine_ok m -> safe_case (execute_add ExceptionHandler i pc m).
Proof.
  intros Hi Hm. pose proof Hi as (Hrs & Hrt & Hrd & _). unfold execute_add.
  destruct (opCode i); cbn [safe_case]; try exact I; run_case.
Qed.

Lemma branch_safe i pc m : instr_ok i -> machine_ok m -> safe_case (execute_branch i pc m).
Proof.
  intros Hi Hm. pose proof Hi as (Hrs & Hrt & Hrd & _). unfold execute_branch, R31.
  destruct (opCode i); cbn [safe_case]; try exact I; run_case.
Qed.

Lemma jump_safe i pc m : instr_ok i -> machine_ok m -> safe_case (execute_jump i pc m).
Proof.
  intros Hi Hm. pose proof Hi as (Hrs & Hrt & Hrd & _). unfold execute_jump, R31.
  destruct (opCode i); cbn [safe_case]; try exact I; run_case.
Qed.

Lemma hilo_safe i pc m : instr_ok i -> machine_ok m -> safe_case (execute_hilo i pc m).
Proof.
  intros Hi Hm. pose proof Hi as (Hrs & Hrt & Hrd & _). unfold execute_hilo.
  destruct (opCode i); cbn [safe_case]; try exact I; run_case.
Qed.

Lemma load_safe i pc m : instr_ok i -> machine_ok m -> safe_case (execute_load ExceptionHandler i pc m).
Proof.
  intros Hi Hm. pose proof Hi as (Hrs & Hrt & Hrd & _). unfold execute_load.
  destruct (opCode i); cbn [safe_case]; try exact I; run_case.
Qed.

Lemma logic_safe i pc m : instr_ok i -> machine_ok m -> safe_case (execute_logic ExceptionHandler i pc m).
Proof.
  intros Hi Hm. pose proof Hi as (Hrs & Hrt & Hrd & _). unfold execute_logic.
  destruct (opCode i); cbn [safe_case]; try exact I; run_case.
Qed.

Lemma store_safe i pc m : instr_ok i -> machine_ok m -> safe_case (execute_store ExceptionHandler i pc m).
Proof.
  intros Hi Hm. pose proof Hi as (Hrs & Hrt & Hrd & _). unfold execute_store.
  destruct (opCode i); cbn [safe_case]; try exact I; run_case.
Qed.

Lemma other_safe i pc m : instr_ok i -> machine_ok m -> safe_case (execute_other ExceptionHandler i pc m).
Proof.
  intros Hi Hm. pose proof Hi as (Hrs & Hrt & Hrd & _). unfold execute_other.
  destruct (opCode i); cbn [safe_case]; try exact I; run_case.
Qed.

(** The one division that traps on the host. *)
Definition div_trap (i : Instruction) (m : machine) : Prop :=
  opCode i = OP_DIV /\ reg (rs i) m = Ok (- 2 ^ 31) /\ reg (rt i) m = Ok (-1).

Lemma reg_value n m : almost_ok m -> 0 <= n < 40 -> exists v, reg n m = Ok v.
Proof. intros (Hl & _) Hn. apply arr_get_in_range. lia. Qed.

Lemma div_safe i pc m :
  instr_ok i -> machine_ok m ->
  safe_case (execute_div i pc m) \/ (execute_div i pc m = Some (Err ArithTrap) /\ div_trap i m).
Proof.
  intros Hi Hm. pose proof Hi as (Hrs & Hrt & Hrd & _). unfold execute_div.
  destruct (opCode i) eqn:Eop; try (left; cbn [safe_case]; try exact I; run_case; fail).
  destruct (reg_value (rs i) m) as [a Ea]; [by apply machine_ok_almost|lia|].
  destruct (reg_value (rt i) m) as [b Eb]; [by apply machine_ok_almost|lia|].
  rewrite Ea, Eb. cbn [rbind].
  destruct (b =? 0); [left; cbn [safe_case]; run_case|].
  destruct (Z.eqb_spec a (- 2 ^ 31)) as [->|], (Z.eqb_spec b (-1)) as [->|]; cbn [andb];
    try (left; cbn [safe_case]; run_case; fail).
  right. done.
Qed.

Lemma execute_safe i pc m :
  instr_ok i -> machine_ok m ->
  safe (execute ExceptionHandler i pc m) \/
  (execute ExceptionHandler i pc m = Err ArithTrap /\ div_trap i m).
Proof.
  intros Hi Hm. unfold execute.
  pose proof (add_safe i pc m Hi Hm). pose proof (branch_safe i pc m Hi Hm).
  pose proof (div_safe i pc m Hi Hm) as Hdiv. pose proof (jump_safe i pc m Hi Hm).
  pose proof (load_safe i pc m Hi Hm). pose proof (hilo_safe i pc m Hi Hm).
  pose proof (logic_safe i pc m Hi Hm). pose proof (store_safe i pc m Hi Hm).
  pose proof (other_safe i pc m Hi Hm). cbn [first_case].
  destruct (execute_add _ i pc m) eqn:E1; [by left|].
  destruct (execute_branch i pc m) eqn:E2; [by left|].
  destruct (execute_div i pc m) as [r|] eqn:E3.
  { destruct Hdiv as [Hdiv|[[= ->] Hdiv]]; [by left|by right]. }
  destruct (execute_jump i pc m) eqn:E4; [by left|].
  destruct (execute_load _ i pc m) eqn:E5; [by left|].
  destruct (execute_hilo i pc m) eqn:E6; [by left|].
  destruct (execute_logic _ i pc m) eqn:E7; [by left|].
  destruct (execute_store _ i pc m) eqn:E8; [by left|].
  destruct (execute_other _ i pc m) eqn:E9; [by left|]. exfalso.
  destruct Hi as (_ & _ & _ & _ & Hr & Hs & Hb).
  unfold execute_add, execute_branch, execute_div, execute_jump, execute_hilo, execute_load,
    execute_logic, execute_store, execute_other in *.
  destruct (opCode i); done.
Qed.

(** The instruction at the program counter. *)
Definition fetched (m : machine) (i : Instruction) (m1 : machine) : Prop :=
  exists pc raw, reg PCReg m = Ok pc /\ ReadMem ExceptionHandler pc 4 m = Ok (Some raw, m1) /\
    Decode (u32 raw) = Ok i.

Lemma advance_ok m pc :
  machine_ok m ->
  exists m', (let* p := reg PCReg m in
              let* m := set_reg PrevPCReg p m in
              let* npc := reg NextPCReg m in
              let* m := set_reg PCReg npc m in
              set_reg NextPCReg pc m) = Ok m' /\ machine_ok m'.
Proof.
  intros Hm. destruct (reg_Ok m PCReg Hm) as (p & -> & _); [regnum|]. cbn [rbind].
  rewrite set_reg_Ok by (apply Hm || regnum). cbn [rbind].
  assert (machine_ok (with_reg PrevPCReg p m)) as H1
    by (apply with_reg_ok; [done|regnum|unfold PrevPCReg, LoadReg; lia]).
  destruct (reg_Ok _ NextPCReg H1) as (n & -> & _); [regnum|]. cbn [rbind].
  rewrite set_reg_Ok by (apply H1 || regnum). cbn [rbind].
  assert (machine_ok (with_reg PCReg n (with_reg PrevPCReg p m))) as H2
    by (apply with_reg_ok; [done|regnum|unfold PCReg, LoadReg; lia]).
  rewrite set_reg_Ok by (apply H2 || regnum). eexists. split; [done|].
  apply with_reg_ok; [done|regnum|unfold NextPCReg, LoadReg; lia].
Qed.

Lemma OneInstruction_safe m :
  machine_ok m ->
  (exists m', OneInstruction ExceptionHandler m = Ok m' /\ machine_ok m') \/
  (OneInstruction ExceptionHandler m = Err ArithTrap /\
     exists i m1, fetched m i m1 /\ div_trap i m1).
Proof.
  intros Hm. unfold OneInstruction. destruct (reg_Ok m PCReg Hm) as (pc & Epc & _); [regnum|].
  rewrite Epc. cbn [rbind].
  destruct (ReadMem_ok _ Hhandler m pc 4 Hm) as (o & m1 & ER & Hm1 & _); [by right; right|].
  rewrite ER. cbn [rbind]. destruct o as [raw|]; [|by left; eauto].
  destruct (Decode_Ok (u32 raw)) as (i & Ei & Hi). rewrite Ei. cbn [rbind].
  destruct (reg_Ok m1 NextPCReg Hm1) as (npc & Enpc & _); [regnum|]. rewrite Enpc. cbn [rbind].
  destruct (execute_safe i (s32 (npc + 4)) m1 Hi Hm1) as [(o & -> & Ho)|[-> Hd]].
  - left. cbn [rbind]. destruct o as [m2 pc' lr lv|m2]; [|by eauto].
    destruct Ho as [Hm2 Hlr]. destruct (DelayedLoad_ok m2 lr lv Hm2 Hlr) as (m3 & -> & Hm3).
    cbn [rbind]. by apply advance_ok.
  - right. split; [done|]. exists i, m1. split; [|done]. exists pc, raw. done.
Qed.

End Safety.

(** ** Unaligned loads *)

Lemma testbit_u32 x n : 0 <= n < 32 -> Z.testbit (u32 x) n = Z.testbit x n.
Proof. intros Hn. unfold u32. by rewrite Z.mod_pow2_bits_low by lia. Qed.

Lemma testbit_s32 x n : 0 <= n < 32 -> Z.testbit (s32 x) n = Z.testbit x n.
Proof. intros Hn. by rewrite <- testbit_u32, u32_s32, testbit_u32. Qed.

Lemma u32_bits_eq x y :
  (forall n, 0 <= n < 32 -> Z.testbit x n = Z.testbit y n) -> u32 x = u32 y.
Proof.
  intros H. unfold u32. apply Z.bits_inj'. intros n Hn. destruct (Z.lt_ge_cases n 32).
  - rewrite !Z.mod_pow2_bits_low by lia. by apply H.
  - by rewrite !Z.mod_pow2_bits_high by lia.
Qed.

Lemma testbit_u32_any x n :
  Z.testbit (u32 x) n = (0 <=? n) && (n <? 32) && Z.testbit x n.
Proof.
  destruct (Z.leb_spec 0 n); [|by rewrite Z.testbit_neg_r by lia]. cbn [andb].
  destruct (Z.ltb_spec n 32); [by apply testbit_u32|]. unfold u32. by apply Z.mod_pow2_bits_high.
Qed.

Lemma testbit_ones_any k n : 0 <= k -> Z.testbit (Z.ones k) n = (0 <=? n) && (n <? k).
Proof.
  intros Hk. destruct (Z.leb_spec 0 n); [by rewrite Z.testbit_ones_nonneg by lia|].
  by rewrite Z.testbit_neg_r by lia.
Qed.

Ltac merge_bits :=
  repeat first
    [ rewrite Z.lor_spec | rewrite Z.land_spec | rewrite testbit_s32 by lia
    | rewrite testbit_u32_any | rewrite testbit_ones_any by lia
    | rewrite Z.shiftr_spec by lia | rewrite Z.shiftl_spec by lia ].

(** Decides the comparisons of a goal on a known interval. *)
Ltac decide_bounds :=
  repeat match goal with
  | |- context [?x <=? ?y] =>
      first [rewrite (proj2 (Z.leb_le x y)) by lia | rewrite (proj2 (Z.leb_gt x y)) by lia]
  | |- context [?x <? ?y] =>
      first [rewrite (proj2 (Z.ltb_lt x y)) by lia | rewrite (proj2 (Z.ltb_ge x y)) by lia]
  end.

Ltac bool_cases :=
  repeat match goal with |- context [Z.testbit ?x ?k] => destruct (Z.testbit x k) end; reflexivity.

Lemma merge_pair b base w0 w1 :
  b = 1 \/ b = 2 \/ b = 3 ->
  u32 (merge_left (4 - b) (merge_right (3 - b) base w0) w1) =
  u32 (Z.shiftr (Z.lor (Z.shiftl (u32 w1) 32) (u32 w0)) (8 * b)).
Proof.
  intros Hb. apply u32_bits_eq. intros n Hn. unfold merge_left, merge_right.
  change 0xffffff00 with (Z.shiftl (Z.ones 24) 8). change 0xffff0000 with (Z.shiftl (Z.ones 16) 16).
  change 0xff000000 with (Z.shiftl (Z.ones 8) 24). change 0xffffff with (Z.shiftl (Z.ones 24) 0).
  change 0xffff with (Z.shiftl (Z.ones 16) 0). change 0xff with (Z.shiftl (Z.ones 8) 0).
  destruct Hb as [->|[->| ->]];
    repeat match goal with |- context [?x =? ?y] =>
      let v := eval vm_compute in (x =? y) in change (x =? y) with v end; cbv iota;
    merge_bits.
  - replace (n + 8 * 1 - 32) with (n - 24) by lia. change (8 * 1) with 8.
    destruct (Z.lt_ge_cases n 24); decide_bounds; rewrite ?(Z.testbit_neg_r w1 (n - 24)) by lia; bool_cases.
  - replace (n + 8 * 2 - 32) with (n - 16) by lia. change (8 * 2) with 16.
    destruct (Z.lt_ge_cases n 16); decide_bounds; rewrite ?(Z.testbit_neg_r w1 (n - 16)) by lia; bool_cases.
  - replace (n + 8 * 3 - 32) with (n - 8) by lia. change (8 * 3) with 24.
    destruct (Z.lt_ge_cases n 8); decide_bounds; rewrite ?(Z.testbit_neg_r w1 (n - 8)) by lia; bool_cases.
Qed.

(** ** Properties *)



(** C38: the shift-and-add loop of [Mult] computes the product: HI and LO
    together hold the 64-bit product of the signed operands (MULT) or of the
    unsigned ones (MULTU), for all operands, -2^31 included. *)
Theorem mult_is_product a b (signedArith : bool) :
  is_s32 a -> is_s32 b ->
  exists h l, Mult a b signedArith = Ok (h, l) /\ is_s32 h /\ is_s32 l /\
    hilo (h, l) = if signedArith then (a * b) mod 2 ^ 64 else u32 a * u32 b.
Proof. apply Mult_hilo. Qed.

Lemma mult_is_product_witness :
  exists h l, Mult (- 2 ^ 31) (-3) true = Ok (h, l) /\ is_s32 h /\ is_s32 l /\
    hilo (h, l) = (- 2 ^ 31 * -3) mod 2 ^ 64.
Proof. apply (mult_is_product (- 2 ^ 31) (-3) true); zlia. Defined.

(** ADD, ADDI and SUB raise [OverflowException] exactly when the exact
    result is not a 32-bit integer, and otherwise store the exact result. *)
Theorem arithmetic_overflow H i pc m a b :
  reg (rs i) m = Ok a -> is_s32 a -> is_s32 (extra i) ->
  reg (rt i) m = Ok b -> is_s32 b ->
  execute H {| opCode := OP_ADD; rs := rs i; rt := rt i; rd := rd i; extra := extra i |} pc m =
    (if s32 (a + b) =? a + b then assign (rd i) (a + b) pc m else raise H OverflowException 0 m) /\
  execute H {| opCode := OP_ADDI; rs := rs i; rt := rt i; rd := rd i; extra := extra i |} pc m =
    (if s32 (a + extra i) =? a + extra i then assign (rt i) (a + extra i) pc m
     else raise H OverflowException 0 m) /\
  execute H {| opCode := OP_SUB; rs := rs i; rt := rt i; rd := rd i; extra := extra i |} pc m =
    (if s32 (a - b) =? a - b then assign (rd i) (a - b) pc m else raise H OverflowException 0 m).
Proof.
  intros Ea Ha He Eb Hb. unfold execute. cbn [first_case execute_add execute_branch execute_div
    execute_jump execute_hilo execute_load execute_logic opCode rs rt rd extra]. rewrite Ea, Eb. cbn [rbind].
  rewrite add_overflow, sub_overflow by done.
  rewrite (Z.lxor_comm a (extra i)), (Z.add_comm a (extra i)), add_overflow by done.
  split_and!;
    match goal with |- context [?x =? ?y] => destruct (Z.eqb_spec x y) as [E|] end; cbn [negb];
    by rewrite ?E.
Qed.

Lemma arithmetic_overflow_witness :
  execute (fun _ m => Ok m) {| opCode := OP_ADD; rs := 0; rt := 0; rd := 1; extra := 0 |} 4 one_page =
    assign 1 0 4 one_page.
Proof.
  apply (arithmetic_overflow (fun _ m => Ok m)
    {| opCode := OP_ADD; rs := 0; rt := 0; rd := 1; extra := 0 |} 4 one_page 0 0);
    try reflexivity; cbn [extra]; zlia.
Defined.

(** The logical right shifts are arithmetic.  SRL and SRLV shift an [int],
    so they do the same as SRA and SRAV: on a negative register the vacated
    bits are filled with ones instead of zeros. *)
Theorem srl_shifts_sign H pc m s t d e :
  execute H {| opCode := OP_SRL; rs := s; rt := t; rd := d; extra := e |} pc m =
    execute H {| opCode := OP_SRA; rs := s; rt := t; rd := d; extra := e |} pc m /\
  execute H {| opCode := OP_SRL; rs := 0; rt := 2; rd := 3; extra := 1 |} pc
      (with_reg 2 (-8) one_page) = assign 3 (-4) pc (with_reg 2 (-8) one_page).
Proof. split; reflexivity. Qed.

(** LWR at an unaligned address followed by LWL at the address plus 3
    loads the four bytes that start there: with [b] the offset of the address
    in its word [w0], and [w1] the next word, the merged register holds the 32
    bits that start at bit [8 b] of [w1]:[w0], whatever it held before. *)
Theorem unaligned_load_pair b base w0 w1 :
  b = 1 \/ b = 2 \/ b = 3 ->
  u32 (merge_left (4 - b) (merge_right (3 - b) base w0) w1) =
  u32 (Z.shiftr (Z.lor (Z.shiftl (u32 w1) 32) (u32 w0)) (8 * b)).
Proof. apply merge_pair. Qed.

Lemma unaligned_load_pair_witness :
  u32 (merge_left 3 (merge_right 2 (-1) 0x44332211) 0x55) = 0x55443322.
Proof.
  refine (eq_trans (unaligned_load_pair 1 (-1) 0x44332211 0x55 _) _); [lia|reflexivity].
Defined.

End Mips.
