(* ===== verification/Disk.v ===== *)
(** * The simulated disk and its synchronous interface

    machine/disk.cc simulates a disk with a UNIX file: a magic number, then the
    sectors one after the other.  A request moves the data at once and
    schedules an interrupt after the time the mechanics of the disk would take;
    filesys/synchdisk.cc makes a request and waits for that interrupt.

    The UNIX file is the list of its bytes.  [ReadSector] and [WriteSector] are
    the calls of one thread when no other thread is ready and no other device
    has an interrupt pending: the machine then idles until the interrupt of the
    request ([P]).  Times are [int]s: their sums wrap at 32 bits. *)

From S2P Require Import Prelude Ints.

Module Disk.

Definition SectorSize : Z := 128.
Definition SectorsPerTrack : Z := 32.
Definition NumTracks : Z := 32.
Definition NumSectors : Z := SectorsPerTrack * NumTracks.
Definition RotationTime : Z := 500.
Definition SeekTime : Z := 500.

Definition MagicNumber : Z := 1164413355. (* 0x456789ab *)
Definition MagicSize : Z := 4.
Definition DiskSize : Z := MagicSize + NumSectors * SectorSize.

(** [Disk] of machine/disk.h *)
Record disk := mkDisk {
  unixfile : list Z;
  active : bool;
  lastSector : Z;
  bufferInit : Z
}.

(** The parts of the kernel the disk uses: the clock and the counters of
    [kernel->stats], and the times of the pending [DiskInt] interrupts. *)
Record disk_kernel := mkDiskKernel {
  totalTicks : Z;
  numDiskReads : Z;
  numDiskWrites : Z;
  diskInts : list Z
}.

(** [SynchDisk] of filesys/synchdisk.h: the disk, the value of the semaphore
    and whether the lock is held. *)
Record synchdisk := mkSynchDisk {
  dev : disk;
  semaphore : Z;
  lockHeld : bool;
  kern : disk_kernel
}.

(** ** The UNIX file (lib/sysdep.cc) *)

(** [Lseek(fd, off, 0); Read(fd, buffer, nBytes)]: a short read fails an
    [ASSERT]. *)
Definition Read (f : list Z) (off nBytes : Z) : res (list Z) :=
  ASSERT (0 <=? off) ;;;
  ASSERT (off + nBytes <=? Z.of_nat (length f)) ;;;
  Ok (slice (Z.to_nat off) (Z.to_nat nBytes) f).

(** [Lseek(fd, off, 0); WriteFile(fd, buffer, nBytes)]: a write past the end
    of the file extends it, with zeros up to [off]. *)
Definition WriteFile (f : list Z) (off : Z) (bs : list Z) : res (list Z) :=
  ASSERT (0 <=? off) ;;;
  Ok (memcpy (f ++ calloc (Z.to_nat off - length f)) (Z.to_nat off) bs).

(** The constructor: [file] is the UNIX file [DISK_n] if there is one. *)
Definition Disk (file : option (list Z)) : res disk :=
  let* f :=
    match file with
    | Some f =>
        let* magic := Read f 0 MagicSize in
        ASSERT (s32 (le_value magic) =? MagicNumber) ;;;
        Ok f
    | None =>
        let* f := WriteFile [] 0 (le_bytes 4 MagicNumber) in
        WriteFile f (DiskSize - 4) (le_bytes 4 0)
    end in
  Ok {| unixfile := f; active := false; lastSector := 0; bufferInit := 0 |}.

(** ** Timing *)

(** [TimeToSeek]: the time of the seek, and the time until the next sector
    boundary after it. *)
Definition TimeToSeek (newSector : Z) (k : disk_kernel) (d : disk) : Z * Z :=
  let newTrack := Z.quot newSector SectorsPerTrack in
  let oldTrack := Z.quot (lastSector d) SectorsPerTrack in
  let seek := s32 (Z.abs (newTrack - oldTrack) * SeekTime) in
  let over := Z.rem (s32 (totalTicks k + seek)) RotationTime in
  let rotation := if 0 <? over then RotationTime - over else 0 in
  (seek, rotation).

Definition ModuloDiff (to from : Z) : Z :=
  let toOffset := Z.rem to SectorsPerTrack in
  let fromOffset := Z.rem from SectorsPerTrack in
  Z.rem ((toOffset - fromOffset) + SectorsPerTrack) SectorsPerTrack.

(** Whether the track buffer holds the sector of a read request. *)
Definition buffered (newSector : Z) (writing : bool) (k : disk_kernel) (d : disk) : bool :=
  let '(seek, rotation) := TimeToSeek newSector k d in
  let timeAfter := s32 (s32 (totalTicks k + seek) + rotation) in
  negb writing && (seek =? 0) &&
  (ModuloDiff newSector (Z.quot (bufferInit d) RotationTime)
     <? Z.quot (s32 (timeAfter - bufferInit d)) RotationTime).

Definition ComputeLatency (newSector : Z) (writing : bool) (k : disk_kernel) (d : disk) : Z :=
  let '(seek, rotation) := TimeToSeek newSector k d in
  let timeAfter := s32 (s32 (totalTicks k + seek) + rotation) in
  if buffered newSector writing k d then RotationTime
  else
    let rotation' :=
      s32 (rotation + ModuloDiff newSector (Z.quot timeAfter RotationTime) * RotationTime) in
    s32 (s32 (seek + rotation') + RotationTime).

Definition UpdateLast (newSector : Z) (k : disk_kernel) (d : disk) : disk :=
  let '(seek, rotate) := TimeToSeek newSector k d in
  {| unixfile := unixfile d; active := active d;
     lastSector := newSector;
     bufferInit :=
       if seek =? 0 then bufferInit d else s32 (s32 (totalTicks k + seek) + rotate) |}.

(** ** Requests *)

Definition set_file (f : list Z) (d : disk) : disk :=
  {| unixfile := f; active := active d; lastSector := lastSector d; bufferInit := bufferInit d |}.

Definition set_active (b : bool) (d : disk) : disk :=
  {| unixfile := unixfile d; active := b; lastSector := lastSector d; bufferInit := bufferInit d |}.

(** [kernel->interrupt->Schedule(this, ticks, DiskInt)] *)
Definition Schedule (ticks : Z) (k : disk_kernel) : res disk_kernel :=
  ASSERT (0 <? ticks) ;;;
  Ok {| totalTicks := totalTicks k; numDiskReads := numDiskReads k;
        numDiskWrites := numDiskWrites k;
        diskInts := diskInts k ++ [s32 (totalTicks k + ticks)] |}.

Definition ReadRequest (sectorNumber : Z) (k : disk_kernel) (d : disk)
  : res (list Z * disk_kernel * disk) :=
  let ticks := ComputeLatency sectorNumber false k d in
  ASSERT (negb (active d)) ;;;
  ASSERT ((0 <=? sectorNumber) && (sectorNumber <? NumSectors)) ;;;
  let* data := Read (unixfile d) (SectorSize * sectorNumber + MagicSize) SectorSize in
  let d1 := UpdateLast sectorNumber k (set_active true d) in
  let k1 := {| totalTicks := totalTicks k; numDiskReads := s32 (numDiskReads k + 1);
               numDiskWrites := numDiskWrites k; diskInts := diskInts k |} in
  let* k2 := Schedule ticks k1 in
  Ok (data, k2, d1).

Definition WriteRequest (sectorNumber : Z) (data : list Z) (k : disk_kernel) (d : disk)
  : res (disk_kernel * disk) :=
  let ticks := ComputeLatency sectorNumber true k d in
  ASSERT (negb (active d)) ;;;
  ASSERT ((0 <=? sectorNumber) && (sectorNumber <? NumSectors)) ;;;
  let* bs := read_bytes data (Z.to_nat SectorSize) in
  let* f := WriteFile (unixfile d) (SectorSize * sectorNumber + MagicSize) bs in
  let d1 := UpdateLast sectorNumber k (set_active true (set_file f d)) in
  let k1 := {| totalTicks := totalTicks k; numDiskReads := numDiskReads k;
               numDiskWrites := s32 (numDiskWrites k + 1); diskInts := diskInts k |} in
  let* k2 := Schedule ticks k1 in
  Ok (k2, d1).

(** ** The synchronous disk *)

Definition SynchDisk (file : option (list Z)) (k : disk_kernel) : res synchdisk :=
  let* d := Disk file in
  Ok {| dev := d; semaphore := 0; lockHeld := false; kern := k |}.

(** [Disk::CallBack], which calls [SynchDisk::CallBack]: the interrupt handler. *)
Definition CallBack (s : synchdisk) : synchdisk :=
  {| dev := set_active false (dev s);
     semaphore := s32 (semaphore s + 1); lockHeld := lockHeld s; kern := kern s |}.

(** The machine idles until the next disk interrupt, whose handler runs; with
    no interrupt pending it idles for ever. *)
Definition idle (s : synchdisk) : res synchdisk :=
  match diskInts (kern s) with
  | [] => Err Diverges
  | when :: rest =>
      let k := kern s in
      Ok (CallBack
            {| dev := dev s; semaphore := semaphore s; lockHeld := lockHeld s;
               kern := {| totalTicks := Z.max (totalTicks k) when;
                          numDiskReads := numDiskReads k;
                          numDiskWrites := numDiskWrites k; diskInts := rest |} |})
  end.

(** [semaphore->P()]: sleep while the value is zero, then decrement it.  Each
    turn takes an interrupt off the pending ones, of which there are [fuel]. *)
Fixpoint P_loop (fuel : nat) (s : synchdisk) : res synchdisk :=
  if semaphore s =? 0 then
    match fuel with
    | O => Err Diverges
    | S fuel' => let* s' := idle s in P_loop fuel' s'
    end
  else Ok {| dev := dev s; semaphore := semaphore s - 1; lockHeld := lockHeld s; kern := kern s |}.

Definition P (s : synchdisk) : res synchdisk := P_loop (length (diskInts (kern s))) s.

(** [lock->Acquire()]: the only thread would wait for itself. *)
Definition Acquire (s : synchdisk) : res synchdisk :=
  if lockHeld s then Err Diverges
  else Ok {| dev := dev s; semaphore := semaphore s; lockHeld := true; kern := kern s |}.

Definition Release (s : synchdisk) : res synchdisk :=
  ASSERT (lockHeld s) ;;;
  Ok {| dev := dev s; semaphore := semaphore s; lockHeld := false; kern := kern s |}.

Definition with_dev (s : synchdisk) (k : disk_kernel) (d : disk) : synchdisk :=
  {| dev := d; semaphore := semaphore s; lockHeld := lockHeld s; kern := k |}.

Definition ReadSector (sectorNumber : Z) (s : synchdisk) : res (list Z * synchdisk) :=
  let* s1 := Acquire s in
  let* r := ReadRequest sectorNumber (kern s1) (dev s1) in
  let '(data, k, d) := r in
  let* s2 := P (with_dev s1 k d) in
  let* s3 := Release s2 in
  Ok (data, s3).

Definition WriteSector (sectorNumber : Z) (data : list Z) (s : synchdisk) : res synchdisk :=
  let* s1 := Acquire s in
  let* r := WriteRequest sectorNumber data (kern s1) (dev s1) in
  let '(k, d) := r in
  let* s2 := P (with_dev s1 k d) in
  Release s2.

(** ** The state between requests *)

Definition sector_ok (i : Z) : Prop := 0 <= i < NumSectors.

(** The contents of sector [i]. *)
Definition sector (s : synchdisk) (i : Z) : list Z :=
  slice (Z.to_nat (SectorSize * i + MagicSize)) (Z.to_nat SectorSize) (unixfile (dev s)).

(** No request is under way, and the UNIX file has its full size. *)
Definition wf (s : synchdisk) : Prop :=
  lockHeld s = false /\ semaphore s = 0 /\ active (dev s) = false /\
  diskInts (kern s) = [] /\ sector_ok (lastSector (dev s)) /\
  Z.of_nat (length (unixfile (dev s))) = DiskSize /\ Forall is_u8 (unixfile (dev s)).

Lemma TimeToSeek_bounds i k d :
  sector_ok i -> sector_ok (lastSector d) ->
  let '(seek, rotation) := TimeToSeek i k d in
  seek = Z.abs (i / 32 - lastSector d / 32) * 500 /\ 0 <= seek <= 15500 /\ 0 <= rotation < 500.
Proof.
  unfold sector_ok, NumSectors, SectorsPerTrack, NumTracks. intros Hi Hl.
  unfold TimeToSeek, SectorsPerTrack, SeekTime, RotationTime.
  rewrite !Z.quot_div_nonneg by lia. rewrite (s32_id (Z.abs _ * _)) by zlia.
  assert (0 <= Z.abs (i / 32 - lastSector d / 32) * 500 <= 15500) by zlia.
  pose proof (Z.rem_bound_abs (s32 (totalTicks k + Z.abs (i / 32 - lastSector d / 32) * 500)) 500).
  destruct (Z.ltb_spec 0 (Z.rem (s32 (totalTicks k + Z.abs (i / 32 - lastSector d / 32) * 500)) 500));
    lia.
Qed.

Lemma ModuloDiff_bounds a b : 0 <= a -> 0 <= ModuloDiff a b < 32.
Proof.
  intros Ha. unfold ModuloDiff, SectorsPerTrack.
  pose proof (Z.rem_bound_pos a 32). pose proof (Z.rem_bound_abs b 32).
  apply Z.rem_bound_pos; lia.
Qed.

(** Whatever the clock shows, a request takes at least the time of a transfer
    and at most a full seek, a partial sector, a rotation and a transfer. *)
Lemma ComputeLatency_bounds i w k d :
  sector_ok i -> sector_ok (lastSector d) -> 500 <= ComputeLatency i w k d <= 31999.
Proof.
  intros Hi Hl. pose proof (TimeToSeek_bounds i k d Hi Hl) as Ht.
  unfold ComputeLatency. destruct (TimeToSeek i k d) as [seek rot].
  destruct Ht as (_ & Hs & Hr). unfold RotationTime in *.
  destruct (buffered i w k d); [lia|].
  set (m := ModuloDiff _ _). assert (0 <= m < 32) by (apply ModuloDiff_bounds; apply Hi).
  rewrite (s32_id (rot + m * 500)), (s32_id (seek + _)), s32_id by zlia. lia.
Qed.

Lemma Schedule_latency i w k k' d :
  sector_ok i -> sector_ok (lastSector d) ->
  Schedule (ComputeLatency i w k d) k' =
    Ok {| totalTicks := totalTicks k'; numDiskReads := numDiskReads k';
          numDiskWrites := numDiskWrites k';
          diskInts := diskInts k' ++ [s32 (totalTicks k' + ComputeLatency i w k d)] |}.
Proof.
  intros Hi Hl. pose proof (ComputeLatency_bounds i w k d Hi Hl). unfold Schedule.
  rewrite ASSERT_true by (apply Z.ltb_lt; lia). done.
Qed.

(** Waiting for the only pending interrupt ends when its handler has run. *)
Lemma P_one s when :
  semaphore s = 0 -> diskInts (kern s) = [when] ->
  exists s', P s = Ok s' /\ semaphore s' = 0 /\ lockHeld s' = lockHeld s /\
    dev s' = set_active false (dev s) /\ diskInts (kern s') = [].
Proof.
  intros Hs Hd. unfold P. rewrite Hd. cbn [length P_loop]. rewrite Hs. cbn [Z.eqb].
  unfold idle. rewrite Hd. cbn [rbind CallBack semaphore dev lockHeld kern]. rewrite Hs.
  eexists. split; [reflexivity|]. done.
Qed.

Lemma UpdateLast_fields i k d :
  unixfile (UpdateLast i k d) = unixfile d /\ lastSector (UpdateLast i k d) = i /\
  active (UpdateLast i k d) = active d.
Proof. unfold UpdateLast. by destruct (TimeToSeek i k d). Qed.

Lemma in_range_sector i : sector_ok i -> ((0 <=? i) && (i <? NumSectors)) = true.
Proof. intros [? ?]. apply andb_true_iff. lia. Qed.

Lemma sector_offset i : sector_ok i ->
  0 <= SectorSize /\ 0 <= SectorSize * i + MagicSize /\
  SectorSize * i + MagicSize + SectorSize <= DiskSize.
Proof.
  unfold sector_ok, DiskSize, NumSectors, SectorsPerTrack, NumTracks, SectorSize, MagicSize. lia.
Qed.

(** The end of a request: the interrupt comes, the lock is released. *)
Lemma finish_request s k d when :
  semaphore s = 0 -> lockHeld s = true -> diskInts k = [when] ->
  exists s', (let* s2 := P (with_dev s k d) in Release s2) = Ok s' /\
    lockHeld s' = false /\ semaphore s' = 0 /\ dev s' = set_active false d /\
    diskInts (kern s') = [].
Proof.
  intros Hs Hl Hk. destruct (P_one (with_dev s k d) when Hs Hk) as (s2 & E & H1 & H2 & H3 & H4).
  rewrite E. cbn [rbind]. unfold Release. rewrite H2. cbn [with_dev lockHeld]. rewrite Hl.
  cbn [ASSERT rbind]. eexists. split; [reflexivity|]. done.
Qed.

Lemma ReadSector_spec s i : wf s -> sector_ok i ->
  exists s', ReadSector i s = Ok (sector s i, s') /\ wf s' /\
    unixfile (dev s') = unixfile (dev s).
Proof.
  intros (Hl & Hsem & Ha & Hd & Hls & Hlen & Hu8) Hi. pose proof (sector_offset i Hi).
  unfold ReadSector, Acquire. rewrite Hl. cbn [rbind kern dev].
  unfold ReadRequest. rewrite Ha, in_range_sector by done. cbn [negb ASSERT rbind].
  unfold Read. rewrite !ASSERT_true by (apply Z.leb_le; lia). cbn [rbind].
  rewrite Schedule_latency by done. cbn [rbind].
  destruct (UpdateLast_fields i (kern s) (set_active true (dev s))) as (U1 & U2 & U3).
  rewrite Hd. cbn [app].
  match goal with |- context [P (with_dev ?s0 ?k0 ?d0)] =>
    edestruct (finish_request s0 k0 d0) as (s' & E & H1 & H2 & H3 & H4) end;
    [done|done|reflexivity|].
  apply bind_Ok_inv in E as (s2 & -> & E). cbn [rbind]. rewrite E. cbn [rbind].
  exists s'. split; [done|]. unfold wf. rewrite H3. cbn [set_active unixfile lastSector active].
  rewrite U1, U2. done.
Qed.

Lemma sector_memcpy_ne f i j data :
  Z.of_nat (length f) = DiskSize -> sector_ok i -> sector_ok j -> i <> j ->
  length data = Z.to_nat SectorSize ->
  slice (Z.to_nat (SectorSize * j + MagicSize)) (Z.to_nat SectorSize)
    (memcpy f (Z.to_nat (SectorSize * i + MagicSize)) data) =
  slice (Z.to_nat (SectorSize * j + MagicSize)) (Z.to_nat SectorSize) f.
Proof.
  intros Hf Hi Hj Hij Hd. pose proof (sector_offset i Hi). pose proof (sector_offset j Hj).
  apply slice_eq. intros n Hn. unfold SectorSize, MagicSize in *.
  apply lookup_memcpy_out; lia.
Qed.

Lemma WriteSector_spec s i data :
  wf s -> sector_ok i -> (Z.to_nat SectorSize <= length data)%nat -> Forall is_u8 data ->
  exists s', WriteSector i data s = Ok s' /\ wf s' /\
    sector s' i = take (Z.to_nat SectorSize) data /\
    forall j, sector_ok j -> j <> i -> sector s' j = sector s j.
Proof.
  intros (Hl & Hsem & Ha & Hd & Hls & Hlen & Hu8) Hi Hdata Hdu. pose proof (sector_offset i Hi).
  unfold WriteSector, Acquire. rewrite Hl. cbn [rbind kern dev].
  unfold WriteRequest. rewrite Ha, in_range_sector by done. cbn [negb ASSERT rbind].
  rewrite read_bytes_Ok by done. cbn [rbind].
  unfold WriteFile. rewrite !ASSERT_true by (apply Z.leb_le; lia). cbn [rbind].
  replace (Z.to_nat (SectorSize * i + MagicSize) - length (unixfile (dev s)))%nat with 0%nat by lia.
  cbn [calloc replicate]. rewrite app_nil_r.
  rewrite Schedule_latency by done. cbn [rbind].
  match goal with |- context [UpdateLast i ?k ?d] =>
    destruct (UpdateLast_fields i k d) as (U1 & U2 & U3) end.
  rewrite Hd. cbn [app].
  match goal with |- context [P (with_dev ?s0 ?k0 ?d0)] =>
    edestruct (finish_request s0 k0 d0) as (s' & E & H1 & H2 & H3 & H4) end;
    [done|done|reflexivity|].
  exists s'. split; [done|]. unfold wf, sector. rewrite H3.
  cbn [set_active unixfile lastSector active]. rewrite U1, U2. cbn [set_active set_file unixfile].
  assert (length (take (Z.to_nat SectorSize) data) = Z.to_nat SectorSize) as Ht
    by (rewrite length_take; lia).
  split; [|split].
  - repeat split; try done; [by apply Hi|by apply Hi| |].
    + rewrite length_memcpy; [done|]. rewrite Ht. lia.
    + apply memcpy_u8; [done|]. by apply Forall_take.
  - apply slice_memcpy; [done|lia].
  - intros j Hj Hne. apply sector_memcpy_ne; auto.
Qed.

Lemma length_sector s i : wf s -> sector_ok i -> length (sector s i) = Z.to_nat SectorSize.
Proof.
  intros (_ & _ & _ & _ & _ & Hlen & _) Hi. pose proof (sector_offset i Hi).
  apply length_slice. lia.
Qed.

Lemma sector_u8 s i : wf s -> Forall is_u8 (sector s i).
Proof. intros (_ & _ & _ & _ & _ & _ & H). by apply slice_u8. Qed.

Lemma slice_calloc off n m : (off + n <= m)%nat -> slice off n (calloc m) = calloc n.
Proof.
  intros H. unfold slice, calloc. rewrite drop_replicate, take_replicate. f_equal. lia.
Qed.

Lemma memcpy_extend bs n m :
  (length bs <= n)%nat ->
  memcpy (bs ++ calloc (n - length bs)) n (calloc m) = bs ++ calloc (n + m - length bs).
Proof.
  intros H. assert (length (bs ++ calloc (n - length bs)) = n) as Hl
    by (rewrite length_app, length_calloc; lia).
  unfold memcpy. rewrite take_ge, drop_ge by lia. rewrite app_nil_r, <- app_assoc.
  f_equal. unfold calloc. rewrite <- replicate_add. f_equal. lia.
Qed.

(** A freshly created disk: the magic number and 1024 sectors of zeros. *)
Lemma Disk_fresh k :
  diskInts k = [] ->
  exists s, SynchDisk None k = Ok s /\ wf s /\
    forall i, sector_ok i -> sector s i = calloc (Z.to_nat SectorSize).
Proof.
  intros Hk. unfold SynchDisk, Disk.
  assert (WriteFile [] 0 (le_bytes 4 MagicNumber) = Ok (le_bytes 4 MagicNumber)) as -> by done.
  cbn [rbind]. unfold WriteFile.
  assert (exists n, Z.to_nat (DiskSize - 4) = n) as [n Hn] by eauto.
  assert (Z.of_nat n = DiskSize - 4) as Hz by (rewrite <- Hn, Z2Nat.id; [done|]; discriminate).
  rewrite Hn, ASSERT_true by done. change (le_bytes 4 0) with (calloc 4). cbn [rbind].
  unfold DiskSize, NumSectors, SectorsPerTrack, NumTracks, SectorSize, MagicSize in Hz.
  rewrite memcpy_extend by (rewrite length_le_bytes; lia). rewrite length_le_bytes.
  eexists. split; [reflexivity|]. split.
  - repeat split; try done; cbn [dev unixfile].
    + rewrite length_app, length_calloc, length_le_bytes. unfold DiskSize, NumSectors,
        SectorsPerTrack, NumTracks, SectorSize, MagicSize. lia.
    + apply Forall_app. auto with nachos.
  - intros i Hi. pose proof (sector_offset i Hi) as Ho. unfold sector. cbn [dev unixfile].
    unfold DiskSize, NumSectors, SectorsPerTrack, NumTracks, SectorSize, MagicSize in *.
    destruct Hi. rewrite (slice_app_skip 4) by (try apply length_le_bytes; lia).
    apply slice_calloc. lia.
Qed.

(** With no overflow, the head reaches a sector boundary after the seek. *)
Lemma TimeToSeek_boundary i k d seek rot :
  sector_ok i -> sector_ok (lastSector d) -> 0 <= totalTicks k < 2 ^ 31 - 32000 ->
  TimeToSeek i k d = (seek, rot) ->
  exists q, 0 <= q /\ totalTicks k + seek + rot = 500 * q.
Proof.
  intros Hi Hl Hk E. pose proof (TimeToSeek_bounds i k d Hi Hl) as Ht. rewrite E in Ht.
  destruct Ht as (Hs & Hs' & Hr). unfold TimeToSeek in E. injection E as Es Er.
  rewrite Es in Er. unfold RotationTime in Er.
  rewrite (s32_id (_ + seek)), Z.rem_mod_nonneg in Er by zlia.
  exists ((totalTicks k + seek + rot) / 500).
  destruct (Z.ltb_spec 0 ((totalTicks k + seek) mod 500)); subst rot; zlia.
Qed.

Lemma ModuloDiff_reaches i q : 0 <= i -> 0 <= q -> (q + ModuloDiff i q) mod 32 = i mod 32.
Proof.
  intros Hi Hq. unfold ModuloDiff, SectorsPerTrack.
  rewrite !(Z.rem_mod_nonneg _ 32) by (try zlia; rewrite ?Z.rem_mod_nonneg by lia; zlia). zlia.
Qed.

Lemma buffered_read i w k d : buffered i w k d = true -> w = false.
Proof.
  unfold buffered. destruct (TimeToSeek i k d). intros H. bools. by destruct w.
Qed.

(** The latency of a request, for a clock that does not overflow: a read
    the track buffer holds takes one transfer time; any other request takes at
    least the seek and a transfer, less than a full seek, a rotation and two
    sector times more, and ends exactly when the requested sector has passed
    under the head. *)
Theorem disk_latency i writing k d :
  sector_ok i -> sector_ok (lastSector d) -> 0 <= totalTicks k < 2 ^ 31 - 32000 ->
  let latency := ComputeLatency i writing k d in
  let seek := Z.abs (i / 32 - lastSector d / 32) * SeekTime in
  500 <= latency <= 31999 /\
  (buffered i writing k d = true -> latency = RotationTime /\ writing = false) /\
  (buffered i writing k d = false ->
     seek + RotationTime <= latency < seek + 33 * RotationTime /\
     (totalTicks k + latency) mod RotationTime = 0 /\
     ((totalTicks k + latency) / RotationTime - 1) mod SectorsPerTrack = i mod SectorsPerTrack).
Proof.
  intros Hi Hl Hk latency seek. subst latency.
  split; [by apply ComputeLatency_bounds|].
  pose proof (TimeToSeek_bounds i k d Hi Hl) as Ht.
  unfold ComputeLatency. destruct (TimeToSeek i k d) as [sk rot] eqn:E.
  destruct (TimeToSeek_boundary i k d sk rot Hi Hl Hk E) as (q & Hq & Eq).
  destruct Ht as (Es & Hs & Hr). unfold RotationTime, SeekTime, SectorsPerTrack in *.
  split; intros Hb; rewrite Hb; [split; [done|by eapply buffered_read]|].
  rewrite (s32_id (totalTicks k + sk)), (s32_id (_ + rot)), Eq by zlia.
  rewrite (Z.mul_comm 500 q), Z.quot_mul by lia.
  pose proof (ModuloDiff_bounds i q ltac:(apply Hi)).
  pose proof (ModuloDiff_reaches i q ltac:(apply Hi) Hq) as Hm.
  set (m := ModuloDiff i q) in *.
  rewrite (s32_id (rot + m * 500)), (s32_id (sk + _)), s32_id by zlia.
  replace (totalTicks k + (sk + (rot + m * 500) + 500)) with ((q + m + 1) * 500) by lia.
  rewrite Z.mod_mul, Z.div_mul by lia. subst seek. rewrite <- Es.
  split; [lia|]. split; [done|]. rewrite <- Hm. f_equal. lia.
Qed.

(** From sector 0 at time 700 to sector
    70 (track 2, sixth place), which passes under the head from time 3000 on. *)
Lemma disk_latency_witness :
  let k := mkDiskKernel 700 0 0 [] in
  let d := mkDisk [] false 0 0 in
  ComputeLatency 70 false k d = 2800 /\
  ((700 + ComputeLatency 70 false k d) / 500 - 1) mod 32 = 70 mod 32.
Proof.
  intros k d. split; [reflexivity|].
  destruct (disk_latency 70 false k d) as (_ & _ & H); [done..|].
  apply H. reflexivity.
Defined.

(** The disk between requests is an array of 1024 sectors of 128 bytes:
    writing a sector and waiting for its interrupt returns, changes that sector
    only and leaves the disk ready for the next request; reading returns the
    contents and changes nothing; a sector number outside the disk fails the
    [ASSERT] of the request. *)
Theorem synchdisk_sectors s i data :
  wf s -> Forall is_u8 data -> Z.of_nat (length data) = SectorSize ->
  (sector_ok i ->
     (exists s', WriteSector i data s = Ok s' /\ wf s' /\
        forall j, sector_ok j ->
          exists s'', ReadSector j s' = Ok (if decide (j = i) then data else sector s j, s'') /\
            wf s'' /\ unixfile (dev s'') = unixfile (dev s')) /\
     (exists s', ReadSector i s = Ok (sector s i, s') /\ wf s' /\
        unixfile (dev s') = unixfile (dev s))) /\
  (~ sector_ok i ->
     WriteSector i data s = Err AssertFailure /\ ReadSector i s = Err AssertFailure).
Proof.
  intros Hwf Hu8 Hlen. split.
  - intros Hi. split; [|by apply ReadSector_spec].
    destruct (WriteSector_spec s i data) as (s' & E & Hwf' & Hsame & Hother); try done; [lia|].
    exists s'. split; [done|]. split; [done|]. intros j Hj.
    destruct (ReadSector_spec s' j Hwf' Hj) as (s'' & E' & H'' & Hf). exists s''.
    split; [|done]. rewrite E'. case_decide as Hij; [subst j|by rewrite Hother].
    rewrite Hsame, take_ge by lia. done.
  - intros Hi. destruct Hwf as (Hl & _ & Ha & _).
    assert (((0 <=? i) && (i <? NumSectors)) = false) as Hr.
    { unfold sector_ok in Hi. destruct (Z.leb_spec 0 i), (Z.ltb_spec i NumSectors); cbn; lia. }
    unfold WriteSector, ReadSector, Acquire. rewrite Hl. cbn [rbind kern dev].
    unfold WriteRequest, ReadRequest. rewrite Ha, Hr. done.
Qed.

(** Sector 5 of a fresh disk is written and read back. *)
Lemma synchdisk_sectors_witness :
  exists s s' s'', SynchDisk None (mkDiskKernel 0 0 0 []) = Ok s /\
    WriteSector 5 (replicate 128 7) s = Ok s' /\
    ReadSector 5 s' = Ok (replicate 128 7, s'').
Proof.
  destruct (Disk_fresh (mkDiskKernel 0 0 0 []) eq_refl) as (s & E & Hwf & _).
  destruct (synchdisk_sectors s 5 (replicate 128 7)) as [H _];
    [done|by apply Forall_replicate|done|].
  destruct H as [(s' & E' & _ & H) _]; [done|].
  destruct (H 5) as (s'' & E'' & _); [done|].
  exists s, s', s''. split; [done|]. split; [done|]. exact E''.
Defined.

End Disk.
