(* ===== verification/FileHdr.v ===== *)
(** * File headers (filesys/filehdr.h, filesys/filehdr.cc)

    The header of a file holds its length and the numbers of its data sectors,
    and fills one sector of the disk.  The free map is any [Allocator]: the
    theorems hold of every implementation of that interface, and of the bitmap
    of lib/bitmap.cc in particular. *)

From S2P Require Import Prelude Ints Bitmap Disk.

Module FileHdr.

Definition NumDirect : Z := (Disk.SectorSize - 2 * 4) / 4.
Definition MaxFileSize : Z := NumDirect * Disk.SectorSize.

(** [FileHeader] *)
Record FileHeader := mkFileHeader {
  numBytes : Z;
  numSectors : Z;
  dataSectors : list Z
}.

(** The object as the bytes of a sector, and the bytes as an object. *)
Definition hdr_bytes (h : FileHeader) : list Z :=
  le_bytes 4 (numBytes h) ++ le_bytes 4 (numSectors h) ++
  concat (map (le_bytes 4) (dataSectors h)).

Definition int_at (bs : list Z) (off : nat) : Z := s32 (le_value (slice off 4 bs)).

Definition hdr_cast (bs : list Z) : FileHeader :=
  {| numBytes := int_at bs 0;
     numSectors := int_at bs 4;
     dataSectors := map (fun i => int_at bs (8 + 4 * i)) (seq 0 (Z.to_nat NumDirect)) |}.

Section Alloc.
Context {A : Type} `{Allocator A}.

(** One turn of the loop of [Allocate]. *)
Definition allocate_step (i : Z) (st : list Z * A) : res (list Z * A) :=
  let '(ds, freeMap) := st in
  let* r := al_find freeMap in
  let '(sector, freeMap') := r in
  let* ds' := arr_set ds i sector in
  ASSERT (0 <=? sector) ;;;
  Ok (ds', freeMap').

Definition Allocate (freeMap : A) (fileSize : Z) (h : FileHeader) : res (bool * FileHeader * A) :=
  let n := divRoundUp fileSize Disk.SectorSize in
  let* clear := al_count freeMap in
  if clear <? n then Ok (false, mkFileHeader fileSize n (dataSectors h), freeMap)
  else
    let* r := for_range (Z.to_nat n) 0 allocate_step (dataSectors h, freeMap) in
    let '(ds, freeMap') := r in
    Ok (true, mkFileHeader fileSize n ds, freeMap').

Definition Deallocate (freeMap : A) (h : FileHeader) : res A :=
  for_range (Z.to_nat (numSectors h)) 0
    (fun i freeMap =>
       let* s := arr_get (dataSectors h) i in
       let* t := al_test s freeMap in
       ASSERT t ;;;
       al_clear s freeMap)
    freeMap.

End Alloc.

Definition FetchFrom (sector : Z) (s : Disk.synchdisk) : res (FileHeader * Disk.synchdisk) :=
  let* r := Disk.ReadSector sector s in
  let '(bs, s') := r in
  Ok (hdr_cast bs, s').

Definition WriteBack (h : FileHeader) (sector : Z) (s : Disk.synchdisk) : res Disk.synchdisk :=
  Disk.WriteSector sector (hdr_bytes h) s.

Definition ByteToSector (offset : Z) (h : FileHeader) : res Z :=
  arr_get (dataSectors h) (Z.quot offset Disk.SectorSize).

Definition FileLength (h : FileHeader) : Z := numBytes h.

(** ** Well-formed headers *)

(** The sectors that hold the data. *)
Definition sectors_of (h : FileHeader) : list Z := take (Z.to_nat (numSectors h)) (dataSectors h).

Definition wf (h : FileHeader) : Prop :=
  0 <= numBytes h <= MaxFileSize /\ numSectors h = divRoundUp (numBytes h) Disk.SectorSize /\
  Z.of_nat (length (dataSectors h)) = NumDirect /\ Forall is_s32 (dataSectors h) /\
  NoDup (sectors_of h) /\ Forall Disk.sector_ok (sectors_of h).

Lemma wf_numSectors h : wf h -> 0 <= numSectors h <= NumDirect.
Proof.
  intros (Hb & Hs & _). pose proof (divRoundUp_spec (numBytes h) Disk.SectorSize) as Hd.
  rewrite <- Hs in Hd. unfold MaxFileSize, Disk.SectorSize in *.
  unfold NumDirect, Disk.SectorSize in *. change ((128 - 2 * 4) / 4) with 30 in *. lia.
Qed.

Lemma length_sectors_of h : wf h -> Z.of_nat (length (sectors_of h)) = numSectors h.
Proof.
  intros Hwf. pose proof (wf_numSectors h Hwf). destruct Hwf as (_ & _ & Hl & _).
  unfold sectors_of. rewrite length_take. lia.
Qed.

(** Position [i] of a header's table, for a byte of the file. *)
Lemma ByteToSector_block h k :
  wf h -> 0 <= k < numSectors h ->
  exists s, ByteToSector (k * Disk.SectorSize) h = Ok s /\
    sectors_of h !! Z.to_nat k = Some s /\ Disk.sector_ok s.
Proof.
  intros Hwf Hk. pose proof (length_sectors_of h Hwf) as Hl.
  destruct (lookup_lt_is_Some_2 (sectors_of h) (Z.to_nat k)) as [s Hs]; [lia|].
  exists s. split; [|split; [done|]].
  - unfold ByteToSector. rewrite Z.quot_mul by done. apply arr_get_lookup; [lia|].
    unfold sectors_of in Hs. by apply lookup_take_Some in Hs as [? _].
  - destruct Hwf as (_ & _ & _ & _ & _ & Hf). by eapply Forall_lookup_1 in Hf.
Qed.

(** ** The header on disk *)

Lemma hdr_blocks ds : Forall (fun l => length l = 4%nat) (map (le_bytes 4) ds).
Proof. apply Forall_map, Forall_true. intros x. apply length_le_bytes. Qed.

Lemma length_hdr_bytes h :
  Z.of_nat (length (dataSectors h)) = NumDirect ->
  length (hdr_bytes h) = Z.to_nat Disk.SectorSize.
Proof.
  intros Hl. unfold hdr_bytes.
  rewrite !length_app, !length_le_bytes, (length_concat_uniform 4) by apply hdr_blocks.
  rewrite length_map. unfold NumDirect, Disk.SectorSize in *.
  change ((128 - 2 * 4) / 4) with 30 in Hl. lia.
Qed.

Lemma s32_le_bytes z : is_s32 z -> s32 (le_value (le_bytes 4 z)) = z.
Proof.
  intros Hz. rewrite le_value_bytes. change (z mod 2 ^ (8 * Z.of_nat 4)) with (u32 z).
  rewrite s32_u32. by apply s32_id.
Qed.

Lemma hdr_roundtrip h :
  Z.of_nat (length (dataSectors h)) = NumDirect -> is_s32 (numBytes h) -> is_s32 (numSectors h) ->
  Forall is_s32 (dataSectors h) -> hdr_cast (hdr_bytes h) = h.
Proof.
  intros Hl Hb Hs Hds. destruct h as [nb ns ds]. cbn [numBytes numSectors dataSectors] in *.
  unfold hdr_cast, hdr_bytes, int_at. cbn [numBytes numSectors dataSectors]. f_equal.
  - slice_fields. by apply s32_le_bytes.
  - slice_fields. by apply s32_le_bytes.
  - apply list_eq_same_length with (length ds); [done|rewrite length_map, length_seq; lia|].
    intros i x y Hi Hx Hy. rewrite list_lookup_fmap, lookup_seq_lt in Hx by lia.
    apply (inj Some) in Hx. subst x. rewrite Nat.add_0_l.
    rewrite (slice_app_skip 4), (slice_app_skip 4) by (try apply length_le_bytes; lia).
    replace (8 + 4 * i - 4 - 4)%nat with (4 * i)%nat by lia.
    rewrite (slice_concat 4 _ i (le_bytes 4 y)); [|apply hdr_blocks|by rewrite list_lookup_fmap, Hy].
    apply s32_le_bytes. by eapply Forall_lookup_1.
Qed.

Lemma hdr_bytes_u8 h : Forall is_u8 (hdr_bytes h).
Proof.
  unfold hdr_bytes. rewrite !Forall_app. repeat split; auto with nachos.
  apply Forall_concat, Forall_map, Forall_true. auto with nachos.
Qed.

(** A header written to a sector is read back from it. *)
Lemma WriteBack_FetchFrom h i s :
  wf h -> Disk.sector_ok i -> Disk.wf s ->
  exists s', WriteBack h i s = Ok s' /\ Disk.wf s' /\ Disk.sector s' i = hdr_bytes h /\
    (forall j, Disk.sector_ok j -> j <> i -> Disk.sector s' j = Disk.sector s j) /\
    exists s'', FetchFrom i s' = Ok (h, s'') /\ Disk.wf s'' /\
      Disk.unixfile (Disk.dev s'') = Disk.unixfile (Disk.dev s').
Proof.
  intros Hh Hi Hs. pose proof (wf_numSectors h Hh) as Hn. destruct Hh as (Hb & _ & Hl & H32 & _).
  pose proof (length_hdr_bytes h Hl) as Hlen.
  destruct (Disk.WriteSector_spec s i (hdr_bytes h)) as (s' & E & Hwf & Hsame & Hother);
    [done|done|lia|apply hdr_bytes_u8|].
  rewrite take_ge in Hsame by lia.
  exists s'. repeat split; try done; [apply Hwf..|].
  destruct (Disk.ReadSector_spec s' i Hwf Hi) as (s'' & E' & Hwf' & Hf).
  exists s''. unfold FetchFrom. rewrite E'. cbn [rbind]. rewrite Hsame.
  unfold MaxFileSize, NumDirect, Disk.SectorSize in *. change ((128 - 2 * 4) / 4) with 30 in *.
  rewrite hdr_roundtrip by (done || zlia). done.
Qed.

(** ** Allocation *)

(** The view in which the numbers of [l] are in use too. *)
Definition mark_all (l : list Z) (v : list bool) : list bool :=
  foldl (fun v s => <[Z.to_nat s := true]> v) v l.

Lemma mark_all_snoc l s v : mark_all (l ++ [s]) v = <[Z.to_nat s := true]> (mark_all l v).
Proof. unfold mark_all. by rewrite foldl_app. Qed.

Lemma length_mark_all l v : length (mark_all l v) = length v.
Proof.
  induction l as [|s l IH] using rev_ind; [done|]. by rewrite mark_all_snoc, length_insert.
Qed.

Lemma lookup_mark_all_ne l v i :
  Forall (fun s => 0 <= s) l -> 0 <= i -> i ∉ l -> mark_all l v !! Z.to_nat i = v !! Z.to_nat i.
Proof.
  intros Hl Hi. induction l as [|s l IH] using rev_ind; intros Hn; [done|].
  apply Forall_app in Hl as [Hl Hs]. apply Forall_cons in Hs as [Hs _].
  rewrite elem_of_app, list_elem_of_singleton in Hn.
  rewrite mark_all_snoc, list_lookup_insert_ne by (intros E; apply Hn; right; lia).
  apply IH; [done|]. tauto.
Qed.

Lemma lookup_mark_all l v i :
  0 <= i < Z.of_nat (length v) -> i ∈ l -> mark_all l v !! Z.to_nat i = Some true.
Proof.
  intros Hi. induction l as [|s l IH] using rev_ind; intros Hin; [by apply not_elem_of_nil in Hin|].
  rewrite mark_all_snoc. destruct (decide (Z.to_nat s = Z.to_nat i)) as [->|Hne].
  - apply list_lookup_insert_eq. rewrite length_mark_all. lia.
  - rewrite list_lookup_insert_ne by done. apply IH.
    apply elem_of_app in Hin as [Hin|Hin]; [done|].
    apply list_elem_of_singleton in Hin. by subst.
Qed.

Lemma first_clear_Some v : 0 < num_clear v ->
  0 <= first_clear v < Z.of_nat (length v) /\ v !! Z.to_nat (first_clear v) = Some false.
Proof.
  intros Hn. unfold first_clear.
  destruct (list_find _ v) as [[i b]|] eqn:E.
  - apply list_find_Some in E as (Hi & -> & _). rewrite Nat2Z.id.
    apply lookup_lt_Some in Hi as Hlt. split; [lia|done].
  - apply list_find_None in E. exfalso.
    assert (num_clear v = 0) as H0; [|lia]. unfold num_clear. clear Hn.
    induction E as [|b v Hb E IH]; [done|]. by rewrite filter_cons_False.
Qed.

Lemma first_clear_range v : -1 <= first_clear v < Z.of_nat (length v) \/ first_clear v = -1.
Proof.
  unfold first_clear. destruct (list_find _ v) as [[i b]|] eqn:E; [|by right].
  apply list_find_Some in E as (Hi & _). apply lookup_lt_Some in Hi. left. lia.
Qed.

Lemma num_clear_mark v i :
  v !! i = Some false -> num_clear (<[i := true]> v) = num_clear v - 1.
Proof.
  intros Hi. unfold num_clear.
  rewrite insert_take_drop by (by eapply lookup_lt_Some).
  rewrite <- (take_drop_middle v i false Hi) at 3.
  rewrite !filter_app. rewrite filter_cons_False by done. rewrite filter_cons_True by done.
  rewrite !length_app. cbn [length]. lia.
Qed.

Section Spec.
Context {A : Type} `{Allocator A}.

(** The state of [Allocate]'s loop after [i] turns: the first [i] sectors of
    the table were free, are distinct, and are the ones taken since; the rest
    of the table is as before. *)
Definition allocated (ds0 : list Z) (m : A) (i : Z) (st : list Z * A) : Prop :=
  let '(ds, m') := st in
  let l := take (Z.to_nat i) ds in
  al_wf m' /\ Z.of_nat (length ds) = NumDirect /\ NoDup l /\
  Forall (fun s => 0 <= s /\ view m !! Z.to_nat s = Some false) l /\
  view m' = mark_all l (view m) /\ num_clear (view m') = num_clear (view m) - i /\
  drop (Z.to_nat i) ds = drop (Z.to_nat i) ds0.

Lemma allocate_step_ok ds0 m i ds m1 :
  0 <= i < NumDirect -> i < num_clear (view m) -> allocated ds0 m i (ds, m1) ->
  exists st, allocate_step i (ds, m1) = Ok st /\ allocated ds0 m (i + 1) st.
Proof.
  intros Hi Hc (Hwf & Hl & Hnd & Hfree & Hv & Hn & Hdrop).
  destruct (first_clear_Some (view m1)) as [Hs Hs']; [lia|].
  destruct (al_find_law m1 Hwf) as (m2 & E & Hwf2 & Hv2).
  unfold allocate_step. rewrite E. cbn [rbind].
  set (s := first_clear (view m1)) in *.
  rewrite (proj2 (Z.eqb_neq s (-1))) in Hv2 by lia.
  rewrite arr_set_in_range, ASSERT_true by (lia || apply Z.leb_le; lia). cbn [rbind].
  eexists. split; [reflexivity|]. unfold allocated.
  replace (Z.to_nat (i + 1)) with (S (Z.to_nat i)) by lia.
  rewrite (take_S_r _ _ s) by (apply list_lookup_insert_eq; lia).
  rewrite take_insert_ge by lia. rewrite length_insert.
  assert (s ∉ take (Z.to_nat i) ds) as Hns.
  { intros Hin. rewrite Hv, lookup_mark_all in Hs'; [done| |done].
    rewrite Hv, length_mark_all in Hs. lia. }
  split; [done|]. split; [done|]. split; [|split; [|split; [|split]]].
  - apply NoDup_app. split; [done|]. split; [|by apply NoDup_singleton].
    intros x Hx Hx'. apply list_elem_of_singleton in Hx'. by subst.
  - apply Forall_app. split; [done|]. constructor; [|done]. split; [lia|].
    rewrite Hv, lookup_mark_all_ne in Hs'; [done| |lia|done].
    eapply Forall_impl; [exact Hfree|]. by intros x [? _].
  - by rewrite mark_all_snoc, Hv2, Hv.
  - rewrite Hv2, num_clear_mark by done. lia.
  - rewrite drop_insert_lt by lia. change (S (Z.to_nat i)) with (1 + Z.to_nat i)%nat.
    by rewrite Nat.add_comm, <- !drop_drop, Hdrop.
Qed.

Lemma allocate_loop m ds n :
  al_wf m -> Z.of_nat (length ds) = NumDirect ->
  0 <= n <= NumDirect -> n <= num_clear (view m) ->
  exists st, for_range (Z.to_nat n) 0 allocate_step (ds, m) = Ok st /\ allocated ds m n st.
Proof.
  intros Hwf Hl Hn Hc.
  destruct (for_range_inv (allocated ds m) (Z.to_nat n) 0 allocate_step (ds, m)) as (st & E & Hst).
  - unfold allocated. cbn [Z.to_nat]. rewrite take_0. repeat split; try done; [constructor|lia].
  - intros i [ds1 m1] Hi Ha. apply allocate_step_ok; [lia|lia|done].
  - exists st. split; [done|]. by replace n with (0 + Z.of_nat (Z.to_nat n)) at 1 by lia.
Qed.

(** Clearing the numbers of [l], which are marked, restores the view. *)
Lemma clear_marked v s l :
  Forall (fun s => 0 <= s /\ v !! Z.to_nat s = Some false) (s :: l) -> s ∉ l ->
  <[Z.to_nat s := false]> (mark_all (s :: l) v) = mark_all l v.
Proof.
  intros Hf Hn. apply Forall_cons in Hf as [[Hs Hv] Hf].
  assert (Forall (fun s => 0 <= s) l) as Hpos.
  { eapply Forall_impl; [exact Hf|]. by intros x [? _]. }
  apply list_eq. intros j. destruct (decide (j = Z.to_nat s)) as [->|Hj].
  - rewrite list_lookup_insert_eq by (rewrite length_mark_all; by eapply lookup_lt_Some).
    by rewrite lookup_mark_all_ne.
  - rewrite list_lookup_insert_ne by done. rewrite <- (Nat2Z.id j).
    destruct (decide (Z.of_nat j ∈ l)) as [Hin|Hin].
    + destruct (decide (j < length v)%nat).
      * rewrite !lookup_mark_all by (lia || set_solver). done.
      * rewrite !lookup_ge_None_2 by (rewrite length_mark_all; lia). done.
    + rewrite !lookup_mark_all_ne; try done; try lia; [by constructor|].
      apply not_elem_of_cons. split; [lia|done].
Qed.

Lemma Deallocate_marked h m v :
  al_wf m -> 0 <= numSectors h <= Z.of_nat (length (dataSectors h)) ->
  NoDup (sectors_of h) -> Forall (fun s => 0 <= s /\ v !! Z.to_nat s = Some false) (sectors_of h) ->
  view m = mark_all (sectors_of h) v ->
  exists m', Deallocate m h = Ok m' /\ al_wf m' /\ view m' = v.
Proof.
  intros Hwf Hn Hnd Hf Hv. set (l := sectors_of h) in *.
  assert (length l = Z.to_nat (numSectors h)) as Hl by (unfold l, sectors_of; rewrite length_take; lia).
  unfold Deallocate.
  match goal with |- context [for_range ?n 0 ?body m] =>
    destruct (for_range_inv (fun i m => al_wf m /\ view m = mark_all (drop (Z.to_nat i) l) v)
      n 0 body m) as (m' & E & Hwf' & Hv') end.
  - by rewrite drop_0.
  - intros i m1 Hi [Hwf1 Hv1].
    destruct (lookup_lt_is_Some_2 l (Z.to_nat i)) as [s Hs]; [lia|].
    assert (arr_get (dataSectors h) i = Ok s) as ->.
    { apply arr_get_lookup; [lia|]. unfold l, sectors_of in Hs.
      by apply lookup_take_Some in Hs as [? _]. }
    cbn [rbind]. rewrite (drop_S _ s) in Hv1 by done.
    rewrite <- (take_drop_middle l (Z.to_nat i) s Hs) in Hnd, Hf.
    apply NoDup_app in Hnd as (_ & _ & Hnd). apply NoDup_cons in Hnd as [Hns _].
    apply Forall_app in Hf as [_ Hf].
    pose proof Hf as Hf'. apply Forall_cons in Hf' as [[Hpos Hvs] _].
    apply lookup_lt_Some in Hvs as Hlt.
    erewrite al_test_law; [|done|done|rewrite Hv1; apply lookup_mark_all; [lia|set_solver]].
    cbn [rbind ASSERT].
    destruct (al_clear_law m1 s Hwf1) as (m2 & -> & Hwf2 & Hv2).
    { rewrite Hv1, length_mark_all. lia. }
    exists m2. split; [done|]. split; [done|]. rewrite Hv2, Hv1, clear_marked by done.
    by replace (Z.to_nat (i + 1)) with (S (Z.to_nat i)) by lia.
  - exists m'. split; [done|]. split; [done|]. rewrite Hv', drop_ge by lia. done.
Qed.

Lemma sectors_bound fileSize : 0 <= fileSize <= MaxFileSize ->
  0 <= divRoundUp fileSize Disk.SectorSize <= NumDirect.
Proof.
  intros Hsz. pose proof (divRoundUp_spec fileSize Disk.SectorSize ltac:(lia) eq_refl) as Hd.
  revert Hd Hsz. unfold MaxFileSize, Disk.SectorSize. change NumDirect with 30. lia.
Qed.

Lemma Allocate_full m fileSize h :
  al_wf m -> num_clear (view m) < divRoundUp fileSize Disk.SectorSize ->
  Allocate m fileSize h =
    Ok (false, mkFileHeader fileSize (divRoundUp fileSize Disk.SectorSize) (dataSectors h), m).
Proof.
  intros Hwf Hc. unfold Allocate. rewrite al_count_law by done. cbn [rbind].
  by rewrite (proj2 (Z.ltb_lt _ _)).
Qed.

Lemma Allocate_ok m fileSize h :
  al_wf m -> 0 <= fileSize <= MaxFileSize -> Z.of_nat (length (dataSectors h)) = NumDirect ->
  let n := divRoundUp fileSize Disk.SectorSize in
  n <= num_clear (view m) ->
  exists h' m', Allocate m fileSize h = Ok (true, h', m') /\ al_wf m' /\
    numBytes h' = fileSize /\ numSectors h' = n /\ Z.of_nat (length (dataSectors h')) = NumDirect /\
    NoDup (sectors_of h') /\
    Forall (fun s => 0 <= s /\ view m !! Z.to_nat s = Some false) (sectors_of h') /\
    view m' = mark_all (sectors_of h') (view m) /\
    drop (Z.to_nat n) (dataSectors h') = drop (Z.to_nat n) (dataSectors h).
Proof.
  intros Hwf Hsz Hl n Hc. pose proof (sectors_bound fileSize Hsz) as Hn. fold n in Hn.
  unfold Allocate. fold n. rewrite al_count_law by done. cbn [rbind].
  rewrite (proj2 (Z.ltb_ge _ _)) by done.
  destruct (allocate_loop m (dataSectors h) n) as ([ds m'] & -> & Ha); [done..|]. cbn [rbind].
  destruct Ha as (Hwf' & Hds & Hnd & Hf & Hv & _ & Hdrop).
  do 2 eexists. split; [reflexivity|]. done.
Qed.

(** The header of a fresh allocation is well formed. *)
Lemma Allocate_wf m fileSize h h' :
  0 <= fileSize <= MaxFileSize -> Z.of_nat (length (view m)) <= Disk.NumSectors ->
  Forall is_s32 (dataSectors h) ->
  let n := divRoundUp fileSize Disk.SectorSize in
  numBytes h' = fileSize -> numSectors h' = n -> Z.of_nat (length (dataSectors h')) = NumDirect ->
  NoDup (sectors_of h') ->
  Forall (fun s => 0 <= s /\ view m !! Z.to_nat s = Some false) (sectors_of h') ->
  drop (Z.to_nat n) (dataSectors h') = drop (Z.to_nat n) (dataSectors h) -> wf h'.
Proof.
  intros Hsz Hlen H32 n Hb Hn Hl Hnd Hf Hdrop.
  assert (Forall Disk.sector_ok (sectors_of h')) as Hok.
  { eapply Forall_impl; [exact Hf|]. intros s [Hs Hv]. apply lookup_lt_Some in Hv.
    unfold Disk.sector_ok. lia. }
  split; [by rewrite Hb|]. split; [by rewrite Hb|]. split; [done|]. split; [|done].
  rewrite <- (take_drop (Z.to_nat n) (dataSectors h')), Hdrop. apply Forall_app. split.
  - unfold sectors_of in Hok. rewrite Hn in Hok. eapply Forall_impl; [exact Hok|].
    intros s. unfold Disk.sector_ok. change Disk.NumSectors with 1024. zlia.
  - by apply Forall_drop.
Qed.

(** Allocating the sectors of a file of at most [MaxFileSize] bytes fails
    exactly when fewer sectors are free than the file needs, and then takes
    none.  Otherwise the header lists as many sectors as the length needs, all
    distinct and free before; exactly these become used; and deallocating the
    header gives them all back, passing its own [ASSERT]s. *)
Theorem file_allocation (m : A) fileSize h :
  al_wf m -> 0 <= fileSize <= MaxFileSize -> Z.of_nat (length (dataSectors h)) = NumDirect ->
  let n := divRoundUp fileSize Disk.SectorSize in
  (num_clear (view m) < n ->
     Allocate m fileSize h = Ok (false, mkFileHeader fileSize n (dataSectors h), m)) /\
  (n <= num_clear (view m) ->
     exists h' m', Allocate m fileSize h = Ok (true, h', m') /\ al_wf m' /\
       numBytes h' = fileSize /\ Z.of_nat (length (sectors_of h')) = n /\ NoDup (sectors_of h') /\
       Forall (fun s => 0 <= s /\ view m !! Z.to_nat s = Some false) (sectors_of h') /\
       view m' = mark_all (sectors_of h') (view m) /\
       exists m'', Deallocate m' h' = Ok m'' /\ al_wf m'' /\ view m'' = view m).
Proof.
  intros Hwf Hsz Hl n. split; intros Hc; [by apply Allocate_full|].
  destruct (Allocate_ok m fileSize h Hwf Hsz Hl Hc)
    as (h' & m' & E & Hwf' & Hb & Hn & Hds & Hnd & Hf & Hv & _).
  pose proof (sectors_bound fileSize Hsz) as Hb'. fold n in Hn, Hb'.
  exists h', m'. split; [done|]. split; [done|]. split; [done|]. split.
  { unfold sectors_of. rewrite length_take. lia. }
  repeat (split; [done|]). apply Deallocate_marked; try done. lia.
Qed.

(** [Allocate] does not compare the length with [MaxFileSize]: for a longer
    file, with enough free sectors, its loop writes past the end of
    [dataSectors]. *)
Theorem file_allocation_overflow (m : A) fileSize h :
  al_wf m -> MaxFileSize < fileSize -> Z.of_nat (length (dataSectors h)) = NumDirect ->
  divRoundUp fileSize Disk.SectorSize <= num_clear (view m) ->
  Allocate m fileSize h = Err OutOfBounds.
Proof.
  intros Hwf Hsz Hl Hc. unfold Allocate. set (n := divRoundUp fileSize Disk.SectorSize) in *.
  assert (NumDirect < n) as Hn.
  { pose proof (divRoundUp_spec fileSize Disk.SectorSize) as Hd. fold n in Hd.
    revert Hd Hsz. unfold MaxFileSize, Disk.SectorSize. change NumDirect with 30. lia. }
  rewrite al_count_law by done. cbn [rbind]. rewrite (proj2 (Z.ltb_ge _ _)) by done.
  replace (Z.to_nat n) with (Z.to_nat NumDirect + S (Z.to_nat (n - NumDirect - 1)))%nat
    by (change NumDirect with 30 in *; lia).
  rewrite for_range_app.
  destruct (allocate_loop m (dataSectors h) NumDirect) as ([ds m'] & -> & Ha); [done..|lia|].
  destruct Ha as (Hwf' & Hds & _ & _ & _ & Hn' & _).
  cbn [rbind for_range]. unfold allocate_step at 1.
  destruct (al_find_law m' Hwf') as (m2 & -> & _). cbn [rbind].
  unfold arr_set. rewrite (proj2 (Z.ltb_ge _ _)) by (rewrite Hds, Z2Nat.id; done || lia).
  by rewrite andb_false_r.
Qed.

End Spec.

(** A map of 64 sectors, of which 0 and 1 are taken. *)
Definition small_map : Bitmap.bitmap := Bitmap.mkBitmap 64 2 [3; 0].

Lemma small_map_wf : Bitmap.wf small_map.
Proof. do 3 (split; [done|]). repeat (apply Forall_cons; split; [done|]). done. Qed.

(** A file of 300 bytes takes the three sectors 2, 3 and 4. *)
Lemma file_allocation_witness :
  exists h' m', Allocate small_map 300 (mkFileHeader 0 0 (replicate 30 0)) = Ok (true, h', m') /\
    sectors_of h' = [2; 3; 4] /\
    exists m'', Deallocate m' h' = Ok m'' /\ Bitmap.bits m'' = Bitmap.bits small_map.
Proof.
  destruct (file_allocation small_map 300 (mkFileHeader 0 0 (replicate 30 0))) as [_ Hok];
    [exact small_map_wf|done|done|].
  destruct Hok as (h' & m' & E & _ & _ & _ & _ & _ & _ & m'' & E' & _ & Hv); [by vm_compute|].
  exists h', m'. split; [exact E|]. split; [|exists m''; split; [exact E'|exact Hv]].
  vm_compute in E. by injection E as <- _.
Defined.

(** A file of 3841 bytes needs 31 sectors. *)
Lemma file_allocation_overflow_witness :
  Allocate small_map 3841 (mkFileHeader 0 0 (replicate 30 0)) = Err OutOfBounds.
Proof.
  apply (file_allocation_overflow small_map); [exact small_map_wf|done|done|by vm_compute].
Defined.

End FileHdr.
