(* ===== verification/OpenFile.v ===== *)
(** * Open files (filesys/openfile.h, filesys/openfile.cc)

    An open file has the header of the file in memory and a position.  Reading
    and writing go through whole sectors of the disk.  The contents of a fresh
    [new char[n]] are an argument of the operations ([fresh i] is its byte
    [i]): no theorem depends on them. *)

From S2P Require Import Prelude Ints Bitmap Disk FileHdr.

Module OpenFile.

Import Disk FileHdr.

(** [OpenFile] *)
Record OpenFile := mkOpenFile {
  hdr : FileHeader;
  seekPosition : Z
}.

Definition OpenFile_init (sector : Z) (s : synchdisk) : res (OpenFile * synchdisk) :=
  let* r := FetchFrom sector s in
  let '(h, s') := r in
  Ok (mkOpenFile h 0, s').

Definition Seek (position : Z) (f : OpenFile) : OpenFile := mkOpenFile (hdr f) position.

Definition Length (f : OpenFile) : Z := FileLength (hdr f).

(** [new char[n]]; a negative size throws. *)
Definition new_char (fresh : Z -> Z) (n : Z) : res (list Z) :=
  if n <? 0 then Err Uncaught else Ok (map fresh (seqZ 0 n)).

(** [bcopy(&buf[off], into, n)], as the bytes copied *)
Definition copy_out (buf : list Z) (off n : Z) : res (list Z) :=
  if (0 <=? off) && (off + n <=? Z.of_nat (length buf)) then
    Ok (slice (Z.to_nat off) (Z.to_nat n) buf)
  else Err OutOfBounds.

(** [bcopy(from, &buf[off], n)] *)
Definition copy_in (buf : list Z) (off : Z) (from : list Z) : res (list Z) :=
  if (0 <=? off) && (off + Z.of_nat (length from) <=? Z.of_nat (length buf)) then
    Ok (memcpy buf (Z.to_nat off) from)
  else Err OutOfBounds.

(** The sectors [firstSector] to [lastSector] of the file into [buf]. *)
Definition read_sectors (h : FileHeader) (firstSector num : Z) (buf : list Z) (s : synchdisk)
  : res (list Z * synchdisk) :=
  for_range (Z.to_nat num) firstSector
    (fun i st =>
       let '(buf, s) := st in
       let* sector := ByteToSector (i * SectorSize) h in
       let* r := ReadSector sector s in
       let '(data, s') := r in
       let* buf' := copy_in buf ((i - firstSector) * SectorSize) data in
       Ok (buf', s'))
    (buf, s).

(** [ReadAt]: the bytes it copies to [into], whose number it returns. *)
Definition ReadAt (fresh : Z -> Z) (numBytes position : Z) (h : FileHeader) (s : synchdisk)
  : res (list Z * synchdisk) :=
  let fileLength := FileLength h in
  if (numBytes <=? 0) || (fileLength <=? position) then Ok ([], s)
  else
    let n := if fileLength <? s32 (position + numBytes) then fileLength - position else numBytes in
    let firstSector := divRoundDown position SectorSize in
    let lastSector := divRoundDown (s32 (position + n - 1)) SectorSize in
    let num := 1 + lastSector - firstSector in
    let* buf := new_char fresh (num * SectorSize) in
    let* r := read_sectors h firstSector num buf s in
    let '(buf', s') := r in
    let* out := copy_out buf' (position - firstSector * SectorSize) n in
    Ok (out, s').

(** [buf] back to the sectors [firstSector] to [lastSector] of the file. *)
Definition write_sectors (h : FileHeader) (firstSector num : Z) (buf : list Z) (s : synchdisk)
  : res synchdisk :=
  for_range (Z.to_nat num) firstSector
    (fun i s =>
       let* sector := ByteToSector (i * SectorSize) h in
       let* data := copy_out buf ((i - firstSector) * SectorSize) SectorSize in
       WriteSector sector data s)
    s.

(** [if (cond) ReadAt(&buf[off], SectorSize, position)] *)
Definition read_partial (fresh : Z -> Z) (cond : bool) (off position : Z) (h : FileHeader)
    (st : list Z * synchdisk) : res (list Z * synchdisk) :=
  let '(buf, s) := st in
  if cond then
    let* r := ReadAt fresh SectorSize position h s in
    let '(data, s') := r in
    let* buf' := copy_in buf off data in
    Ok (buf', s')
  else Ok (buf, s).

(** [WriteAt]: the number of bytes written. *)
Definition WriteAt (fresh : Z -> Z) (from : list Z) (numBytes position : Z) (h : FileHeader)
    (s : synchdisk) : res (Z * synchdisk) :=
  let fileLength := FileLength h in
  if (numBytes <=? 0) || (fileLength <=? position) then Ok (0, s)
  else
    let n := if fileLength <? s32 (position + numBytes) then fileLength - position else numBytes in
    let firstSector := divRoundDown position SectorSize in
    let lastSector := divRoundDown (s32 (position + n - 1)) SectorSize in
    let num := 1 + lastSector - firstSector in
    let* buf := new_char fresh (num * SectorSize) in
    let firstAligned := position =? firstSector * SectorSize in
    let lastAligned := s32 (position + n) =? (lastSector + 1) * SectorSize in
    let* st1 := read_partial fresh (negb firstAligned) 0 (firstSector * SectorSize) h (buf, s) in
    let* st2 :=
      read_partial fresh
        (negb lastAligned && (negb (firstSector =? lastSector) || firstAligned))
        ((lastSector - firstSector) * SectorSize) (lastSector * SectorSize) h st1 in
    let '(buf2, s2) := st2 in
    let* data := read_bytes from (Z.to_nat n) in
    let* buf3 := copy_in buf2 (position - firstSector * SectorSize) data in
    let* s3 := write_sectors h firstSector num buf3 s2 in
    Ok (n, s3).

Definition Read (fresh : Z -> Z) (numBytes : Z) (f : OpenFile) (s : synchdisk)
  : res (list Z * OpenFile * synchdisk) :=
  let* r := ReadAt fresh numBytes (seekPosition f) (hdr f) s in
  let '(out, s') := r in
  Ok (out, mkOpenFile (hdr f) (s32 (seekPosition f + Z.of_nat (length out))), s').

Definition Write (fresh : Z -> Z) (from : list Z) (numBytes : Z) (f : OpenFile) (s : synchdisk)
  : res (Z * OpenFile * synchdisk) :=
  let* r := WriteAt fresh from numBytes (seekPosition f) (hdr f) s in
  let '(result, s') := r in
  Ok (result, mkOpenFile (hdr f) (s32 (seekPosition f + result)), s').

(** ** The contents of a file *)

(** The data sectors of a file, one after the other, and the bytes of the
    file: those below its length. *)
Definition raw (s : synchdisk) (h : FileHeader) : list Z :=
  concat (map (sector s) (sectors_of h)).

Definition file_bytes (s : synchdisk) (h : FileHeader) : list Z :=
  take (Z.to_nat (numBytes h)) (raw s h).

Lemma raw_blocks s h : Disk.wf s -> FileHdr.wf h ->
  Forall (fun l => length l = Z.to_nat SectorSize) (map (sector s) (sectors_of h)).
Proof.
  intros Hs (_ & _ & _ & _ & _ & Hf). apply Forall_map. eapply Forall_impl; [exact Hf|].
  intros i Hi. by apply length_sector.
Qed.

Lemma length_raw s h : Disk.wf s -> FileHdr.wf h ->
  Z.of_nat (length (raw s h)) = SectorSize * numSectors h.
Proof.
  intros Hs Hh. unfold raw. rewrite (length_concat_uniform _ _ (raw_blocks s h Hs Hh)), length_map.
  pose proof (length_sectors_of h Hh). rewrite Nat2Z.inj_mul, Z2Nat.id; [lia|done].
Qed.

Lemma numBytes_raw h : FileHdr.wf h -> 0 <= numBytes h <= SectorSize * numSectors h.
Proof.
  intros (Hb & Hs & _). pose proof (divRoundUp_spec (numBytes h) SectorSize) as Hd.
  rewrite <- Hs in Hd. assert (0 < SectorSize) by done. lia.
Qed.

Lemma length_file_bytes s h : Disk.wf s -> FileHdr.wf h ->
  Z.of_nat (length (file_bytes s h)) = numBytes h.
Proof.
  intros Hs Hh. pose proof (length_raw s h Hs Hh). pose proof (numBytes_raw h Hh).
  unfold file_bytes. rewrite length_take. lia.
Qed.

Lemma lookup_file_bytes s h j : Z.of_nat j < numBytes h -> file_bytes s h !! j = raw s h !! j.
Proof. intros Hj. unfold file_bytes. apply lookup_take_lt. lia. Qed.

Lemma lookup_raw s h k b r : Disk.wf s -> FileHdr.wf h ->
  sectors_of h !! k = Some b -> (r < 128)%nat -> raw s h !! (128 * k + r)%nat = sector s b !! r.
Proof.
  intros Hs Hh Hk Hr. apply (lookup_concat_uniform 128 _ k).
  - apply (raw_blocks s h Hs Hh).
  - by rewrite list_lookup_fmap, Hk.
  - done.
Qed.

Lemma raw_same s s' h : unixfile (dev s') = unixfile (dev s) -> raw s' h = raw s h.
Proof. intros E. unfold raw. f_equal. apply map_ext. intros i. unfold sector. by rewrite E. Qed.

Lemma copy_in_ok buf off from :
  0 <= off -> off + Z.of_nat (length from) <= Z.of_nat (length buf) ->
  copy_in buf off from = Ok (memcpy buf (Z.to_nat off) from) /\
  length (memcpy buf (Z.to_nat off) from) = length buf.
Proof.
  intros Ho Hl. split; [|apply length_memcpy; lia]. unfold copy_in.
  by rewrite (proj2 (Z.leb_le 0 off)), (proj2 (Z.leb_le _ (Z.of_nat (length buf)))).
Qed.

Lemma copy_out_ok buf off n :
  0 <= off -> off + n <= Z.of_nat (length buf) ->
  copy_out buf off n = Ok (slice (Z.to_nat off) (Z.to_nat n) buf).
Proof.
  intros Ho Hl. unfold copy_out.
  by rewrite (proj2 (Z.leb_le 0 off)), (proj2 (Z.leb_le _ (Z.of_nat (length buf)))).
Qed.

Lemma new_char_ok fresh n :
  0 <= n -> exists buf, new_char fresh n = Ok buf /\ Z.of_nat (length buf) = n.
Proof.
  intros Hn. unfold new_char. rewrite (proj2 (Z.ltb_ge n 0)) by done.
  eexists. split; [reflexivity|]. rewrite length_map, length_seqZ. lia.
Qed.

(** ** Reading *)

Lemma read_sectors_spec s h first num buf :
  Disk.wf s -> FileHdr.wf h -> 0 <= first -> 0 <= num -> first + num <= numSectors h ->
  Z.of_nat (length buf) = num * SectorSize ->
  exists buf' s', read_sectors h first num buf s = Ok (buf', s') /\ Disk.wf s' /\
    unixfile (dev s') = unixfile (dev s) /\ length buf' = length buf /\
    forall j, (j < length buf)%nat -> buf' !! j = raw s h !! (Z.to_nat (first * SectorSize) + j)%nat.
Proof.
  intros Hs Hh Hf Hn Hm Hb. unfold read_sectors. unfold SectorSize in *.
  match goal with |- context [for_range ?n first ?body _] =>
    destruct (for_range_inv (fun i st => Disk.wf (snd st) /\
       unixfile (dev (snd st)) = unixfile (dev s) /\ length (fst st) = length buf /\
       forall j, Z.of_nat j < (i - first) * 128 ->
         fst st !! j = raw s h !! (Z.to_nat (first * 128) + j)%nat)
      n first body (buf, s)) as ([buf' s'] & E & Hwf' & Hf' & Hl' & Hj') end.
  - repeat split; try done; [apply Hs..|]. intros j Hj. lia.
  - intros i [b s1] Hi (Hwf1 & Hu1 & Hl1 & Hj1). cbn [fst snd] in *.
    destruct (ByteToSector_block h i Hh) as (k & Ek & Hk & Hok); [lia|].
    unfold SectorSize in Ek. rewrite Ek. cbn [rbind].
    destruct (ReadSector_spec s1 k Hwf1 Hok) as (s2 & -> & Hwf2 & Hu2). cbn [rbind].
    pose proof (length_sector s1 k Hwf1 Hok) as Hls. change (Z.to_nat SectorSize) with 128%nat in Hls.
    destruct (copy_in_ok b ((i - first) * 128) (sector s1 k)) as [-> Hl2]; [lia|lia|].
    cbn [rbind]. eexists. split; [reflexivity|]. cbn [fst snd].
    split; [done|]. split; [by rewrite Hu2|]. split; [lia|]. intros j Hj.
    destruct (decide (Z.of_nat j < (i - first) * 128)).
    + rewrite lookup_memcpy_out by lia. by apply Hj1.
    + rewrite lookup_memcpy_in by lia. rewrite <- (raw_same s s1 h Hu1).
      rewrite <- (lookup_raw s1 h (Z.to_nat i) k) by (done || lia). f_equal. lia.
  - exists buf', s'. split; [done|]. repeat (split; [done|]). intros j Hj. apply Hj'. lia.
Qed.

(** Which sectors a request covers. *)
Lemma request_sectors h position n :
  FileHdr.wf h -> 0 <= position -> 0 < n -> position + n <= numBytes h ->
  let first := divRoundDown position SectorSize in
  let last := divRoundDown (s32 (position + n - 1)) SectorSize in
  first = position / 128 /\ last = (position + n - 1) / 128 /\ last < numSectors h.
Proof.
  intros Hh Hp Hn Hl. pose proof (numBytes_raw h Hh) as Hr. destruct Hh as (Hb & _).
  unfold MaxFileSize, divRoundDown, SectorSize in *. change NumDirect with 30 in Hb. cbv zeta.
  rewrite s32_id by zlia. rewrite !Z.quot_div_nonneg by lia. zlia.
Qed.

Lemma ReadAt_spec fresh n position s h :
  Disk.wf s -> FileHdr.wf h -> 0 <= position -> position + n < 2 ^ 31 ->
  exists s', ReadAt fresh n position h s =
      Ok (slice (Z.to_nat position) (Z.to_nat n) (file_bytes s h), s') /\
    Disk.wf s' /\ unixfile (dev s') = unixfile (dev s).
Proof.
  intros Hs Hh Hp Hov. pose proof (length_file_bytes s h Hs Hh) as Hlen.
  unfold ReadAt, FileLength.
  destruct (Z.leb_spec n 0), (Z.leb_spec (numBytes h) position); cbn [orb];
    try (exists s; split; [|done]; unfold slice; repeat f_equal; symmetry;
         rewrite ?drop_ge by lia; apply length_zero_iff_nil; rewrite length_take;
         cbn [length]; lia).
  rewrite (s32_id (position + n)) by zlia.
  set (m := if numBytes h <? position + n then numBytes h - position else n).
  assert (0 < m /\ position + m <= numBytes h /\ (m = n \/ position + m = numBytes h /\ m <= n)) as (Hm & Hm' & Hmn)
    by (unfold m; destruct (Z.ltb_spec (numBytes h) (position + n)); lia).
  destruct (request_sectors h position m Hh Hp Hm Hm') as (-> & -> & Hlast).
  destruct (new_char_ok fresh ((1 + (position + m - 1) / 128 - position / 128) * SectorSize))
    as (buf & -> & Hbuf); [unfold SectorSize; zlia|]. cbn [rbind].
  destruct (read_sectors_spec s h (position / 128) (1 + (position + m - 1) / 128 - position / 128) buf)
    as (buf' & s' & -> & Hwf' & Hu' & Hl' & Hj'); try done; [zlia..|]. cbn [rbind].
  unfold SectorSize in *.
  rewrite copy_out_ok by zlia. cbn [rbind]. exists s'. split; [|done]. do 2 f_equal.
  apply list_eq_same_length with (Z.to_nat m).
  - unfold slice. rewrite length_take, length_drop. lia.
  - rewrite length_slice by zlia. done.
  - intros j x y Hj. rewrite !lookup_slice by lia. rewrite Hj' by zlia.
    rewrite lookup_file_bytes by lia.
    replace (Z.to_nat (position / 128 * 128) + (Z.to_nat (position - position / 128 * 128) + j))%nat
      with (Z.to_nat position + j)%nat by zlia. congruence.
Qed.

(** ** Writing *)

(** The disk after the sectors [first] to [i - 1] of the file have been
    replaced by the blocks of [buf]. *)
Definition written (s : synchdisk) (h : FileHeader) (first : Z) (buf : list Z) (i : Z)
    (s' : synchdisk) : Prop :=
  Disk.wf s' /\
  (forall j, sector_ok j -> j ∉ sectors_of h -> sector s' j = sector s j) /\
  (forall k b, sectors_of h !! k = Some b ->
     sector s' b =
       if decide (first <= Z.of_nat k < i) then slice (Z.to_nat ((Z.of_nat k - first) * 128)) 128 buf
       else sector s b).

Lemma write_step s h first buf i s1 :
  FileHdr.wf h -> 0 <= first <= i -> i < numSectors h ->
  (i + 1 - first) * 128 <= Z.of_nat (length buf) -> Forall is_u8 buf ->
  written s h first buf i s1 ->
  exists s2,
    (let* sector := ByteToSector (i * SectorSize) h in
     let* data := copy_out buf ((i - first) * SectorSize) SectorSize in
     WriteSector sector data s1) = Ok s2 /\ written s h first buf (i + 1) s2.
Proof.
  intros Hh Hf Hi Hb Hu (Hwf & Hframe & Hsec).
  destruct (ByteToSector_block h i Hh) as (k & -> & Hk & Hok); [lia|]. cbn [rbind].
  unfold SectorSize. rewrite copy_out_ok by lia. cbn [rbind].
  change (Z.to_nat 128) with 128%nat.
  set (data := slice (Z.to_nat ((i - first) * 128)) 128 buf).
  assert (length data = 128%nat) as Hd by (apply length_slice; lia).
  destruct (WriteSector_spec s1 k data) as (s2 & -> & Hwf2 & Hsame & Hother);
    [done|done|rewrite Hd; done|by apply slice_u8|].
  change (Z.to_nat SectorSize) with 128%nat in Hsame. rewrite take_ge in Hsame by lia.
  exists s2. split; [done|]. destruct Hh as (_ & _ & _ & _ & Hnd & Hall).
  split; [done|]. split.
  - intros j Hj Hn. rewrite Hother; [by apply Hframe|done|].
    intros ->. apply Hn. by eapply list_elem_of_lookup_2.
  - intros k' b Hb'. destruct (decide (b = k)) as [->|Hne].
    + assert (k' = Z.to_nat i) as -> by (eapply NoDup_lookup; done).
      rewrite decide_True by lia. rewrite Hsame. unfold data. by rewrite Z2Nat.id by lia.
    + rewrite Hother, (Hsec k' b Hb'); [| |done].
      * assert (Z.of_nat k' <> i) by (intros <-; rewrite Nat2Z.id in Hk; congruence).
        destruct (decide (first <= Z.of_nat k' < i)), (decide (first <= Z.of_nat k' < i + 1));
          (done || lia).
      * by eapply Forall_lookup_1 in Hall.
Qed.

Lemma write_sectors_spec s h first num buf :
  Disk.wf s -> FileHdr.wf h -> 0 <= first -> 0 <= num -> first + num <= numSectors h ->
  Z.of_nat (length buf) = num * 128 -> Forall is_u8 buf ->
  exists s', write_sectors h first num buf s = Ok s' /\ Disk.wf s' /\
    raw s' h = memcpy (raw s h) (Z.to_nat (first * 128)) buf /\
    (forall j, sector_ok j -> j ∉ sectors_of h -> sector s' j = sector s j).
Proof.
  intros Hs Hh Hf Hn Hm Hb Hu. unfold write_sectors.
  match goal with |- context [for_range ?n first ?body _] =>
    destruct (for_range_inv (written s h first buf) n first body s) as (s' & E & Hw) end.
  - split; [done|]. split; [done|]. intros k b _. by rewrite decide_False by lia.
  - intros i s1 Hi Hw. apply write_step; try done; lia.
  - exists s'. split; [done|]. destruct Hw as (Hwf' & Hframe & Hsec).
    split; [done|]. split; [|done].
    pose proof (length_raw s h Hs Hh) as Hl. pose proof (length_raw s' h Hwf' Hh) as Hl'.
    unfold SectorSize in *.
    apply list_eq_same_length with (length (raw s h)); [apply length_memcpy; lia|lia|].
    intros j x y Hj Hx Hy.
    destruct (lookup_lt_is_Some_2 (sectors_of h) (j / 128)) as [b Hb'].
    { pose proof (length_sectors_of h Hh). apply Nat.Div0.div_lt_upper_bound. lia. }
    assert (j = 128 * (j / 128) + j mod 128)%nat as Ej by (apply Nat.div_mod_eq).
    assert (j mod 128 < 128)%nat as Hr by (by apply Nat.mod_upper_bound).
    rewrite Ej, (lookup_raw s' h _ b), (Hsec _ b Hb') in Hx by done.
    destruct (decide _) as [Hd|Hd] in Hx.
    + rewrite lookup_slice in Hx by done. rewrite lookup_memcpy_in in Hy by lia.
      rewrite Ej in Hy.
      replace (128 * (j / 128) + j mod 128 - Z.to_nat (first * 128))%nat
        with (Z.to_nat ((Z.of_nat (j / 128) - first) * 128) + j mod 128)%nat in Hy by lia.
      congruence.
    + rewrite lookup_memcpy_out in Hy by lia.
      rewrite Ej, (lookup_raw s h _ b) in Hy by done. congruence.
Qed.

(** Reading the old contents of a sector that is written in part. *)
Lemma read_partial_spec fresh cond off p h s buf :
  Disk.wf s -> FileHdr.wf h -> 0 <= off -> 0 <= p -> p + 128 < 2 ^ 31 ->
  off + 128 <= Z.of_nat (length buf) -> Forall is_u8 buf ->
  exists buf' s', read_partial fresh cond off p h (buf, s) = Ok (buf', s') /\
    Disk.wf s' /\ unixfile (dev s') = unixfile (dev s) /\
    length buf' = length buf /\ Forall is_u8 buf' /\
    (forall j, cond = true -> off <= Z.of_nat j < off + 128 -> p + (Z.of_nat j - off) < numBytes h ->
       buf' !! j = file_bytes s h !! Z.to_nat (p + (Z.of_nat j - off))) /\
    (forall j, cond = false \/ Z.of_nat j < off \/ off + 128 <= Z.of_nat j -> buf' !! j = buf !! j).
Proof.
  intros Hs Hh Ho Hp Hp' Hb Hu. unfold read_partial.
  destruct cond; [|exists buf, s; repeat split; try done; apply Hs].
  destruct (ReadAt_spec fresh SectorSize p s h) as (s' & -> & Hwf' & Hu'); [done..|]. cbn [rbind].
  change (Z.to_nat SectorSize) with 128%nat.
  pose proof (length_file_bytes s h Hs Hh) as Hlen.
  set (data := slice (Z.to_nat p) 128 (file_bytes s h)).
  assert (length data = Nat.min 128 (length (file_bytes s h) - Z.to_nat p)) as Hd
    by (unfold data, slice; by rewrite length_take, length_drop).
  destruct (copy_in_ok buf off data) as [-> Hl]; [lia|lia|]. cbn [rbind].
  exists (memcpy buf (Z.to_nat off) data), s'. do 3 (split; [done|]). split; [done|]. split; [|split].
  - apply memcpy_u8; [done|]. apply slice_u8, Forall_take. unfold raw.
    apply Forall_concat, Forall_map, Forall_true. intros x. by apply sector_u8.
  - intros j _ Hj Hn. rewrite lookup_memcpy_in by lia. unfold data.
    rewrite lookup_slice by lia. f_equal. lia.
  - intros j Hj. apply lookup_memcpy_out; [lia|]. destruct Hj as [|Hj]; [done|]. lia.
Qed.

(** The buffer before the new bytes are copied in: where it will not be
    overwritten and the file has bytes, it holds those of the file. *)
Lemma write_buffer fresh position m h s buf :
  Disk.wf s -> FileHdr.wf h -> 0 <= position -> 0 < m -> position + m <= numBytes h ->
  let first := position / 128 in
  let last := (position + m - 1) / 128 in
  Z.of_nat (length buf) = (1 + last - first) * 128 -> Forall is_u8 buf ->
  exists buf' s',
    (let* st1 := read_partial fresh (negb (position =? first * 128)) 0 (first * 128) h (buf, s) in
     read_partial fresh
        (negb (position + m =? (last + 1) * 128) && (negb (first =? last) || (position =? first * 128)))
        ((last - first) * 128) (last * 128) h st1) = Ok (buf', s') /\
    Disk.wf s' /\ unixfile (dev s') = unixfile (dev s) /\ length buf' = length buf /\
    Forall is_u8 buf' /\
    forall j, (j < length buf)%nat -> first * 128 + Z.of_nat j < numBytes h ->
      (first * 128 + Z.of_nat j < position \/ position + m <= first * 128 + Z.of_nat j) ->
      buf' !! j = file_bytes s h !! Z.to_nat (first * 128 + Z.of_nat j).
Proof.
  intros Hs Hh Hp Hm Hle first last Hb Hu.
  assert (0 <= first /\ first * 128 <= position < first * 128 + 128 /\ first <= last /\
    last * 128 < position + m <= last * 128 + 128) as (Hf0 & Hf & Hfl & Hla)
    by (subst first last; clear Hb; zlia).
  assert (numBytes h <= 3840) as Hmax by apply Hh.
  clearbody first last.
  destruct (read_partial_spec fresh (negb (position =? first * 128)) 0 (first * 128) h s buf)
    as (b1 & s1 & -> & Hs1 & Hu1 & Hl1 & Hb1 & Hin1 & Hout1); try done; [lia..|]. cbn [rbind].
  destruct (read_partial_spec fresh
        (negb (position + m =? (last + 1) * 128) && (negb (first =? last) || (position =? first * 128)))
        ((last - first) * 128) (last * 128) h s1 b1)
    as (b2 & s2 & -> & Hs2 & Hu2 & Hl2 & Hb2 & Hin2 & Hout2); try done; [lia..|].
  exists b2, s2. split; [done|]. split; [done|]. split; [congruence|]. split; [lia|]. split; [done|].
  assert (file_bytes s1 h = file_bytes s h) as Efb
    by (unfold file_bytes; by rewrite (raw_same s s1 h Hu1)).
  rewrite Efb in Hin2. intros j Hj Hn Hside.
  destruct (Z.eqb_spec position (first * 128)), (Z.eqb_spec (position + m) ((last + 1) * 128)),
    (Z.eqb_spec first last); cbn [negb andb orb] in *; try lia;
  (* the byte lies in the sector read last, or only in the one read first *)
  destruct (decide ((last - first) * 128 <= Z.of_nat j));
    first [ rewrite Hin2 by lia; f_equal; lia
          | rewrite Hout2 by lia; rewrite Hin1 by lia; f_equal; lia
          | rewrite Hout2 by (left; done); rewrite Hin1 by lia; f_equal; lia
          | lia ].
Qed.

Lemma file_u8 s h : Disk.wf s -> Forall is_u8 (file_bytes s h).
Proof.
  intros Hs. apply Forall_take, Forall_concat, Forall_map, Forall_true.
  intros x. by apply sector_u8.
Qed.

(** The file after a write, from the sectors after it. *)
Lemma file_bytes_written s s' h first position data buf :
  Disk.wf s -> Disk.wf s' -> FileHdr.wf h -> 0 <= first * 128 <= position ->
  first * 128 + Z.of_nat (length buf) <= 128 * numSectors h ->
  position + Z.of_nat (length data) <= numBytes h ->
  position - first * 128 + Z.of_nat (length data) <= Z.of_nat (length buf) ->
  (forall j, (j < length buf)%nat -> first * 128 + Z.of_nat j < numBytes h ->
     first * 128 + Z.of_nat j < position \/ position + Z.of_nat (length data) <= first * 128 + Z.of_nat j ->
     buf !! j = file_bytes s h !! Z.to_nat (first * 128 + Z.of_nat j)) ->
  raw s' h = memcpy (raw s h) (Z.to_nat (first * 128))
    (memcpy buf (Z.to_nat (position - first * 128)) data) ->
  file_bytes s' h = memcpy (file_bytes s h) (Z.to_nat position) data.
Proof.
  intros Hs Hs' Hh Hf Hb Hp Hbuf Hold Hraw.
  pose proof (length_file_bytes s h Hs Hh) as Hl. pose proof (length_file_bytes s' h Hs' Hh) as Hl'.
  pose proof (length_raw s h Hs Hh) as Hr. unfold SectorSize in Hr.
  assert (length (memcpy buf (Z.to_nat (position - first * 128)) data) = length buf) as Hlb
    by (apply length_memcpy; lia).
  apply list_eq. intros j. destruct (decide (Z.of_nat j < numBytes h)) as [Hj|Hj].
  2: { rewrite !lookup_ge_None_2; [done|rewrite length_memcpy; lia|lia]. }
  rewrite lookup_file_bytes, Hraw by done.
  destruct (decide (first * 128 <= Z.of_nat j < first * 128 + Z.of_nat (length buf))) as [Hin|Hout].
  2: { rewrite !lookup_memcpy_out by lia. by rewrite lookup_file_bytes. }
  rewrite lookup_memcpy_in by lia.
  destruct (decide (position <= Z.of_nat j < position + Z.of_nat (length data))) as [Hd|Hd].
  - rewrite !lookup_memcpy_in by lia. f_equal. lia.
  - rewrite !lookup_memcpy_out by lia. rewrite Hold by lia. f_equal. lia.
Qed.

Lemma WriteAt_spec fresh from n position s h :
  Disk.wf s -> FileHdr.wf h -> (forall i, is_u8 (fresh i)) -> Forall is_u8 from ->
  0 <= position -> position + n < 2 ^ 31 ->
  let w := Z.max 0 (Z.min n (numBytes h - position)) in
  w <= Z.of_nat (length from) ->
  exists s', WriteAt fresh from n position h s = Ok (w, s') /\ Disk.wf s' /\
    file_bytes s' h = memcpy (file_bytes s h) (Z.to_nat position) (take (Z.to_nat w) from) /\
    forall j, sector_ok j -> j ∉ sectors_of h -> sector s' j = sector s j.
Proof.
  intros Hs Hh Hfresh Hu8 Hp Hov w Hw. pose proof (length_file_bytes s h Hs Hh) as Hlen.
  unfold WriteAt, FileLength.
  destruct ((n <=? 0) || (numBytes h <=? position)) eqn:Ereq.
  { assert (w = 0) as ->.
    { apply orb_true_iff in Ereq as [E|E]; apply Z.leb_le in E; unfold w; lia. }
    exists s. cbn [Z.to_nat]. rewrite take_0, memcpy_nil. done. }
  apply orb_false_iff in Ereq as [En Ep]. apply Z.leb_gt in En, Ep.
  rewrite (s32_id (position + n)) by zlia.
  replace (if numBytes h <? position + n then numBytes h - position else n) with w
    by (unfold w; destruct (Z.ltb_spec (numBytes h) (position + n)); lia).
  assert (0 < w /\ position + w <= numBytes h /\ w <= n) as (Hw0 & Hwle & Hwn) by lia. clearbody w.
  destruct (request_sectors h position w Hh Hp Hw0 Hwle) as (-> & -> & Hlast).
  unfold SectorSize in *.
  destruct (new_char_ok fresh ((1 + (position + w - 1) / 128 - position / 128) * 128))
    as (buf & Ebuf & Hbuf); [zlia|].
  assert (Forall is_u8 buf) as Hbu8.
  { unfold new_char in Ebuf. destruct (_ <? 0); [done|]. injection Ebuf as <-.
    apply Forall_map, Forall_true. intros x. apply Hfresh. }
  rewrite Ebuf. cbn [rbind]. rewrite s32_id by zlia.
  destruct (write_buffer fresh position w h s buf) as (b2 & s2 & E2 & Hs2 & Hu2 & Hl2 & Hbu2 & Hold);
    [done..|].
  apply bind_Ok_inv in E2 as (st1 & -> & E2). cbn [rbind]. rewrite E2. cbn [rbind].
  rewrite read_bytes_Ok by lia. cbn [rbind].
  assert (length (take (Z.to_nat w) from) = Z.to_nat w) as Hd by (rewrite length_take; lia).
  destruct (copy_in_ok b2 (position - position / 128 * 128) (take (Z.to_nat w) from))
    as [-> Hl3]; [zlia|zlia|]. cbn [rbind].
  destruct (write_sectors_spec s2 h (position / 128) (1 + (position + w - 1) / 128 - position / 128)
    (memcpy b2 (Z.to_nat (position - position / 128 * 128)) (take (Z.to_nat w) from)))
    as (s3 & -> & Hs3 & Hraw & Hframe); try done; [zlia..| |].
  { apply memcpy_u8; [done|]. by apply Forall_take. }
  cbn [rbind]. exists s3. split; [done|]. split; [done|]. split.
  - rewrite (raw_same s s2 h Hu2) in Hraw.
    apply (file_bytes_written s s3 h (position / 128) position _ b2); try done; rewrite ?Hd, ?Hl2;
      [zlia..|]. rewrite Z2Nat.id by lia. exact Hold.
  - intros j Hj Hn. rewrite Hframe by done. unfold sector. by rewrite Hu2.
Qed.

(** Files without a sector in common do not affect each other. *)
Lemma file_bytes_frame s s' h :
  FileHdr.wf h -> (forall j, j ∈ sectors_of h -> sector s' j = sector s j) ->
  file_bytes s' h = file_bytes s h.
Proof.
  intros _ Hsame. unfold file_bytes, raw. do 2 f_equal. apply map_ext_in.
  intros j Hj. apply Hsame. by apply list_elem_of_In.
Qed.

(** Reading and writing a whole file. *)
Lemma ReadAt_all fresh n s h :
  Disk.wf s -> FileHdr.wf h -> numBytes h = n ->
  exists s', ReadAt fresh n 0 h s = Ok (file_bytes s h, s') /\
    Disk.wf s' /\ unixfile (dev s') = unixfile (dev s).
Proof.
  intros Hs Hh Hn. pose proof Hh as (Hb & _). pose proof (length_file_bytes s h Hs Hh) as Hl.
  unfold MaxFileSize in Hb. change (NumDirect * SectorSize) with 3840 in Hb.
  destruct (ReadAt_spec fresh n 0 s h) as (s' & -> & Hs' & Hu); [done|done|lia|lia|].
  exists s'. rewrite slice_all by lia. done.
Qed.

Lemma WriteAt_all fresh from n s h :
  Disk.wf s -> FileHdr.wf h -> (forall i, is_u8 (fresh i)) -> Forall is_u8 from ->
  numBytes h = n -> Z.of_nat (length from) = n ->
  exists s', WriteAt fresh from n 0 h s = Ok (n, s') /\ Disk.wf s' /\ file_bytes s' h = from /\
    forall j, sector_ok j -> j ∉ sectors_of h -> sector s' j = sector s j.
Proof.
  intros Hs Hh Hfresh Hu8 Hn Hl. pose proof Hh as (Hb & _).
  pose proof (length_file_bytes s h Hs Hh) as Hlen.
  unfold MaxFileSize in Hb. change (NumDirect * SectorSize) with 3840 in Hb.
  destruct (WriteAt_spec fresh from n 0 s h) as (s' & E & Hs' & Hf & Hframe);
    [done..|lia|lia|lia|]. replace (Z.max 0 (Z.min n (numBytes h - 0))) with n in * by lia.
  exists s'. split; [done|]. split; [done|]. split; [|done].
  rewrite Hf, take_ge by lia. apply memcpy_full. lia.
Qed.

(** C29: Writing to an open file returns, writes as many bytes as fit before the
    end of the file, and replaces exactly those bytes of the file: the bytes
    around them that share a sector with them, and every file that shares no
    sector with this one, are unchanged.  A read at any position then returns
    the bytes of the file there, cut at its end, and changes nothing. *)
Theorem file_write_read fresh from n position s h :
  Disk.wf s -> FileHdr.wf h -> (forall i, is_u8 (fresh i)) -> Forall is_u8 from ->
  0 <= position -> position + n < 2 ^ 31 ->
  let w := Z.max 0 (Z.min n (numBytes h - position)) in
  w <= Z.of_nat (length from) ->
  exists s', WriteAt fresh from n position h s = Ok (w, s') /\ Disk.wf s' /\
    file_bytes s' h = memcpy (file_bytes s h) (Z.to_nat position) (take (Z.to_nat w) from) /\
    (forall h2, FileHdr.wf h2 -> (forall j, j ∈ sectors_of h2 -> j ∉ sectors_of h) ->
       file_bytes s' h2 = file_bytes s h2) /\
    (forall k p, 0 <= p -> p + k < 2 ^ 31 ->
       exists s'', ReadAt fresh k p h s' =
           Ok (slice (Z.to_nat p) (Z.to_nat k) (file_bytes s' h), s'') /\
         unixfile (dev s'') = unixfile (dev s')).
Proof.
  intros Hs Hh Hfresh Hu8 Hp Hov w Hw.
  destruct (WriteAt_spec fresh from n position s h) as (s' & E & Hs' & Hfb & Hframe); [done..|].
  exists s'. split; [done|]. split; [done|]. split; [done|]. split.
  - intros h2 Hh2 Hdis. apply file_bytes_frame; [done|]. intros j Hj. apply Hframe; [|by apply Hdis].
    destruct Hh2 as (_ & _ & _ & _ & _ & Hall). rewrite Forall_forall in Hall. by apply Hall.
  - intros k p Hp0 Hpk. destruct (ReadAt_spec fresh k p s' h Hs' Hh Hp0 Hpk) as (s'' & E' & _ & Hu).
    by exists s''.
Qed.

(** A file of 300 bytes in the sectors 9, 5 and 7. *)
Definition sample_hdr : FileHeader := mkFileHeader 300 3 ([9; 5; 7] ++ replicate 27 0).

Lemma sample_hdr_wf : FileHdr.wf sample_hdr.
Proof.
  split; [done|]. split; [done|]. split; [done|]. split.
  - apply Forall_app. split; [|by apply Forall_replicate].
    by repeat (apply Forall_cons; split; [done|]).
  - change (sectors_of sample_hdr) with [9; 5; 7]. split; [by apply (bool_decide_unpack _)|].
    by repeat (apply Forall_cons; split; [done|]).
Qed.

(** Twenty bytes across the border of the first two sectors. *)
Lemma file_write_read_witness :
  exists s s' s'', SynchDisk None (mkDiskKernel 0 0 0 []) = Ok s /\
    WriteAt (fun _ => 170) (replicate 20 65) 20 120 sample_hdr s = Ok (20, s') /\
    ReadAt (fun _ => 85) 4 138 sample_hdr s' = Ok ([65; 65; 0; 0], s'').
Proof.
  destruct (Disk_fresh (mkDiskKernel 0 0 0 []) eq_refl) as (s & E & Hwf & Hzero).
  destruct (file_write_read (fun _ => 170) (replicate 20 65) 20 120 s sample_hdr)
    as (s' & E' & Hwf' & Hfb & _ & _);
    [done|exact sample_hdr_wf|done|by apply Forall_replicate|done..|].
  destruct (ReadAt_spec (fun _ => 85) 4 138 s' sample_hdr Hwf' sample_hdr_wf) as (s'' & E'' & _);
    [done..|].
  exists s, s', s''. split; [done|]. split; [exact E'|]. rewrite E'', Hfb. do 2 f_equal.
  unfold file_bytes, raw. change (sectors_of sample_hdr) with [9; 5; 7]. cbn [map].
  rewrite !Hzero by done. reflexivity.
Defined.

(** Successive reads of an open file continue each other: after [Seek],
    reading [n1] and then [n2] bytes returns the bytes of the file from that
    position on, as one read of [n1 + n2] would, and leaves the position after
    the last byte returned. *)
Theorem sequential_reads fresh n1 n2 position f s :
  Disk.wf s -> FileHdr.wf (hdr f) -> 0 <= n1 -> 0 <= n2 ->
  0 <= position -> position + n1 + n2 < 2 ^ 31 ->
  exists out1 f1 s1 out2 f2 s2,
    Read fresh n1 (Seek position f) s = Ok (out1, f1, s1) /\
    Read fresh n2 f1 s1 = Ok (out2, f2, s2) /\
    out1 ++ out2 = slice (Z.to_nat position) (Z.to_nat (n1 + n2)) (file_bytes s (hdr f)) /\
    seekPosition f2 = position + Z.of_nat (length (out1 ++ out2)).
Proof.
  intros Hs Hh Hn1 Hn2 Hp Hov. set (fb := file_bytes s (hdr f)).
  destruct (ReadAt_spec fresh n1 position s (hdr f)) as (s1 & E1 & Hs1 & Hu1); [done|done|done|lia|].
  fold fb in E1. set (out1 := slice (Z.to_nat position) (Z.to_nat n1) fb) in *.
  assert (length out1 = Nat.min (Z.to_nat n1) (length fb - Z.to_nat position)) as Hl1
    by (unfold out1, slice; by rewrite length_take, length_drop).
  set (p2 := position + Z.of_nat (length out1)).
  destruct (ReadAt_spec fresh n2 p2 s1 (hdr f)) as (s2 & E2 & Hs2 & Hu2); [done|done|lia|lia|].
  unfold file_bytes in E2. rewrite (raw_same s s1 _ Hu1) in E2. fold (file_bytes s (hdr f)) in E2.
  fold fb in E2. set (out2 := slice (Z.to_nat p2) (Z.to_nat n2) fb) in *.
  assert (length out2 = Nat.min (Z.to_nat n2) (length fb - Z.to_nat p2)) as Hl2
    by (unfold out2, slice; by rewrite length_take, length_drop).
  do 3 eexists. exists out2, (mkOpenFile (hdr f) (s32 (p2 + Z.of_nat (length out2)))), s2.
  split; [unfold Read; cbn [Seek seekPosition hdr]; rewrite E1; reflexivity|]. split; [|split].
  - unfold Read. cbn [seekPosition hdr]. fold p2. rewrite (s32_id p2) by zlia. by rewrite E2.
  - unfold out1, out2, slice, p2. rewrite Z2Nat.inj_add by lia. rewrite Nat2Z.id.
    rewrite <- drop_drop. rewrite (Z2Nat.inj_add n1 n2) by lia. rewrite Hl1.
    set (l := drop (Z.to_nat position) fb).
    assert (length l = length fb - Z.to_nat position)%nat as <- by apply length_drop.
    destruct (decide (Z.to_nat n1 <= length l)%nat).
    + rewrite Nat.min_l by done. by rewrite take_take_drop.
    + rewrite Nat.min_r by lia. rewrite !take_ge by lia. rewrite drop_ge, take_nil, app_nil_r by lia.
      by rewrite take_ge by lia.
  - cbn [seekPosition]. rewrite length_app. rewrite s32_id; [unfold p2; lia|]. unfold p2 in *. zlia.
Qed.

Lemma sequential_reads_witness :
  exists s out1 f1 s1 out2 f2 s2, SynchDisk None (mkDiskKernel 0 0 0 []) = Ok s /\
    Read (fun _ => 170) 100 (Seek 190 (mkOpenFile sample_hdr 0)) s = Ok (out1, f1, s1) /\
    Read (fun _ => 170) 100 f1 s1 = Ok (out2, f2, s2) /\ seekPosition f2 = 300.
Proof.
  destruct (Disk_fresh (mkDiskKernel 0 0 0 []) eq_refl) as (s & E & Hwf & _).
  destruct (sequential_reads (fun _ => 170) 100 100 190 (mkOpenFile sample_hdr 0) s)
    as (out1 & f1 & s1 & out2 & f2 & s2 & E1 & E2 & Hout & Hpos);
    [done|exact sample_hdr_wf|done..|].
  exists s, out1, f1, s1, out2, f2, s2. split; [done|]. split; [done|]. split; [done|].
  rewrite Hpos, Hout. pose proof (length_file_bytes s sample_hdr Hwf sample_hdr_wf) as Hl.
  cbn [numBytes sample_hdr] in Hl. cbn [hdr]. unfold slice. rewrite length_take, length_drop. lia.
Defined.

End OpenFile.
