(* ===== verification/Directory.v ===== *)
(** * Directories (filesys/directory.h, filesys/directory.cc)

    A directory is a table of entries of 20 bytes, kept in a file.  Names are
    compared and stored up to their ninth character: the abstract directory is
    a finite map from such names to the sectors of file headers. *)

From S2P Require Import Prelude Ints CString Bitmap Disk FileHdr OpenFile.

Module Directory.

Definition FileNameMaxLen : nat := 9.

(** [DirectoryEntry]: the fields, and the padding the compiler leaves after
    [inUse] and after [name], which is written to disk with them. *)
Record DirectoryEntry := mkEntry {
  inUse : bool;
  pad1 : list Z;
  sector : Z;
  name : list Z;
  pad2 : list Z
}.

(** [Directory] *)
Record Directory := mkDirectory {
  tableSize : Z;
  table : list DirectoryEntry
}.

(** ** String functions *)

(** [strncmp(a, b, n)] *)
Fixpoint strncmp (n : nat) (a b : list Z) : res Z :=
  match n with
  | O => Ok 0
  | S n' =>
      match a, b with
      | x :: a', y :: b' =>
          if x =? y then if x =? 0 then Ok 0 else strncmp n' a' b' else Ok (x - y)
      | _, _ => Err OutOfBounds
      end
  end.

(** The [n] bytes that [strncpy(dst, src, n)] stores: the characters of [src],
    filled up with zeros. *)
Fixpoint strncpy_bytes (n : nat) (src : list Z) : res (list Z) :=
  match n with
  | O => Ok []
  | S n' =>
      match src with
      | c :: src' =>
          if c =? 0 then Ok (replicate n 0)
          else let* bs := strncpy_bytes n' src' in Ok (c :: bs)
      | [] => Err OutOfBounds
      end
  end.

(** ** Operations *)

(** The constructor: the entries are as the heap leaves them, marked unused. *)
Definition Directory_init (garbage : list DirectoryEntry) (size : Z) : res Directory :=
  let* t :=
    for_range (Z.to_nat size) 0
      (fun i t =>
         let* e := arr_get t i in
         arr_set t i (mkEntry false (pad1 e) (sector e) (name e) (pad2 e)))
      (take (Z.to_nat size) garbage) in
  Ok (mkDirectory size t).

Definition FindIndex (nm : list Z) (d : Directory) : res Z :=
  let* r := for_break (Z.to_nat (tableSize d)) 0
    (fun i (_ : unit) =>
       let* e := arr_get (table d) i in
       if inUse e then
         let* c := strncmp FileNameMaxLen (name e) nm in
         Ok (if c =? 0 then inr i else inl tt)
       else Ok (inl tt)) tt in
  Ok (match r with inr i => i | inl _ => -1 end).

Definition Find (nm : list Z) (d : Directory) : res Z :=
  let* i := FindIndex nm d in
  if negb (i =? -1) then let* e := arr_get (table d) i in Ok (sector e)
  else Ok (-1).

Definition Add (nm : list Z) (newSector : Z) (d : Directory) : res (bool * Directory) :=
  let* i := FindIndex nm d in
  if negb (i =? -1) then Ok (false, d)
  else
    let* r := for_break (Z.to_nat (tableSize d)) 0
      (fun i (_ : unit) =>
         let* e := arr_get (table d) i in
         if negb (inUse e) then
           let* bs := strncpy_bytes FileNameMaxLen nm in
           let* t := arr_set (table d) i
             (mkEntry true (pad1 e) newSector (memcpy (name e) 0 bs) (pad2 e)) in
           Ok (inr (mkDirectory (tableSize d) t))
         else Ok (inl tt)) tt in
    Ok (match r with inr d' => (true, d') | inl _ => (false, d) end).

Definition Remove (nm : list Z) (d : Directory) : res (bool * Directory) :=
  let* i := FindIndex nm d in
  if i =? -1 then Ok (false, d)
  else
    let* e := arr_get (table d) i in
    let* t := arr_set (table d) i (mkEntry false (pad1 e) (sector e) (name e) (pad2 e)) in
    Ok (true, mkDirectory (tableSize d) t).

(** [List]: the names it prints.  A name that fills its ten bytes is read past
    its end. *)
Definition List (d : Directory) : res (list (list Z)) :=
  for_range (Z.to_nat (tableSize d)) 0
    (fun i out =>
       let* e := arr_get (table d) i in
       if inUse e then let* s := c_str (name e) in Ok (out ++ [s]) else Ok out) [].

(** ** The directory on disk *)

Definition entry_bytes (e : DirectoryEntry) : list Z :=
  (if inUse e then 1 else 0) :: pad1 e ++ le_bytes 4 (sector e) ++ name e ++ pad2 e.

Definition entry_cast (bs : list Z) : DirectoryEntry :=
  {| inUse := negb (le_value (slice 0 1 bs) =? 0); pad1 := slice 1 3 bs;
     sector := FileHdr.int_at bs 4; name := slice 8 10 bs; pad2 := slice 18 2 bs |}.

Definition entry_size : nat := 20.

Definition dir_bytes (d : Directory) : list Z := concat (map entry_bytes (table d)).

(** [FetchFrom]: the bytes read replace the beginning of the table. *)
Definition FetchFrom (fresh : Z -> Z) (f : OpenFile.OpenFile) (d : Directory) (s : Disk.synchdisk)
  : res (Directory * Disk.synchdisk) :=
  let* r := OpenFile.ReadAt fresh (tableSize d * Z.of_nat entry_size) 0 (OpenFile.hdr f) s in
  let '(bs, s') := r in
  let* bytes := OpenFile.copy_in (dir_bytes d) 0 bs in
  Ok (mkDirectory (tableSize d)
        (map (fun i => entry_cast (slice (entry_size * i) entry_size bytes))
             (seq 0 (Z.to_nat (tableSize d)))), s').

Definition WriteBack (fresh : Z -> Z) (f : OpenFile.OpenFile) (d : Directory) (s : Disk.synchdisk)
  : res Disk.synchdisk :=
  let* r := OpenFile.WriteAt fresh (dir_bytes d) (tableSize d * Z.of_nat entry_size) 0
              (OpenFile.hdr f) s in
  Ok (snd r).

(** ** The abstract directory *)

(** The characters of a name that count: up to a zero, at most [n]. *)
Fixpoint key (n : nat) (s : list Z) : list Z :=
  match n, s with
  | S n', c :: s' => if c =? 0 then [] else c :: key n' s'
  | _, _ => []
  end.

(** A buffer holds a name if it has nine characters or a zero before. *)
Fixpoint holds_name (n : nat) (s : list Z) : bool :=
  match n, s with
  | O, _ => true
  | S n', c :: s' => (c =? 0) || holds_name n' s'
  | S _, [] => false
  end.

Definition entry_view (e : DirectoryEntry) : option (list Z * Z) :=
  if inUse e then Some (key FileNameMaxLen (name e), sector e) else None.

Definition entries (d : Directory) : list (list Z * Z) := omap entry_view (table d).

(** The abstract directory. *)
Definition dmap (d : Directory) : gmap (list Z) Z := list_to_map (entries d).

Definition entry_ok (e : DirectoryEntry) : Prop :=
  length (name e) = 10%nat /\ length (pad1 e) = 3%nat /\ length (pad2 e) = 2%nat /\
  Forall is_u8 (name e) /\ Forall is_u8 (pad1 e) /\ Forall is_u8 (pad2 e) /\ is_s32 (sector e).

Definition wf (d : Directory) : Prop :=
  Z.of_nat (length (table d)) = tableSize d /\ Forall entry_ok (table d) /\
  NoDup (entries d).*1.

(** ** Names *)

Lemma strncmp_key n a b :
  holds_name n a = true -> holds_name n b = true ->
  exists c, strncmp n a b = Ok c /\ (c = 0 <-> key n a = key n b).
Proof.
  revert a b. induction n as [|n IH]; intros a b Ha Hb; cbn [strncmp key]; [by exists 0|].
  destruct a as [|x a], b as [|y b]; cbn [holds_name] in Ha, Hb; try done.
  destruct (Z.eqb_spec x y) as [->|Hne].
  - destruct (Z.eqb_spec y 0) as [->|Hy]; [by exists 0|].
    destruct (IH a b Ha Hb) as (c & -> & Hc). exists c. split; [done|]. rewrite Hc.
    split; congruence.
  - exists (x - y). split; [done|]. split; [lia|]. intros E.
    destruct (Z.eqb_spec x 0), (Z.eqb_spec y 0); try done; lia || congruence.
Qed.

Lemma holds_name_long n s : (n <= length s)%nat -> holds_name n s = true.
Proof.
  revert s. induction n as [|n IH]; intros s H; [done|]. destruct s as [|c s]; cbn in *; [lia|].
  rewrite IH by lia. by rewrite orb_true_r.
Qed.

Lemma strncpy_key n src :
  holds_name n src = true ->
  exists bs, strncpy_bytes n src = Ok bs /\ length bs = n /\
    (forall rest, key n (bs ++ rest) = key n src) /\ (Forall is_u8 src -> Forall is_u8 bs).
Proof.
  revert src. induction n as [|n IH]; intros src H; [by exists []|].
  destruct src as [|c src]; [done|]. cbn [strncpy_bytes]. cbn [holds_name] in H.
  destruct (Z.eqb_spec c 0) as [->|Hc].
  - exists (replicate (S n) 0). split; [done|]. split; [apply length_replicate|]. split; [done|].
    intros _. by apply Forall_replicate.
  - destruct (IH src H) as (bs & -> & Hl & Hk & Hu). exists (c :: bs). split; [done|].
    split; [cbn; lia|]. split.
    + intros rest. cbn [app key]. by rewrite (proj2 (Z.eqb_neq c 0)), Hk.
    + intros Hs. apply Forall_cons in Hs as [Hc8 Hs]. by constructor; [|apply Hu].
Qed.

(** ** Searching *)

Definition matches (nm : list Z) (e : DirectoryEntry) : Prop :=
  inUse e = true /\ key FileNameMaxLen (name e) = key FileNameMaxLen nm.

#[global] Instance matches_dec nm e : Decision (matches nm e).
Proof. unfold matches. apply _. Defined.

Lemma wf_get d i : wf d -> 0 <= i < tableSize d ->
  exists e, arr_get (table d) i = Ok e /\ table d !! Z.to_nat i = Some e /\ entry_ok e.
Proof.
  intros (Hl & Hok & _) Hi. destruct (arr_get_in_range (table d) i) as [e He]; [lia|].
  exists e. split; [done|]. apply arr_get_Ok in He as [_ He]. split; [done|].
  by eapply Forall_lookup_1.
Qed.

(** [FindIndex] finds the entry of the name, if there is one. *)
Lemma FindIndex_spec d nm : wf d -> holds_name FileNameMaxLen nm = true ->
  (exists i e, FindIndex nm d = Ok i /\ 0 <= i < tableSize d /\ arr_get (table d) i = Ok e /\
     table d !! Z.to_nat i = Some e /\ matches nm e) \/
  (FindIndex nm d = Ok (-1) /\ forall e, e ∈ table d -> ~ matches nm e).
Proof.
  intros Hwf Hnm. unfold FindIndex.
  rewrite (for_break_first (fun i => match table d !! Z.to_nat i with
    | Some e => if decide (matches nm e) then Some i else None | None => None end)).
  2: { intros i Hi. destruct (wf_get d i Hwf ltac:(lia)) as (e & -> & -> & Hok). cbn [rbind].
    destruct (inUse e) eqn:Eu; [|by rewrite decide_False by (intros [? _]; congruence)].
    destruct (strncmp_key FileNameMaxLen (name e) nm) as (c & -> & Hc); [|done|].
    { apply holds_name_long. unfold FileNameMaxLen. destruct Hok. lia. }
    cbn [rbind]. destruct (Z.eqb_spec c 0) as [E|E].
    - by rewrite decide_True by (split; [done|by apply Hc]).
    - rewrite decide_False; [done|]. intros [_ Hk]. by apply E, Hc. }
  destruct (first_in _ _ _) as [i|] eqn:E; cbn [rbind].
  - left. apply first_in_Some in E as (j & Hj & Hp & _).
    destruct (wf_get d j Hwf ltac:(lia)) as (e & He & He' & _). rewrite He' in Hp.
    case_decide; [|done]. injection Hp as <-. exists j, e. split; [done|]. split; [lia|]. done.
  - right. split; [done|]. rewrite first_in_None in E. intros e He Hm.
    apply list_elem_of_lookup_1 in He as [i Hi]. apply lookup_lt_Some in Hi as Hlt.
    destruct Hwf as (Hl & _). specialize (E (Z.of_nat i) ltac:(lia)).
    rewrite Nat2Z.id, Hi, decide_True in E by done. done.
Qed.

(** ** The table and the map *)

Lemma entries_split t i e e' : t !! i = Some e ->
  omap entry_view t = omap entry_view (take i t) ++
    option_list (entry_view e) ++ omap entry_view (drop (S i) t) /\
  omap entry_view (<[i := e']> t) = omap entry_view (take i t) ++
    option_list (entry_view e') ++ omap entry_view (drop (S i) t).
Proof.
  intros Hi. split.
  - rewrite <- (take_drop_middle t i e Hi) at 1. rewrite omap_app. f_equal.
    cbn. by destruct (entry_view e).
  - rewrite insert_take_drop by (by eapply lookup_lt_Some). rewrite omap_app. f_equal.
    cbn. by destruct (entry_view e').
Qed.

Lemma dmap_Some d k v : wf d ->
  dmap d !! k = Some v <-> exists e, e ∈ table d /\ inUse e = true /\
    key FileNameMaxLen (name e) = k /\ sector e = v.
Proof.
  intros (_ & _ & Hnd). unfold dmap. rewrite <- elem_of_list_to_map by done.
  unfold entries. rewrite list_elem_of_omap. split.
  - intros (e & He & Hv). unfold entry_view in Hv. destruct (inUse e) eqn:E; [|done].
    injection Hv as <- <-. by exists e.
  - intros (e & He & Hu & <- & <-). exists e. split; [done|]. unfold entry_view. by rewrite Hu.
Qed.

Lemma dmap_matches d nm e : wf d -> e ∈ table d -> matches nm e ->
  dmap d !! key FileNameMaxLen nm = Some (sector e).
Proof. intros Hwf He [Hu Hk]. apply dmap_Some; [done|]. by exists e. Qed.

Lemma dmap_no_match d nm : wf d -> (forall e, e ∈ table d -> ~ matches nm e) ->
  dmap d !! key FileNameMaxLen nm = None.
Proof.
  intros Hwf Hno. destruct (dmap d !! _) as [v|] eqn:E; [|done]. exfalso.
  apply dmap_Some in E as (e & He & Hu & Hk & _); [|done]. by apply (Hno e He).
Qed.

(** Filling a free entry adds a binding. *)
Lemma fill_entry d i e k v e' :
  wf d -> table d !! i = Some e -> inUse e = false -> entry_view e' = Some (k, v) ->
  entry_ok e' -> dmap d !! k = None ->
  let d' := mkDirectory (tableSize d) (<[i := e']> (table d)) in
  wf d' /\ dmap d' = <[k := v]> (dmap d).
Proof.
  intros Hwf Hi Hu Hv' Hok' Hk. destruct (entries_split _ i e e' Hi) as [E E'].
  assert (entry_view e = None) as Hn by (unfold entry_view; by rewrite Hu).
  rewrite Hn in E. rewrite Hv' in E'. cbn [option_list] in E, E'.
  intros d'.
  assert (entries d' ≡ₚ (k, v) :: entries d) as Hp.
  { unfold entries, d'. cbn [table]. rewrite E', E. symmetry. apply Permutation_middle. }
  assert (NoDup (entries d').*1) as Hnd.
  { rewrite Hp. cbn. apply NoDup_cons. split; [|apply Hwf]. intros Hin.
    by apply not_elem_of_list_to_map_2 in Hk. }
  split.
  - destruct Hwf as (Hl & Hok & _). split; [cbn; by rewrite length_insert|].
    split; [|done]. by apply Forall_insert.
  - unfold dmap. rewrite (list_to_map_proper _ _ Hnd Hp). done.
Qed.

(** Freeing an entry removes its binding. *)
Lemma free_entry d i e k v e' :
  wf d -> table d !! i = Some e -> entry_view e = Some (k, v) -> inUse e' = false -> entry_ok e' ->
  let d' := mkDirectory (tableSize d) (<[i := e']> (table d)) in
  wf d' /\ dmap d' = delete k (dmap d).
Proof.
  intros Hwf Hi Hv Hu' Hok'. destruct (entries_split _ i e e' Hi) as [E E'].
  assert (entry_view e' = None) as Hn by (unfold entry_view; by rewrite Hu').
  rewrite Hn in E'. rewrite Hv in E. cbn [option_list] in E, E'.
  intros d'.
  assert (entries d ≡ₚ (k, v) :: entries d') as Hp.
  { unfold entries, d'. cbn [table]. rewrite E', E. symmetry. apply Permutation_middle. }
  destruct Hwf as (Hl & Hok & Hnd). pose proof Hnd as Hnd'. rewrite Hp in Hnd'. cbn in Hnd'.
  apply NoDup_cons in Hnd' as [Hk Hnd'].
  split.
  - split; [cbn; by rewrite length_insert|]. split; [by apply Forall_insert|done].
  - unfold dmap. rewrite (list_to_map_proper _ _ Hnd Hp). cbn.
    rewrite delete_insert_eq. symmetry. apply delete_id. by apply not_elem_of_list_to_map_1.
Qed.

(** ** The operations *)

Lemma Find_spec d nm : wf d -> holds_name FileNameMaxLen nm = true ->
  Find nm d = Ok (default (-1) (dmap d !! key FileNameMaxLen nm)).
Proof.
  intros Hwf Hnm. unfold Find.
  destruct (FindIndex_spec d nm Hwf Hnm) as [(i & e & -> & Hi & Hg & Hl & Hm)|[-> Hno]]; cbn [rbind].
  - rewrite (proj2 (Z.eqb_neq i (-1))) by lia. cbn [negb]. rewrite Hg. cbn [rbind].
    apply list_elem_of_lookup_2 in Hl. by rewrite (dmap_matches d nm e).
  - rewrite dmap_no_match by done. done.
Qed.

Lemma dmap_size d : wf d -> Z.of_nat (size (dmap d)) = Z.of_nat (length (entries d)).
Proof.
  intros (_ & _ & Hnd). unfold dmap. rewrite map_size_list_to_map by done. done.
Qed.

Lemma dmap_size_le d : wf d -> Z.of_nat (size (dmap d)) <= tableSize d.
Proof.
  intros Hwf. rewrite dmap_size by done. destruct Hwf as (<- & _). unfold entries.
  induction (table d) as [|e t IH]; [done|]. cbn. destruct (entry_view e); cbn; lia.
Qed.

Lemma entries_full t : length (omap entry_view t) = length t <-> Forall (fun e => inUse e = true) t.
Proof.
  induction t as [|e t IH]; [done|]. rewrite Forall_cons, <- IH. cbn.
  assert (length (omap entry_view t) <= length t)%nat.
  { clear IH. induction t as [|e' t IH]; cbn; [done|]. destruct (entry_view e'); cbn; lia. }
  unfold entry_view at 1. destruct (inUse e); cbn; split; intros Hx; try naive_solver lia.
Qed.

(** The search for a free entry: [g] is what the loop does with it. *)
Definition free_at {R} (d : Directory) (g : Z -> DirectoryEntry -> R) (i : Z) : option R :=
  match table d !! Z.to_nat i with
  | Some e => if inUse e then None else Some (g i e)
  | None => None
  end.

Lemma free_search {R} d (g : Z -> DirectoryEntry -> R) : wf d ->
  (exists i e, 0 <= i < tableSize d /\ table d !! Z.to_nat i = Some e /\ inUse e = false /\
     first_in (Z.to_nat (tableSize d)) 0 (free_at d g) = Some (g i e)) \/
  (first_in (Z.to_nat (tableSize d)) 0 (free_at d g) = None /\
   Z.of_nat (size (dmap d)) = tableSize d).
Proof.
  intros Hwf. destruct (first_in _ _ _) as [r|] eqn:E.
  - left. apply first_in_Some in E as (j & Hj & Hp & _). unfold free_at in Hp.
    destruct (wf_get d j Hwf ltac:(lia)) as (e & He & He' & Hok). rewrite He' in Hp.
    destruct (inUse e) eqn:Eu; [done|]. injection Hp as <-. exists j, e. split; [lia|]. done.
  - right. split; [done|]. rewrite dmap_size by done. rewrite first_in_None in E.
    unfold entries. rewrite (proj2 (entries_full _)); [apply Hwf|].
    apply Forall_lookup. intros i e Hi. apply lookup_lt_Some in Hi as Hlt.
    destruct Hwf as (Hl & _). specialize (E (Z.of_nat i) ltac:(lia)). unfold free_at in E.
    rewrite Nat2Z.id, Hi in E. by destruct (inUse e).
Qed.

Lemma size_full d i e : wf d -> Z.of_nat (size (dmap d)) = tableSize d ->
  table d !! i = Some e -> inUse e = true.
Proof.
  intros Hwf Hs Hi. rewrite dmap_size in Hs by done. destruct Hwf as (Hl & _).
  assert (length (entries d) = length (table d)) as Hf by lia.
  apply entries_full in Hf. rewrite Forall_lookup in Hf. by apply (Hf i e).
Qed.

Lemma Add_spec d nm v : wf d -> holds_name FileNameMaxLen nm = true ->
  Forall is_u8 nm -> is_s32 v ->
  let k := key FileNameMaxLen nm in
  (is_Some (dmap d !! k) \/ Z.of_nat (size (dmap d)) = tableSize d -> Add nm v d = Ok (false, d)) /\
  (dmap d !! k = None -> Z.of_nat (size (dmap d)) < tableSize d ->
     exists d', Add nm v d = Ok (true, d') /\ wf d' /\ tableSize d' = tableSize d /\
       dmap d' = <[k := v]> (dmap d)).
Proof.
  intros Hwf Hnm Hu8 H32 k. unfold Add.
  destruct (FindIndex_spec d nm Hwf Hnm) as [(i & e & -> & Hi & Hg & Hl & Hm)|[-> Hno]]; cbn [rbind].
  { rewrite (proj2 (Z.eqb_neq i (-1))) by lia. cbn [negb]. split; [done|].
    apply list_elem_of_lookup_2 in Hl. unfold k. by rewrite (dmap_matches d nm e). }
  pose proof (dmap_no_match d nm Hwf Hno) as Hk. fold k in Hk.
  change (negb (-1 =? -1)) with false. cbn [negb].
  destruct (strncpy_key FileNameMaxLen nm Hnm) as (bs & Ebs & Hlbs & Hkey & Hbu8). specialize (Hbu8 Hu8).
  set (g := fun i e => mkDirectory (tableSize d)
    (<[Z.to_nat i := mkEntry true (pad1 e) v (memcpy (name e) 0 bs) (pad2 e)]> (table d))).
  rewrite (for_break_first (free_at d g)).
  2: { intros i Hi. unfold free_at. destruct (wf_get d i Hwf ltac:(lia)) as (e & -> & -> & Hok).
    cbn [rbind]. destruct (inUse e); [done|]. cbn [negb]. rewrite Ebs. cbn [rbind].
    rewrite arr_set_in_range by (destruct Hwf as (-> & _); lia). done. }
  cbn [rbind]. destruct (free_search d g Hwf) as [(i & e & Hi & Hl & Hu & ->)|[-> Hfull]].
  - split.
    + intros [[x Hx]|Hs]; [congruence|]. pose proof (size_full d _ e Hwf Hs Hl). congruence.
    + intros _ _. exists (g i e). split; [done|].
      assert (entry_ok e) as (Hln & Hp1 & Hp2 & Hn8 & Hp18 & Hp28 & _) by (destruct Hwf as (_ & Hok & _); by eapply Forall_lookup_1).
      destruct (fill_entry d (Z.to_nat i) e k v
        (mkEntry true (pad1 e) v (memcpy (name e) 0 bs) (pad2 e))) as [Hwf' Hd']; try done.
      * unfold entry_view. cbn [inUse name sector]. rewrite memcpy_prefix, Hkey. done.
      * split; [cbn [name]; rewrite length_memcpy; [done|]; rewrite Hlbs; unfold FileNameMaxLen; lia|].
        repeat (split; [done|]). split; [|done]. by apply memcpy_u8.
  - split; [done|]. lia.
Qed.

Lemma Remove_spec d nm : wf d -> holds_name FileNameMaxLen nm = true ->
  let k := key FileNameMaxLen nm in
  (dmap d !! k = None -> Remove nm d = Ok (false, d)) /\
  (is_Some (dmap d !! k) ->
     exists d', Remove nm d = Ok (true, d') /\ wf d' /\ tableSize d' = tableSize d /\
       dmap d' = delete k (dmap d)).
Proof.
  intros Hwf Hnm k. unfold Remove.
  destruct (FindIndex_spec d nm Hwf Hnm) as [(i & e & -> & Hi & Hg & Hl & Hm)|[-> Hno]]; cbn [rbind].
  - rewrite (proj2 (Z.eqb_neq i (-1))) by lia. apply list_elem_of_lookup_2 in Hl as Hin.
    pose proof (dmap_matches d nm e Hwf Hin Hm) as Hk. fold k in Hk.
    split; [congruence|]. intros _. rewrite Hg. cbn [rbind].
    rewrite arr_set_in_range by (destruct Hwf as (-> & _); lia). cbn [rbind].
    eexists. split; [reflexivity|].
    assert (entry_ok e) as Hok by (destruct Hwf as (_ & Hok & _); by eapply Forall_lookup_1).
    destruct Hm as [Hu Hkey].
    edestruct (free_entry d (Z.to_nat i) e k (sector e)) as [Hwf' Hd']; [done|done| | | |].
    + unfold entry_view. rewrite Hu, Hkey. done.
    + instantiate (1 := mkEntry false (pad1 e) (sector e) (name e) (pad2 e)). done.
    + done.
    + done.
  - pose proof (dmap_no_match d nm Hwf Hno) as Hk. fold k in Hk.
    split; [done|]. intros [x Hx]. congruence.
Qed.

(** A fresh directory is empty. *)
Lemma init_spec garbage n :
  0 <= n <= Z.of_nat (length garbage) -> Forall entry_ok garbage ->
  exists d, Directory_init garbage n = Ok d /\ wf d /\ tableSize d = n /\ dmap d = ∅.
Proof.
  intros Hn Hg. unfold Directory_init.
  match goal with |- context [for_range ?m 0 ?body ?t0] =>
    destruct (for_range_inv (fun i t => Z.of_nat (length t) = n /\ Forall entry_ok t /\
      Forall (fun e => inUse e = false) (take (Z.to_nat i) t)) m 0 body t0)
      as (t & E & Hl & Hok & Hu) end.
  - split; [rewrite length_take; lia|]. split; [by apply Forall_take|]. constructor.
  - intros i t Hi (Hl & Hok & Hu). destruct (arr_get_in_range t i) as [e He]; [lia|].
    rewrite He. cbn [rbind]. apply arr_get_Ok in He as [_ He].
    assert (entry_ok e) as Hoke by (by eapply Forall_lookup_1).
    rewrite arr_set_in_range by lia. eexists. split; [reflexivity|].
    split; [by rewrite length_insert|]. split; [by apply Forall_insert|].
    replace (Z.to_nat (i + 1)) with (S (Z.to_nat i)) by lia.
    erewrite take_S_r by (apply list_lookup_insert_eq; lia). rewrite take_insert_ge by lia.
    apply Forall_app. split; [done|]. by constructor.
  - rewrite E. cbn [rbind]. eexists. split; [reflexivity|].
    rewrite take_ge in Hu by lia.
    assert (omap entry_view t = []) as Ho.
    { clear -Hu. induction Hu as [|e t He Hu IH]; [done|]. cbn. unfold entry_view at 1. by rewrite He. }
    unfold wf, dmap, entries. cbn [table tableSize]. rewrite Ho.
    split; [|done]. split; [done|]. split; [done|]. constructor.
Qed.

(** ** The directory as a file *)

Lemma length_entry_bytes e : entry_ok e -> length (entry_bytes e) = entry_size.
Proof.
  intros (Hn & Hp1 & Hp2 & _). unfold entry_bytes. cbn [length].
  rewrite !length_app, length_le_bytes, Hn, Hp1, Hp2. done.
Qed.

Lemma entry_bytes_u8 e : entry_ok e -> Forall is_u8 (entry_bytes e).
Proof.
  intros (_ & _ & _ & Hn & Hp1 & Hp2 & _). constructor; [by destruct (inUse e)|].
  rewrite !Forall_app. auto with nachos.
Qed.

Lemma entry_roundtrip e : entry_ok e -> entry_cast (entry_bytes e) = e.
Proof.
  intros (Hn & Hp1 & Hp2 & _ & _ & _ & H32). destruct e as [u p1 v nm p2]. cbn in *.
  unfold entry_cast, entry_bytes, FileHdr.int_at. cbn [inUse pad1 sector name pad2].
  set (x := if u then 1 else 0). change (x :: p1 ++ ?r) with ([x] ++ p1 ++ r).
  f_equal; slice_fields; [|done|by apply FileHdr.s32_le_bytes|done..].
  rewrite le_value_1. by destruct u.
Qed.

Lemma dir_blocks d : wf d -> Forall (fun l => length l = entry_size) (map entry_bytes (table d)).
Proof.
  intros (_ & Hok & _). apply Forall_map. eapply Forall_impl; [exact Hok|]. apply length_entry_bytes.
Qed.

Lemma length_dir_bytes d : wf d -> Z.of_nat (length (dir_bytes d)) = tableSize d * 20.
Proof.
  intros Hwf. unfold dir_bytes. rewrite (length_concat_uniform _ _ (dir_blocks d Hwf)), length_map.
  destruct Hwf as (Hl & _). unfold entry_size. lia.
Qed.

Lemma dir_bytes_u8 d : wf d -> Forall is_u8 (dir_bytes d).
Proof.
  intros (_ & Hok & _). apply Forall_concat, Forall_map. eapply Forall_impl; [exact Hok|].
  apply entry_bytes_u8.
Qed.

(** The file of a directory [d] is read back as [d]. *)
Lemma FetchFrom_spec fresh f d0 d s :
  Disk.wf s -> FileHdr.wf (OpenFile.hdr f) -> wf d0 -> wf d -> tableSize d0 = tableSize d ->
  OpenFile.file_bytes s (OpenFile.hdr f) = dir_bytes d ->
  FileHdr.numBytes (OpenFile.hdr f) = tableSize d * 20 ->
  exists s', FetchFrom fresh f d0 s = Ok (d, s') /\ Disk.wf s' /\
    Disk.unixfile (Disk.dev s') = Disk.unixfile (Disk.dev s).
Proof.
  intros Hs Hh Hwf0 Hwf Ht Hf Hn. unfold FetchFrom. rewrite Ht.
  destruct (OpenFile.ReadAt_all fresh (tableSize d * Z.of_nat entry_size) s (OpenFile.hdr f))
    as (s' & -> & Hs' & Hu); [done|done|done|]. cbn [rbind]. rewrite Hf.
  pose proof (length_dir_bytes d Hwf) as Hl. pose proof (length_dir_bytes d0 Hwf0) as Hl0.
  destruct (OpenFile.copy_in_ok (dir_bytes d0) 0 (dir_bytes d)) as [-> _]; [lia|lia|]. cbn [rbind].
  rewrite memcpy_full by lia. exists s'. split; [|done]. do 2 f_equal.
  pose proof (dir_blocks d Hwf) as Hb. destruct Hwf as (Hlt & Hok & _).
  destruct d as [n t]. cbn [tableSize table] in *. f_equal.
  rewrite <- (map_map (fun i => slice (entry_size * i) entry_size (dir_bytes (mkDirectory n t))) entry_cast).
  unfold dir_bytes. cbn [table].
  replace (Z.to_nat n) with (length (map entry_bytes t)) by (rewrite length_map; lia).
  rewrite slices_concat by done. rewrite map_map. clear -Hok.
  induction Hok as [|e t He Hok IH]; [done|]. cbn [map]. by rewrite entry_roundtrip, IH.
Qed.

Lemma WriteBack_spec fresh f d s :
  Disk.wf s -> FileHdr.wf (OpenFile.hdr f) -> wf d -> (forall i, is_u8 (fresh i)) ->
  FileHdr.numBytes (OpenFile.hdr f) = tableSize d * 20 ->
  exists s', WriteBack fresh f d s = Ok s' /\ Disk.wf s' /\
    OpenFile.file_bytes s' (OpenFile.hdr f) = dir_bytes d /\
    forall j, Disk.sector_ok j -> j ∉ FileHdr.sectors_of (OpenFile.hdr f) ->
      Disk.sector s' j = Disk.sector s j.
Proof.
  intros Hs Hh Hwf Hfresh Hn. unfold WriteBack. pose proof (length_dir_bytes d Hwf) as Hl.
  destruct (OpenFile.WriteAt_all fresh (dir_bytes d) (tableSize d * Z.of_nat entry_size) s
    (OpenFile.hdr f)) as (s' & -> & Hs' & Hf & Hframe); [done..|by apply dir_bytes_u8|done|done|].
  by exists s'.
Qed.

(** ** Listing *)

Lemma c_str_key n s : (length (key n s) < n)%nat -> holds_name n s = true -> c_str s = Ok (key n s).
Proof.
  revert s. induction n as [|n IH]; intros s Hl Hs; [cbn in Hl; lia|]. destruct s as [|c s]; [done|].
  cbn [key holds_name c_str] in *. destruct (Z.eqb_spec c 0) as [->|Hc]; [done|].
  cbn in Hl. rewrite IH by (done || lia). done.
Qed.

(** Names of at most eight characters are listed in the order of the table. *)
Lemma List_spec d : wf d -> Forall (fun k => (length k < FileNameMaxLen)%nat) (entries d).*1 ->
  List d = Ok (entries d).*1.
Proof.
  intros Hwf Hk. unfold List.
  destruct (for_range_inv (fun i out => out = (omap entry_view (take (Z.to_nat i) (table d))).*1)
    (Z.to_nat (tableSize d)) 0
    (fun i out =>
       let* e := arr_get (table d) i in
       if inUse e then let* s := c_str (name e) in Ok (out ++ [s]) else Ok out) []) as (out & -> & ->).
  - done.
  - intros i out Hi ->. destruct (wf_get d i Hwf) as (e & -> & He & Hok); [lia|]. cbn [rbind].
    replace (Z.to_nat (i + 1)) with (S (Z.to_nat i)) by lia. rewrite (take_S_r _ _ e He), omap_app, fmap_app.
    assert (entry_view e = if inUse e then Some (key FileNameMaxLen (name e), sector e) else None) as Hv by done.
    cbn [omap list_omap]. rewrite Hv. destruct (inUse e) eqn:Hu.
    + rewrite (c_str_key FileNameMaxLen); [by eexists| |].
      * rewrite Forall_forall in Hk. apply Hk, list_elem_of_fmap. exists (key FileNameMaxLen (name e), sector e).
        split; [done|]. apply list_elem_of_omap. exists e. split; [by eapply list_elem_of_lookup_2|done].
      * apply holds_name_long. destruct Hok as (-> & _). unfold FileNameMaxLen. lia.
    + eexists. split; [done|]. by rewrite app_nil_r.
  - f_equal. unfold entries. destruct Hwf as (Hl & _). rewrite take_ge by lia. done.
Qed.

(** The directory table implements a finite map from names, of which the
    first nine characters count, to header sectors: [Find] is lookup, -1
    standing for no binding; [Add] refuses a name that is bound and a full
    table, without a change, and inserts otherwise; [Remove] deletes a bound
    name and refuses another; all of them keep the table well formed. *)
Theorem directory_refines_map d nm v :
  wf d -> holds_name FileNameMaxLen nm = true -> Forall is_u8 nm -> is_s32 v ->
  let k := key FileNameMaxLen nm in
  Find nm d = Ok (default (-1) (dmap d !! k)) /\
  (is_Some (dmap d !! k) \/ Z.of_nat (size (dmap d)) = tableSize d -> Add nm v d = Ok (false, d)) /\
  (dmap d !! k = None -> Z.of_nat (size (dmap d)) < tableSize d ->
     exists d', Add nm v d = Ok (true, d') /\ wf d' /\ tableSize d' = tableSize d /\
       dmap d' = <[k := v]> (dmap d)) /\
  (dmap d !! k = None -> Remove nm d = Ok (false, d)) /\
  (is_Some (dmap d !! k) ->
     exists d', Remove nm d = Ok (true, d') /\ wf d' /\ tableSize d' = tableSize d /\
       dmap d' = delete k (dmap d)).
Proof.
  intros Hwf Hnm Hu8 H32 k. split; [by apply Find_spec|].
  destruct (Add_spec d nm v Hwf Hnm Hu8 H32) as [HA1 HA2]. destruct (Remove_spec d nm Hwf Hnm) as [HR1 HR2].
  done.
Qed.

Definition sample_entry : DirectoryEntry :=
  mkEntry true [0; 0; 0] 3 (replicate 10 97) [0; 0].

(** In a table with one entry of two, a name of one letter is added. *)
Lemma directory_refines_map_witness :
  let d := mkDirectory 2 [sample_entry; mkEntry false [1; 2; 3] 0 (replicate 10 7) [4; 5]] in
  exists d', Add [98; 0] 8 d = Ok (true, d') /\ dmap d' = <[[98] := 8]> (dmap d) /\
    List d' = Err OutOfBounds.
Proof.
  intros d. destruct (directory_refines_map d [98; 0] 8) as (_ & _ & HA & _).
  - split; [done|]. split; [by repeat constructor|]. vm_compute. apply NoDup_singleton.
  - done.
  - by repeat constructor.
  - done.
  - destruct HA as (d' & E & _ & _ & Hd'); [by vm_compute|by vm_compute|].
    exists d'. split; [exact E|]. split; [exact Hd'|]. vm_compute in E. injection E as <-.
    reflexivity.
Defined.

End Directory.
