(* ===== verification/PBitmap.v ===== *)
(** * Bitmaps stored in a file

    filesys/pbitmap.cc: [PersistentBitmap], a [Bitmap] with operations that read
    it from and write it to a Nachos file.  [fresh] gives the bytes of
    uninitialised memory. *)

From S2P Require Import Prelude Ints Bitmap Disk FileHdr OpenFile.

Module PBitmap.

Import Bitmap.

(** The array [map] as bytes, and bytes as an array of words. *)
Definition map_bytes (b : bitmap) : list Z := concat (map (le_bytes 4) (words b)).

Definition map_cast (n : nat) (bs : list Z) : list Z :=
  map (fun i => le_value (slice (4 * i) 4 bs)) (seq 0 n).

(** Uninitialised words. *)
Definition fresh_words (fresh : Z -> Z) (n : Z) : list Z :=
  map_cast (Z.to_nat n) (map fresh (seqZ 0 (4 * n))).

Definition FetchFrom (fresh : Z -> Z) (f : OpenFile.OpenFile) (b : bitmap) (s : Disk.synchdisk)
  : res (bitmap * Disk.synchdisk) :=
  let* r := OpenFile.ReadAt fresh (numWords b * 4) 0 (OpenFile.hdr f) s in
  let '(bs, s') := r in
  let* bytes := OpenFile.copy_in (map_bytes b) 0 bs in
  Ok (mkBitmap (numBits b) (numWords b) (map_cast (length (words b)) bytes), s').

(** [PersistentBitmap(numItems)] *)
Definition PersistentBitmap (fresh : Z -> Z) (numItems : Z) : res bitmap :=
  Bitmap (fresh_words fresh (divRoundUp numItems BitsInWord)) numItems.

(** [PersistentBitmap(file, numItems)] *)
Definition PersistentBitmap_from (fresh : Z -> Z) (f : OpenFile.OpenFile) (numItems : Z)
    (s : Disk.synchdisk) : res (bitmap * Disk.synchdisk) :=
  let* b := PersistentBitmap fresh numItems in
  FetchFrom fresh f b s.

Definition WriteBack (fresh : Z -> Z) (f : OpenFile.OpenFile) (b : bitmap) (s : Disk.synchdisk)
  : res Disk.synchdisk :=
  let* r := OpenFile.WriteAt fresh (map_bytes b) (numWords b * 4) 0 (OpenFile.hdr f) s in
  Ok (snd r).

(** ** The bitmap as a file *)

Lemma map_blocks b : Forall (fun l => length l = 4%nat) (map (le_bytes 4) (words b)).
Proof. apply Forall_map, Forall_true. intros x. apply length_le_bytes. Qed.

Lemma length_map_bytes b : wf b -> Z.of_nat (length (map_bytes b)) = numWords b * 4.
Proof.
  intros (_ & _ & Hl & _). unfold map_bytes.
  rewrite (length_concat_uniform _ _ (map_blocks b)), length_map. lia.
Qed.

Lemma map_bytes_u8 b : Forall is_u8 (map_bytes b).
Proof. apply Forall_concat, Forall_map, Forall_true. auto with nachos. Qed.

Lemma map_roundtrip b : wf b -> map_cast (length (words b)) (map_bytes b) = words b.
Proof.
  intros (_ & _ & _ & Hu). unfold map_cast.
  rewrite <- (map_map (fun i => slice (4 * i) 4 (map_bytes b)) le_value).
  replace (length (words b)) with (length (map (le_bytes 4) (words b))) by apply length_map.
  unfold map_bytes. rewrite slices_concat by apply map_blocks. rewrite map_map.
  induction Hu as [|w ws Hw Hu IH]; [done|]. cbn [map]. rewrite IH. f_equal.
  rewrite le_value_bytes. apply Z.mod_small. exact Hw.
Qed.

Lemma length_fresh_words fresh n : 0 <= n -> Z.of_nat (length (fresh_words fresh n)) = n.
Proof. intros Hn. unfold fresh_words, map_cast. rewrite length_map, length_seq. lia. Qed.

Lemma PersistentBitmap_spec fresh n : 0 < n ->
  exists b, PersistentBitmap fresh n = Ok b /\ wf b /\ numBits b = n /\
    bits b = replicate (Z.to_nat n) false.
Proof.
  intros Hn. apply Bitmap_fresh; [done|]. pose proof (divRoundUp_spec n 32).
  rewrite length_fresh_words by (change BitsInWord with 32; lia). done.
Qed.

(** The file of a bitmap [b] is read back as [b]. *)
Lemma from_spec fresh f b s :
  Disk.wf s -> FileHdr.wf (OpenFile.hdr f) -> wf b ->
  OpenFile.file_bytes s (OpenFile.hdr f) = map_bytes b ->
  FileHdr.numBytes (OpenFile.hdr f) = numWords b * 4 ->
  exists s', PersistentBitmap_from fresh f (numBits b) s = Ok (b, s') /\ Disk.wf s' /\
    Disk.unixfile (Disk.dev s') = Disk.unixfile (Disk.dev s).
Proof.
  intros Hs Hh Hwf Hf Hn. unfold PersistentBitmap_from.
  destruct (PersistentBitmap_spec fresh (numBits b)) as (b0 & -> & Hwf0 & Hb0 & _); [apply Hwf|].
  cbn [rbind]. unfold FetchFrom.
  assert (numWords b0 = numWords b) as Hw.
  { destruct Hwf as (_ & -> & _), Hwf0 as (_ & -> & _). by rewrite Hb0. }
  rewrite Hw, Hb0.
  destruct (OpenFile.ReadAt_all fresh (numWords b * 4) s (OpenFile.hdr f))
    as (s' & -> & Hs' & Hu); [done|done|done|]. cbn [rbind]. rewrite Hf.
  pose proof (length_map_bytes b Hwf) as Hl. pose proof (length_map_bytes b0 Hwf0) as Hl0.
  destruct (OpenFile.copy_in_ok (map_bytes b0) 0 (map_bytes b)) as [-> _]; [lia|lia|]. cbn [rbind].
  rewrite memcpy_full by lia. exists s'. split; [|done].
  replace (length (words b0)) with (length (words b))
    by (destruct Hwf as (_ & _ & ? & _), Hwf0 as (_ & _ & ? & _); lia).
  rewrite map_roundtrip by done. by destruct b.
Qed.

Lemma pbitmap_WriteBack_spec fresh f b s :
  Disk.wf s -> FileHdr.wf (OpenFile.hdr f) -> wf b -> (forall i, is_u8 (fresh i)) ->
  FileHdr.numBytes (OpenFile.hdr f) = numWords b * 4 ->
  exists s', WriteBack fresh f b s = Ok s' /\ Disk.wf s' /\
    OpenFile.file_bytes s' (OpenFile.hdr f) = map_bytes b /\
    forall j, Disk.sector_ok j -> j ∉ FileHdr.sectors_of (OpenFile.hdr f) ->
      Disk.sector s' j = Disk.sector s j.
Proof.
  intros Hs Hh Hwf Hfresh Hn. unfold WriteBack. pose proof (length_map_bytes b Hwf) as Hl.
  destruct (OpenFile.WriteAt_all fresh (map_bytes b) (numWords b * 4) s (OpenFile.hdr f))
    as (s' & -> & Hs' & Hf & Hframe); [done..|by apply map_bytes_u8|done|done|].
  by exists s'.
Qed.

End PBitmap.
