(* ===== verification/FileSys.v ===== *)
(** * The file system

    filesys/filesys.cc: formatting a disk, and creating, opening, removing and
    listing files, with the free map and the directory kept in files of their
    own.  The parts it composes are Bitmap.v and PBitmap.v (free sectors),
    Directory.v, FileHdr.v, OpenFile.v and Disk.v. *)

From S2P Require Import Prelude Ints CString Bitmap Disk FileHdr OpenFile Directory PBitmap.

Module FileSys.

Import Disk FileHdr.

Definition FreeMapSector : Z := 0.
Definition DirectorySector : Z := 1.
Definition FreeMapFileSize : Z := NumSectors / Bitmap.BitsInByte.
Definition NumDirEntries : Z := 10.
Definition DirectoryFileSize : Z := Z.of_nat Directory.entry_size * NumDirEntries.

(** [FileSystem]: the files that stay open while Nachos runs. *)
Record FileSystem := mkFileSystem {
  freeMapFile : OpenFile.OpenFile;
  directoryFile : OpenFile.OpenFile
}.

(** The bytes of uninitialised memory. *)
Section FileSys.
Variable fresh : Z -> Z.

(** [new FileHeader] *)
Definition new_FileHeader : FileHeader := hdr_cast (map fresh (seqZ 0 SectorSize)).

(** [new Directory(NumDirEntries)] *)
Definition new_Directory : res Directory.Directory :=
  Directory.Directory_init
    (map (fun i => Directory.entry_cast
            (slice (Directory.entry_size * i) Directory.entry_size
               (map fresh (seqZ 0 DirectoryFileSize))))
         (seq 0 (Z.to_nat NumDirEntries)))
    NumDirEntries.

(** [directory = new Directory(NumDirEntries); directory->FetchFrom(directoryFile);] *)
Definition fetch_directory (fs : FileSystem) (s : synchdisk)
  : res (Directory.Directory * synchdisk) :=
  let* d := new_Directory in
  Directory.FetchFrom fresh (directoryFile fs) d s.

(** The constructor. *)
Definition FileSystem_init (format : bool) (s : synchdisk) : res (FileSystem * synchdisk) :=
  if format then
    let* freeMap := PBitmap.PersistentBitmap fresh NumSectors in
    let* directory := new_Directory in
    let* freeMap := Bitmap.Mark FreeMapSector freeMap in
    let* freeMap := Bitmap.Mark DirectorySector freeMap in
    let3* (ok, mapHdr, freeMap) := Allocate freeMap FreeMapFileSize new_FileHeader in
    ASSERT ok ;;;
    let3* (ok, dirHdr, freeMap) := Allocate freeMap DirectoryFileSize new_FileHeader in
    ASSERT ok ;;;
    let* s := WriteBack mapHdr FreeMapSector s in
    let* s := WriteBack dirHdr DirectorySector s in
    let2* (mapFile, s) := OpenFile.OpenFile_init FreeMapSector s in
    let2* (dirFile, s) := OpenFile.OpenFile_init DirectorySector s in
    let* s := PBitmap.WriteBack fresh mapFile freeMap s in
    let* s := Directory.WriteBack fresh dirFile directory s in
    Ok (mkFileSystem mapFile dirFile, s)
  else
    let2* (mapFile, s) := OpenFile.OpenFile_init FreeMapSector s in
    let2* (dirFile, s) := OpenFile.OpenFile_init DirectorySector s in
    Ok (mkFileSystem mapFile dirFile, s).

Definition Create (fs : FileSystem) (name : list Z) (initialSize : Z) (s : synchdisk)
  : res (bool * synchdisk) :=
  let2* (directory, s) := fetch_directory fs s in
  let* found := Directory.Find name directory in
  if negb (found =? -1) then Ok (false, s)
  else
    let2* (freeMap, s) := PBitmap.PersistentBitmap_from fresh (freeMapFile fs) NumSectors s in
    let2* (sector, freeMap) := Bitmap.FindAndSet freeMap in
    if sector =? -1 then Ok (false, s)
    else
      let2* (added, directory) := Directory.Add name sector directory in
      if negb added then Ok (false, s)
      else
        let3* (ok, hdr, freeMap) := Allocate freeMap initialSize new_FileHeader in
        if negb ok then Ok (false, s)
        else
          let* s := WriteBack hdr sector s in
          let* s := Directory.WriteBack fresh (directoryFile fs) directory s in
          let* s := PBitmap.WriteBack fresh (freeMapFile fs) freeMap s in
          Ok (true, s).

Definition Open (fs : FileSystem) (name : list Z) (s : synchdisk)
  : res (option OpenFile.OpenFile * synchdisk) :=
  let2* (directory, s) := fetch_directory fs s in
  let* sector := Directory.Find name directory in
  if 0 <=? sector then
    let2* (f, s) := OpenFile.OpenFile_init sector s in
    Ok (Some f, s)
  else Ok (None, s).

Definition Remove (fs : FileSystem) (name : list Z) (s : synchdisk) : res (bool * synchdisk) :=
  let2* (directory, s) := fetch_directory fs s in
  let* sector := Directory.Find name directory in
  if sector =? -1 then Ok (false, s)
  else
    let2* (fileHdr, s) := FetchFrom sector s in
    let2* (freeMap, s) := PBitmap.PersistentBitmap_from fresh (freeMapFile fs) NumSectors s in
    let* freeMap := Deallocate freeMap fileHdr in
    let* freeMap := Bitmap.Clear sector freeMap in
    let2* (_, directory) := Directory.Remove name directory in
    let* s := PBitmap.WriteBack fresh (freeMapFile fs) freeMap s in
    let* s := Directory.WriteBack fresh (directoryFile fs) directory s in
    Ok (true, s).

(** [List]: the names it prints. *)
Definition List (fs : FileSystem) (s : synchdisk) : res (list (list Z) * synchdisk) :=
  let2* (directory, s) := fetch_directory fs s in
  let* names := Directory.List directory in
  Ok (names, s).

End FileSys.

(** ** Sets of sectors as views of the free map *)

(** The view in which exactly the sectors of [O] are in use. *)
Definition marks (O : list Z) : list bool := map (fun i => bool_decide (i ∈ O)) (seqZ 0 NumSectors).

Lemma length_marks O : length (marks O) = Z.to_nat NumSectors.
Proof. unfold marks. by rewrite length_map, length_seqZ. Qed.

Lemma lookup_marks O i : sector_ok i -> marks O !! Z.to_nat i = Some (bool_decide (i ∈ O)).
Proof.
  intros [H0 H1]. unfold marks. rewrite list_lookup_fmap, lookup_seqZ_lt by lia.
  cbn [fmap option_fmap option_map]. by rewrite Z.add_0_l, Z2Nat.id.
Qed.

Lemma marks_ext (v : list bool) O :
  length v = Z.to_nat NumSectors ->
  (forall i, sector_ok i -> v !! Z.to_nat i = Some (bool_decide (i ∈ O))) -> v = marks O.
Proof.
  intros Hl H. apply list_eq_same_length with (Z.to_nat NumSectors); [apply length_marks|done|].
  intros k x y Hk Hx Hy. rewrite <- (Nat2Z.id k) in Hx, Hy.
  assert (sector_ok (Z.of_nat k)) as Hok by (unfold sector_ok; lia).
  rewrite H in Hx by done. rewrite lookup_marks in Hy by done. congruence.
Qed.

#[global] Instance marks_proper : Proper ((≡ₚ) ==> eq) marks.
Proof.
  intros O O' HO. apply marks_ext; [apply length_marks|]. intros i Hi.
  rewrite lookup_marks by done. f_equal. apply bool_decide_ext. by rewrite HO.
Qed.

Lemma marks_nil : marks [] = replicate (Z.to_nat NumSectors) false.
Proof.
  symmetry. apply marks_ext; [apply length_replicate|]. intros i [H0 H1].
  rewrite lookup_replicate_2 by lia. done.
Qed.

Lemma marks_insert i O : sector_ok i -> <[Z.to_nat i := true]> (marks O) = marks (i :: O).
Proof.
  intros Hi. apply marks_ext; [rewrite length_insert; apply length_marks|]. intros j Hj.
  destruct (decide (i = j)) as [<-|Hne].
  - rewrite list_lookup_insert_eq; [|rewrite length_marks; unfold sector_ok in Hi; lia].
    by rewrite bool_decide_true by (by left).
  - rewrite list_lookup_insert_ne, lookup_marks by (done || unfold sector_ok in *; lia).
    f_equal. apply bool_decide_ext. set_solver.
Qed.

Lemma marks_delete i O : sector_ok i -> i ∉ O -> <[Z.to_nat i := false]> (marks (i :: O)) = marks O.
Proof.
  intros Hi Hn. apply marks_ext; [rewrite length_insert; apply length_marks|]. intros j Hj.
  destruct (decide (i = j)) as [<-|Hne].
  - rewrite list_lookup_insert_eq; [|rewrite length_marks; unfold sector_ok in Hi; lia].
    by rewrite bool_decide_false.
  - rewrite list_lookup_insert_ne, lookup_marks by (done || unfold sector_ok in *; lia).
    f_equal. apply bool_decide_ext. set_solver.
Qed.

Lemma mark_all_marks l : forall O, Forall sector_ok l -> mark_all l (marks O) = marks (l ++ O).
Proof.
  induction l as [|i l IH] using rev_ind; intros O Hl; [done|].
  apply Forall_app in Hl as [Hl Hi]. apply Forall_cons in Hi as [Hi _].
  rewrite mark_all_snoc, IH, marks_insert by done. apply marks_proper.
  rewrite <- app_assoc. apply Permutation_middle.
Qed.

Lemma num_clear_marks O : NoDup O -> Forall sector_ok O ->
  num_clear (marks O) = NumSectors - Z.of_nat (length O).
Proof.
  induction O as [|i O IH]; intros Hnd Hok.
  - rewrite marks_nil, Bitmap.num_clear_fresh. cbn [length]. unfold NumSectors, SectorsPerTrack, NumTracks. lia.
  - apply NoDup_cons in Hnd as [Hi Hnd]. apply Forall_cons in Hok as [Hoki Hok].
    rewrite <- marks_insert by done. rewrite num_clear_mark, IH by (done || by rewrite lookup_marks, bool_decide_false).
    cbn [length]. lia.
Qed.

Lemma free_sectors O l :
  Forall (fun s => 0 <= s /\ marks O !! Z.to_nat s = Some false) l ->
  Forall sector_ok l /\ forall i, i ∈ l -> i ∉ O.
Proof.
  intros Hl. assert (Forall sector_ok l) as Hok.
  { eapply Forall_impl; [exact Hl|]. intros s [Hs Hv]. apply lookup_lt_Some in Hv.
    rewrite length_marks in Hv. unfold sector_ok. lia. }
  split; [done|]. intros i Hi Hin. rewrite Forall_forall in Hl, Hok. destruct (Hl i Hi) as [_ Hv].
  rewrite lookup_marks, bool_decide_true in Hv by auto. done.
Qed.

(** ** The layout of the disk *)

(** A file: the sector of its header, and the header. *)
Notation node := (Z * FileHeader)%type.

Definition node_sectors (n : node) : list Z := fst n :: sectors_of (snd n).

Definition nodes (N : gmap (list Z) node) : list Z := (map_to_list N).*2 ≫= node_sectors.

(** The header sectors and the data of the free map and of the directory. *)
Definition sys_sectors (fs : FileSystem) : list Z :=
  FreeMapSector :: DirectorySector ::
  sectors_of (OpenFile.hdr (freeMapFile fs)) ++ sectors_of (OpenFile.hdr (directoryFile fs)).

(** The disk [s] holds the files [N]: every sector has one owner at most, and
    the free map marks exactly those that have one. *)
Record layout (fs : FileSystem) (s : synchdisk) (d : Directory.Directory) (b : Bitmap.bitmap)
    (N : gmap (list Z) node) : Prop := {
  l_disk : Disk.wf s;
  l_maphdr : FileHdr.wf (OpenFile.hdr (freeMapFile fs)) /\
    numBytes (OpenFile.hdr (freeMapFile fs)) = FreeMapFileSize /\
    sector s FreeMapSector = hdr_bytes (OpenFile.hdr (freeMapFile fs));
  l_dirhdr : FileHdr.wf (OpenFile.hdr (directoryFile fs)) /\
    numBytes (OpenFile.hdr (directoryFile fs)) = DirectoryFileSize /\
    sector s DirectorySector = hdr_bytes (OpenFile.hdr (directoryFile fs));
  l_bitmap : Bitmap.wf b /\ Bitmap.numBits b = NumSectors /\
    Bitmap.bits b = marks (sys_sectors fs ++ nodes N);
  l_mapfile : OpenFile.file_bytes s (OpenFile.hdr (freeMapFile fs)) = PBitmap.map_bytes b;
  l_directory : Directory.wf d /\ Directory.tableSize d = NumDirEntries /\
    Directory.dmap d = fst <$> N;
  l_dirfile : OpenFile.file_bytes s (OpenFile.hdr (directoryFile fs)) = Directory.dir_bytes d;
  l_nodes : map_Forall (fun _ (n : node) => FileHdr.wf (snd n) /\ sector s (fst n) = hdr_bytes (snd n)) N;
  l_nodup : NoDup (sys_sectors fs ++ nodes N);
  l_ok : Forall sector_ok (sys_sectors fs ++ nodes N)
}.

(** The files on the disk, by name. *)
Definition represents (fs : FileSystem) (s : synchdisk) (m : gmap (list Z) (list Z)) : Prop :=
  exists d b N, layout fs s d b N /\ m = (fun n : node => OpenFile.file_bytes s (snd n)) <$> N.

Lemma nodes_insert N k n : N !! k = None -> nodes (<[k := n]> N) ≡ₚ node_sectors n ++ nodes N.
Proof. intros Hk. unfold nodes. by rewrite map_to_list_insert. Qed.

Lemma nodes_delete N k n : N !! k = Some n -> nodes N ≡ₚ node_sectors n ++ nodes (delete k N).
Proof.
  intros Hk. rewrite <- nodes_insert by apply lookup_delete_eq. by rewrite insert_delete_id.
Qed.

Lemma elem_of_nodes N k n j : N !! k = Some n -> j ∈ node_sectors n -> j ∈ nodes N.
Proof. intros Hk Hj. rewrite (nodes_delete N k n Hk). apply elem_of_app. by left. Qed.

(** Two files, and a file and the system, share no sector. *)
Lemma nodes_disjoint N k k' n n' j : NoDup (nodes N) ->
  N !! k = Some n -> N !! k' = Some n' -> k <> k' -> j ∈ node_sectors n -> j ∉ node_sectors n'.
Proof.
  intros Hnd Hk Hk' Hne Hj Hj'. rewrite (nodes_delete N k n Hk) in Hnd.
  apply NoDup_app in Hnd as (_ & Hdis & _). apply (Hdis j Hj).
  apply (elem_of_nodes _ k' n'); [|done]. by rewrite lookup_delete_ne.
Qed.

Lemma length_nodes N :
  map_Forall (fun _ (n : node) => FileHdr.wf (snd n)) N ->
  Z.of_nat (length (nodes N)) <= 31 * Z.of_nat (size N).
Proof.
  induction N as [|k n N Hk IH] using map_ind; intros HN.
  - unfold nodes. rewrite map_to_list_empty. cbn. lia.
  - apply map_Forall_insert in HN as [Hn HN]; [|done]. rewrite nodes_insert, length_app by done.
    rewrite map_size_insert_None by done. specialize (IH HN). unfold node_sectors. cbn [length].
    pose proof (wf_numSectors _ Hn) as Hb. pose proof (length_sectors_of _ Hn) as Hl.
    change NumDirect with 30 in Hb. lia.
Qed.

Section Proofs.
Variable fresh : Z -> Z.
Hypothesis fresh_u8 : forall i, is_u8 (fresh i).

Lemma heap_u8 l : Forall is_u8 (map fresh l).
Proof. apply Forall_map, Forall_true. intros x. apply fresh_u8. Qed.

Lemma new_Directory_spec :
  exists d, new_Directory fresh = Ok d /\ Directory.wf d /\
    Directory.tableSize d = NumDirEntries /\ Directory.dmap d = ∅.
Proof.
  apply Directory.init_spec; [by rewrite length_map, length_seq|].
  apply Forall_map, Forall_seq. intros i Hi. change (Z.to_nat NumDirEntries) with 10%nat in Hi.
  assert (length (map fresh (seqZ 0 DirectoryFileSize)) = 200%nat) as Hl by (by rewrite length_map, length_seqZ).
  pose proof (heap_u8 (seqZ 0 DirectoryFileSize)) as Hu.
  unfold Directory.entry_ok, Directory.entry_cast, Directory.entry_size.
  cbn [Directory.name Directory.pad1 Directory.pad2 Directory.sector].
  rewrite !length_slice by (rewrite ?length_slice; lia). repeat split; auto using slice_u8.
  all: apply s32_range.
Qed.

Lemma new_FileHeader_shape :
  Z.of_nat (length (dataSectors (new_FileHeader fresh))) = NumDirect /\
  Forall is_s32 (dataSectors (new_FileHeader fresh)).
Proof.
  split; [done|]. apply Forall_map, Forall_true. intros i. apply s32_range.
Qed.

(** Reads leave the layout as it is. *)
Lemma sector_same s s' j : unixfile (dev s') = unixfile (dev s) -> sector s' j = sector s j.
Proof. unfold sector. by intros ->. Qed.

Lemma file_bytes_same s s' h :
  unixfile (dev s') = unixfile (dev s) -> OpenFile.file_bytes s' h = OpenFile.file_bytes s h.
Proof. intros Hu. unfold OpenFile.file_bytes. by rewrite (OpenFile.raw_same s s'). Qed.

Lemma layout_same fs s s' d b N :
  layout fs s d b N -> Disk.wf s' -> unixfile (dev s') = unixfile (dev s) -> layout fs s' d b N.
Proof.
  intros [H1 H2 H3 H4 H5 H6 H7 H8 H9 H10] Hs' Hu.
  split; try done; rewrite ?(sector_same s s'), ?(file_bytes_same s s') by done; try done.
  intros k n Hn. rewrite (sector_same s s') by done. exact (H8 k n Hn).
Qed.

Lemma represents_same fs s s' m :
  represents fs s m -> Disk.wf s' -> unixfile (dev s') = unixfile (dev s) -> represents fs s' m.
Proof.
  intros (d & b & N & HL & ->) Hs' Hu. exists d, b, N. split; [by eapply layout_same|].
  apply map_fmap_ext. intros k n _. symmetry. by apply file_bytes_same.
Qed.

(** The directory and the free map as the operations read them. *)
Lemma fetch_directory_spec fs s d b N : layout fs s d b N ->
  exists s', fetch_directory fresh fs s = Ok (d, s') /\ Disk.wf s' /\
    unixfile (dev s') = unixfile (dev s).
Proof.
  intros HL. unfold fetch_directory. destruct new_Directory_spec as (d0 & -> & Hd0 & Ht0 & _).
  cbn [rbind]. destruct (l_directory _ _ _ _ _ HL) as (Hd & Ht & _).
  destruct (l_dirhdr _ _ _ _ _ HL) as (Hh & Hn & _).
  apply Directory.FetchFrom_spec; try done; [apply HL|congruence|apply HL|by rewrite Hn, Ht].
Qed.

Lemma fetch_freemap_spec fs s d b N : layout fs s d b N ->
  exists s', PBitmap.PersistentBitmap_from fresh (freeMapFile fs) NumSectors s = Ok (b, s') /\
    Disk.wf s' /\ unixfile (dev s') = unixfile (dev s).
Proof.
  intros HL. destruct (l_bitmap _ _ _ _ _ HL) as (Hb & Hn & _). rewrite <- Hn.
  destruct (l_maphdr _ _ _ _ _ HL) as (Hh & Hs & _).
  apply PBitmap.from_spec; try done; [apply HL|apply HL|].
  destruct Hb as (_ & -> & _). by rewrite Hs, Hn.
Qed.

Lemma Find_layout fs s d b N nm : layout fs s d b N ->
  Directory.holds_name Directory.FileNameMaxLen nm = true ->
  Directory.Find nm d = Ok (default (-1) (fst <$> N !! Directory.key Directory.FileNameMaxLen nm)).
Proof.
  intros HL Hnm. destruct (l_directory _ _ _ _ _ HL) as (Hd & _ & Hm).
  rewrite Directory.Find_spec, Hm, lookup_fmap by done. done.
Qed.

(** A header of the layout is read from its sector. *)
Lemma read_header s i h : Disk.wf s -> FileHdr.wf h -> sector_ok i -> sector s i = hdr_bytes h ->
  exists s', FetchFrom i s = Ok (h, s') /\ Disk.wf s' /\ unixfile (dev s') = unixfile (dev s).
Proof.
  intros Hs Hh Hi Hsec. pose proof (wf_numSectors h Hh) as Hn. destruct Hh as (Hb & _ & Hl & H32 & _).
  destruct (ReadSector_spec s i Hs Hi) as (s' & E & Hs' & Hu). exists s'. split; [|done].
  unfold FetchFrom. rewrite E. cbn [rbind]. rewrite Hsec, hdr_roundtrip; try done.
  - unfold MaxFileSize in Hb. change (NumDirect * SectorSize) with 3840 in Hb. zlia.
  - change NumDirect with 30 in Hn. zlia.
Qed.

Lemma node_ok fs s d b N k n : layout fs s d b N -> N !! k = Some n ->
  sector_ok (fst n) /\ FileHdr.wf (snd n) /\ sector s (fst n) = hdr_bytes (snd n).
Proof.
  intros HL Hk. destruct (l_nodes _ _ _ _ _ HL k n Hk) as [Hwf Hs]. split; [|done].
  pose proof (l_ok _ _ _ _ _ HL) as Hok. apply Forall_app in Hok as [_ Hok].
  rewrite Forall_forall in Hok. apply Hok. eapply elem_of_nodes; [exact Hk|]. by left.
Qed.

(** The directory bounds the number of files, so the disk cannot fill up. *)
Lemma size_bound fs s d b N : layout fs s d b N -> Z.of_nat (size N) <= NumDirEntries.
Proof.
  intros HL. destruct (l_directory _ _ _ _ _ HL) as (Hd & Ht & Hm).
  pose proof (Directory.dmap_size_le d Hd) as Hsz. by rewrite Hm, map_size_fmap, Ht in Hsz.
Qed.

Lemma length_sys_sectors fs s d b N : layout fs s d b N -> length (sys_sectors fs) = 5%nat.
Proof.
  intros HL. destruct (l_maphdr _ _ _ _ _ HL) as (Hm & Em & _).
  destruct (l_dirhdr _ _ _ _ _ HL) as (Hd & Ed & _).
  pose proof (length_sectors_of _ Hm) as Lm. pose proof (length_sectors_of _ Hd) as Ld.
  destruct Hm as (_ & Hm & _), Hd as (_ & Hd & _). rewrite Hm, Em in Lm. rewrite Hd, Ed in Ld.
  change (divRoundUp FreeMapFileSize SectorSize) with 1 in Lm.
  change (divRoundUp DirectoryFileSize SectorSize) with 2 in Ld.
  unfold sys_sectors. cbn [length]. rewrite length_app. lia.
Qed.

Lemma free_space fs s d b N : layout fs s d b N -> Z.of_nat (size N) < NumDirEntries ->
  2 * NumDirect <= num_clear (Bitmap.bits b).
Proof.
  intros HL Hsz. destruct (l_bitmap _ _ _ _ _ HL) as (_ & _ & ->).
  rewrite num_clear_marks by apply HL. rewrite length_app, (length_sys_sectors _ _ _ _ _ HL).
  pose proof (length_nodes N) as Hl. assert (map_Forall (fun _ (n : node) => FileHdr.wf (snd n)) N) as HN.
  { intros k n Hk. by destruct (node_ok _ _ _ _ _ _ _ HL Hk) as (_ & ? & _). }
  specialize (Hl HN). unfold NumDirEntries in Hsz. change NumSectors with 1024. change NumDirect with 30. lia.
Qed.

(** The data of the free map and of the directory. *)
Definition sys_data (fs : FileSystem) : list Z :=
  sectors_of (OpenFile.hdr (freeMapFile fs)) ++ sectors_of (OpenFile.hdr (directoryFile fs)).

Lemma sys_disjoint fs : NoDup (sys_sectors fs) ->
  FreeMapSector ∉ sys_data fs /\ DirectorySector ∉ sys_data fs /\
  forall j, j ∈ sectors_of (OpenFile.hdr (freeMapFile fs)) ->
    j ∉ sectors_of (OpenFile.hdr (directoryFile fs)).
Proof.
  unfold sys_sectors. fold (sys_data fs). rewrite !NoDup_cons. intros (H0 & H1 & Hnd). unfold sys_data in Hnd.
  apply NoDup_app in Hnd as (_ & Hdis & _). set_solver.
Qed.

(** [s2] is [s0] with the directory [d'] and the free map [b'] written back. *)
Definition flushed (fs : FileSystem) (d' : Directory.Directory) (b' : Bitmap.bitmap)
    (s0 s2 : synchdisk) : Prop :=
  Disk.wf s2 /\
  OpenFile.file_bytes s2 (OpenFile.hdr (directoryFile fs)) = Directory.dir_bytes d' /\
  OpenFile.file_bytes s2 (OpenFile.hdr (freeMapFile fs)) = PBitmap.map_bytes b' /\
  forall j, sector_ok j -> j ∉ sys_data fs -> sector s2 j = sector s0 j.

(** Writing the free map and the directory back, in either order. *)
Lemma flush_sys fs d' b' s0 :
  FileHdr.wf (OpenFile.hdr (freeMapFile fs)) ->
  numBytes (OpenFile.hdr (freeMapFile fs)) = FreeMapFileSize ->
  FileHdr.wf (OpenFile.hdr (directoryFile fs)) ->
  numBytes (OpenFile.hdr (directoryFile fs)) = DirectoryFileSize ->
  NoDup (sys_sectors fs) -> Disk.wf s0 ->
  Directory.wf d' -> Directory.tableSize d' = NumDirEntries ->
  Bitmap.wf b' -> Bitmap.numBits b' = NumSectors ->
  (exists s2, (let* s1 := Directory.WriteBack fresh (directoryFile fs) d' s0 in
               PBitmap.WriteBack fresh (freeMapFile fs) b' s1) = Ok s2 /\ flushed fs d' b' s0 s2) /\
  (exists s2, (let* s1 := PBitmap.WriteBack fresh (freeMapFile fs) b' s0 in
               Directory.WriteBack fresh (directoryFile fs) d' s1) = Ok s2 /\ flushed fs d' b' s0 s2).
Proof.
  intros Hm Em Hh Ed Hnd Hs0 Hd Ht Hb Hn.
  assert (numBytes (OpenFile.hdr (freeMapFile fs)) = Bitmap.numWords b' * 4) as Em'.
  { destruct Hb as (_ & -> & _). by rewrite Em, Hn. }
  assert (numBytes (OpenFile.hdr (directoryFile fs)) = Directory.tableSize d' * 20) as Ed'
    by (by rewrite Ed, Ht).
  apply sys_disjoint in Hnd as (_ & _ & Hdis).
  pose proof Hm as (_ & _ & _ & _ & _ & Hmok). pose proof Hh as (_ & _ & _ & _ & _ & Hdok).
  rewrite Forall_forall in Hmok, Hdok. unfold flushed, sys_data. split.
  - destruct (Directory.WriteBack_spec fresh (directoryFile fs) d' s0) as (s1 & -> & Hs1 & F1 & G1); [done..|].
    cbn [rbind].
    destruct (PBitmap.pbitmap_WriteBack_spec fresh (freeMapFile fs) b' s1) as (s2 & -> & Hs2 & F2 & G2); [done..|].
    exists s2. split; [done|]. split; [done|]. split; [|split; [done|]].
    + rewrite <- F1. apply OpenFile.file_bytes_frame; [done|]. intros j Hj. apply G2; [by apply Hdok|].
      intros Hj'. by apply (Hdis j).
    + intros j Hj Hn'. rewrite not_elem_of_app in Hn'. rewrite G2, G1 by tauto. done.
  - destruct (PBitmap.pbitmap_WriteBack_spec fresh (freeMapFile fs) b' s0) as (s1 & -> & Hs1 & F1 & G1); [done..|].
    cbn [rbind].
    destruct (Directory.WriteBack_spec fresh (directoryFile fs) d' s1) as (s2 & -> & Hs2 & F2 & G2); [done..|].
    exists s2. split; [done|]. split; [done|]. split; [done|split].
    + rewrite <- F1. apply OpenFile.file_bytes_frame; [done|]. intros j Hj. apply G2; [by apply Hmok|].
      by apply Hdis.
    + intros j Hj Hn'. rewrite not_elem_of_app in Hn'. rewrite G2, G1 by tauto. done.
Qed.

Lemma flush fs s d b N d' b' s0 :
  layout fs s d b N -> Disk.wf s0 ->
  Directory.wf d' -> Directory.tableSize d' = NumDirEntries ->
  Bitmap.wf b' -> Bitmap.numBits b' = NumSectors ->
  (exists s2, (let* s1 := Directory.WriteBack fresh (directoryFile fs) d' s0 in
               PBitmap.WriteBack fresh (freeMapFile fs) b' s1) = Ok s2 /\ flushed fs d' b' s0 s2) /\
  (exists s2, (let* s1 := PBitmap.WriteBack fresh (freeMapFile fs) b' s0 in
               Directory.WriteBack fresh (directoryFile fs) d' s1) = Ok s2 /\ flushed fs d' b' s0 s2).
Proof.
  intros HL. destruct (l_maphdr _ _ _ _ _ HL) as (Hm & Em & _), (l_dirhdr _ _ _ _ _ HL) as (Hh & Ed & _).
  pose proof (l_nodup _ _ _ _ _ HL) as Hnd. apply NoDup_app in Hnd as (Hnd & _ & _).
  by apply flush_sys.
Qed.

(** Files keep their headers and contents when only sectors outside them, the
    free map and the directory change. *)
Lemma node_frame fs s d b N k n s' :
  layout fs s d b N -> N !! k = Some n ->
  (forall j, j ∈ node_sectors n -> sector_ok j -> j ∉ sys_data fs -> sector s' j = sector s j) ->
  sector s' (fst n) = sector s (fst n) /\
  OpenFile.file_bytes s' (snd n) = OpenFile.file_bytes s (snd n).
Proof.
  intros HL Hk Hsame. assert (forall j, j ∈ node_sectors n -> sector s' j = sector s j) as H.
  { intros j Hj. pose proof (elem_of_nodes _ _ _ _ Hk Hj) as Hin. apply Hsame; [done| |].
    - pose proof (l_ok _ _ _ _ _ HL) as Hok. apply Forall_app in Hok as [_ Hok].
      rewrite Forall_forall in Hok. by apply Hok.
    - intros Hsys. pose proof (l_nodup _ _ _ _ _ HL) as Hnd. apply NoDup_app in Hnd as (_ & Hdis & _).
      apply (Hdis j); [|done]. unfold sys_sectors. fold (sys_data fs). by do 2 right. }
  split; [apply H; by left|]. destruct (node_ok _ _ _ _ _ _ _ HL Hk) as (_ & Hwf & _).
  apply OpenFile.file_bytes_frame; [done|]. intros j Hj. apply H. by right.
Qed.

(** Allocation of a file from a map with enough free sectors. *)
Lemma allocate_marks b O size :
  Bitmap.wf b -> Bitmap.bits b = marks O -> NoDup O -> Forall sector_ok O ->
  Z.of_nat (length O) + NumDirect <= NumSectors -> 0 <= size <= MaxFileSize ->
  exists h b', Allocate b size (new_FileHeader fresh) = Ok (true, h, b') /\ Bitmap.wf b' /\
    Bitmap.bits b' = marks (sectors_of h ++ O) /\ FileHdr.wf h /\ numBytes h = size /\
    NoDup (sectors_of h ++ O) /\ Forall sector_ok (sectors_of h ++ O).
Proof.
  intros Hb Hbits Hnd Hok Hlen Hsz. destruct new_FileHeader_shape as [Hshape H32].
  pose proof (sectors_bound size Hsz) as Hneed. change NumDirect with 30 in Hneed.
  destruct (Allocate_ok b size (new_FileHeader fresh)) as
    (h & b2 & EA & Hb2 & Hbytes & Hnum & Hlen' & Hnd' & Hf & Hv & Hdrop); [done..| |].
  { cbn. rewrite Hbits, num_clear_marks by done. change NumDirect with 30 in Hlen. lia. }
  assert (FileHdr.wf h) as Hh.
  { eapply (Allocate_wf b size (new_FileHeader fresh)); try done. cbn. by rewrite Hbits, length_marks. }
  cbn in Hf, Hv. rewrite Hbits in Hf, Hv. apply free_sectors in Hf as [Hok' Hfresh].
  rewrite mark_all_marks in Hv by done. exists h, b2. do 5 (split; [done|]).
  split; [by apply NoDup_app|by apply Forall_app].
Qed.

(** The sectors of a new file, taken from the free map. *)
Lemma allocate_file fs s d b N size :
  layout fs s d b N -> 0 <= size <= MaxFileSize -> Z.of_nat (base.size N) < NumDirEntries ->
  exists i b1 h b2, Bitmap.FindAndSet b = Ok (i, b1) /\ sector_ok i /\
    Allocate b1 size (new_FileHeader fresh) = Ok (true, h, b2) /\ FileHdr.wf h /\ numBytes h = size /\
    Bitmap.wf b2 /\ Bitmap.numBits b2 = NumSectors /\
    NoDup (sys_sectors fs ++ node_sectors (i, h) ++ nodes N) /\
    Forall sector_ok (sys_sectors fs ++ node_sectors (i, h) ++ nodes N) /\
    Bitmap.bits b2 = marks (sys_sectors fs ++ node_sectors (i, h) ++ nodes N).
Proof.
  intros HL Hsz Hroom. destruct (l_bitmap _ _ _ _ _ HL) as (Hb & Hn & Hbits).
  set (O := sys_sectors fs ++ nodes N) in *.
  pose proof (free_space _ _ _ _ _ HL Hroom) as Hfree. change NumDirect with 30 in Hfree.
  destruct (Bitmap.FindAndSet_bits b Hb) as (b1 & E & Hb1 & Hn1 & Hbits1).
  destruct (first_clear_Some (Bitmap.bits b)) as [Hi Hclear]; [lia|].
  set (i := first_clear (Bitmap.bits b)) in *. rewrite Hbits, length_marks in Hi.
  assert (sector_ok i) as Hok by (unfold sector_ok; lia).
  rewrite (proj2 (Z.eqb_neq i (-1))) in Hbits1 by lia.
  assert (i ∉ O) as HiO.
  { rewrite Hbits, lookup_marks in Hclear by done. injection Hclear as Hc. by apply bool_decide_eq_false in Hc. }
  rewrite Hbits, marks_insert in Hbits1 by done.
  destruct (allocate_marks b1 (i :: O) size) as (h & b2 & EA & Hb2 & Hv & Hh & Hbytes & Hnd & Hok'); try done.
  { apply NoDup_cons. split; [done|]. apply HL. }
  { constructor; [done|]. apply HL. }
  { rewrite Hbits, num_clear_marks in Hfree by apply HL. cbn [length]. change NumDirect with 30. lia. }
  assert (sectors_of h ++ i :: O ≡ₚ sys_sectors fs ++ node_sectors (i, h) ++ nodes N) as HP.
  { rewrite <- Permutation_middle. unfold O. rewrite (Permutation_app_swap_app (sectors_of h)).
    apply Permutation_middle. }
  exists i, b1, h, b2. do 6 (split; [done|]). split.
  { rewrite <- (Bitmap.length_bits b2) by done. rewrite Hv, length_marks. done. }
  split; [by rewrite <- HP|]. split; [by apply (Permutation_Forall HP)|by rewrite Hv, HP].
Qed.

(** What a name must satisfy: nine characters or a zero before, as bytes. *)
Definition name_ok (nm : list Z) : Prop :=
  Directory.holds_name Directory.FileNameMaxLen nm = true /\ Forall is_u8 nm.

Lemma Create_refused fs s d b N nm size :
  layout fs s d b N -> name_ok nm ->
  is_Some (N !! Directory.key Directory.FileNameMaxLen nm) \/ Z.of_nat (base.size N) = NumDirEntries ->
  exists s', Create fresh fs nm size s = Ok (false, s') /\ Disk.wf s' /\
    unixfile (dev s') = unixfile (dev s).
Proof.
  intros HL [Hnm Hu8] Hcase. unfold Create.
  destruct (fetch_directory_spec _ _ _ _ _ HL) as (s1 & -> & Hs1 & Hu1). cbn [rbind].
  rewrite (Find_layout _ _ _ _ _ _ HL Hnm). cbn [rbind].
  destruct (N !! _) as [n|] eqn:Ek; cbn [fmap option_fmap option_map default].
  { destruct (node_ok _ _ _ _ _ _ _ HL Ek) as (Hok & _). unfold sector_ok in Hok. cbn [default from_option].
    unfold id. rewrite (proj2 (Z.eqb_neq (fst n) (-1))) by lia. by exists s1. }
  destruct Hcase as [[? ?]|Hfull]; [done|]. cbn [Z.eqb negb].
  pose proof (layout_same _ _ _ _ _ _ HL Hs1 Hu1) as HL1.
  destruct (fetch_freemap_spec _ _ _ _ _ HL1) as (s2 & -> & Hs2 & Hu2). cbn [rbind].
  destruct (l_bitmap _ _ _ _ _ HL) as (Hb & Hn & Hbits).
  destruct (Bitmap.FindAndSet_bits b Hb) as (b1 & -> & _). cbn [rbind].
  exists s2. split; [|split; [done|congruence]].
  destruct (Z.eqb_spec (first_clear (Bitmap.bits b)) (-1)); [done|].
  destruct (l_directory _ _ _ _ _ HL) as (Hd & Ht & Hm).
  destruct (Directory.Add_spec d nm (first_clear (Bitmap.bits b))) as [Hadd _]; [done..| |].
  - pose proof (first_clear_range (Bitmap.bits b)) as Hr. rewrite Hbits, length_marks in Hr.
    change (Z.to_nat NumSectors) with 1024%nat in Hr. rewrite Hbits. zlia.
  - rewrite Hadd; [done|]. right. by rewrite Hm, map_size_fmap, Ht.
Qed.

(** A state with new contents of the free map and the directory. *)
Lemma relayout fs s d b N s' d' b' N' :
  layout fs s d b N -> Disk.wf s' ->
  Bitmap.wf b' -> Bitmap.numBits b' = NumSectors ->
  Bitmap.bits b' = marks (sys_sectors fs ++ nodes N') ->
  Directory.wf d' -> Directory.tableSize d' = NumDirEntries -> Directory.dmap d' = fst <$> N' ->
  OpenFile.file_bytes s' (OpenFile.hdr (directoryFile fs)) = Directory.dir_bytes d' ->
  OpenFile.file_bytes s' (OpenFile.hdr (freeMapFile fs)) = PBitmap.map_bytes b' ->
  NoDup (sys_sectors fs ++ nodes N') -> Forall sector_ok (sys_sectors fs ++ nodes N') ->
  sector s' FreeMapSector = sector s FreeMapSector ->
  sector s' DirectorySector = sector s DirectorySector ->
  map_Forall (fun _ (n : node) => FileHdr.wf (snd n) /\ sector s' (fst n) = hdr_bytes (snd n)) N' ->
  layout fs s' d' b' N'.
Proof.
  intros HL Hs' Hb Hn Hbits Hd Ht Hm Fd Fm Hnd Hok E0 E1 HN.
  destruct (l_maphdr _ _ _ _ _ HL) as (M1 & M2 & M3), (l_dirhdr _ _ _ _ _ HL) as (D1 & D2 & D3).
  by split; rewrite ?E0, ?E1.
Qed.

Lemma Create_made fs s d b N nm size :
  layout fs s d b N -> name_ok nm -> 0 <= size <= MaxFileSize ->
  let k := Directory.key Directory.FileNameMaxLen nm in
  N !! k = None -> Z.of_nat (base.size N) < NumDirEntries ->
  exists s' d' b' n, Create fresh fs nm size s = Ok (true, s') /\ layout fs s' d' b' (<[k := n]> N) /\
    numBytes (snd n) = size /\
    forall k' n', N !! k' = Some n' ->
      OpenFile.file_bytes s' (snd n') = OpenFile.file_bytes s (snd n').
Proof.
  intros HL [Hnm Hu8] Hsz k Hk Hroom. unfold Create.
  destruct (fetch_directory_spec _ _ _ _ _ HL) as (s1 & -> & Hs1 & Hu1). cbn [rbind].
  rewrite (Find_layout _ _ _ _ _ _ HL Hnm). change (Directory.key _ nm) with k.
  rewrite Hk. cbn [rbind fmap option_fmap option_map default].
  cbn [Z.eqb negb]. pose proof (layout_same _ _ _ _ _ _ HL Hs1 Hu1) as HL1.
  destruct (fetch_freemap_spec _ _ _ _ _ HL1) as (s2 & -> & Hs2 & Hu2). cbn [rbind].
  destruct (allocate_file _ _ _ _ _ size HL Hsz Hroom) as
    (i & b1 & h & b2 & -> & Hi & EA & Hh & Hbytes & Hb2 & Hn2 & Hnd & Hok & Hbits). cbn [rbind].
  rewrite (proj2 (Z.eqb_neq i (-1))) by (unfold sector_ok in Hi; lia).
  destruct (l_directory _ _ _ _ _ HL) as (Hd & Ht & Hm).
  destruct (Directory.Add_spec d nm i) as [_ Hadd]; [done..| |].
  { unfold sector_ok in Hi. change NumSectors with 1024 in Hi. zlia. }
  destruct Hadd as (d' & -> & Hd' & Ht' & Hm').
  { rewrite Hm, lookup_fmap. change (Directory.key _ nm) with k. by rewrite Hk. }
  { by rewrite Hm, map_size_fmap, Ht. }
  change (Directory.key _ nm) with k in Hm'. cbn [rbind negb]. rewrite EA. cbn [rbind negb].
  destruct (WriteBack_FetchFrom h i s2 Hh Hi Hs2) as (s3 & -> & Hs3 & Hsec & Hother & _). cbn [rbind].
  destruct (flush _ _ _ _ _ d' b2 s3 HL) as [(s5 & E & Hs5 & Fd & Fm & Hframe) _]; [done|done|congruence|done..|].
  apply bind_Ok_inv in E as (s4 & -> & E). cbn [rbind]. rewrite E. cbn [rbind].
  pose proof (l_nodup _ _ _ _ _ HL) as Hnd0. apply NoDup_app in Hnd0 as (Hsys & _ & _).
  destruct (sys_disjoint fs Hsys) as (H0 & H1 & _).
  assert (forall j, sector_ok j -> j <> i -> j ∉ sys_data fs -> sector s5 j = sector s j) as Hsame.
  { intros j Hj Hji Hjs. rewrite Hframe, Hother by done. by rewrite (sector_same s1 s2), (sector_same s s1). }
  apply NoDup_app in Hnd as Hnd'. destruct Hnd' as (_ & Hdis & Hnd').
  assert (i ∉ sys_sectors fs /\ forall k' n', N !! k' = Some n' -> i ∉ node_sectors n') as [Hisys Hin].
  { split; [intros Hin; apply (Hdis i Hin), elem_of_app; left; by left|].
    intros k' n' Hk' Hin. cbn [app node_sectors fst snd] in Hnd'. apply NoDup_cons in Hnd' as [Hni _].
    apply Hni, elem_of_app. right. by eapply elem_of_nodes. }
  unfold sys_sectors in Hisys. fold (sys_data fs) in Hisys. rewrite !not_elem_of_cons in Hisys.
  destruct Hisys as (Hi0 & Hi1 & His).
  assert (forall k' n', N !! k' = Some n' -> sector s5 (fst n') = sector s (fst n') /\
    OpenFile.file_bytes s5 (snd n') = OpenFile.file_bytes s (snd n')) as Hold.
  { intros k' n' Hk'. eapply node_frame; [done..|]. intros j Hj Hjok Hjs. apply Hsame; [done| |done].
    intros ->. by apply (Hin k' n'). }
  exists s5, d', b2, (i, h). split; [done|]. split; [|split; [done|intros k' n' Hk'; by apply (Hold k')]].
  assert (sys_sectors fs ++ nodes (<[k := (i, h)]> N) ≡ₚ
    sys_sectors fs ++ node_sectors (i, h) ++ nodes N) as HP by (by rewrite nodes_insert).
  apply (relayout fs s d b N); try done.
  - by rewrite Hbits, HP.
  - congruence.
  - by rewrite Hm', Hm, fmap_insert.
  - by rewrite HP.
  - symmetry in HP. by apply (Permutation_Forall HP).
  - by apply Hsame; [|congruence|].
  - by apply Hsame; [|congruence|].
  - apply map_Forall_insert; [done|]. split.
    + cbn [fst snd]. split; [done|]. by rewrite Hframe.
    + intros k' n' Hk'. destruct (node_ok _ _ _ _ _ _ _ HL Hk') as (_ & Hwf' & Hsec').
      destruct (Hold k' n' Hk') as [-> _]. done.
Qed.

(** The sectors of a file, given back to the free map. *)
Lemma deallocate_file fs s d b N k i h :
  layout fs s d b N -> N !! k = Some (i, h) ->
  exists b1 b2, Deallocate b h = Ok b1 /\ Bitmap.Clear i b1 = Ok b2 /\
    Bitmap.wf b2 /\ Bitmap.numBits b2 = NumSectors /\
    NoDup (sys_sectors fs ++ nodes (delete k N)) /\
    Forall sector_ok (sys_sectors fs ++ nodes (delete k N)) /\
    Bitmap.bits b2 = marks (sys_sectors fs ++ nodes (delete k N)).
Proof.
  intros HL Hk. destruct (l_bitmap _ _ _ _ _ HL) as (Hb & Hn & Hbits).
  destruct (node_ok _ _ _ _ _ _ _ HL Hk) as (Hi & Hh & _). cbn [fst snd] in Hi, Hh.
  set (O := sys_sectors fs ++ nodes (delete k N)).
  assert (sys_sectors fs ++ nodes N ≡ₚ sectors_of h ++ i :: O) as HP.
  { rewrite (nodes_delete N k _ Hk). unfold node_sectors. cbn [fst snd].
    rewrite (Permutation_app_swap_app (sys_sectors fs)). apply Permutation_middle. }
  pose proof (l_nodup _ _ _ _ _ HL) as Hnd. rewrite HP in Hnd.
  apply NoDup_app in Hnd as (Hnd1 & Hdis & Hnd2). apply NoDup_cons in Hnd2 as [HiO HndO].
  pose proof (l_ok _ _ _ _ _ HL) as Hok. apply (Permutation_Forall HP) in Hok.
  apply Forall_app in Hok as [Hok1 Hok2]. apply Forall_cons in Hok2 as [_ HokO].
  pose proof (wf_numSectors h Hh) as Hns.
  destruct (Deallocate_marked h b (marks (i :: O))) as (b1 & E1 & Hb1 & Hv1); try done.
  - destruct Hh as (_ & _ & Hl & _). lia.
  - apply Forall_forall. intros j Hj. rewrite Forall_forall in Hok1. specialize (Hok1 j Hj).
    split; [apply Hok1|]. rewrite lookup_marks by done. by rewrite bool_decide_false by (by apply Hdis).
  - cbn. by rewrite Hbits, HP, mark_all_marks.
  - cbn in Hb1, Hv1. assert (Bitmap.numBits b1 = NumSectors) as Hn1.
    { rewrite <- (Bitmap.length_bits b1), Hv1, length_marks by done. done. }
    destruct (Bitmap.Clear_bits b1 i Hb1) as (b2 & E2 & Hb2 & Hn2 & Hv2); [by rewrite Hn1|].
    exists b1, b2. rewrite Hv1, marks_delete in Hv2 by done. rewrite Hn1 in Hn2. done.
Qed.

Lemma Remove_found fs s d b N nm n :
  layout fs s d b N -> name_ok nm ->
  let k := Directory.key Directory.FileNameMaxLen nm in
  N !! k = Some n ->
  exists s' d' b', Remove fresh fs nm s = Ok (true, s') /\ layout fs s' d' b' (delete k N) /\
    forall k' n', delete k N !! k' = Some n' ->
      OpenFile.file_bytes s' (snd n') = OpenFile.file_bytes s (snd n').
Proof.
  intros HL [Hnm Hu8] k Hk. unfold Remove. destruct n as [i h].
  destruct (fetch_directory_spec _ _ _ _ _ HL) as (s1 & -> & Hs1 & Hu1). cbn [rbind].
  rewrite (Find_layout _ _ _ _ _ _ HL Hnm). change (Directory.key _ nm) with k. rewrite Hk.
  cbn [rbind fmap option_fmap option_map default from_option fst]. unfold id.
  destruct (node_ok _ _ _ _ _ _ _ HL Hk) as (Hi & Hh & Hsec). cbn [fst snd] in *.
  rewrite (proj2 (Z.eqb_neq i (-1))) by (unfold sector_ok in Hi; lia).
  pose proof (layout_same _ _ _ _ _ _ HL Hs1 Hu1) as HL1.
  destruct (read_header s1 i h) as (s2 & -> & Hs2 & Hu2); [done..|by rewrite (sector_same s s1)|].
  cbn [rbind]. pose proof (layout_same _ _ _ _ _ _ HL1 Hs2 Hu2) as HL2.
  destruct (fetch_freemap_spec _ _ _ _ _ HL2) as (s3 & -> & Hs3 & Hu3). cbn [rbind].
  destruct (deallocate_file _ _ _ _ _ _ _ _ HL Hk) as (b1 & b2 & -> & E2 & Hb2 & Hn2 & Hnd & Hok & Hbits).
  cbn [rbind]. rewrite E2. cbn [rbind]. destruct (l_directory _ _ _ _ _ HL) as (Hd & Ht & Hm).
  destruct (Directory.Remove_spec d nm) as [_ Hrem]; [done..|].
  destruct Hrem as (d' & -> & Hd' & Ht' & Hm').
  { rewrite Hm, lookup_fmap. change (Directory.key _ nm) with k. rewrite Hk. by eexists. }
  change (Directory.key _ nm) with k in Hm'. cbn [rbind].
  destruct (flush _ _ _ _ _ d' b2 s3 HL) as [_ (s5 & E & Hs5 & Fd & Fm & Hframe)]; [done|done|congruence|done..|].
  apply bind_Ok_inv in E as (s4 & -> & E). cbn [rbind]. rewrite E. cbn [rbind].
  assert (forall j, sector_ok j -> j ∉ sys_data fs -> sector s5 j = sector s j) as Hsame.
  { intros j Hj Hjs. rewrite Hframe by done.
    by rewrite (sector_same s2 s3), (sector_same s1 s2), (sector_same s s1). }
  assert (forall k' n', N !! k' = Some n' -> sector s5 (fst n') = sector s (fst n') /\
    OpenFile.file_bytes s5 (snd n') = OpenFile.file_bytes s (snd n')) as Hold.
  { intros k' n' Hk'. eapply node_frame; [done..|]. intros j _. apply Hsame. }
  exists s5, d', b2. split; [done|]. split.
  2: { intros k' n' Hk'. apply (Hold k'). by apply lookup_delete_Some in Hk' as [_ ?]. }
  pose proof (l_nodup _ _ _ _ _ HL) as Hnd0. apply NoDup_app in Hnd0 as (Hsys & _ & _).
  destruct (sys_disjoint fs Hsys) as (H0 & H1 & _).
  apply (relayout fs s d b N); try done.
  - congruence.
  - by rewrite Hm', Hm, fmap_delete.
  - by apply Hsame.
  - by apply Hsame.
  - intros k' n' Hk'. apply lookup_delete_Some in Hk' as [_ Hk'].
    destruct (node_ok _ _ _ _ _ _ _ HL Hk') as (_ & Hwf' & Hsec').
    destruct (Hold k' n' Hk') as [-> _]. done.
Qed.

Lemma Remove_missing fs s d b N nm :
  layout fs s d b N -> name_ok nm -> N !! Directory.key Directory.FileNameMaxLen nm = None ->
  exists s', Remove fresh fs nm s = Ok (false, s') /\ Disk.wf s' /\ unixfile (dev s') = unixfile (dev s).
Proof.
  intros HL [Hnm Hu8] Hk. unfold Remove.
  destruct (fetch_directory_spec _ _ _ _ _ HL) as (s1 & -> & Hs1 & Hu1). cbn [rbind].
  rewrite (Find_layout _ _ _ _ _ _ HL Hnm), Hk. by exists s1.
Qed.

Lemma Open_spec fs s d b N nm :
  layout fs s d b N -> name_ok nm ->
  exists s', Open fresh fs nm s = Ok (
      match N !! Directory.key Directory.FileNameMaxLen nm with
      | Some n => Some (OpenFile.mkOpenFile (snd n) 0)
      | None => None
      end, s') /\ Disk.wf s' /\ unixfile (dev s') = unixfile (dev s).
Proof.
  intros HL [Hnm Hu8]. unfold Open.
  destruct (fetch_directory_spec _ _ _ _ _ HL) as (s1 & -> & Hs1 & Hu1). cbn [rbind].
  rewrite (Find_layout _ _ _ _ _ _ HL Hnm). destruct (N !! _) as [[i h]|] eqn:Hk; [|by exists s1].
  cbn [rbind fmap option_fmap option_map default from_option fst snd]. unfold id.
  destruct (node_ok _ _ _ _ _ _ _ HL Hk) as (Hi & Hh & Hsec). cbn [fst snd] in *.
  rewrite (proj2 (Z.leb_le 0 i)) by apply Hi. unfold OpenFile.OpenFile_init.
  destruct (read_header s1 i h) as (s2 & -> & Hs2 & Hu2); [done..|by rewrite (sector_same s s1)|].
  exists s2. cbn [rbind]. split; [done|]. split; [done|]. congruence.
Qed.

(** Writing to a file changes the contents of that file only. *)
Lemma WriteAt_layout fs s d b N k n from num position :
  layout fs s d b N -> N !! k = Some n -> Forall is_u8 from ->
  0 <= position -> position + num < 2 ^ 31 ->
  let w := Z.max 0 (Z.min num (numBytes (snd n) - position)) in
  w <= Z.of_nat (length from) ->
  exists s', OpenFile.WriteAt fresh from num position (snd n) s = Ok (w, s') /\ layout fs s' d b N /\
    OpenFile.file_bytes s' (snd n) =
      memcpy (OpenFile.file_bytes s (snd n)) (Z.to_nat position) (take (Z.to_nat w) from) /\
    forall k' n', N !! k' = Some n' -> k' <> k ->
      OpenFile.file_bytes s' (snd n') = OpenFile.file_bytes s (snd n').
Proof.
  intros HL Hk Hu8 Hp Hov w Hw. destruct (node_ok _ _ _ _ _ _ _ HL Hk) as (Hi & Hh & Hsec).
  destruct (OpenFile.WriteAt_spec fresh from num position s (snd n)) as (s' & E & Hs' & Hf & Hframe);
    [by apply HL|done..|].
  exists s'. split; [done|]. pose proof (l_nodup _ _ _ _ _ HL) as Hnd.
  apply NoDup_app in Hnd as (Hsys & Hdis & Hndn).
  assert (forall j, j ∈ sys_sectors fs -> sector s' j = sector s j) as Hsame.
  { intros j Hj. pose proof (l_ok _ _ _ _ _ HL) as Hok. rewrite Forall_forall in Hok.
    apply Hframe; [apply Hok, elem_of_app; by left|]. intros Hin. apply (Hdis j Hj).
    eapply elem_of_nodes; [exact Hk|]. by right. }
  assert (forall k' n', N !! k' = Some n' -> k' <> k -> sector s' (fst n') = sector s (fst n') /\
    OpenFile.file_bytes s' (snd n') = OpenFile.file_bytes s (snd n')) as Hold.
  { intros k' n' Hk' Hne. eapply node_frame; [done..|]. intros j Hj Hjok _. apply Hframe; [done|].
    intros Hin. apply (nodes_disjoint N k' k n' n j Hndn Hk' Hk Hne Hj). by right. }
  split; [|split; [done|intros k' n' Hk' Hne; by apply (Hold k')]].
  destruct (l_bitmap _ _ _ _ _ HL) as (B1 & B2 & B3), (l_directory _ _ _ _ _ HL) as (D1 & D2 & D3).
  destruct (l_maphdr _ _ _ _ _ HL) as (M1 & _), (l_dirhdr _ _ _ _ _ HL) as (E1 & _).
  unfold sys_sectors in Hsame. fold (sys_data fs) in Hsame.
  apply (relayout fs s d b N); try done; try apply HL.
  - rewrite <- (l_dirfile _ _ _ _ _ HL). apply OpenFile.file_bytes_frame; [done|].
    intros j Hj. apply Hsame. do 2 right. apply elem_of_app. by right.
  - rewrite <- (l_mapfile _ _ _ _ _ HL). apply OpenFile.file_bytes_frame; [done|].
    intros j Hj. apply Hsame. do 2 right. apply elem_of_app. by left.
  - apply Hsame. by left.
  - apply Hsame. right. by left.
  - intros k' n' Hk'. destruct (node_ok _ _ _ _ _ _ _ HL Hk') as (Hi' & Hwf' & Hsec'). split; [done|].
    rewrite <- Hsec'. destruct (decide (k' = k)) as [->|Hne]; [|by apply (Hold k')].
    rewrite Hk in Hk'. injection Hk' as <-. apply Hframe; [done|].
    intros Hin. rewrite (nodes_delete N k n Hk) in Hndn. unfold node_sectors in Hndn.
    cbn [app] in Hndn. apply NoDup_cons in Hndn as [Hn _]. apply Hn, elem_of_app. by left.
Qed.

Lemma open_header s i h : Disk.wf s -> FileHdr.wf h -> sector_ok i -> sector s i = hdr_bytes h ->
  exists s', OpenFile.OpenFile_init i s = Ok (OpenFile.mkOpenFile h 0, s') /\ Disk.wf s' /\
    unixfile (dev s') = unixfile (dev s).
Proof.
  intros Hs Hh Hi Hsec. unfold OpenFile.OpenFile_init.
  destruct (read_header s i h Hs Hh Hi Hsec) as (s' & -> & Hs' & Hu). by exists s'.
Qed.

Lemma format_spec s : Disk.wf s ->
  exists fs s' d b, FileSystem_init fresh true s = Ok (fs, s') /\ layout fs s' d b ∅.
Proof.
  intros Hs. unfold FileSystem_init.
  destruct (PBitmap.PersistentBitmap_spec fresh NumSectors) as (b0 & -> & Hb0 & Hn0 & Hv0); [done|].
  cbn [rbind]. rewrite <- marks_nil in Hv0.
  destruct new_Directory_spec as (d & -> & Hd & Ht & Hdm). cbn [rbind].
  destruct (Bitmap.Mark_bits b0 FreeMapSector Hb0) as (b1 & -> & Hb1 & Hn1 & Hv1); [by rewrite Hn0|].
  cbn [rbind]. rewrite Hv0, marks_insert in Hv1 by done.
  destruct (Bitmap.Mark_bits b1 DirectorySector Hb1) as (b2 & -> & Hb2 & Hn2 & Hv2); [by rewrite Hn1, Hn0|].
  cbn [rbind]. rewrite Hv1, marks_insert in Hv2 by done.
  destruct (allocate_marks b2 [DirectorySector; FreeMapSector] FreeMapFileSize)
    as (hm & b3 & -> & Hb3 & Hv3 & Hhm & Em & Hnd3 & Hok3);
    [done|done| |by repeat constructor|done|done|].
  { apply NoDup_cons. split; [by rewrite list_elem_of_singleton|apply NoDup_singleton]. }
  cbn [rbind ASSERT].
  assert (length (sectors_of hm) = 1%nat) as Lm.
  { pose proof (length_sectors_of hm Hhm) as L. destruct Hhm as (_ & E & _).
    rewrite E, Em in L. change (divRoundUp FreeMapFileSize SectorSize) with 1 in L. lia. }
  destruct (allocate_marks b3 (sectors_of hm ++ [DirectorySector; FreeMapSector]) DirectoryFileSize)
    as (hd & b4 & -> & Hb4 & Hv4 & Hhd & Ed & Hnd4 & Hok4); [done..|rewrite length_app, Lm; done|done|].
  cbn [rbind ASSERT].
  destruct (WriteBack_FetchFrom hm FreeMapSector s) as (s1 & -> & Hs1 & W1 & _); [done..|]. cbn [rbind].
  destruct (WriteBack_FetchFrom hd DirectorySector s1) as (s2 & -> & Hs2 & W2 & F2 & _); [done..|]. cbn [rbind].
  assert (sector s2 FreeMapSector = hdr_bytes hm) as W1' by (by rewrite F2).
  destruct (open_header s2 FreeMapSector hm) as (s3 & -> & Hs3 & U3); [done..|]. cbn [rbind].
  destruct (open_header s3 DirectorySector hd) as (s4 & -> & Hs4 & U4); [done..|by rewrite (sector_same s2 s3)|].
  cbn [rbind]. set (fs := mkFileSystem (OpenFile.mkOpenFile hm 0) (OpenFile.mkOpenFile hd 0)).
  assert (sectors_of hd ++ sectors_of hm ++ [DirectorySector; FreeMapSector] ≡ₚ sys_sectors fs) as HP.
  { unfold sys_sectors, fs. cbn [OpenFile.hdr freeMapFile directoryFile]. rewrite Permutation_app_swap_app.
    rewrite app_assoc, (Permutation_app_comm (_ ++ _)). cbn [app]. apply perm_swap. }
  assert (NoDup (sys_sectors fs)) as Hnd by (by rewrite <- HP).
  assert (Bitmap.numBits b4 = NumSectors) as Hn4.
  { rewrite <- (Bitmap.length_bits b4), Hv4, length_marks by done. done. }
  destruct (flush_sys fs d b4 s4) as [_ (s6 & E & Hs6 & Fd & Fm & Hframe)]; [done..|].
  change (OpenFile.mkOpenFile hm 0) with (freeMapFile fs). change (OpenFile.mkOpenFile hd 0) with (directoryFile fs).
  apply bind_Ok_inv in E as (s5 & -> & E). cbn [rbind]. rewrite E. cbn [rbind].
  exists fs, s6, d, b4. split; [done|]. destruct (sys_disjoint fs Hnd) as (H0 & H1 & _).
  assert (nodes ∅ = []) as Hnil by done.
  split; rewrite ?Hnil, ?app_nil_r; try done.
  - split; [done|]. split; [done|]. rewrite Hframe by done. by rewrite (sector_same s3 s4), (sector_same s2 s3).
  - split; [done|]. split; [done|]. rewrite Hframe by done. by rewrite (sector_same s3 s4), (sector_same s2 s3).
  - split; [done|]. split; [done|]. by rewrite Hv4, HP.
  - by apply (Permutation_Forall HP).
Qed.

(** Opening the file system of a disk again. *)
Lemma reboot_spec fs s d b N : layout fs s d b N ->
  exists fs' s', FileSystem_init fresh false s = Ok (fs', s') /\ layout fs' s' d b N /\
    unixfile (dev s') = unixfile (dev s).
Proof.
  intros HL. unfold FileSystem_init. destruct (l_maphdr _ _ _ _ _ HL) as (M1 & M2 & M3).
  destruct (l_dirhdr _ _ _ _ _ HL) as (D1 & D2 & D3). pose proof (l_disk _ _ _ _ _ HL) as Hs.
  destruct (open_header s FreeMapSector _ Hs M1 ltac:(done) M3) as (s1 & -> & Hs1 & U1). cbn [rbind].
  destruct (open_header s1 DirectorySector (OpenFile.hdr (directoryFile fs))) as (s2 & -> & Hs2 & U2);
    [done..|by rewrite (sector_same s s1)|]. cbn [rbind].
  assert (unixfile (dev s2) = unixfile (dev s)) as U by congruence.
  do 2 eexists. split; [reflexivity|]. split; [|done].
  destruct (layout_same _ _ _ _ _ _ HL Hs2 U). by split.
Qed.

(** ** The file system as a map from names to contents *)

Definition contents (s : synchdisk) (N : gmap (list Z) node) : gmap (list Z) (list Z) :=
  (fun n : node => OpenFile.file_bytes s (snd n)) <$> N.

Lemma contents_same s s' N :
  (forall k n, N !! k = Some n -> OpenFile.file_bytes s' (snd n) = OpenFile.file_bytes s (snd n)) ->
  contents s' N = contents s N.
Proof. intros H. apply map_fmap_ext. intros k n Hn. by apply (H k). Qed.

Lemma contents_lookup s N k : contents s N !! k = None <-> N !! k = None.
Proof. unfold contents. rewrite lookup_fmap. by destruct (N !! k). Qed.

(** A file that was opened under the name [k]. *)
Definition opened (fs : FileSystem) (s : synchdisk) (m : gmap (list Z) (list Z)) (k : list Z) (h : FileHeader) : Prop :=
  exists d b N i, layout fs s d b N /\ m = contents s N /\ N !! k = Some (i, h).

Lemma opened_represents fs s m k h : opened fs s m k h -> represents fs s m.
Proof. intros (d & b & N & i & HL & -> & _). by exists d, b, N. Qed.

Lemma opened_length fs s m k h c : opened fs s m k h -> m !! k = Some c -> FileLength h = Z.of_nat (length c).
Proof.
  intros (d & b & N & i & HL & -> & Hk) Hc. unfold contents in Hc. rewrite lookup_fmap, Hk in Hc. injection Hc as <-.
  destruct (node_ok _ _ _ _ _ _ _ HL Hk) as (_ & Hh & _).
  symmetry. by apply (OpenFile.length_file_bytes s h (l_disk _ _ _ _ _ HL)).
Qed.

Lemma opened_max fs s m k h : opened fs s m k h -> FileLength h <= MaxFileSize.
Proof.
  intros (d & b & N & i & HL & _ & Hk). destruct (node_ok _ _ _ _ _ _ _ HL Hk) as (_ & [Hh _] & _). apply Hh.
Qed.

Lemma opened_same fs s s' m k h : opened fs s m k h -> Disk.wf s' -> unixfile (dev s') = unixfile (dev s) ->
  opened fs s' m k h.
Proof.
  intros (d & b & N & i & HL & -> & Hk) Hs' Hu. exists d, b, N, i. split; [by eapply layout_same|]. split; [|done].
  symmetry. apply contents_same. intros. by apply file_bytes_same.
Qed.

Lemma Open_represents fs s m nm : represents fs s m -> name_ok nm ->
  let k := Directory.key Directory.FileNameMaxLen nm in
  match m !! k with
  | None => exists s1, Open fresh fs nm s = Ok (None, s1) /\ represents fs s1 m
  | Some _ => exists h s1, Open fresh fs nm s = Ok (Some (OpenFile.mkOpenFile h 0), s1) /\ opened fs s1 m k h
  end.
Proof.
  intros HR Hnm k. pose proof HR as (d & b & N & HL & ->). fold (contents s N).
  destruct (Open_spec fs s d b N nm HL Hnm) as (s1 & E & Hs1 & Hu1). change (Directory.key _ nm) with k in E.
  unfold contents. rewrite lookup_fmap. destruct (N !! k) as [[i h]|] eqn:Hk; cbn.
  - exists h, s1. split; [done|]. eapply opened_same; [|done|done]. by exists d, b, N, i.
  - exists s1. split; [done|]. by eapply represents_same.
Qed.

Lemma ReadAt_opened fs s m k h c num position :
  opened fs s m k h -> m !! k = Some c -> 0 <= position -> position + num < 2 ^ 31 ->
  exists s', OpenFile.ReadAt fresh num position h s = Ok (slice (Z.to_nat position) (Z.to_nat num) c, s') /\
    opened fs s' m k h.
Proof.
  intros HO Hc Hp Hov. pose proof HO as (d & b & N & i & HL & -> & Hk). unfold contents in Hc.
  rewrite lookup_fmap, Hk in Hc. injection Hc as <-. destruct (node_ok _ _ _ _ _ _ _ HL Hk) as (_ & Hh & _).
  destruct (OpenFile.ReadAt_spec fresh num position s h (l_disk _ _ _ _ _ HL) Hh Hp Hov) as (s' & E & Hs' & Hu).
  exists s'. split; [done|]. by eapply opened_same.
Qed.

Lemma WriteAt_opened fs s m k h c from num position :
  opened fs s m k h -> m !! k = Some c -> Forall is_u8 from -> 0 <= position -> position + num < 2 ^ 31 ->
  let w := Z.max 0 (Z.min num (Z.of_nat (length c) - position)) in
  w <= Z.of_nat (length from) ->
  exists s', OpenFile.WriteAt fresh from num position h s = Ok (w, s') /\
    opened fs s' (<[k := memcpy c (Z.to_nat position) (take (Z.to_nat w) from)]> m) k h.
Proof.
  intros HO Hc Hu8 Hp Hov w Hw. pose proof (opened_length _ _ _ _ _ _ HO Hc) as Hlen.
  destruct HO as (d & b & N & i & HL & -> & Hk). unfold contents in Hc. rewrite lookup_fmap, Hk in Hc. injection Hc as <-.
  subst w. rewrite <- Hlen in Hw |- *.
  destruct (WriteAt_layout fs s d b N k (i, h) from num position) as (s' & E & HL' & Hf & Hold); [done..|].
  exists s'. split; [done|]. exists d, b, N, i. split; [done|]. split; [|done]. cbn [snd] in *. unfold FileLength.
  rewrite <- Hf. apply map_eq. intros k'. unfold contents. destruct (decide (k' = k)) as [->|Hne].
  - by rewrite lookup_insert_eq, lookup_fmap, Hk.
  - rewrite lookup_insert_ne, !lookup_fmap by done. destruct (N !! k') as [n'|] eqn:Hk'; [|done].
    cbn. f_equal. symmetry. by apply (Hold k').
Qed.

Lemma Create_represents fs s m nm size :
  represents fs s m -> name_ok nm -> 0 <= size <= MaxFileSize ->
  let k := Directory.key Directory.FileNameMaxLen nm in
  (m !! k = None -> Z.of_nat (base.size m) < NumDirEntries ->
     exists s' c, Create fresh fs nm size s = Ok (true, s') /\ Z.of_nat (length c) = size /\
       represents fs s' (<[k := c]> m)) /\
  (is_Some (m !! k) \/ Z.of_nat (base.size m) = NumDirEntries ->
     exists s', Create fresh fs nm size s = Ok (false, s') /\ represents fs s' m).
Proof.
  intros (d & b & N & HL & ->) Hnm Hsz k. fold (contents s N).
  assert (represents fs s (contents s N)) as HR by (by exists d, b, N).
  assert (is_Some (contents s N !! k) <-> is_Some (N !! k)) as Hk
    by (unfold contents; rewrite lookup_fmap; apply fmap_is_Some).
  assert (base.size (contents s N) = base.size N) as Hsize by (unfold contents; apply map_size_fmap).
  rewrite Hk, contents_lookup, Hsize. split.
  - intros Hnone Hroom. destruct (Create_made fs s d b N nm size HL Hnm Hsz Hnone Hroom)
      as (s' & d' & b' & n & E & HL' & Hlen & Hold).
    exists s', (OpenFile.file_bytes s' (snd n)). split; [done|].
    destruct (node_ok _ _ _ _ _ k n HL') as (_ & Hh & _); [apply lookup_insert_eq|]. split.
    + pose proof (l_disk _ _ _ _ _ HL') as Hs'. pose proof (OpenFile.length_file_bytes s' _ Hs' Hh). lia.
    + exists d', b', (<[k := n]> N). split; [done|]. rewrite fmap_insert. f_equal.
      symmetry. by apply contents_same.
  - intros Hcase. destruct (Create_refused fs s d b N nm size HL Hnm Hcase) as (s' & E & Hs' & Hu).
    exists s'. split; [done|]. by eapply represents_same.
Qed.

Lemma Remove_represents fs s m nm :
  represents fs s m -> name_ok nm ->
  let k := Directory.key Directory.FileNameMaxLen nm in
  match m !! k with
  | Some _ => exists s', Remove fresh fs nm s = Ok (true, s') /\ represents fs s' (delete k m)
  | None => exists s', Remove fresh fs nm s = Ok (false, s') /\ represents fs s' m
  end.
Proof.
  intros HR Hnm k. pose proof HR as (d & b & N & HL & ->). fold (contents s N). unfold contents. rewrite lookup_fmap.
  destruct (N !! k) as [n|] eqn:Hn; cbn.
  - destruct (Remove_found fs s d b N nm n HL Hnm Hn) as (s' & d' & b' & E & HL' & Hold).
    exists s'. split; [done|]. exists d', b', (delete k N). split; [done|].
    rewrite <- fmap_delete. symmetry. by apply contents_same.
  - destruct (Remove_missing fs s d b N nm HL Hnm Hn) as (s' & E & Hs' & Hu).
    exists s'. split; [done|]. by eapply represents_same.
Qed.

(** Names of at most eight characters are listed, each once. *)
Lemma List_represents fs s m : represents fs s m ->
  map_Forall (fun k _ => (length k < Directory.FileNameMaxLen)%nat) m ->
  exists names s', List fresh fs s = Ok (names, s') /\ names ≡ₚ (map_to_list m).*1 /\ represents fs s' m.
Proof.
  intros HR Hk. pose proof HR as (d & b & N & HL & ->). unfold List.
  destruct (fetch_directory_spec fs s d b N HL) as (s1 & -> & Hs1 & Hu). cbn [rbind].
  destruct (l_directory _ _ _ _ _ HL) as (Hd & _ & Hm).
  assert ((Directory.entries d).*1 ≡ₚ (map_to_list N).*1) as HP.
  { assert ((map_to_list N).*1 = (map_to_list (Directory.dmap d)).*1) as ->.
    { rewrite Hm, map_to_list_fmap, <- list_fmap_compose. by apply list_fmap_ext; intros ? []. }
    unfold Directory.dmap. by rewrite map_to_list_to_map by apply Hd. }
  rewrite Directory.List_spec; [cbn [rbind]|done|].
  - exists (Directory.entries d).*1, s1. split; [done|]. split; [|by eapply represents_same].
    rewrite HP, map_to_list_fmap, <- list_fmap_compose. apply reflexive_eq, list_fmap_ext. by intros ? [].
  - rewrite HP. apply Forall_fmap, Forall_forall. intros [k n] Hn%elem_of_map_to_list. cbn.
    apply (Hk k (OpenFile.file_bytes s n.2)). by rewrite lookup_fmap, Hn.
Qed.


(** C30: Files by name: [Open] returns NULL for a name that does not exist.  For
    an existing file it returns an open file through which reads return the
    contents and writes replace exactly the bytes written, up to the end of the
    file, of that file and of no other. *)
Theorem open_read_write fs s m nm :
  represents fs s m -> name_ok nm ->
  let k := Directory.key Directory.FileNameMaxLen nm in
  (m !! k = None -> exists s1, Open fresh fs nm s = Ok (None, s1) /\ represents fs s1 m) /\
  (forall c, m !! k = Some c ->
     exists f s1, Open fresh fs nm s = Ok (Some f, s1) /\ represents fs s1 m /\
       OpenFile.Length f = Z.of_nat (length c) /\
       (forall num position, 0 <= position -> position + num < 2 ^ 31 ->
          exists s2, OpenFile.ReadAt fresh num position (OpenFile.hdr f) s1 =
              Ok (slice (Z.to_nat position) (Z.to_nat num) c, s2) /\ represents fs s2 m) /\
       (forall from num position, Forall is_u8 from -> 0 <= position -> position + num < 2 ^ 31 ->
          let w := Z.max 0 (Z.min num (Z.of_nat (length c) - position)) in
          w <= Z.of_nat (length from) ->
          exists s2, OpenFile.WriteAt fresh from num position (OpenFile.hdr f) s1 = Ok (w, s2) /\
            represents fs s2 (<[k := memcpy c (Z.to_nat position) (take (Z.to_nat w) from)]> m))).
Proof.
  intros HR Hnm k. pose proof (Open_represents fs s m nm HR Hnm) as HO. cbv zeta in HO. fold k in HO.
  split; [intros Hk; by rewrite Hk in HO|]. intros c Hc. rewrite Hc in HO. destruct HO as (h & s1 & E & HO).
  exists (OpenFile.mkOpenFile h 0), s1. split; [done|]. split; [by eapply opened_represents|].
  split; [by eapply opened_length|]. cbn [OpenFile.hdr]. split.
  - intros num position Hp Hov. destruct (ReadAt_opened _ _ _ _ _ _ num position HO Hc Hp Hov) as (s2 & E2 & HO2).
    exists s2. split; [done|]. by eapply opened_represents.
  - intros from num position Hu8 Hp Hov Hw.
    destruct (WriteAt_opened _ _ _ _ _ _ from num position HO Hc Hu8 Hp Hov Hw) as (s2 & E2 & HO2).
    exists s2. split; [done|]. by eapply opened_represents.
Qed.

Lemma empty_layout fs s d b : layout fs s d b ∅ -> represents fs s ∅.
Proof. intros HL. exists d, b, ∅. split; [exact HL|]. by rewrite fmap_empty. Qed.

(** Formatting any disk makes an empty file system, and starting Nachos
    again on a disk without formatting it gives back the files it had. *)
Theorem format_and_reboot s :
  Disk.wf s ->
  (exists fs s', FileSystem_init fresh true s = Ok (fs, s') /\ represents fs s' ∅) /\
  (forall fs m, represents fs s m ->
     exists fs' s', FileSystem_init fresh false s = Ok (fs', s') /\ represents fs' s' m).
Proof.
  intros Hs. split.
  - destruct (format_spec s Hs) as (fs & s' & d & b & E & HL). exists fs, s'. split; [done|].
    by apply empty_layout in HL.
  - intros fs m (d & b & N & HL & ->). destruct (reboot_spec fs s d b N HL) as (fs' & s' & E & HL' & Hu).
    exists fs', s'. split; [done|]. exists d, b, N. split; [done|].
    symmetry. apply contents_same. intros. by apply file_bytes_same.
Qed.

End Proofs.

(** A new disk, formatted. *)
Lemma formatted_disk : exists fs s, represents fs s ∅ /\ Disk.wf s.
Proof.
  destruct (Disk_fresh (mkDiskKernel 0 0 0 [])) as (s & _ & Hs & _); [done|].
  destruct (format_spec (fun _ => 0) (fun _ => conj (Z.le_refl 0) eq_refl) s Hs)
    as (fs & s' & d & b & _ & HL).
  exists fs, s'. split; [exact (empty_layout _ _ _ _ HL)|exact (l_disk _ _ _ _ _ HL)].
Qed.

Lemma zero_u8 (i : Z) : is_u8 ((fun _ => 0) i).
Proof. done. Qed.

(** The name a.t *)
Definition a_name : list Z := [97; 46; 116; 0].

Lemma a_name_ok : name_ok a_name.
Proof. split; [done|]. by repeat constructor. Qed.


Lemma open_read_write_witness :
  exists fs s f s1 s2 c, Open (fun _ => 0) fs a_name s = Ok (Some f, s1) /\
    OpenFile.WriteAt (fun _ => 0) [1; 2; 3] 3 299 (OpenFile.hdr f) s1 = Ok (1, s2) /\
    represents fs s2 {[ [97; 46; 116] := memcpy c 299 [1] ]}.
Proof.
  destruct formatted_disk as (fs & s0 & (d & b & N & HL & HN) & _).
  assert (N = ∅) as -> by (symmetry in HN; by apply fmap_empty_inv in HN).
  destruct (Create_made (fun _ => 0) zero_u8 fs s0 d b ∅ a_name 300 HL a_name_ok)
    as (s & d' & b' & n & _ & HL' & Hlen & _); [split; [lia|]|done|done|].
  { unfold MaxFileSize. change (NumDirect * SectorSize) with 3840. lia. }
  assert (length (OpenFile.file_bytes s (snd n)) = 300%nat) as Hc.
  { destruct (node_ok _ _ _ _ _ [97; 46; 116] n HL') as (_ & Hh & _); [apply lookup_insert_eq|].
    pose proof (OpenFile.length_file_bytes s _ (l_disk _ _ _ _ _ HL') Hh). lia. }
  destruct (open_read_write (fun _ => 0) zero_u8 fs s {[ [97; 46; 116] := OpenFile.file_bytes s (snd n) ]} a_name)
    as [_ H].
  { exists d', b', (<[ [97; 46; 116] := n ]> ∅). split; [exact HL'|].
    by rewrite fmap_insert, fmap_empty. }
  { exact a_name_ok. }
  destruct (H _ (lookup_insert_eq _ _ _)) as (f & s1 & E & _ & _ & _ & Hw).
  destruct (Hw [1; 2; 3] 3 299) as (s2 & E2 & HR); rewrite ?Hc in *; [by repeat constructor|lia|lia|cbn; lia|].
  exists fs, s, f, s1, s2, (OpenFile.file_bytes s (snd n)).
  rewrite insert_singleton_eq in HR. exact (conj E (conj E2 HR)).
Defined.

Lemma format_and_reboot_witness :
  exists s fs s', FileSystem_init (fun _ => 0) true s = Ok (fs, s') /\ represents fs s' ∅.
Proof.
  destruct formatted_disk as (_ & s & _ & Hs). exists s.
  exact (proj1 (format_and_reboot (fun _ => 0) zero_u8 s Hs)).
Defined.

End FileSys.
