(* ===== verification/ThreadSwitch.v ===== *)
(** * Switching kernel threads on the host

    threads/switch.S and threads/switch.h for the host the build uses (x86), and
    the part of threads/thread.cc that prepares a stack: [Thread::StackAllocate]
    and [Thread::CheckOverflow].  The assembly routines [SWITCH] and [ThreadRoot]
    are lists of instructions, run on the registers of the processor and a
    memory of words.  An address that is not mapped, or not aligned, ends the
    program.  The thread objects begin with [stackTop] and [machineState], which
    is what [SWITCH] relies on. *)

From S2P Require Import Prelude Ints.

Module ThreadSwitch.

(** ** The processor *)

Inductive register := EAX | EBX | ECX | EDX | EBP | ESI | EDI | ESP.

#[global] Instance register_eq_dec : EqDecision register.
Proof. solve_decision. Defined.

Record registers := mkRegisters {
  eax : Z; ebx : Z; ecx : Z; edx : Z; ebp : Z; esi : Z; edi : Z; esp : Z
}.

Definition get (r : register) (rs : registers) : Z :=
  match r with
  | EAX => eax rs | EBX => ebx rs | ECX => ecx rs | EDX => edx rs
  | EBP => ebp rs | ESI => esi rs | EDI => edi rs | ESP => esp rs
  end.

Definition set (r : register) (v : Z) (rs : registers) : registers :=
  match r with
  | EAX => mkRegisters v (ebx rs) (ecx rs) (edx rs) (ebp rs) (esi rs) (edi rs) (esp rs)
  | EBX => mkRegisters (eax rs) v (ecx rs) (edx rs) (ebp rs) (esi rs) (edi rs) (esp rs)
  | ECX => mkRegisters (eax rs) (ebx rs) v (edx rs) (ebp rs) (esi rs) (edi rs) (esp rs)
  | EDX => mkRegisters (eax rs) (ebx rs) (ecx rs) v (ebp rs) (esi rs) (edi rs) (esp rs)
  | EBP => mkRegisters (eax rs) (ebx rs) (ecx rs) (edx rs) v (esi rs) (edi rs) (esp rs)
  | ESI => mkRegisters (eax rs) (ebx rs) (ecx rs) (edx rs) (ebp rs) v (edi rs) (esp rs)
  | EDI => mkRegisters (eax rs) (ebx rs) (ecx rs) (edx rs) (ebp rs) (esi rs) v (esp rs)
  | ESP => mkRegisters (eax rs) (ebx rs) (ecx rs) (edx rs) (ebp rs) (esi rs) (edi rs) v
  end.

(** Words, by address. *)
Notation memory := (gmap Z Z).

Definition load (a : Z) (m : memory) : res Z :=
  if a mod 4 =? 0 then match m !! a with Some v => Ok v | None => Err OutOfBounds end
  else Err OutOfBounds.

Definition store (a v : Z) (m : memory) : res memory :=
  let* _ := load a m in Ok (<[a := v]> m).

(** The instructions the routines use, in the order of the assembler: source
    before destination. *)
Inductive instr :=
| movl (src dst : register)                       (* movl %src,%dst *)
| movl_from (off : Z) (base dst : register)       (* movl off(%base),%dst *)
| movl_to (src : register) (off : Z) (base : register) (* movl %src,off(%base) *)
| movl_get (a : Z) (dst : register)               (* movl a,%dst *)
| movl_put (src : register) (a : Z)               (* movl %src,a *)
| pushl (src : register)
| popl (dst : register).

Definition push (v : Z) (rs : registers) (m : memory) : res (registers * memory) :=
  let sp := u32 (esp rs - 4) in
  let* m := store sp v m in
  Ok (set ESP sp rs, m).

Definition pop (rs : registers) (m : memory) : res (Z * registers) :=
  let* v := load (esp rs) m in
  Ok (v, set ESP (u32 (esp rs + 4)) rs).

Definition exec (i : instr) (s : registers * memory) : res (registers * memory) :=
  let '(rs, m) := s in
  match i with
  | movl src dst => Ok (set dst (get src rs) rs, m)
  | movl_from off base dst =>
      let* v := load (u32 (get base rs + off)) m in Ok (set dst v rs, m)
  | movl_to src off base =>
      let* m := store (u32 (get base rs + off)) (get src rs) m in Ok (rs, m)
  | movl_get a dst => let* v := load a m in Ok (set dst v rs, m)
  | movl_put src a => let* m := store a (get src rs) m in Ok (rs, m)
  | pushl src => push (get src rs) rs m
  | popl dst => let2* (v, rs) := pop rs m in Ok (set dst v rs, m)
  end.

Fixpoint exec_all (code : list instr) (s : registers * memory) : res (registers * memory) :=
  match code with
  | [] => Ok s
  | i :: code' => let* s := exec i s in exec_all code' s
  end.

(** ** switch.h *)

Definition _ESP : Z := 0.
Definition _EAX : Z := 4.
Definition _EBX : Z := 8.
Definition _ECX : Z := 12.
Definition _EDX : Z := 16.
Definition _EBP : Z := 20.
Definition _ESI : Z := 24.
Definition _EDI : Z := 28.
Definition _PC : Z := 32.

Definition PCState : Z := _PC / 4 - 1.
Definition InitialPCState : Z := _ESI / 4 - 1.
Definition InitialArgState : Z := _EDX / 4 - 1.
Definition WhenDonePCState : Z := _EDI / 4 - 1.
Definition StartupPCState : Z := _ECX / 4 - 1.

Definition InitialPC : register := ESI.
Definition InitialArg : register := EDX.
Definition WhenDonePC : register := EDI.
Definition StartupPC : register := ECX.

Section Code.

(** The address of the word [_eax_save]. *)
Context (eax_save : Z).

(** [SWITCH], up to its [ret]. *)
Definition SWITCH_code : list instr :=
  [movl_put EAX eax_save;
   movl_from 4 ESP EAX;
   movl_to EBX _EBX EAX;
   movl_to ECX _ECX EAX;
   movl_to EDX _EDX EAX;
   movl_to ESI _ESI EAX;
   movl_to EDI _EDI EAX;
   movl_to EBP _EBP EAX;
   movl_to ESP _ESP EAX;
   movl_get eax_save EBX;
   movl_to EBX _EAX EAX;
   movl_from 0 ESP EBX;
   movl_to EBX _PC EAX;
   movl_from 8 ESP EAX;
   movl_from _EAX EAX EBX;
   movl_put EBX eax_save;
   movl_from _EBX EAX EBX;
   movl_from _ECX EAX ECX;
   movl_from _EDX EAX EDX;
   movl_from _ESI EAX ESI;
   movl_from _EDI EAX EDI;
   movl_from _EBP EAX EBP;
   movl_from _ESP EAX ESP;
   movl_from _PC EAX EAX;
   movl_to EAX 4 ESP;
   movl_get eax_save EAX].

(** [SWITCH]: the address it returns to, and the registers and the memory
    there. *)
Definition SWITCH (rs : registers) (m : memory) : res (Z * registers * memory) :=
  let2* (rs, m) := exec_all SWITCH_code (rs, m) in
  let2* (pc, rs) := pop rs m in
  Ok (pc, rs, m).

End Code.

(** ** thread.cc *)

Definition StackSize : Z := 8 * 1024. (* in words *)
Definition STACK_FENCEPOST : Z := 0xdedbeef.

(** [machineState[i] = v] in the thread object at [this]. *)
Definition set_machineState (this i v : Z) (m : memory) : res memory := store (this + 4 + 4 * i) v m.

(** [StackAllocate] for the thread object at [this], when [AllocBoundedArray]
    returns [stack]; the last three arguments are the addresses of the
    functions. *)
Definition StackAllocate (this stack func arg ThreadRoot ThreadBegin ThreadFinish : Z) (m : memory) : res memory :=
  let stackTop := stack + 4 * (StackSize - 4) in
  let stackTop := stackTop - 4 in
  let* m := store stackTop ThreadRoot m in
  let* m := store (this + _ESP) stackTop m in
  let* m := store stack STACK_FENCEPOST m in
  let* m := set_machineState this PCState ThreadRoot m in
  let* m := set_machineState this StartupPCState ThreadBegin m in
  let* m := set_machineState this InitialPCState func m in
  let* m := set_machineState this InitialArgState arg m in
  set_machineState this WhenDonePCState ThreadFinish m.

(** [CheckOverflow]: [stack] is null for the main thread. *)
Definition CheckOverflow (stack : option Z) (m : memory) : res unit :=
  match stack with
  | None => Ok tt
  | Some a => let* v := load a m in ASSERT (v =? STACK_FENCEPOST)
  end.

(** ** ThreadRoot *)

Section Root.

(** What a C function does: from the registers and the memory at its entry, the
    return address on top of the stack, to those at its return. *)
Context (function : Z -> registers -> memory -> res (registers * memory)).

(** [call *%r], up to the entry of the function, with the return address [here].
    The calls made so far, each with the word that a parameter would be, are
    collected in the order of their execution. *)
Definition enter (r : register) (here : Z) (s : list (Z * Z) * registers * memory)
  : res (list (Z * Z) * registers * memory) :=
  let '(calls, rs, m) := s in
  let f := get r rs in
  let2* (rs, m) := push here rs m in
  let* arg := load (u32 (esp rs + 4)) m in
  Ok (calls ++ [(f, arg)], rs, m).

(** A call and the execution of the function. *)
Definition call (r : register) (here : Z) (s : list (Z * Z) * registers * memory)
  : res (list (Z * Z) * registers * memory) :=
  let f := get r (snd (fst s)) in
  let3* (calls, rs, m) := enter r here s in
  let2* (rs, m) := function f rs m in
  Ok (calls, rs, m).

(** [ThreadRoot], up to its last call, which does not return. *)
Definition ThreadRoot (here : Z) (rs : registers) (m : memory) : res (list (Z * Z) * registers * memory) :=
  let2* (rs, m) := exec_all [pushl EBP; movl ESP EBP; pushl InitialArg] (rs, m) in
  let* s := call StartupPC here ([], rs, m) in
  let* s := call InitialPC here s in
  enter WhenDonePC here s.

End Root.

(** ** Loads and stores *)

Lemma load_Some a m v : a mod 4 = 0 -> m !! a = Some v -> load a m = Ok v.
Proof. intros Ha E. unfold load. by rewrite Ha, E. Qed.

Lemma load_Ok a m v : load a m = Ok v -> a mod 4 = 0 /\ m !! a = Some v.
Proof. unfold load. destruct (Z.eqb_spec (a mod 4) 0); [|done]. destruct (m !! a); [|done]. by intros [= <-]. Qed.

Lemma store_mapped a v m : a mod 4 = 0 -> is_Some (m !! a) -> store a v m = Ok (<[a := v]> m).
Proof. intros Ha [w E]. unfold store. by rewrite (load_Some a m w). Qed.

Lemma exec_all_app c1 c2 s : exec_all (c1 ++ c2) s = rbind (exec_all c1 s) (exec_all c2).
Proof. revert s. induction c1 as [|i c1 IH]; intros s; [done|]. cbn. destruct (exec i s); [apply IH|done]. Qed.

(** ** Saved contexts *)

(** The registers and the return address of a thread that waits in [SWITCH]. *)
Record context := mkContext { saved : registers; pc : Z }.

(** The words of the thread object at [p] that hold a context. *)
Definition slots (p : Z) (c : context) : list (Z * Z) :=
  let rs := saved c in
  [(p + _PC, pc c); (p + _EAX, eax rs); (p + _ESP, esp rs); (p + _EBP, ebp rs); (p + _EDI, edi rs);
   (p + _ESI, esi rs); (p + _EDX, edx rs); (p + _ECX, ecx rs); (p + _EBX, ebx rs)].

(** The memory after a context is saved. *)
Definition save (p : Z) (c : context) (m : memory) : memory :=
  foldr (fun w m => <[w.1 := w.2]> m) m (slots p c).

(** The part of a thread object that [SWITCH] uses. *)
Definition object (p a : Z) : Prop := p <= a < p + 36.

Definition mapped (a : Z) (m : memory) : Prop := a mod 4 = 0 /\ is_Some (m !! a).

Record object_ok (p : Z) (m : memory) : Prop := {
  o_aligned : p mod 4 = 0;
  o_range : 0 <= p /\ p + 36 <= 2 ^ 32;
  o_mapped : forall a, object p a -> a mod 4 = 0 -> is_Some (m !! a)
}.

(** The thread object at [p] holds the context [c], and the stack of the thread
    ends with the return address and at least one more word. *)
Record suspended (p : Z) (c : context) (m : memory) : Prop := {
  s_slots : Forall (fun w => m !! w.1 = Some w.2) (slots p c);
  s_range : 0 <= esp (saved c) /\ esp (saved c) + 8 <= 2 ^ 32;
  s_aligned : esp (saved c) mod 4 = 0;
  s_return : m !! esp (saved c) = Some (pc c);
  s_above : is_Some (m !! (esp (saved c) + 4))
}.

Ltac offsets := unfold object, _ESP, _EAX, _EBX, _ECX, _EDX, _EBP, _ESI, _EDI, _PC in *.

Lemma save_other p c m a : ~ object p a -> save p c m !! a = m !! a.
Proof.
  intros Ha. unfold save, slots. cbn [foldr fst snd]. offsets.
  by rewrite !lookup_insert_ne by lia.
Qed.

Lemma save_slots p c m : Forall (fun w => save p c m !! w.1 = Some w.2) (slots p c).
Proof.
  unfold save, slots. cbn [foldr fst snd]. offsets.
  repeat apply Forall_cons_2; try apply Forall_nil_2; cbn [fst snd];
    repeat (rewrite lookup_insert_eq || rewrite lookup_insert_ne by lia); done.
Qed.

Lemma slots_object p c w : w ∈ slots p c -> object p w.1.
Proof.
  unfold slots. rewrite !elem_of_cons, elem_of_nil. offsets.
  intros H. destruct_or! H; subst; cbn [fst]; lia || done.
Qed.

(** Memory accesses at known places. *)
Ltac aligned := offsets; zify_div; lia.
Ltac in_memory :=
  repeat (rewrite lookup_insert_eq || rewrite lookup_insert_ne by (offsets; lia));
  first [eassumption | rewrite Z.add_0_r; eassumption | reflexivity | eexists; eassumption | eexists; reflexivity
        | match goal with H : forall a, object _ a -> a mod 4 = 0 -> is_Some _ |- _ => apply H; [offsets; lia|aligned] end].
Ltac access :=
  cbn [exec_all exec get set eax ebx ecx edx ebp esi edi esp rbind];
  rewrite ?u32_id by (unfold is_u32; offsets; lia);
  first [ rewrite store_mapped; [|aligned|in_memory] | erewrite load_Some; [|aligned|in_memory] ];
  cbn [exec_all exec get set eax ebx ecx edx ebp esi edi esp rbind].

(** ** SWITCH *)

(** The call [SWITCH(t1, t2)] with the return address [ra]. *)
Record calling (rs : registers) (ra p1 p2 : Z) (m : memory) : Prop := {
  k_range : 0 <= esp rs /\ esp rs + 12 <= 2 ^ 32;
  k_aligned : esp rs mod 4 = 0;
  k_return : m !! esp rs = Some ra;
  k_t1 : m !! (esp rs + 4) = Some p1;
  k_t2 : m !! (esp rs + 8) = Some p2
}.

(** The memory after [SWITCH]. *)
Definition switched (eax_save : Z) (rs : registers) (ra p1 : Z) (c : context) (m : memory) : memory :=
  <[esp (saved c) + 4 := pc c]> (<[eax_save := eax (saved c)]>
    (save p1 (mkContext rs ra) (<[eax_save := eax rs]> m))).

Section Switch.

Context (eax_save : Z) (rs : registers) (ra p1 p2 : Z) (c : context) (m : memory).
Context (Hcall : calling rs ra p1 p2 m).
Context (Ho1 : object_ok p1 m) (Ho2 : object_ok p2 m) (Hsus : suspended p2 c m).
Context (Hsave : mapped eax_save m).

(** The thread objects, the stacks and [_eax_save] lie apart. *)
Context (Hobjects : p1 + 36 <= p2 \/ p2 + 36 <= p1).
Context (Hsave1 : ~ object p1 eax_save) (Hsave2 : ~ object p2 eax_save).
Context (Hstack : forall a, esp rs <= a <= esp rs + 8 -> ~ object p1 a /\ a <> eax_save).
Context (Hstack2 : forall a, esp (saved c) <= a <= esp (saved c) + 4 -> ~ object p1 a /\ ~ object p2 a /\ a <> eax_save).

(** The first half: the old thread is saved, and [eax] points to the new one. *)
Lemma SWITCH_saves :
  exec_all (take 14 (SWITCH_code eax_save)) (rs, m) =
    Ok (set EAX p2 (set EBX ra rs), save p1 (mkContext rs ra) (<[eax_save := eax rs]> m)).
Proof.
  destruct Hcall as [Hr Ha Hret Ht1 Ht2]. destruct Ho1 as [Ha1 Hr1 Hm1]. destruct Hsave as [Has [w Hw]].
  pose proof (Hstack (esp rs) ltac:(lia)) as [S1 S1']. pose proof (Hstack (esp rs + 4) ltac:(lia)) as [S2 S2'].
  pose proof (Hstack (esp rs + 8) ltac:(lia)) as [S3 S3'].
  unfold SWITCH_code. cbn [take]. repeat access. destruct rs. reflexivity.
Qed.

(** The second half: the new thread is restored. *)
Lemma SWITCH_restores m1 r1 : eax r1 = p2 ->
  Forall (fun w => m1 !! w.1 = Some w.2) (slots p2 c) -> is_Some (m1 !! (esp (saved c) + 4)) -> is_Some (m1 !! eax_save) ->
  exec_all (drop 14 (SWITCH_code eax_save)) (r1, m1) =
    Ok (saved c, <[esp (saved c) + 4 := pc c]> (<[eax_save := eax (saved c)]> m1)).
Proof.
  intros Er Hs Ha Hx. destruct Ho2 as [Ha2 Hr2 _]. destruct Hsave as [Has _]. destruct Hsus as [_ Hr Hal _ _].
  pose proof (Hstack2 (esp (saved c) + 4) ltac:(lia)) as (_ & S1 & S1').
  unfold slots in Hs. rewrite !Forall_cons in Hs. cbn [fst snd] in Hs. destruct Hs as (E1 & E2 & E3 & E4 & E5 & E6 & E7 & E8 & E9 & _).
  destruct r1 as [a1 b1 c1 d1 e1 f1 g1 h1]. cbn [eax] in Er. subst a1.
  unfold SWITCH_code. cbn [drop]. repeat access. by destruct (saved c).
Qed.

Lemma SWITCH_spec :
  SWITCH eax_save rs m = Ok (pc c, set ESP (u32 (esp (saved c) + 4)) (saved c), switched eax_save rs ra p1 c m).
Proof.
  unfold SWITCH. rewrite <- (take_drop 14 (SWITCH_code eax_save)), exec_all_app, SWITCH_saves. cbn [rbind].
  pose proof Hsus as [Hs Hr Hal Hret Habove]. destruct Hsave as [_ Hx].
  pose proof (Hstack2 (esp (saved c)) ltac:(lia)) as (N1 & _ & N1').
  pose proof (Hstack2 (esp (saved c) + 4) ltac:(lia)) as (N2 & _ & N2').
  rewrite SWITCH_restores.
  - cbn [rbind]. unfold pop. rewrite (load_Some _ _ (pc c)); [done|done|].
    rewrite lookup_insert_ne, lookup_insert_ne, save_other, lookup_insert_ne by (done || lia). done.
  - done.
  - rewrite Forall_forall in Hs |- *. intros w Hw. pose proof (slots_object _ _ _ Hw) as Hob. rewrite save_other.
    + rewrite lookup_insert_ne; [by apply Hs|]. intros E. by rewrite <- E in Hob.
    + unfold object in *. lia.
  - rewrite save_other, lookup_insert_ne by done. done.
  - rewrite save_other by done. by rewrite lookup_insert_eq.
Qed.

End Switch.

(** ** New threads *)

(** The context that [StackAllocate] prepares; [eax], [ebx] and [ebp] are what the
    thread object holds. *)
Definition fresh_context (stack func arg ThreadRoot ThreadBegin ThreadFinish y b z : Z) : context :=
  mkContext (mkRegisters y b ThreadBegin arg z func ThreadFinish (stack + 4 * (StackSize - 5))) ThreadRoot.

(** [StackAllocate] writes the thread object and two words of the stack. *)
Lemma StackAllocate_spec p stack func arg root begin finish m :
  object_ok p m -> mapped stack m -> mapped (stack + 4 * (StackSize - 5)) m ->
  StackAllocate p stack func arg root begin finish m = Ok
    (<[p + _EDI := finish]> (<[p + _EDX := arg]> (<[p + _ESI := func]> (<[p + _ECX := begin]>
      (<[p + _PC := root]> (<[stack := STACK_FENCEPOST]> (<[p + _ESP := stack + 4 * (StackSize - 5)]>
        (<[stack + 4 * (StackSize - 5) := root]> m)))))))).
Proof.
  intros [Ha Hr Hm] [Hs1 Hs2] [Ht1 Ht2]. unfold StackAllocate, set_machineState.
  replace (stack + 4 * (StackSize - 4) - 4) with (stack + 4 * (StackSize - 5)) by lia.
  assert (forall k, 0 <= k <= 8 -> (p + 4 * k) mod 4 = 0 /\ is_Some (m !! (p + 4 * k))) as Hslot.
  { intros k Hk. assert ((p + 4 * k) mod 4 = 0) by (zify_div; lia). split; [done|]. apply Hm; [unfold object; lia|done]. }
  change (p + _ESP) with (p + 4 * 0). change (p + _EDI) with (p + 4 * 7). change (p + _EDX) with (p + 4 * 4).
  change (p + _ESI) with (p + 4 * 6). change (p + _ECX) with (p + 4 * 3). change (p + _PC) with (p + 4 * 8).
  replace (p + 4 + 4 * PCState) with (p + 4 * 8) by (unfold PCState, _PC; zify_div; lia).
  replace (p + 4 + 4 * StartupPCState) with (p + 4 * 3) by (unfold StartupPCState, _ECX; zify_div; lia).
  replace (p + 4 + 4 * InitialPCState) with (p + 4 * 6) by (unfold InitialPCState, _ESI; zify_div; lia).
  replace (p + 4 + 4 * InitialArgState) with (p + 4 * 4) by (unfold InitialArgState, _EDX; zify_div; lia).
  replace (p + 4 + 4 * WhenDonePCState) with (p + 4 * 7) by (unfold WhenDonePCState, _EDI; zify_div; lia).
  repeat (rewrite store_mapped; [cbn [rbind]|by apply Hslot || done|
    rewrite ?lookup_insert_is_Some'; repeat right; (by apply Hslot) || done]). done.
Qed.

Lemma StackAllocate_suspended p stack func arg root begin finish y b z m m' :
  object_ok p m -> stack mod 4 = 0 -> 0 <= stack -> stack + 4 * StackSize <= 2 ^ 32 ->
  (forall a, stack <= a < stack + 4 * StackSize -> ~ object p a) ->
  (forall a, stack <= a < stack + 4 * StackSize -> a mod 4 = 0 -> is_Some (m !! a)) ->
  m !! (p + _EAX) = Some y -> m !! (p + _EBX) = Some b -> m !! (p + _EBP) = Some z ->
  StackAllocate p stack func arg root begin finish m = Ok m' ->
  suspended p (fresh_context stack func arg root begin finish y b z) m' /\
  m' !! stack = Some STACK_FENCEPOST /\
  (forall a, ~ object p a -> ~ stack <= a < stack + 4 * StackSize -> m' !! a = m !! a) /\
  (forall a, is_Some (m !! a) -> is_Some (m' !! a)).
Proof.
  intros Ho Ha H0 Hmax Hap Hm Ey Eb Ez E. unfold StackSize in *.
  pose proof (Hap stack ltac:(lia)) as N1. pose proof (Hap (stack + 4 * (8 * 1024 - 5)) ltac:(lia)) as N2.
  rewrite StackAllocate_spec in E; [|done|split; [done|apply Hm; [lia|done]]|].
  2:{ unfold StackSize. assert ((stack + 4 * (8 * 1024 - 5)) mod 4 = 0) by (zify_div; lia). split; [done|]. apply Hm; [lia|done]. }
  injection E as <-. unfold StackSize in *. offsets. split; [split|split; [|split]].
  - unfold slots, fresh_context, StackSize. offsets. cbn [saved pc eax ebx ecx edx ebp esi edi esp].
    repeat apply Forall_cons_2; try apply Forall_nil_2; cbn [fst snd];
      repeat (rewrite lookup_insert_eq || rewrite lookup_insert_ne by lia); done.
  - unfold fresh_context, StackSize. cbn [saved esp]. lia.
  - unfold fresh_context, StackSize. cbn [saved esp]. zify_div. lia.
  - unfold fresh_context, StackSize. cbn [saved esp pc].
    repeat (rewrite lookup_insert_eq || rewrite lookup_insert_ne by lia). done.
  - unfold fresh_context, StackSize. cbn [saved esp]. rewrite ?lookup_insert_is_Some'. repeat right.
    apply Hm; [lia|]. zify_div. lia.
  - repeat (rewrite lookup_insert_eq || rewrite lookup_insert_ne by lia). done.
  - intros a H1 H2. by rewrite !lookup_insert_ne by lia.
  - intros a H1. rewrite ?lookup_insert_is_Some'. by repeat right.
Qed.

(** ** The beginning of a thread *)

Section Begin.

Context (function : Z -> registers -> memory -> res (registers * memory)) (begin func : Z).

(** The calling convention of the compiler: a function that returns has popped its
    return address, and keeps [ebx], [esi], [edi] and [ebp]; [ThreadBegin], which
    has no parameters, does not change what is above its return address. *)
Record convention : Prop := {
  v_saved : forall f rs m rs' m', function f rs m = Ok (rs', m') ->
    ebx rs' = ebx rs /\ esi rs' = esi rs /\ edi rs' = edi rs /\ ebp rs' = ebp rs /\ esp rs' = u32 (esp rs + 4);
  v_mapped : forall f rs m rs' m' a, function f rs m = Ok (rs', m') -> is_Some (m !! a) -> is_Some (m' !! a);
  v_begin : forall rs m rs' m', function begin rs m = Ok (rs', m') ->
    m' !! u32 (esp rs + 4) = m !! u32 (esp rs + 4);
  v_returns : forall f rs m, f = begin \/ f = func -> exists rs' m', function f rs m = Ok (rs', m')
}.

Context (Hv : convention).

Lemma call_spec r here calls rs m arg : 8 <= esp rs < 2 ^ 32 -> esp rs mod 4 = 0 ->
  is_Some (m !! (esp rs - 4)) -> m !! esp rs = Some arg -> get r rs = begin \/ get r rs = func ->
  exists rs' m', call function r here (calls, rs, m) = Ok (calls ++ [(get r rs, arg)], rs', m') /\
    ebx rs' = ebx rs /\ esi rs' = esi rs /\ edi rs' = edi rs /\ ebp rs' = ebp rs /\ esp rs' = esp rs /\
    (forall a, is_Some (m !! a) -> is_Some (m' !! a)) /\
    (get r rs = begin -> m' !! esp rs = Some arg).
Proof.
  intros Hr Ha Hm Hw Hf. unfold call, enter, push. cbn [fst snd].
  rewrite u32_id by (unfold is_u32; lia). rewrite store_mapped; [|zify_div; lia|done]. cbn [rbind].
  cbn [esp set]. replace (esp rs - 4 + 4) with (esp rs) by lia. rewrite u32_id by (unfold is_u32; lia).
  rewrite (load_Some _ _ arg); [|done|rewrite lookup_insert_ne by lia; done]. cbn [rbind].
  match goal with |- context [function _ ?r ?mm] => set (rs1 := r); set (m1 := mm) end.
  destruct (v_returns Hv (get r rs) rs1 m1 Hf) as (rs' & m' & E). rewrite E. cbn [rbind].
  exists rs', m'. split; [done|]. destruct (v_saved Hv _ _ _ _ _ E) as (E1 & E2 & E3 & E4 & E5).
  cbn [rs1 esp] in E5. replace (esp rs - 4 + 4) with (esp rs) in E5 by lia. rewrite u32_id in E5 by (unfold is_u32; lia).
  split_and!; try done.
  - intros a Hs. apply (v_mapped Hv _ _ _ _ _ _ E). unfold m1. rewrite lookup_insert_is_Some'. by right.
  - intros Hb. rewrite Hb in E. pose proof (v_begin Hv _ _ _ _ E) as Hk. cbn [rs1 esp] in Hk.
    replace (esp rs - 4 + 4) with (esp rs) in Hk by lia. rewrite u32_id in Hk by (unfold is_u32; lia).
    rewrite Hk. unfold m1. by rewrite lookup_insert_ne by lia.
Qed.

(** [ThreadRoot] calls the three functions in their order. *)
Lemma ThreadRoot_spec here rs m :
  ecx rs = begin -> esi rs = func -> 16 <= esp rs < 2 ^ 32 -> esp rs mod 4 = 0 ->
  is_Some (m !! (esp rs - 4)) -> is_Some (m !! (esp rs - 8)) -> is_Some (m !! (esp rs - 12)) ->
  exists v rs' m', ThreadRoot function here rs m = Ok ([(begin, edx rs); (func, edx rs); (edi rs, v)], rs', m').
Proof.
  intros Hb Hf Hr Ha M1 M2 M3. unfold ThreadRoot. cbn [exec_all exec rbind]. unfold push. cbn [get].
  rewrite u32_id by (unfold is_u32; lia). rewrite store_mapped; [|zify_div; lia|done].
  cbn [rbind exec get set eax ebx ecx edx ebp esi edi esp]. unfold push. cbn [InitialArg get edx esp].
  replace (esp rs - 4 - 4) with (esp rs - 8) by lia. rewrite u32_id by (unfold is_u32; lia).
  rewrite store_mapped; [|zify_div; lia|by rewrite lookup_insert_ne by lia].
  cbn [rbind set eax ebx ecx edx ebp esi edi esp InitialArg get].
  match goal with |- context [call _ StartupPC _ ([], ?r, ?mm)] => set (r1 := r); set (m1 := mm) end.
  destruct (call_spec StartupPC here [] r1 m1 (edx rs)) as (r2 & m2 & -> & _ & Esi & Edi & _ & Esp & Hm2 & Hk).
  - cbn [r1 esp]. lia.
  - cbn [r1 esp]. zify_div. lia.
  - cbn [r1 esp]. unfold m1. rewrite !lookup_insert_is_Some'. replace (esp rs - 8 - 4) with (esp rs - 12) by lia. auto.
  - cbn [r1 esp]. apply lookup_insert_eq.
  - by left.
  - cbn [rbind]. specialize (Hk Hb). cbn [r1 esp] in Esp, Hk.
    destruct (call_spec InitialPC here ([] ++ [(get StartupPC r1, edx rs)]) r2 m2 (edx rs))
      as (r3 & m3 & -> & _ & _ & Edi3 & _ & Esp3 & Hm3 & _).
    + lia.
    + rewrite Esp. zify_div. lia.
    + rewrite Esp. apply Hm2. unfold m1. rewrite !lookup_insert_is_Some'.
      replace (esp rs - 8 - 4) with (esp rs - 12) by lia. auto.
    + by rewrite Esp.
    + right. cbn [InitialPC get]. by rewrite Esi.
    + cbn [rbind]. unfold enter, push. rewrite Esp3, Esp.
      replace (esp rs - 8 - 4) with (esp rs - 12) by lia. rewrite u32_id by (unfold is_u32; lia).
      rewrite store_mapped; [|zify_div; lia|].
      2:{ apply Hm3, Hm2. unfold m1. rewrite !lookup_insert_is_Some'. auto. }
      cbn [rbind set esp]. replace (esp rs - 12 + 4) with (esp rs - 8) by lia. rewrite u32_id by (unfold is_u32; lia).
      assert (is_Some (m3 !! (esp rs - 8))) as [v Ev].
      { apply Hm3, Hm2. unfold m1. rewrite !lookup_insert_is_Some'. auto. }
      rewrite (load_Some _ _ v); [|zify_div; lia|by rewrite lookup_insert_ne by lia]. cbn [rbind].
      exists v. eexists _, _. do 3 f_equal. cbn [app WhenDonePC get StartupPC InitialPC].
      rewrite Edi3, Edi, Esi. cbn [r1 ecx esi edi]. by rewrite Hb, Hf.
Qed.

End Begin.

(** ** Many threads *)

Section Threads.

(** Where the thread objects and the stacks of the threads 0 to [numThreads - 1]
    are. *)
Context (eax_save : Z) (numThreads : nat) (tcb lo hi : nat -> Z).

Definition in_stack (t : nat) (a : Z) : Prop := lo t <= a < hi t.

Notation thread t := (t < numThreads)%nat.

Record layout : Prop := {
  y_objects : forall t u, thread t -> thread u -> t <> u -> tcb t + 36 <= tcb u \/ tcb u + 36 <= tcb t;
  y_object : forall t, thread t -> tcb t mod 4 = 0 /\ 0 <= tcb t /\ tcb t + 36 <= 2 ^ 32;
  y_stacks : forall t u, thread t -> thread u -> t <> u -> hi t <= lo u \/ hi u <= lo t;
  y_stack : forall t, thread t -> lo t mod 4 = 0 /\ 0 <= lo t /\ hi t <= 2 ^ 32;
  y_apart : forall t u a, thread t -> thread u -> in_stack t a -> ~ object (tcb u) a;
  y_save : forall t, thread t -> ~ object (tcb t) eax_save /\ ~ in_stack t eax_save;
  y_save_aligned : eax_save mod 4 = 0
}.

(** The processor and memory, the running thread, and the contexts of the
    threads that wait in [SWITCH] or have not begun yet. *)
Record host := mkHost {
  eip : Z;
  regs : registers;
  mem : memory;
  current : nat;
  waiting : gmap nat context
}.

(** Memory of other threads that wait. *)
Definition foreign (s : host) (a : Z) : Prop :=
  exists u, is_Some (waiting s !! u) /\ (object (tcb u) a \/ in_stack u a).

(** The running thread prepares thread [u], whose stack is mapped. *)
Definition forks (s : host) (u : nat) (func arg root begin finish : Z) (s' : host) : Prop :=
  exists m' b y z,
    thread u /\ u <> current s /\ waiting s !! u = None /\ hi u = lo u + 4 * StackSize /\
    (forall a, in_stack u a -> a mod 4 = 0 -> is_Some (mem s !! a)) /\
    mem s !! (tcb u + _EAX) = Some y /\ mem s !! (tcb u + _EBX) = Some b /\ mem s !! (tcb u + _EBP) = Some z /\
    StackAllocate (tcb u) (lo u) func arg root begin finish (mem s) = Ok m' /\
    s' = mkHost (eip s) (regs s) m' (current s)
      (<[u := fresh_context (lo u) func arg root begin finish y b z]> (waiting s)).

(** The steps of the host: code of the running thread, which does not write to
    the stacks and thread objects of others; [SWITCH]; and the preparation of a new
    thread. *)
Inductive step : host -> host -> Prop :=
| step_run s pc' rs' m' :
    (forall a, foreign s a -> m' !! a = mem s !! a) ->
    (forall a, is_Some (mem s !! a) -> is_Some (m' !! a)) ->
    step s (mkHost pc' rs' m' (current s) (waiting s))
| step_switch s u ra pc' rs' m' :
    calling (regs s) ra (tcb (current s)) (tcb u) (mem s) ->
    in_stack (current s) (esp (regs s)) -> in_stack (current s) (esp (regs s) + 8) ->
    is_Some (waiting s !! u) ->
    SWITCH eax_save (regs s) (mem s) = Ok (pc', rs', m') ->
    step s (mkHost pc' rs' m' u (<[current s := mkContext (regs s) ra]> (delete u (waiting s))))
| step_fork s u func arg root begin finish s' :
    forks s u func arg root begin finish s' -> step s s'.

Record inv (s : host) : Prop := {
  i_current : thread (current s) /\ waiting s !! current s = None;
  i_objects : forall t a, thread t -> object (tcb t) a -> a mod 4 = 0 -> is_Some (mem s !! a);
  i_save : is_Some (mem s !! eax_save);
  i_waiting : forall t c, waiting s !! t = Some c ->
    thread t /\ suspended (tcb t) c (mem s) /\ in_stack t (esp (saved c)) /\ in_stack t (esp (saved c) + 4)
}.

Context (Hlayout : layout).

Lemma i_object s t : inv s -> thread t -> object_ok (tcb t) (mem s).
Proof.
  intros Hi Ht. destruct (y_object Hlayout t Ht) as (H1 & H2 & H3). split; [done|lia|]. intros a. by apply (i_objects s Hi).
Qed.

Lemma not_waiting s t c : inv s -> waiting s !! t = Some c -> t <> current s.
Proof. intros Hi Hc ->. rewrite (proj2 (i_current s Hi)) in Hc. done. Qed.

(** A context stays as long as the memory of its thread does. *)
Lemma suspended_same t c m m' :
  (forall a, object (tcb t) a \/ in_stack t a -> m' !! a = m !! a) ->
  in_stack t (esp (saved c)) -> in_stack t (esp (saved c) + 4) -> suspended (tcb t) c m -> suspended (tcb t) c m'.
Proof.
  intros Hm H1 H2 [Hs Hr Ha Hret Habove]. split; [|done|done|by rewrite Hm by auto|by rewrite Hm by auto].
  rewrite Forall_forall in Hs |- *. intros w Hw. rewrite Hm; [by apply Hs|]. left. by eapply slots_object.
Qed.

(** What [SWITCH] does to the threads. *)
Lemma switch_step s u ra c : inv s -> waiting s !! u = Some c ->
  calling (regs s) ra (tcb (current s)) (tcb u) (mem s) ->
  in_stack (current s) (esp (regs s)) -> in_stack (current s) (esp (regs s) + 8) ->
  SWITCH eax_save (regs s) (mem s) =
    Ok (pc c, set ESP (esp (saved c) + 4) (saved c), switched eax_save (regs s) ra (tcb (current s)) c (mem s)).
Proof.
  intros Hi Hu Hk H1 H2. destruct (i_waiting s Hi u c Hu) as (Hut & Hs & H3 & H4).
  pose proof (not_waiting s u c Hi Hu) as Hne. pose proof (proj1 (i_current s Hi)) as Hct.
  destruct (y_stack Hlayout u Hut) as (_ & Hlo & Hhi). unfold in_stack in *.
  rewrite (SWITCH_spec eax_save (regs s) ra (tcb (current s)) (tcb u) c (mem s)).
  - by rewrite u32_id by (unfold is_u32; lia).
  - done.
  - by apply i_object.
  - by apply i_object.
  - done.
  - split; [apply Hlayout|apply Hi].
  - by apply (y_objects Hlayout); [..|done].
  - by apply (y_save Hlayout).
  - by apply (y_save Hlayout).
  - intros a Ha. split; [apply (y_apart Hlayout (current s)); [done|done|unfold in_stack; lia]|].
    intros ->. apply (proj2 (y_save Hlayout (current s) Hct)). unfold in_stack. lia.
  - intros a Ha. split_and!; [apply (y_apart Hlayout u); [done|done|unfold in_stack; lia]..|].
    intros ->. apply (proj2 (y_save Hlayout u Hut)). unfold in_stack. lia.
Qed.

(** The memory that [SWITCH] leaves alone. *)
Lemma switched_other rs ra p c m a : a <> esp (saved c) + 4 -> a <> eax_save -> ~ object p a ->
  switched eax_save rs ra p c m !! a = m !! a.
Proof.
  intros H1 H2 H3. unfold switched. rewrite !lookup_insert_ne, save_other, lookup_insert_ne by done. done.
Qed.

Lemma switched_mapped rs ra p c m a : is_Some (m !! a) -> is_Some (switched eax_save rs ra p c m !! a).
Proof.
  intros H. unfold switched, save, slots. cbn [foldr].
  rewrite !lookup_insert_is_Some'. tauto.
Qed.

(** The memory of thread [t] is the same in both. *)
Definition same_thread (t : nat) (m m' : memory) : Prop :=
  forall a, object (tcb t) a \/ in_stack t a -> m' !! a = m !! a.

(** A step changes no memory of the threads that wait, but for the word above the
    return address of the one it switches to. *)
Definition spares (s s' : host) : Prop :=
  forall t c, waiting s !! t = Some c -> t <> current s' ->
    waiting s' !! t = Some c /\ same_thread t (mem s) (mem s').

(** Memory of thread [t] is not that of another one. *)
Lemma mine_apart t u a : thread t -> thread u -> t <> u -> object (tcb t) a \/ in_stack t a ->
  a <> eax_save /\ ~ object (tcb u) a /\ ~ in_stack u a.
Proof.
  intros Ht Hu Hne [H|H].
  - split; [intros ->; by apply (proj1 (y_save Hlayout t Ht))|].
    split; [pose proof (y_objects Hlayout t u Ht Hu Hne); unfold object in *; lia|].
    intros Hs. by apply (y_apart Hlayout u t a).
  - split; [intros ->; by apply (proj2 (y_save Hlayout t Ht))|]. split; [by apply (y_apart Hlayout t)|].
    pose proof (y_stacks Hlayout t u Ht Hu Hne). unfold in_stack in *. lia.
Qed.

Lemma run_ok s pc' rs' m' : inv s ->
  (forall a, foreign s a -> m' !! a = mem s !! a) -> (forall a, is_Some (mem s !! a) -> is_Some (m' !! a)) ->
  let s' := mkHost pc' rs' m' (current s) (waiting s) in inv s' /\ spares s s'.
Proof.
  intros Hi Hsame Hdom s'.
  assert (forall t c, waiting s !! t = Some c -> same_thread t (mem s) m') as Hs.
  { intros t c Hc a Ha. apply Hsame. exists t. split; [by exists c|done]. }
  split; [split|]; cbn [s' mem current waiting].
  - apply Hi.
  - intros t a Ht H1 H2. apply Hdom. by apply (i_objects s Hi t).
  - apply Hdom, Hi.
  - intros t c Hc. destruct (i_waiting s Hi t c Hc) as (Ht & H1 & H2 & H3). split; [done|]. split; [|done].
    eapply suspended_same; [|done|done|exact H1]. by eapply Hs.
  - intros t c Hc _. split; [done|]. by eapply Hs.
Qed.

Lemma switch_ok s u ra c : inv s -> waiting s !! u = Some c ->
  calling (regs s) ra (tcb (current s)) (tcb u) (mem s) ->
  in_stack (current s) (esp (regs s)) -> in_stack (current s) (esp (regs s) + 8) ->
  let s' := mkHost (pc c) (set ESP (esp (saved c) + 4) (saved c)) (switched eax_save (regs s) ra (tcb (current s)) c (mem s)) u
    (<[current s := mkContext (regs s) ra]> (delete u (waiting s))) in
  inv s' /\ spares s s' /\ suspended (tcb (current s)) (mkContext (regs s) ra) (mem s') /\
  forall a, in_stack (current s) a -> mem s' !! a = mem s !! a.
Proof.
  intros Hi Hu Hk H1 H2 s'. destruct (i_waiting s Hi u c Hu) as (Hut & Hs & H3 & H4).
  pose proof (not_waiting s u c Hi Hu) as Hne. pose proof (proj1 (i_current s Hi)) as Hct.
  assert (forall t, thread t -> t <> u -> t <> current s -> same_thread t (mem s) (mem s')) as Hother.
  { intros t Ht Htu Htc a Ha. cbn [s' mem]. destruct (mine_apart t (current s) a Ht Hct Htc Ha) as (N1 & N2 & _).
    destruct (mine_apart t u a Ht Hut Htu Ha) as (_ & _ & N3). apply switched_other; [by intros ->|done|done]. }
  assert (forall a, in_stack (current s) a -> mem s' !! a = mem s !! a) as Hown.
  { intros a Ha. cbn [s' mem]. destruct (mine_apart (current s) u a) as (N1 & _ & N3); [done|done|done|by right|].
    apply switched_other; [by intros ->|done|by apply (y_apart Hlayout (current s))]. }
  assert (suspended (tcb (current s)) (mkContext (regs s) ra) (mem s')) as Hme.
  { destruct Hk as [K1 K2 K3 K4 K5]. split; cbn [saved pc]; [|lia|done|by rewrite Hown|].
    - cbn [s' mem]. unfold switched. pose proof (save_slots (tcb (current s)) (mkContext (regs s) ra) (<[eax_save := eax (regs s)]> (mem s))) as Hsl.
      rewrite Forall_forall in Hsl |- *. intros w Hw. pose proof (slots_object _ _ _ Hw) as Ho. rewrite !lookup_insert_ne; [by apply Hsl| |].
      + intros E. apply (proj1 (y_save Hlayout (current s) Hct)). by rewrite E.
      + intros E. apply (y_apart Hlayout u (current s) (w.1)); [done|done|by rewrite <- E|done].
    - rewrite Hown; [by eexists|]. unfold in_stack in *. lia. }
  split; [split|split; [|done]].
  - cbn [s' current waiting]. split; [done|]. rewrite lookup_insert_ne by done. apply lookup_delete_eq.
  - intros t a Ht Ho Ha. cbn [s' mem]. apply switched_mapped. by apply (i_objects s Hi t).
  - cbn [s' mem]. apply switched_mapped, Hi.
  - cbn [s' waiting]. intros t c' [(<- & <-)|(Hnc & [Hnu Hc']%lookup_delete_Some)]%lookup_insert_Some.
    + split; [done|]. split; [done|]. cbn [saved]. split; [done|]. unfold in_stack in *. lia.
    + destruct (i_waiting s Hi t c' Hc') as (Ht & S1 & S2 & S3). split; [done|]. split; [|done].
      eapply suspended_same; [|done|done|exact S1]. by apply Hother.
  - intros t c' Hc' Htu. cbn [s' current] in Htu. pose proof (not_waiting s t c' Hi Hc') as Htc.
    split; [|apply Hother; [by apply (i_waiting s Hi t c')|done|done]]. cbn [s' waiting]. by rewrite lookup_insert_ne, lookup_delete_ne by done.
Qed.

Lemma fork_ok s u func arg root begin finish s' : inv s -> forks s u func arg root begin finish s' ->
  inv s' /\ spares s s' /\ CheckOverflow (Some (lo u)) (mem s') = Ok tt /\ current s' = current s /\
  (forall a, in_stack u a -> a mod 4 = 0 -> is_Some (mem s' !! a)) /\
  exists y b z, waiting s' !! u = Some (fresh_context (lo u) func arg root begin finish y b z).
Proof.
  intros Hi (m' & b & y & z & Hut & Hne & Hu & Hhi & Hm & Ey & Eb & Ez & E & ->).
  destruct (y_stack Hlayout u Hut) as (L1 & L2 & L3).
  destruct (StackAllocate_suspended (tcb u) (lo u) func arg root begin finish y b z (mem s) m')
    as (Hs & Hf & Hout & Hdom); try done; [by apply i_object|lia| | |].
  { intros a Ha. apply (y_apart Hlayout u); [done|done|]. unfold in_stack. lia. }
  { intros a Ha. apply Hm. unfold in_stack. lia. }
  assert (forall t, thread t -> t <> u -> same_thread t (mem s) m') as Hother.
  { intros t Ht Htu a Ha. destruct (mine_apart t u a Ht Hut Htu Ha) as (_ & N1 & N2). apply Hout; [done|]. unfold in_stack in N2. lia. }
  split; [split|split; [|split; [|split; [done|split]]]]; cbn [mem current waiting].
  - rewrite lookup_insert_ne by done. apply Hi.
  - intros t a Ht Ho Ha. apply Hdom. by apply (i_objects s Hi t).
  - apply Hdom, Hi.
  - intros t c [(<- & <-)|(Hnu & Hc)]%lookup_insert_Some.
    + split; [done|]. split; [done|]. unfold in_stack, fresh_context, StackSize in *. cbn [saved esp]. lia.
    + destruct (i_waiting s Hi t c Hc) as (Ht & S1 & S2 & S3). split; [done|]. split; [|done].
      eapply suspended_same; [|done|done|exact S1]. by apply Hother.
  - intros t c Hc _. assert (t <> u) as Ht by (intros ->; congruence). cbn [mem waiting].
    split; [by rewrite lookup_insert_ne|]. apply Hother; [by apply (i_waiting s Hi t c)|done].
  - unfold CheckOverflow. by rewrite (load_Some _ _ STACK_FENCEPOST).
  - intros a Ha Hal. apply Hdom. by apply Hm.
  - exists y, b, z. apply lookup_insert_eq.
Qed.

Lemma host_step_ok s s' : inv s -> step s s' -> inv s' /\ spares s s'.
Proof.
  intros Hi Hs. destruct Hs as [s pc' rs' m' H1 H2|s u ra pc' rs' m' Hk H1 H2 [c Hu] E|s u func arg root begin finish s' Hf].
  - by apply run_ok.
  - rewrite (switch_step s u ra c Hi Hu Hk H1 H2) in E. injection E as <- <- <-.
    destruct (switch_ok s u ra c Hi Hu Hk H1 H2) as (? & ? & _). done.
  - destruct (fork_ok s u func arg root begin finish s' Hi Hf) as (? & ? & _). done.
Qed.

(** The steps until thread [t] is switched to. *)
Definition away (t : nat) (s s' : host) : Prop := step s s' /\ current s <> t /\ current s' <> t.

Lemma away_spares t c s s' : inv s -> waiting s !! t = Some c -> rtc (away t) s s' ->
  inv s' /\ waiting s' !! t = Some c /\ same_thread t (mem s) (mem s').
Proof.
  intros Hi Hc Hs. induction Hs as [s|s s1 s2 (H1 & Hn & Hn1) _ IH]; [by split_and!|].
  destruct (host_step_ok s s1 Hi H1) as [Hi1 Hsp]. destruct (Hsp t c Hc) as [Hc1 M1]; [done|].
  destruct (IH Hi1 Hc1) as (Hi2 & Hc2 & M2). split_and!; [done|done|]. intros a Ha. by rewrite M2, M1.
Qed.

(** Before any thread is created: the thread objects and [_eax_save] are mapped. *)
Definition initial (s : host) : Prop :=
  thread (current s) /\ waiting s = ∅ /\ (forall t a, thread t -> object (tcb t) a -> a mod 4 = 0 -> is_Some (mem s !! a)) /\ is_Some (mem s !! eax_save).

Definition reachable (s : host) : Prop := exists s0, initial s0 /\ rtc step s0 s.

Lemma reachable_host_inv s : reachable s -> inv s.
Proof.
  intros (s0 & (Ht & Hw & Ho & Hs) & Hr). assert (inv s0) as Hi.
  { split; [by rewrite Hw|done|done|]. intros t c. by rewrite Hw. }
  clear Ht Hw Ho Hs. induction Hr as [|s0 s1 s2 H1 _ IH]; [done|]. apply IH. by apply (host_step_ok s0).
Qed.

(** A step to another thread is a [SWITCH]. *)
Lemma step_to s s' : inv s -> step s s' -> current s' <> current s ->
  exists ra c, waiting s !! current s' = Some c /\
    calling (regs s) ra (tcb (current s)) (tcb (current s')) (mem s) /\
    in_stack (current s) (esp (regs s)) /\ in_stack (current s) (esp (regs s) + 8) /\
    s' = mkHost (pc c) (set ESP (esp (saved c) + 4) (saved c)) (switched eax_save (regs s) ra (tcb (current s)) c (mem s))
      (current s') (<[current s := mkContext (regs s) ra]> (delete (current s') (waiting s))).
Proof.
  intros Hi Hs Hne. destruct Hs as [s pc' rs' m' H1 H2|s u ra pc' rs' m' Hk H1 H2 [c Hu] E|s u func arg root begin finish s' Hf]; [done| |].
  2:{ by destruct (fork_ok _ _ _ _ _ _ _ _ Hi Hf) as (_ & _ & _ & ? & _). }
  rewrite (switch_step s u ra c Hi Hu Hk H1 H2) in E. injection E as <- <- <-. cbn [current]. by exists ra, c.
Qed.

(** ** Properties *)

(** C8: Kernel threads resume.  When a thread calls [SWITCH], and any number of
    other threads then run, switch and are created, until one of them switches
    back, the call returns to where it was made, with every register as it was,
    the stack pointer behind the return address, and the stack of the thread
    unchanged but for the word above the return address, the slot of the argument
    t1, which [SWITCH] overwrites. *)
Theorem kernel_threads_resume s0 s1 s2 s3 ra :
  reachable s0 -> mem s0 !! esp (regs s0) = Some ra ->
  step s0 s1 -> current s1 <> current s0 ->
  rtc (away (current s0)) s1 s2 ->
  step s2 s3 -> current s2 <> current s0 -> current s3 = current s0 ->
  eip s3 = ra /\ regs s3 = set ESP (esp (regs s0) + 4) (regs s0) /\
  forall a, in_stack (current s0) a -> a <> esp (regs s0) + 4 -> mem s3 !! a = mem s0 !! a.
Proof.
  intros Hi%reachable_host_inv Hra H01 Hne1 H12 H23 Hne2 Ec.
  destruct (step_to s0 s1 Hi H01 Hne1) as (ra' & c & Hu & Hk & I1 & I2 & E1).
  assert (ra' = ra) as -> by (destruct Hk; congruence).
  destruct (switch_ok s0 (current s1) ra c Hi Hu Hk I1 I2) as (Hi1 & _ & _ & Hown). rewrite <- E1 in Hi1, Hown.
  destruct (away_spares (current s0) (mkContext (regs s0) ra) s1 s2 Hi1) as (Hi2 & Hw2 & M2);
    [rewrite E1; apply lookup_insert_eq|done|].
  destruct (step_to s2 s3 Hi2 H23) as (ra2 & c2 & Hu2 & _ & _ & _ & E3); [congruence|].
  rewrite Ec in Hu2, E3. assert (c2 = mkContext (regs s0) ra) as -> by congruence. rewrite E3. cbn [eip regs mem pc saved].
  split; [done|]. split; [done|]. intros a Ha Hn. cbn [saved] in Hn.
  destruct (mine_apart (current s0) (current s2) a) as (N1 & N2 & _); [apply Hi|apply Hi2|done|by right|].
  rewrite switched_other by done. rewrite M2 by (by right). by apply Hown.
Qed.

(** C9: A forked thread starts.  After [StackAllocate], whatever other threads do
    until the new one is switched to for the first time, [SWITCH] returns to
    [ThreadRoot] on the new stack, and [ThreadRoot] calls [ThreadBegin], then the
    forked function with its argument, then [ThreadFinish]; and the fence post is
    in place for [CheckOverflow]. *)
Theorem forked_thread_starts function here s0 s1 s2 s3 u func arg root begin finish :
  reachable s0 -> forks s0 u func arg root begin finish s1 ->
  rtc (away u) s1 s2 -> step s2 s3 -> current s2 <> u -> current s3 = u ->
  convention function begin func ->
  CheckOverflow (Some (lo u)) (mem s1) = Ok tt /\ eip s3 = root /\
  exists v rs m, ThreadRoot function here (regs s3) (mem s3) = Ok ([(begin, arg); (func, arg); (finish, v)], rs, m).
Proof.
  intros Hi%reachable_host_inv Hf H12 H23 Hne Ec Hv.
  destruct (fork_ok s0 u func arg root begin finish s1 Hi Hf) as (Hi1 & _ & Hov & _ & Hm1 & y & b & z & Hw).
  destruct (away_spares u _ s1 s2 Hi1 Hw H12) as (Hi2 & Hw2 & M2).
  destruct (step_to s2 s3 Hi2 H23) as (ra & c & Hu & _ & _ & _ & E3); [congruence|].
  rewrite Ec in Hu, E3. assert (c = fresh_context (lo u) func arg root begin finish y b z) as -> by congruence.
  destruct Hf as (_ & _ & _ & _ & Hut & _ & _ & Hhi & _). destruct (y_stack Hlayout u Hut) as (L1 & L2 & L3).
  split; [done|]. rewrite E3. cbn [eip regs mem]. split; [done|]. unfold StackSize in *.
  assert (forall k (m : memory), k = 4 \/ k = 8 \/ k = 12 -> (forall a, is_Some (mem s2 !! a) -> is_Some (m !! a)) ->
    is_Some (m !! (lo u + 4 * (8 * 1024 - 5) + 4 - k))) as Hmap.
  { intros k m Hk Hm. apply Hm. assert (in_stack u (lo u + 4 * (8 * 1024 - 5) + 4 - k)) by (unfold in_stack; lia).
    rewrite M2 by (by right). apply Hm1; [done|]. zify_div. lia. }
  apply (ThreadRoot_spec function begin func Hv here
    (set ESP (lo u + 4 * (8 * 1024 - 5) + 4) (saved (fresh_context (lo u) func arg root begin finish y b z))));
    cbn [set saved fresh_context ecx esi esp edx edi]; try done; [lia|zify_div; lia|..];
    (apply Hmap; [lia|intros a; apply switched_mapped]).
Qed.

End Threads.

(** ** Two threads *)

Definition tcb2 (t : nat) : Z := 4096 + 64 * Z.of_nat t.
Definition lo2 (t : nat) : Z := 65536 * (1 + Z.of_nat t).
Definition hi2 (t : nat) : Z := lo2 t + 4 * StackSize.

Lemma layout2 : layout 8 2 tcb2 lo2 hi2.
Proof.
  split; unfold in_stack, object, tcb2, hi2, lo2, StackSize.
  - intros t u Ht Hu Hne. lia.
  - intros t Ht. split; [zify_div; lia|lia].
  - intros t u Ht Hu Hne. lia.
  - intros t Ht. split; [zify_div; lia|lia].
  - intros t u a Ht Hu Ha. lia.
  - intros t Ht. lia.
  - done.
Qed.

(** [n] words from address [base]. *)
Definition words (base n : Z) : memory := list_to_map (map (fun k => (base + 4 * k, 0)) (seqZ 0 n)).

Lemma words_mapped base n a : base <= a < base + 4 * n -> (a - base) mod 4 = 0 -> is_Some (words base n !! a).
Proof.
  intros Ha Hm. destruct (words base n !! a) eqn:E; [by eexists|]. exfalso. unfold words in E.
  apply not_elem_of_list_to_map_2 in E. apply E. rewrite <- list_fmap_compose. apply list_elem_of_fmap.
  exists ((a - base) / 4). split; [cbn; zify_div; lia|]. apply elem_of_seqZ. zify_div. lia.
Qed.

#[local] Opaque words.

(** Thread 0 is about to call [SWITCH(t0, t1)]; its registers differ. *)
Definition memory0 : memory :=
  <[65552 := 777]> (<[65556 := tcb2 0]> (<[65560 := tcb2 1]> (<[8 := 0]> (words 4096 32 ∪ words 131072 8192)))).
Definition regs0 : registers := mkRegisters 1 2 3 4 5 6 7 65552.
Definition host0 : host := mkHost 10 regs0 memory0 0 ∅.

(** Thread 1 later calls [SWITCH(t1, t0)]. *)
Definition regs3 : registers := mkRegisters 9 9 9 9 9 9 9 140000.
Definition memory3 (m : memory) : memory := <[140000 := 888]> (<[140004 := tcb2 1]> (<[140008 := tcb2 0]> m)).

Lemma memory0_mapped a : (a mod 4 = 0)  -> 4096 <= a < 4224 \/ 131072 <= a < 163840 -> is_Some (memory0 !! a).
Proof.
  intros Ha Hr. unfold memory0. do 4 (apply lookup_insert_is_Some'; right).
  apply lookup_union_is_Some. destruct Hr; [left|right]; apply words_mapped; zify_div; lia.
Qed.

Lemma host0_reachable : reachable 8 2 tcb2 lo2 hi2 host0.
Proof.
  exists host0. split; [|done]. split; [cbn; lia|]. split; [done|]. split.
  - intros t a Ht Ho Ha. apply memory0_mapped; [done|]. unfold object, tcb2 in Ho. lia.
  - unfold host0, memory0. cbn [mem]. do 3 (apply lookup_insert_is_Some'; right). apply lookup_insert_is_Some'. by left.
Qed.

Lemma memory0_object : object_ok (tcb2 1) memory0.
Proof. split; [done|done|]. intros a Ho Ha. apply memory0_mapped; [done|]. unfold object, tcb2 in Ho. lia. Qed.

Lemma memory0_stack a : lo2 1 <= a < hi2 1 -> a mod 4 = 0 -> is_Some (memory0 !! a).
Proof. intros Hr Ha. apply memory0_mapped; [done|]. unfold hi2, lo2, StackSize in Hr. lia. Qed.

Lemma memory0_call : memory0 !! 65552 = Some 777 /\ memory0 !! 65556 = Some (tcb2 0) /\ memory0 !! 65560 = Some (tcb2 1).
Proof.
  unfold memory0. split_and!.
  - apply lookup_insert_eq.
  - rewrite lookup_insert_ne by done. apply lookup_insert_eq.
  - rewrite lookup_insert_ne, lookup_insert_ne by done. apply lookup_insert_eq.
Qed.

#[local] Opaque memory0.

Lemma host0_forks : exists s1, forks 2 tcb2 lo2 hi2 host0 1 500 600 100 200 300 s1 /\ current s1 = 0%nat /\
  regs s1 = regs0 /\ calling (regs s1) 777 (tcb2 0) (tcb2 1) (mem s1) /\ is_Some (waiting s1 !! 1%nat).
Proof.
  destruct (memory0_mapped (tcb2 1 + _EAX)) as [y Ey]; [done|unfold tcb2, _EAX; lia|].
  destruct (memory0_mapped (tcb2 1 + _EBX)) as [b Eb]; [done|unfold tcb2, _EBX; lia|].
  destruct (memory0_mapped (tcb2 1 + _EBP)) as [z Ez]; [done|unfold tcb2, _EBP; lia|].
  assert (exists m1, StackAllocate (tcb2 1) (lo2 1) 500 600 100 200 300 memory0 = Ok m1) as [m1 E].
  { eexists. apply StackAllocate_spec; [exact memory0_object| |]; (split; [reflexivity|]);
      (apply memory0_stack; [unfold hi2, lo2, StackSize; lia|reflexivity]). }
  destruct (StackAllocate_suspended (tcb2 1) (lo2 1) 500 600 100 200 300 y b z memory0 m1) as (_ & _ & Hout & _);
    [exact memory0_object|done|done|done| |exact memory0_stack|exact Ey|exact Eb|exact Ez|exact E|].
  { intros a Ha. unfold object, tcb2, lo2, StackSize in *. lia. }
  destruct memory0_call as (E1 & E2 & E3).
  exists (mkHost 10 regs0 m1 0%nat (<[1%nat := fresh_context (lo2 1) 500 600 100 200 300 y b z]> ∅)).
  split; [|split; [reflexivity|split; [reflexivity|split]]].
  - exists m1, b, y, z. split; [lia|]. split; [done|]. split; [done|]. split; [done|]. split; [exact memory0_stack|].
    split; [exact Ey|]. split; [exact Eb|]. split; [exact Ez|]. split; [exact E|reflexivity].
  - cbn [regs mem regs0 esp]. split; cbn [regs0 esp]; [lia|done|..];
      (rewrite Hout; [assumption|unfold object, tcb2; lia|unfold lo2, StackSize; lia]).
  - cbn [waiting]. rewrite lookup_insert_eq. by eexists.
Qed.

(** A switch from a state in which it is called can be done. *)
Lemma can_switch s u ra : inv 8 2 tcb2 lo2 hi2 s -> is_Some (waiting s !! u) ->
  calling (regs s) ra (tcb2 (current s)) (tcb2 u) (mem s) ->
  in_stack lo2 hi2 (current s) (esp (regs s)) -> in_stack lo2 hi2 (current s) (esp (regs s) + 8) ->
  exists s', step 8 2 tcb2 lo2 hi2 s s' /\ current s' = u /\ is_Some (waiting s' !! current s) /\
    forall t, t <> u -> t <> current s -> waiting s' !! t = waiting s !! t.
Proof.
  intros Hi [c Hu] Hk H1 H2. eexists. split; [|split; [|split]].
  - eapply step_switch; [exact Hk|exact H1|exact H2|by exists c|].
    exact (switch_step 8 2 tcb2 lo2 hi2 layout2 s u ra c Hi Hu Hk H1 H2).
  - reflexivity.
  - cbn [waiting]. rewrite lookup_insert_eq. by eexists.
  - intros t Ht Hc. cbn [waiting]. by rewrite lookup_insert_ne, lookup_delete_ne.
Qed.

(** Thread 0 forks thread 1 and switches to it. *)
Lemma first_switch : exists s1 s2, forks 2 tcb2 lo2 hi2 host0 1 500 600 100 200 300 s1 /\
  reachable 8 2 tcb2 lo2 hi2 s1 /\ mem s1 !! esp (regs s1) = Some 777 /\ regs s1 = regs0 /\ current s1 = 0%nat /\
  step 8 2 tcb2 lo2 hi2 s1 s2 /\ current s2 = 1%nat /\ is_Some (waiting s2 !! 0%nat).
Proof.
  destruct host0_forks as (s1 & Hf & Ec & Er & Hk & Hw).
  assert (reachable 8 2 tcb2 lo2 hi2 s1) as Hr.
  { destruct host0_reachable as (s & Hi & Hs). exists s. split; [done|]. eapply rtc_r; [exact Hs|]. by eapply step_fork. }
  destruct (can_switch s1 1 777) as (s2 & H12 & Ec2 & Hw2 & _);
    [by apply (reachable_host_inv _ _ _ _ _ layout2)|done|by rewrite Ec|rewrite Ec, Er; done..|].
  exists s1, s2. destruct Hk. rewrite Ec in Hw2. split_and!; done.
Qed.

Lemma forked_thread_starts_witness :
  exists s3, eip s3 = 100 /\ current s3 = 1%nat /\ exists v rs m,
    ThreadRoot (fun f rs m => Ok (set ESP (u32 (esp rs + 4)) rs, m)) 0 (regs s3) (mem s3) =
      Ok ([(200, 600); (500, 600); (300, v)], rs, m).
Proof.
  destruct first_switch as (s1 & s2 & Hf & _ & _ & _ & Ec & H12 & Ec2 & _). exists s2.
  destruct (forked_thread_starts 8 2 tcb2 lo2 hi2 layout2 (fun f rs m => Ok (set ESP (u32 (esp rs + 4)) rs, m)) 0
    host0 s1 s1 s2 1 500 600 100 200 300) as (_ & E & Hr).
  - exact host0_reachable.
  - exact Hf.
  - apply rtc_refl.
  - exact H12.
  - rewrite Ec. discriminate.
  - exact Ec2.
  - split.
    + intros f rs m rs' m' [= <- <-]. done.
    + intros f rs m rs' m' a [= <- <-]. done.
    + intros rs m rs' m' [= <- <-]. done.
    + intros f rs m _. by eexists _, _.
  - exact (conj E (conj Ec2 Hr)).
Defined.

(** Thread 1 prepares the call that switches back. *)
Lemma back_call s : inv 8 2 tcb2 lo2 hi2 s -> current s = 1%nat -> is_Some (waiting s !! 0%nat) -> waiting s !! 1%nat = None ->
  exists s3 s4, step 8 2 tcb2 lo2 hi2 s s3 /\ current s3 = 1%nat /\ step 8 2 tcb2 lo2 hi2 s3 s4 /\ current s4 = 0%nat.
Proof.
  intros Hi Ec Hw Hno. set (s3 := mkHost 20 regs3 (memory3 (mem s)) (current s) (waiting s)).
  assert (step 8 2 tcb2 lo2 hi2 s s3) as H3.
  { apply step_run.
    - intros a (u & Hu & Ha). assert (u < 2 /\ u <> 1)%nat as [Hu2 Hu1].
      { destruct Hu as [c Hc]. split; [by apply (i_waiting _ _ _ _ _ s Hi u c)|]. intros ->. congruence. }
      assert (u = 0%nat) as -> by lia. unfold memory3.
      rewrite !lookup_insert_ne; [done|..]; intros <-; unfold object, in_stack, tcb2, hi2, lo2, StackSize in Ha; lia.
    - intros a Ha. unfold memory3. rewrite !lookup_insert_is_Some'. auto. }
  destruct (can_switch s3 0 888) as (s4 & H4 & Ec4 & _).
  - by apply (host_step_ok _ _ _ _ _ layout2 s).
  - done.
  - cbn [s3 regs mem current]. rewrite Ec. unfold memory3. split; cbn [regs3 esp]; [lia|done| | |].
    + apply lookup_insert_eq.
    + rewrite lookup_insert_ne by done. apply lookup_insert_eq.
    + rewrite lookup_insert_ne, lookup_insert_ne by done. apply lookup_insert_eq.
  - cbn [s3 regs current regs3 esp]. rewrite Ec. unfold in_stack, hi2, lo2, StackSize. lia.
  - cbn [s3 regs current regs3 esp]. rewrite Ec. unfold in_stack, hi2, lo2, StackSize. lia.
  - exists s3, s4. by split_and!.
Qed.

Lemma kernel_threads_resume_witness :
  exists s0 s3, regs s0 = regs0 /\ current s3 = 0%nat /\ eip s3 = 777 /\ regs s3 = mkRegisters 1 2 3 4 5 6 7 65556.
Proof.
  destruct first_switch as (s1 & s2 & _ & Hr & Hm & Er & Ec & H12 & Ec2 & Hw2).
  pose proof (proj1 (host_step_ok _ _ _ _ _ layout2 _ _ (reachable_host_inv _ _ _ _ _ layout2 _ Hr) H12)) as Hi2.
  destruct (back_call s2 Hi2 Ec2 Hw2) as (s3 & s4 & H23 & Ec3 & H34 & Ec4).
  { rewrite <- Ec2. apply (i_current _ _ _ _ _ _ Hi2). }
  destruct (kernel_threads_resume 8 2 tcb2 lo2 hi2 layout2 s1 s2 s3 s4 777) as (E & Ers & _).
  - exact Hr.
  - exact Hm.
  - exact H12.
  - rewrite Ec, Ec2. discriminate.
  - rewrite Ec. apply rtc_once. split; [exact H23|]. rewrite Ec2, Ec3. split; discriminate.
  - exact H34.
  - rewrite Ec, Ec3. discriminate.
  - rewrite Ec. exact Ec4.
  - exists s1, s4. split; [exact Er|]. split; [exact Ec4|]. split; [exact E|]. rewrite Er in Ers. exact Ers.
Defined.

End ThreadSwitch.
