(* ===== verification/Threads.v ===== *)
(** * Threads, the scheduler, semaphores and locks

    threads/thread.cc, threads/scheduler.cc and threads/synch.cc.  A step of
    the model is a stretch of kernel code between two points at which the
    processor can be taken away: the bodies of [Semaphore::P] and [V] run with
    interrupts disabled and are one step each; between them, and between any
    other two steps, the timer may make the running thread yield, and a device
    interrupt may call [V].

    Each thread carries the rest of the routine it is executing ([todo]).  A
    thread that sleeps in [P] starts its step again when it runs again: the
    [while (value == 0)] of the source.  The value of a semaphore is an [int];
    its overflow after 2^31 calls of [V] is not modelled. *)

From S2P Require Import Prelude.

Module Threads.

Inductive ThreadStatus := JUST_CREATED | RUNNING | READY | BLOCKED.

#[global] Instance ThreadStatus_eq_dec : EqDecision ThreadStatus.
Proof. solve_decision. Defined.

(** Threads, locks and conditions are named by numbers. *)
Abbreviation tid := nat.
Abbreviation lid := nat.
Abbreviation cid := nat.

(** Semaphores: those of the program, the one each lock creates for itself, and
    the ones [Condition::Wait] creates. *)
Inductive sid := Named (n : nat) | OfLock (l : lid) | Waiter (n : nat).

#[global] Instance sid_eq_dec : EqDecision sid.
Proof. solve_decision. Defined.

#[global] Instance sid_countable : Countable sid.
Proof.
  refine (inj_countable'
    (fun s => match s with Named n => inl n | OfLock l => inr (inl l) | Waiter n => inr (inr n) end)
    (fun x => match x with inl n => Named n | inr (inl l) => OfLock l | inr (inr n) => Waiter n end) _).
  by intros [].
Defined.

(** The steps of the synchronisation routines. *)
Inductive act :=
| AP (s : sid)         (* the body of Semaphore::P *)
| AV (s : sid)         (* the body of Semaphore::V *)
| ASetHolder (l : lid) (* lockHolder = kernel->currentThread *)
| AClearHolder (l : lid) (* ASSERT(IsHeldByCurrentThread()); lockHolder = NULL *)
| AWait (c : cid) (l : lid) (* the beginning of Condition::Wait *)
| ASignal (c : cid) (l : lid) (* Condition::Signal *)
| ABroadcast (c : cid) (l : lid). (* the loop test of Condition::Broadcast *)

#[global] Instance act_eq_dec : EqDecision act.
Proof. solve_decision. Defined.

Record Thread := mkThread { status : ThreadStatus; todo : list act }.

Record Semaphore := mkSemaphore { value : Z; queue : list tid }.

(** The semaphore of lock [l] is [OfLock l]. *)
Record Lock := mkLock { lockHolder : option tid }.

(** [sleeping = Some finishing] while the current thread is in the loop of
    [Thread::Sleep(finishing)]. *)
Record state := mkState {
  currentThread : tid;
  sleeping : option bool;
  readyList : list tid;
  toBeDestroyed : option tid;
  threads : gmap tid Thread;
  sems : gmap sid Semaphore;
  locks : gmap lid Lock;
  conds : gmap cid (list sid); (* waitQueue of each condition *)
  nextSem : nat; (* number of waiters created *)
  nextThread : tid
}.

Definition set_threads (ts : gmap tid Thread) (st : state) : state :=
  {| currentThread := currentThread st; sleeping := sleeping st; readyList := readyList st;
     toBeDestroyed := toBeDestroyed st; threads := ts; sems := sems st; locks := locks st;
     conds := conds st; nextSem := nextSem st; nextThread := nextThread st |}.

Definition set_sems (ss : gmap sid Semaphore) (st : state) : state :=
  {| currentThread := currentThread st; sleeping := sleeping st; readyList := readyList st;
     toBeDestroyed := toBeDestroyed st; threads := threads st; sems := ss; locks := locks st;
     conds := conds st; nextSem := nextSem st; nextThread := nextThread st |}.

Definition set_locks (ls : gmap lid Lock) (st : state) : state :=
  {| currentThread := currentThread st; sleeping := sleeping st; readyList := readyList st;
     toBeDestroyed := toBeDestroyed st; threads := threads st; sems := sems st; locks := ls;
     conds := conds st; nextSem := nextSem st; nextThread := nextThread st |}.

Definition set_ready (l : list tid) (st : state) : state :=
  {| currentThread := currentThread st; sleeping := sleeping st; readyList := l;
     toBeDestroyed := toBeDestroyed st; threads := threads st; sems := sems st; locks := locks st;
     conds := conds st; nextSem := nextSem st; nextThread := nextThread st |}.

(** [thread->setStatus(s)] *)
Definition setStatus (t : tid) (s : ThreadStatus) (st : state) : res state :=
  let* th := deref (threads st !! t) in
  Ok (set_threads (<[t := mkThread s (todo th)]> (threads st)) st).

(** ** Scheduler *)

Definition ReadyToRun (t : tid) (st : state) : res state :=
  let* st1 := setStatus t READY st in
  Ok (set_ready (readyList st1 ++ [t]) st1).

Definition FindNextToRun (st : state) : option tid * state :=
  match readyList st with
  | [] => (None, st)
  | t :: l => (Some t, set_ready l st)
  end.

(** [delete toBeDestroyed] runs [Thread::~Thread]. *)
Definition CheckToBeDestroyed (st : state) : res state :=
  match toBeDestroyed st with
  | None => Ok st
  | Some t =>
      ASSERT (negb (bool_decide (t = currentThread st))) ;;;
      Ok {| currentThread := currentThread st; sleeping := sleeping st; readyList := readyList st;
            toBeDestroyed := None; threads := delete t (threads st); sems := sems st;
            locks := locks st; conds := conds st; nextSem := nextSem st; nextThread := nextThread st |}
  end.

(** [Run]: after the context switch the next thread runs, and first checks
    whether its predecessor is to be destroyed. *)
Definition Run (next : tid) (finishing : bool) (st : state) : res state :=
  let old := currentThread st in
  ASSERT (negb finishing || bool_decide (toBeDestroyed st = None)) ;;;
  let st1 :=
    {| currentThread := next; sleeping := None; readyList := readyList st;
       toBeDestroyed := if finishing then Some old else toBeDestroyed st;
       threads := threads st; sems := sems st; locks := locks st; conds := conds st; nextSem := nextSem st; nextThread := nextThread st |} in
  let* st2 := setStatus next RUNNING st1 in
  CheckToBeDestroyed st2.

(** ** Threads *)

(** [Sleep], up to its loop. *)
Definition Sleep (finishing : bool) (st : state) : res state :=
  let* st1 := setStatus (currentThread st) BLOCKED st in
  Ok {| currentThread := currentThread st1; sleeping := Some finishing; readyList := readyList st1;
        toBeDestroyed := toBeDestroyed st1; threads := threads st1; sems := sems st1;
        locks := locks st1; conds := conds st1; nextSem := nextSem st1; nextThread := nextThread st1 |}.

Definition Yield (st : state) : res state :=
  match FindNextToRun st with
  | (Some next, st1) =>
      let* st2 := ReadyToRun (currentThread st1) st1 in
      Run next false st2
  | (None, st1) => Ok st1
  end.

(** [Fork]: a new thread, ready to run. *)
Definition Fork (st : state) : res state :=
  let t := nextThread st in
  ReadyToRun t
    {| currentThread := currentThread st; sleeping := sleeping st; readyList := readyList st;
       toBeDestroyed := toBeDestroyed st;
       threads := <[t := mkThread JUST_CREATED []]> (threads st);
       sems := sems st; locks := locks st; conds := conds st; nextSem := nextSem st; nextThread := S t |}.

Definition Finish (st : state) : res state := Sleep true st.

(** ** Semaphores and locks *)

(** [V] *)
Definition V (s : sid) (st : state) : res state :=
  let* sem := deref (sems st !! s) in
  match queue sem with
  | [] => Ok (set_sems (<[s := mkSemaphore (value sem + 1) []]> (sems st)) st)
  | t :: q =>
      let* st1 := ReadyToRun t st in
      Ok (set_sems (<[s := mkSemaphore (value sem + 1) q]> (sems st1)) st1)
  end.

(** The current thread has done its step: the rest of its routine is [rest]. *)
Definition advance (rest : list act) (st : state) : res state :=
  let* th := deref (threads st !! currentThread st) in
  Ok (set_threads (<[currentThread st := mkThread (status th) rest]> (threads st)) st).

(** [P]: one test of the value by the current thread, which then sleeps or
    goes on. *)
Definition P (s : sid) (rest : list act) (st : state) : res state :=
  let* sem := deref (sems st !! s) in
  if value sem =? 0 then
    Sleep false
      (set_sems (<[s := mkSemaphore (value sem) (queue sem ++ [currentThread st])]> (sems st)) st)
  else
    advance rest (set_sems (<[s := mkSemaphore (value sem - 1) (queue sem)]> (sems st)) st).

(** [ASSERT(conditionLock->IsHeldByCurrentThread())] *)
Definition held (l : lid) (st : state) : res Lock :=
  let* lk := deref (locks st !! l) in
  ASSERT (bool_decide (lockHolder lk = Some (currentThread st))) ;;;
  Ok lk.

Definition set_cond (c : cid) (q : list sid) (st : state) : state :=
  {| currentThread := currentThread st; sleeping := sleeping st; readyList := readyList st;
     toBeDestroyed := toBeDestroyed st; threads := threads st; sems := sems st; locks := locks st;
     conds := <[c := q]> (conds st); nextSem := nextSem st; nextThread := nextThread st |}.

(** [waiter = new Semaphore("condition", 0); waitQueue->Append(waiter)] *)
Definition new_waiter (c : cid) (q : list sid) (st : state) : state :=
  {| currentThread := currentThread st; sleeping := sleeping st; readyList := readyList st;
     toBeDestroyed := toBeDestroyed st; threads := threads st;
     sems := <[Waiter (nextSem st) := mkSemaphore 0 []]> (sems st); locks := locks st;
     conds := <[c := q ++ [Waiter (nextSem st)]]> (conds st);
     nextSem := S (nextSem st); nextThread := nextThread st |}.

(** One step of the current thread's routine.  The semaphore that
    [Condition::Wait] deletes at its end stays in the map: no step names it any
    more. *)
Definition exec (a : act) (rest : list act) (st : state) : res state :=
  match a with
  | AP s => P s rest st
  | AV s => let* st1 := V s st in advance rest st1
  | ASetHolder l =>
      let* lk := deref (locks st !! l) in
      advance rest
        (set_locks (<[l := mkLock (Some (currentThread st))]> (locks st)) st)
  | AClearHolder l =>
      let* lk := deref (locks st !! l) in
      ASSERT (bool_decide (lockHolder lk = Some (currentThread st))) ;;;
      advance rest (set_locks (<[l := mkLock None]> (locks st)) st)
  | AWait c l =>
      held l st ;;;
      let* q := deref (conds st !! c) in
      advance (AClearHolder l :: AV (OfLock l) :: AP (Waiter (nextSem st)) ::
               AP (OfLock l) :: ASetHolder l :: rest)
        (new_waiter c q st)
  | ASignal c l =>
      held l st ;;;
      let* q := deref (conds st !! c) in
      match q with
      | [] => advance rest st
      | waiter :: q' => advance (AV waiter :: rest) (set_cond c q' st)
      end
  | ABroadcast c l =>
      let* q := deref (conds st !! c) in
      match q with
      | [] => advance rest st
      | _ :: _ => advance (ASignal c l :: ABroadcast c l :: rest) st
      end
  end.

(** The routines a thread can call, as their steps. *)
Inductive call :=
| CallP (s : sid) | CallV (s : sid)
| CallAcquire (l : lid) | CallRelease (l : lid)
| CallWait (c : cid) (l : lid) | CallSignal (c : cid) (l : lid) | CallBroadcast (c : cid) (l : lid).

Definition code (c : call) : list act :=
  match c with
  | CallP s => [AP s]
  | CallV s => [AV s]
  | CallAcquire l => [AP (OfLock l); ASetHolder l]
  | CallRelease l => [AClearHolder l; AV (OfLock l)]
  | CallWait c l => [AWait c l]
  | CallSignal c l => [ASignal c l]
  | CallBroadcast c l => [ABroadcast c l]
  end.

(** The semaphores of locks and of waiters are private. *)
Definition public (s : sid) : Prop :=
  match s with Named _ => True | _ => False end.

Definition allowed (c : call) : Prop :=
  match c with
  | CallP s | CallV s => public s
  | _ => True
  end.

(** ** Steps *)

Inductive step : state -> state -> Prop :=
| step_call st th c :
    sleeping st = None -> threads st !! currentThread st = Some th -> todo th = [] ->
    allowed c ->
    step st (set_threads (<[currentThread st := mkThread (status th) (code c)]> (threads st)) st)
| step_exec st th a rest st' :
    sleeping st = None -> threads st !! currentThread st = Some th -> todo th = a :: rest ->
    exec a rest st = Ok st' -> step st st'
| step_yield st st' :
    sleeping st = None -> Yield st = Ok st' -> step st st'
| step_fork st st' :
    sleeping st = None -> Fork st = Ok st' -> step st st'
| step_finish st th st' :
    sleeping st = None -> threads st !! currentThread st = Some th -> todo th = [] ->
    Finish st = Ok st' -> step st st'
| step_dispatch st finishing next st1 st' :
    sleeping st = Some finishing -> FindNextToRun st = (Some next, st1) ->
    Run next finishing st1 = Ok st' -> step st st'
| step_interrupt st s st' :
    (sleeping st = None \/ readyList st = []) -> public s -> V s st = Ok st' -> step st st'.

(** Before any call: one running thread, nobody waits, locks are free and each
    has its own semaphore. *)
Definition initial (st : state) : Prop :=
  sleeping st = None /\ readyList st = [] /\ toBeDestroyed st = None /\
  threads st = {[ currentThread st := mkThread RUNNING [] ]} /\
  (currentThread st < nextThread st)%nat /\
  (forall s sem, sems st !! s = Some sem -> 0 <= value sem /\ queue sem = []) /\
  (forall l lk, locks st !! l = Some lk ->
     lockHolder lk = None /\ sems st !! OfLock l = Some (mkSemaphore 1 [])) /\
  (forall c q, conds st !! c = Some q -> q = []) /\
  (forall n, sems st !! Waiter n = None).

Definition reachable (st : state) : Prop := exists st0, initial st0 /\ rtc step st0 st.

(** ** Where the threads are *)

(** The scheduling invariant: the running thread, the ready list and the queues
    of the semaphores hold each thread once, in agreement with its status. *)
Record placed (st : state) : Prop := {
  p_next : forall t th, threads st !! t = Some th -> (t < nextThread st)%nat;
  p_fresh : forall n, (nextSem st <= n)%nat -> sems st !! Waiter n = None;
  p_destroy : toBeDestroyed st = None;
  p_ready_nodup : NoDup (readyList st);
  p_ready : forall t, t ∈ readyList st <->
    exists th, threads st !! t = Some th /\ status th = READY;
  p_running : forall t th, threads st !! t = Some th ->
    status th = RUNNING <-> sleeping st = None /\ t = currentThread st;
  p_current : is_Some (threads st !! currentThread st);
  p_queue : forall s sem, sems st !! s = Some sem -> 0 <= value sem /\ NoDup (queue sem) /\
    forall t, t ∈ queue sem -> exists rest, threads st !! t = Some (mkThread BLOCKED (AP s :: rest));
  p_blocked : forall t th, threads st !! t = Some th -> status th = BLOCKED ->
    (sleeping st = Some true /\ t = currentThread st /\ todo th = []) \/
    exists s sem rest, todo th = AP s :: rest /\ sems st !! s = Some sem /\ t ∈ queue sem;
  p_finishing : sleeping st = Some true ->
    threads st !! currentThread st = Some (mkThread BLOCKED []);
  p_created : forall t th, threads st !! t = Some th -> status th <> JUST_CREATED
}.

Lemma initial_placed st : initial st -> placed st.
Proof.
  intros (Hs & Hr & Hd & Ht & Hn & Hsem & _ & _ & Hw).
  assert (forall t th, threads st !! t = Some th -> t = currentThread st /\ th = mkThread RUNNING []) as Hone.
  { intros t th. rewrite Ht. intros H. by apply lookup_singleton_Some in H as [<- <-]. }
  constructor; rewrite ?Hs, ?Hr; try done.
  - intros t th H. by apply Hone in H as [-> _].
  - constructor.
  - intros t. split; [intros H; by apply not_elem_of_nil in H|].
    intros (th & H & E). apply Hone in H as [_ ->]. done.
  - intros t th H. by apply Hone in H as [-> ->].
  - rewrite Ht, lookup_singleton_eq. eauto.
  - intros s sem H. destruct (Hsem s sem H) as [Hv ->]. split; [done|]. split; [constructor|].
    intros t Ht'. by apply not_elem_of_nil in Ht'.
  - intros t th H E. by apply Hone in H as [_ ->].
  - intros t th H. by apply Hone in H as [_ ->].
Qed.

Lemma fresh_insert st s sem sem' n :
  placed st -> sems st !! s = Some sem -> (nextSem st <= n)%nat ->
  <[s := sem']> (sems st) !! Waiter n = None.
Proof.
  intros H Hs Hn. pose proof (p_fresh st H n Hn) as Hf.
  rewrite lookup_insert_ne; [done|]. congruence.
Qed.

(** Changing the rest of the running thread's routine. *)
Lemma placed_todo st th cs :
  placed st -> sleeping st = None -> threads st !! currentThread st = Some th ->
  placed (set_threads (<[currentThread st := mkThread (status th) cs]> (threads st)) st).
Proof.
  intros H Hs Hc. assert (status th = RUNNING) as Hr by (by apply (p_running st H _ _ Hc)).
  constructor; cbn [set_threads currentThread sleeping readyList toBeDestroyed threads sems locks conds nextSem nextThread];
    try apply H.
  - intros t th'. rewrite lookup_insert_Some. intros [[<- _]|[_ Ht]]; by eapply (p_next st H).
  - intros t. rewrite (p_ready st H). split; intros (th' & Ht & E); exists th'.
    + split; [|done]. rewrite lookup_insert_ne; [done|]. intros <-. congruence.
    + split; [|done]. apply lookup_insert_Some in Ht as [[_ <-]|[_ Ht]]; [|done].
      cbn in E. congruence.
  - intros t th'. rewrite lookup_insert_Some. intros [[<- <-]|[_ Ht]]; [done|].
    by apply (p_running st H).
  - rewrite lookup_insert_eq. eauto.
  - intros s sem Hsem. destruct (p_queue st H s sem Hsem) as (Hv & Hnd & Hq).
    split; [done|]. split; [done|]. intros t Ht. destruct (Hq t Ht) as [rest Hrest].
    exists rest. rewrite lookup_insert_ne; [done|]. intros <-. rewrite Hc in Hrest.
    injection Hrest as ->. done.
  - intros t th'. rewrite lookup_insert_Some. intros [[<- <-]|[Hne Ht]] E; [cbn in E; congruence|].
    destruct (p_blocked st H t th' Ht E) as [(Hx & _)|Hx]; [congruence|by right].
  - congruence.
  - intros t th'. rewrite lookup_insert_Some. intros [[<- <-]|[_ Ht]]; [cbn; congruence|].
    by apply (p_created st H t).
Qed.

(** Reduces the fields of an updated state. *)
Ltac fields := cbn [set_threads set_sems set_locks set_ready set_cond new_waiter currentThread sleeping readyList
  toBeDestroyed threads sems locks conds nextSem nextThread status todo value queue] in *.

Lemma placed_value st s sem v :
  placed st -> sems st !! s = Some sem -> 0 <= v ->
  placed (set_sems (<[s := mkSemaphore v (queue sem)]> (sems st)) st).
Proof.
  intros H Hsem Hv. destruct (p_queue st H s sem Hsem) as (_ & Hnd & Hq).
  constructor; fields; try apply H.
  - intros n. by eapply fresh_insert.
  - intros s' sem'. rewrite lookup_insert_Some. intros [[<- <-]|[_ Hs']]; [done|].
    by apply (p_queue st H s').
  - intros t th Ht E. destruct (p_blocked st H t th Ht E) as [Hx|(s' & sem' & rest & Hx & Hs' & Hin)];
      [by left|]. right. destruct (decide (s = s')) as [<-|Hne].
    + exists s, (mkSemaphore v (queue sem)), rest. rewrite lookup_insert_eq.
      assert (sem' = sem) as -> by congruence. done.
    + exists s', sem', rest. by rewrite lookup_insert_ne.
Qed.

Lemma placed_cond c q st : placed st -> placed (set_cond c q st).
Proof. intros H. constructor; fields; apply H. Qed.

(** A new semaphore, which nobody waits for. *)
Lemma placed_waiter c q st : placed st -> placed (new_waiter c q st).
Proof.
  intros H. assert (sems st !! Waiter (nextSem st) = None) as Hf by (apply (p_fresh st H); lia).
  constructor; fields; try apply H.
  - intros n Hn. rewrite lookup_insert_ne by (intros [=]; lia). apply (p_fresh st H). lia.
  - intros s sem. rewrite lookup_insert_Some. intros [[<- <-]|[_ Hs]]; [|by apply (p_queue st H)].
    split; [done|]. split; [constructor|]. intros t Ht. by apply not_elem_of_nil in Ht.
  - intros t th Ht E. destruct (p_blocked st H t th Ht E) as [Hx|(s & sem & r & Hx & Hs & Hin)];
      [by left|]. right. exists s, sem, r. rewrite lookup_insert_ne; [done|]. congruence.
Qed.

Lemma placed_locks st ls : placed st -> placed (set_locks ls st).
Proof. intros H. constructor; fields; apply H. Qed.

(** Waking the first thread of a queue. *)
Lemma placed_wake st s v t q th :
  placed st -> sems st !! s = Some (mkSemaphore v (t :: q)) -> threads st !! t = Some th ->
  placed (set_sems (<[s := mkSemaphore (v + 1) q]> (sems st))
    (set_ready (readyList st ++ [t])
       (set_threads (<[t := mkThread READY (todo th)]> (threads st)) st))).
Proof.
  intros H Hsem Ht. destruct (p_queue st H s _ Hsem) as (Hv & Hnd & Hq). fields.
  apply NoDup_cons in Hnd as [Htq Hnd].
  destruct (Hq t ltac:(set_solver)) as [rest Hrest]. assert (th = mkThread BLOCKED (AP s :: rest)) as ->
    by congruence. fields.
  assert (t ∉ readyList st) as Hnr.
  { intros Hin. apply (p_ready st H) in Hin as (th & Hth & E). rewrite Ht in Hth.
    injection Hth as <-. done. }
  constructor; fields; try apply H.
  - intros t' th'. rewrite lookup_insert_Some. intros [[<- _]|[_ Ht']]; by eapply (p_next st H).
  - intros n. by eapply fresh_insert.
  - apply NoDup_app. split; [apply H|]. split; [|apply NoDup_singleton].
    intros x Hx Hx'. apply list_elem_of_singleton in Hx'. by subst.
  - intros t'. rewrite elem_of_app, list_elem_of_singleton, (p_ready st H). split.
    + intros [(th' & Ht' & E)| ->]; [|exists (mkThread READY (AP s :: rest)); by rewrite lookup_insert_eq].
      exists th'. rewrite lookup_insert_ne; [done|]. intros <-. rewrite Ht in Ht'. by injection Ht' as <-.
    + intros (th' & Ht' & E). apply lookup_insert_Some in Ht' as [[<- _]|[_ Ht']]; [by right|].
      left. by exists th'.
  - intros t' th'. rewrite lookup_insert_Some. intros [[<- <-]|[_ Ht']].
    + split; [done|]. intros E. apply (p_running st H t _ Ht) in E. done.
    + by apply (p_running st H).
  - destruct (decide (t = currentThread st)) as [->|Hne];
      [rewrite lookup_insert_eq; eauto|rewrite lookup_insert_ne by done; apply H].
  - intros s' sem'. rewrite lookup_insert_Some. intros [[<- <-]|[Hne Hs']]; fields.
    + split; [lia|]. split; [done|]. intros t' Hin. destruct (Hq t' ltac:(set_solver)) as [r Hr].
      exists r. rewrite lookup_insert_ne; [done|]. intros <-. done.
    + destruct (p_queue st H s' sem' Hs') as (Hv' & Hnd' & Hq'). split; [done|]. split; [done|].
      intros t' Hin. destruct (Hq' t' Hin) as [r Hr]. exists r.
      rewrite lookup_insert_ne; [done|]. intros <-. congruence.
  - intros t' th'. rewrite lookup_insert_Some. intros [[<- <-]|[Hne Ht']] E; [done|].
    destruct (p_blocked st H t' th' Ht' E) as [Hx|(s' & sem' & r & Hx & Hs' & Hin)]; [by left|].
    right. destruct (decide (s = s')) as [<-|Hs].
    + assert (sem' = mkSemaphore v (t :: q)) as -> by congruence. fields.
      exists s, (mkSemaphore (v + 1) q), r. rewrite lookup_insert_eq. split; [done|]. split; [done|].
      fields. set_solver.
    + exists s', sem', r. by rewrite lookup_insert_ne.
  - intros E. pose proof (p_finishing st H E) as Hf. rewrite lookup_insert_ne; [done|].
    intros ->. congruence.
  - intros t' th'. rewrite lookup_insert_Some. intros [[<- <-]|[_ Ht']]; [done|].
    by apply (p_created st H t').
Qed.

(** The running thread blocks in [P]. *)
Lemma placed_wait st s sem rest :
  placed st -> sleeping st = None -> sems st !! s = Some sem ->
  threads st !! currentThread st = Some (mkThread RUNNING (AP s :: rest)) ->
  placed {| currentThread := currentThread st; sleeping := Some false; readyList := readyList st;
            toBeDestroyed := toBeDestroyed st;
            threads := <[currentThread st := mkThread BLOCKED (AP s :: rest)]> (threads st);
            sems := <[s := mkSemaphore (value sem) (queue sem ++ [currentThread st])]> (sems st);
            locks := locks st; conds := conds st; nextSem := nextSem st; nextThread := nextThread st |}.
Proof.
  intros H Hs Hsem Hc. destruct (p_queue st H s sem Hsem) as (Hv & Hnd & Hq).
  assert (currentThread st ∉ queue sem) as Hcq.
  { intros Hin. destruct (Hq _ Hin) as [r Hr]. congruence. }
  constructor; fields; try apply H.
  - intros t' th'. rewrite lookup_insert_Some. intros [[<- _]|[_ Ht']]; by eapply (p_next st H).
  - intros n. by eapply fresh_insert.
  - intros t. rewrite (p_ready st H). split; intros (th' & Ht & E); exists th'.
    + split; [|done]. rewrite lookup_insert_ne; [done|]. intros <-. rewrite Hc in Ht. by injection Ht as <-.
    + split; [|done]. by apply lookup_insert_Some in Ht as [[_ <-]|[_ Ht]].
  - intros t th'. rewrite lookup_insert_Some. intros [[<- <-]|[Hne Ht]]; [split; [done|by intros [? _]]|].
    split; [|by intros [? _]]. intros E. by apply (p_running st H t th' Ht) in E as [_ ->].
  - rewrite lookup_insert_eq. eauto.
  - intros s' sem'. rewrite lookup_insert_Some. intros [[<- <-]|[Hne Hs']]; fields.
    + split; [done|]. split.
      { apply NoDup_app. split; [done|]. split; [|apply NoDup_singleton].
        intros x Hx Hx'. apply list_elem_of_singleton in Hx'. by subst. }
      intros t. rewrite elem_of_app, list_elem_of_singleton. intros [Hin| ->].
      * destruct (Hq t Hin) as [r Hr]. exists r. rewrite lookup_insert_ne; [done|]. by intros <-.
      * exists rest. by rewrite lookup_insert_eq.
    + destruct (p_queue st H s' sem' Hs') as (Hv' & Hnd' & Hq'). split; [done|]. split; [done|].
      intros t Hin. destruct (Hq' t Hin) as [r Hr]. exists r.
      rewrite lookup_insert_ne; [done|]. intros <-. congruence.
  - intros t th'. rewrite lookup_insert_Some. intros [[<- <-]|[Hne Ht]] E.
    + right. exists s, (mkSemaphore (value sem) (queue sem ++ [currentThread st])), rest.
      rewrite lookup_insert_eq. split; [done|]. split; [done|]. fields. set_solver.
    + destruct (p_blocked st H t th' Ht E) as [(Hx & _)|(s' & sem' & r & Hx & Hs' & Hin)]; [congruence|].
      right. destruct (decide (s = s')) as [<-|Hss].
      * assert (sem' = sem) as -> by congruence.
        exists s, (mkSemaphore (value sem) (queue sem ++ [currentThread st])), r.
        rewrite lookup_insert_eq. split; [done|]. split; [done|]. fields. set_solver.
      * exists s', sem', r. by rewrite lookup_insert_ne.
  - done.
  - intros t' th'. rewrite lookup_insert_Some. intros [[<- <-]|[_ Ht']]; [done|].
    by apply (p_created st H t').
Qed.

(** The running thread gives way to the first ready one. *)
Lemma placed_yield st th next l th' :
  placed st -> sleeping st = None -> threads st !! currentThread st = Some th ->
  readyList st = next :: l -> threads st !! next = Some th' ->
  placed {| currentThread := next; sleeping := None; readyList := l ++ [currentThread st];
            toBeDestroyed := None;
            threads := <[next := mkThread RUNNING (todo th')]>
              (<[currentThread st := mkThread READY (todo th)]> (threads st));
            sems := sems st; locks := locks st; conds := conds st; nextSem := nextSem st; nextThread := nextThread st |}.
Proof.
  intros H Hs Hc Hr Hn.
  assert (status th = RUNNING) as Hrun by (by apply (p_running st H _ _ Hc)).
  assert (status th' = READY) as Hrdy.
  { destruct (proj1 (p_ready st H next)) as (x & Hx & E); [rewrite Hr; set_solver|]. congruence. }
  assert (next <> currentThread st) as Hne by (intros ->; congruence).
  pose proof (p_ready_nodup st H) as Hnd. rewrite Hr in Hnd. apply NoDup_cons in Hnd as [Hnl Hnd].
  assert (currentThread st ∉ l) as Hcl.
  { intros Hin. destruct (proj1 (p_ready st H (currentThread st))) as (x & Hx & E);
      [rewrite Hr; set_solver|]. congruence. }
  constructor; fields; try apply H; try done.
  - intros t x. rewrite !lookup_insert_Some. intros [[<- _]|[_ [[<- _]|[_ Ht]]]]; by eapply (p_next st H).
  - apply NoDup_app. split; [done|]. split; [|apply NoDup_singleton].
    intros x Hx Hx'. apply list_elem_of_singleton in Hx'. by subst.
  - intros t. rewrite elem_of_app, list_elem_of_singleton. split.
    + intros [Hin| ->].
      * destruct (proj1 (p_ready st H t)) as (x & Hx & E); [rewrite Hr; set_solver|].
        exists x. rewrite !lookup_insert_ne; [done|by intros <-|by intros <-].
      * exists (mkThread READY (todo th)). by rewrite lookup_insert_ne, lookup_insert_eq.
    + intros (x & Hx & E). apply lookup_insert_Some in Hx as [[<- <-]|[Hn' Hx]]; [done|].
      apply lookup_insert_Some in Hx as [[<- <-]|[_ Hx]]; [by right|]. left.
      assert (t ∈ readyList st) as Hin by (apply (p_ready st H); eauto). rewrite Hr in Hin. set_solver.
  - intros t x. rewrite !lookup_insert_Some.
    intros [[<- <-]|[Hn' [[<- <-]|[Hc' Ht]]]]; [done|split; [done|by intros [_ E]]|].
    split; [|intros [_ E]; congruence]. intros E. by apply (p_running st H t x Ht) in E as [_ ->].
  - rewrite lookup_insert_eq. eauto.
  - intros s sem Hsem. destruct (p_queue st H s sem Hsem) as (Hv & Hnd' & Hq).
    split; [done|]. split; [done|]. intros t Hin. destruct (Hq t Hin) as [r Hr'].
    exists r. rewrite !lookup_insert_ne; [done| |]; intros <-; rewrite ?Hc, ?Hn in Hr';
      by injection Hr' as ->.
  - intros t x. rewrite !lookup_insert_Some. intros [[<- <-]|[Hn' [[<- <-]|[Hc' Ht]]]] E; [done|done|].
    destruct (p_blocked st H t x Ht E) as [(Hx & _)|Hx]; [congruence|by right].
  - intros t x. rewrite !lookup_insert_Some. intros [[<- <-]|[Hn' [[<- <-]|[Hc' Ht]]]]; [done|done|].
    by apply (p_created st H t).
Qed.

Lemma placed_fork st :
  placed st ->
  placed {| currentThread := currentThread st; sleeping := sleeping st;
            readyList := readyList st ++ [nextThread st]; toBeDestroyed := toBeDestroyed st;
            threads := <[nextThread st := mkThread READY []]>
              (<[nextThread st := mkThread JUST_CREATED []]> (threads st));
            sems := sems st; locks := locks st; conds := conds st; nextSem := nextSem st; nextThread := S (nextThread st) |}.
Proof.
  intros H. rewrite insert_insert_eq.
  assert (threads st !! nextThread st = None) as Hf.
  { destruct (threads st !! nextThread st) eqn:E; [|done]. apply (p_next st H) in E. lia. }
  assert (forall t th, threads st !! t = Some th -> nextThread st <> t) as Hne by congruence.
  constructor; fields; try apply H.
  - intros t x. rewrite lookup_insert_Some. intros [[<- _]|[_ Ht]]; [lia|].
    apply (p_next st H) in Ht. lia.
  - apply NoDup_app. split; [apply H|]. split; [|apply NoDup_singleton].
    intros x Hx Hx'. apply list_elem_of_singleton in Hx'. subst.
    apply (p_ready st H) in Hx as (th & Ht & _). congruence.
  - intros t. rewrite elem_of_app, list_elem_of_singleton, (p_ready st H). split.
    + intros [(th & Ht & E)| ->]; [|exists (mkThread READY []); by rewrite lookup_insert_eq].
      exists th. by rewrite lookup_insert_ne by eauto.
    + intros (th & Ht & E). apply lookup_insert_Some in Ht as [[<- _]|[_ Ht]]; [by right|].
      left. by exists th.
  - intros t x. rewrite lookup_insert_Some. intros [[<- <-]|[_ Ht]]; [|by apply (p_running st H)].
    split; [done|]. intros [_ E]. destruct (p_current st H) as [y Hy]. congruence.
  - destruct (p_current st H) as [y Hy]. rewrite lookup_insert_ne by eauto. by exists y.
  - intros s sem Hsem. destruct (p_queue st H s sem Hsem) as (Hv & Hnd & Hq).
    split; [done|]. split; [done|]. intros t Hin. destruct (Hq t Hin) as [r Hr].
    exists r. by rewrite lookup_insert_ne by eauto.
  - intros t x. rewrite lookup_insert_Some. intros [[<- <-]|[_ Ht]] E; [done|].
    by apply (p_blocked st H).
  - intros E. pose proof (p_finishing st H E) as Hf'. by rewrite lookup_insert_ne by eauto.
  - intros t x. rewrite lookup_insert_Some. intros [[<- <-]|[_ Ht]]; [done|]. by apply (p_created st H t).
Qed.

(** The running thread finishes: it blocks for good. *)
Lemma placed_finish st th :
  placed st -> sleeping st = None -> threads st !! currentThread st = Some th -> todo th = [] ->
  placed {| currentThread := currentThread st; sleeping := Some true; readyList := readyList st;
            toBeDestroyed := toBeDestroyed st;
            threads := <[currentThread st := mkThread BLOCKED (todo th)]> (threads st);
            sems := sems st; locks := locks st; conds := conds st; nextSem := nextSem st; nextThread := nextThread st |}.
Proof.
  intros H Hs Hc Ht0. rewrite Ht0.
  assert (status th = RUNNING) as Hrun by (by apply (p_running st H _ _ Hc)).
  constructor; fields; try apply H.
  - intros t x. rewrite lookup_insert_Some. intros [[<- _]|[_ Ht]]; by eapply (p_next st H).
  - intros t. rewrite (p_ready st H). split; intros (x & Ht & E); exists x.
    + split; [|done]. rewrite lookup_insert_ne; [done|]. intros <-. congruence.
    + split; [|done]. by apply lookup_insert_Some in Ht as [[_ <-]|[_ Ht]].
  - intros t x. rewrite lookup_insert_Some. intros [[<- <-]|[Hne Ht]]; [split; [done|by intros [? _]]|].
    split; [|by intros [? _]]. intros E. by apply (p_running st H t x Ht) in E as [_ ->].
  - rewrite lookup_insert_eq. eauto.
  - intros s sem Hsem. destruct (p_queue st H s sem Hsem) as (Hv & Hnd & Hq).
    split; [done|]. split; [done|]. intros t Hin. destruct (Hq t Hin) as [r Hr]. exists r.
    rewrite lookup_insert_ne; [done|]. intros <-. rewrite Hc in Hr. by injection Hr as ->.
  - intros t x. rewrite lookup_insert_Some. intros [[<- <-]|[Hne Ht]] E; [by left|].
    destruct (p_blocked st H t x Ht E) as [(Hx & _)|Hx]; [congruence|by right].
  - intros _. by rewrite lookup_insert_eq.
  - intros t x. rewrite lookup_insert_Some. intros [[<- <-]|[_ Ht]]; [done|]. by apply (p_created st H t).
Qed.

(** After a sleep the first ready thread runs; a finished one is deleted. *)
Lemma placed_dispatch st finishing next l th' :
  placed st -> sleeping st = Some finishing -> readyList st = next :: l ->
  threads st !! next = Some th' ->
  placed {| currentThread := next; sleeping := None; readyList := l; toBeDestroyed := None;
            threads := (if finishing then delete (currentThread st) else id)
              (<[next := mkThread RUNNING (todo th')]> (threads st));
            sems := sems st; locks := locks st; conds := conds st; nextSem := nextSem st; nextThread := nextThread st |}.
Proof.
  intros H Hs Hr Hn.
  assert (status th' = READY) as Hrdy.
  { destruct (proj1 (p_ready st H next)) as (x & Hx & E); [rewrite Hr; set_solver|]. congruence. }
  pose proof (p_ready_nodup st H) as Hnd. rewrite Hr in Hnd. apply NoDup_cons in Hnd as [Hnl Hnd].
  set (ts := <[next := mkThread RUNNING (todo th')]> (threads st)).
  (* what the deletion leaves: the finished thread is in no list *)
  assert (finishing = true -> threads st !! currentThread st = Some (mkThread BLOCKED []))
    as Hfin by (intros ->; by apply (p_finishing st H)).
  assert (forall t x, (if finishing then delete (currentThread st) else id) ts !! t = Some x <->
    ts !! t = Some x /\ (finishing = true -> t <> currentThread st)) as Hts.
  { intros t x. destruct finishing; cbn [id]; [|naive_solver].
    rewrite lookup_delete_Some. naive_solver. }
  assert (forall t x, ts !! t = Some x -> (t = next /\ x = mkThread RUNNING (todo th')) \/
    (t <> next /\ threads st !! t = Some x)) as Hold.
  { intros t x. unfold ts. rewrite lookup_insert_Some. naive_solver. }
  assert (finishing = true -> next <> currentThread st) as Hnc.
  { intros E ->. rewrite (Hfin E) in Hn. by injection Hn as <-. }
  constructor; fields; try apply H; try done.
  - intros t x Ht. apply Hts in Ht as [Ht _]. apply Hold in Ht as [[-> _]|[_ Ht]]; by eapply (p_next st H).
  - intros t. split.
    + intros Hin. destruct (proj1 (p_ready st H t)) as (x & Hx & E); [rewrite Hr; set_solver|].
      exists x. split; [|done]. apply Hts. split.
      * unfold ts. rewrite lookup_insert_ne; [done|]. by intros <-.
      * intros Ef ->. rewrite (Hfin Ef) in Hx. by injection Hx as <-.
    + intros (x & Hx & E). apply Hts in Hx as [Hx _]. apply Hold in Hx as [[_ ->]|[Hne Hx]]; [done|].
      assert (t ∈ readyList st) as Hin by (apply (p_ready st H); eauto). rewrite Hr in Hin. set_solver.
  - intros t x Ht. apply Hts in Ht as [Ht _]. apply Hold in Ht as [[-> ->]|[Hne Ht]]; [done|].
    split; [|by intros [_ ?]]. intros E. apply (p_running st H t x Ht) in E as [E _]. congruence.
  - exists (mkThread RUNNING (todo th')). apply Hts. split; [unfold ts; by rewrite lookup_insert_eq|done].
  - intros s sem Hsem. destruct (p_queue st H s sem Hsem) as (Hv & Hnd' & Hq).
    split; [done|]. split; [done|]. intros t Hin. destruct (Hq t Hin) as [r Hr']. exists r.
    apply Hts. split.
    + unfold ts. rewrite lookup_insert_ne; [done|]. intros <-. rewrite Hn in Hr'. by injection Hr' as ->.
    + intros Ef ->. rewrite (Hfin Ef) in Hr'. done.
  - intros t x Ht E. apply Hts in Ht as [Ht Hd]. apply Hold in Ht as [[_ ->]|[Hne Ht]]; [done|].
    destruct (p_blocked st H t x Ht E) as [(Hx & Hc & _)|Hx]; [|by right].
    rewrite Hs in Hx. injection Hx as Hx. by destruct (Hd Hx).
  - intros t x Ht. apply Hts in Ht as [Ht _]. apply Hold in Ht as [[_ ->]|[Hne Ht]]; [done|].
    by apply (p_created st H t).
Qed.

(** ** The steps, with their results written out *)

Inductive vstep (s : sid) (st : state) : state -> Prop :=
| v_free sem :
    sems st !! s = Some sem -> queue sem = [] ->
    vstep s st (set_sems (<[s := mkSemaphore (value sem + 1) (queue sem)]> (sems st)) st)
| v_wake v t q th :
    sems st !! s = Some (mkSemaphore v (t :: q)) -> threads st !! t = Some th ->
    vstep s st (set_sems (<[s := mkSemaphore (v + 1) q]> (sems st))
      (set_ready (readyList st ++ [t])
         (set_threads (<[t := mkThread READY (todo th)]> (threads st)) st))).

Lemma V_vstep s st st' : V s st = Ok st' -> vstep s st st'.
Proof.
  unfold V. destruct (sems st !! s) as [[v [|t q]]|] eqn:E; cbn; [| |done].
  - intros [= <-]. by apply (v_free s st (mkSemaphore v [])).
  - unfold ReadyToRun, setStatus. destruct (threads st !! t) as [th|] eqn:Et; cbn; [|done].
    intros [= <-]. by apply (v_wake s st v t q th).
Qed.

Definition with_todo (rest : list act) (th : Thread) (st : state) : state :=
  set_threads (<[currentThread st := mkThread (status th) rest]> (threads st)) st.

Inductive estep (st : state) : state -> Prop :=
| e_call th c :
    sleeping st = None -> threads st !! currentThread st = Some th -> todo th = [] ->
    allowed c -> estep st (with_todo (code c) th st)
| e_wait s sem rest :
    sleeping st = None -> sems st !! s = Some sem -> value sem = 0 ->
    threads st !! currentThread st = Some (mkThread RUNNING (AP s :: rest)) ->
    estep st {| currentThread := currentThread st; sleeping := Some false; readyList := readyList st;
            toBeDestroyed := toBeDestroyed st;
            threads := <[currentThread st := mkThread BLOCKED (AP s :: rest)]> (threads st);
            sems := <[s := mkSemaphore (value sem) (queue sem ++ [currentThread st])]> (sems st);
            locks := locks st; conds := conds st; nextSem := nextSem st; nextThread := nextThread st |}
| e_go s sem th rest :
    sleeping st = None -> sems st !! s = Some sem -> value sem <> 0 ->
    threads st !! currentThread st = Some th -> todo th = AP s :: rest ->
    estep st (with_todo rest th
      (set_sems (<[s := mkSemaphore (value sem - 1) (queue sem)]> (sems st)) st))
| e_V s th rest st1 :
    sleeping st = None -> threads st !! currentThread st = Some th -> todo th = AV s :: rest ->
    vstep s st st1 -> currentThread st1 = currentThread st -> sleeping st1 = None ->
    threads st1 !! currentThread st = Some th -> estep st (with_todo rest th st1)
| e_set l lk th rest :
    sleeping st = None -> threads st !! currentThread st = Some th -> todo th = ASetHolder l :: rest ->
    locks st !! l = Some lk ->
    estep st (with_todo rest th
      (set_locks (<[l := mkLock (Some (currentThread st))]> (locks st)) st))
| e_clear l lk th rest :
    sleeping st = None -> threads st !! currentThread st = Some th -> todo th = AClearHolder l :: rest ->
    locks st !! l = Some lk -> lockHolder lk = Some (currentThread st) ->
    estep st (with_todo rest th
      (set_locks (<[l := mkLock None]> (locks st)) st))
| e_cwait c l lk q th rest :
    sleeping st = None -> threads st !! currentThread st = Some th -> todo th = AWait c l :: rest ->
    locks st !! l = Some lk -> lockHolder lk = Some (currentThread st) -> conds st !! c = Some q ->
    estep st (with_todo (AClearHolder l :: AV (OfLock l) :: AP (Waiter (nextSem st)) ::
               AP (OfLock l) :: ASetHolder l :: rest) th (new_waiter c q st))
| e_signal c l w q th rest :
    sleeping st = None -> threads st !! currentThread st = Some th -> todo th = ASignal c l :: rest ->
    conds st !! c = Some (w :: q) ->
    estep st (with_todo (AV w :: rest) th (set_cond c q st))
| e_skip a th rest :
    sleeping st = None -> threads st !! currentThread st = Some th -> todo th = a :: rest ->
    (exists c l, (a = ASignal c l \/ a = ABroadcast c l) /\ conds st !! c = Some []) ->
    estep st (with_todo rest th st)
| e_broadcast c l th rest :
    sleeping st = None -> threads st !! currentThread st = Some th -> todo th = ABroadcast c l :: rest ->
    estep st (with_todo (ASignal c l :: ABroadcast c l :: rest) th st)
| e_yield th next l th' :
    sleeping st = None -> threads st !! currentThread st = Some th ->
    readyList st = next :: l -> threads st !! next = Some th' ->
    estep st {| currentThread := next; sleeping := None; readyList := l ++ [currentThread st];
            toBeDestroyed := None;
            threads := <[next := mkThread RUNNING (todo th')]>
              (<[currentThread st := mkThread READY (todo th)]> (threads st));
            sems := sems st; locks := locks st; conds := conds st; nextSem := nextSem st; nextThread := nextThread st |}
| e_alone : estep st st
| e_fork :
    estep st {| currentThread := currentThread st; sleeping := sleeping st;
            readyList := readyList st ++ [nextThread st]; toBeDestroyed := toBeDestroyed st;
            threads := <[nextThread st := mkThread READY []]>
              (<[nextThread st := mkThread JUST_CREATED []]> (threads st));
            sems := sems st; locks := locks st; conds := conds st; nextSem := nextSem st; nextThread := S (nextThread st) |}
| e_finish th :
    sleeping st = None -> threads st !! currentThread st = Some th -> todo th = [] ->
    estep st {| currentThread := currentThread st; sleeping := Some true; readyList := readyList st;
            toBeDestroyed := toBeDestroyed st;
            threads := <[currentThread st := mkThread BLOCKED (todo th)]> (threads st);
            sems := sems st; locks := locks st; conds := conds st; nextSem := nextSem st; nextThread := nextThread st |}
| e_dispatch finishing next l th' :
    sleeping st = Some finishing -> readyList st = next :: l -> threads st !! next = Some th' ->
    estep st {| currentThread := next; sleeping := None; readyList := l; toBeDestroyed := None;
            threads := (if finishing then delete (currentThread st) else id)
              (<[next := mkThread RUNNING (todo th')]> (threads st));
            sems := sems st; locks := locks st; conds := conds st; nextSem := nextSem st; nextThread := nextThread st |}
| e_interrupt s st' :
    public s -> vstep s st st' -> estep st st'.

(** The thread that [V] wakes is not the running one. *)
Lemma vstep_current s st st1 th :
  placed st -> sleeping st = None -> threads st !! currentThread st = Some th -> vstep s st st1 ->
  currentThread st1 = currentThread st /\ sleeping st1 = None /\
  threads st1 !! currentThread st = Some th.
Proof.
  intros H Hs Hc Hv. destruct Hv as [sem Hsem Hq|v t q th' Hsem Ht]; fields; [done|].
  split; [done|]. split; [done|]. rewrite lookup_insert_ne; [done|]. intros ->.
  destruct (p_queue st H s _ Hsem) as (_ & _ & Hq). destruct (Hq (currentThread st)) as [r Hr]; [set_solver|].
  assert (status th = RUNNING) as E by (by apply (p_running st H _ _ Hc)).
  rewrite Hc in Hr. injection Hr as ->. done.
Qed.

Lemma exec_estep st th a rest st' :
  placed st -> sleeping st = None -> threads st !! currentThread st = Some th ->
  todo th = a :: rest -> exec a rest st = Ok st' -> estep st st'.
Proof.
  intros H Hs Hc Ht. assert (status th = RUNNING) as Hr by (by apply (p_running st H _ _ Hc)).
  destruct a as [s|s|l|l|c l|c l|c l]; cbn [exec].
  - unfold P. destruct (sems st !! s) as [sem|] eqn:E; cbn [deref rbind]; [|done].
    destruct (Z.eqb_spec (value sem) 0) as [Hv|Hv].
    + unfold Sleep, setStatus. fields. rewrite Hc. cbn [deref rbind]. intros [= <-]. rewrite Ht.
      apply e_wait; try done. rewrite Hc. f_equal. destruct th. cbn in *. by subst.
    + unfold advance. fields. rewrite Hc. cbn [deref rbind]. intros [= <-].
      by apply (e_go st s sem th rest).
  - destruct (V s st) as [st1|] eqn:E; cbn [rbind]; [|done]. apply V_vstep in E.
    destruct (vstep_current s st st1 th H Hs Hc E) as (E1 & E2 & E3).
    unfold advance. rewrite E1, E3. cbn [deref rbind]. intros [= <-]. rewrite <- E1.
    apply (e_V st s th rest st1); try done.
  - destruct (locks st !! l) as [lk|] eqn:E; cbn [deref rbind]; [|done].
    unfold advance. fields. rewrite Hc. cbn [deref rbind]. intros [= <-].
    by apply (e_set st l lk th rest).
  - destruct (locks st !! l) as [lk|] eqn:E; cbn [deref rbind]; [|done].
    case_bool_decide as Hh; cbn [ASSERT rbind]; [|done].
    unfold advance. fields. rewrite Hc. cbn [deref rbind]. intros [= <-].
    by apply (e_clear st l lk th rest).
  - unfold held. destruct (locks st !! l) as [lk|] eqn:E; cbn [deref rbind]; [|done].
    case_bool_decide as Hh; cbn [ASSERT rbind]; [|done].
    destruct (conds st !! c) as [q|] eqn:Eq; cbn [deref rbind]; [|done].
    unfold advance. fields. rewrite Hc. cbn [deref rbind]. intros [= <-].
    by apply (e_cwait st c l lk q th rest).
  - destruct (held l st) as [lk|]; cbn [rbind]; [|done].
    destruct (conds st !! c) as [[|w q]|] eqn:Eq; cbn [deref rbind]; [| |done];
      unfold advance; fields; rewrite Hc; cbn [deref rbind]; intros [= <-].
    + apply (e_skip st (ASignal c l) th rest); eauto.
    + by apply (e_signal st c l w q th rest).
  - destruct (conds st !! c) as [[|w q]|] eqn:Eq; cbn [deref rbind]; [| |done];
      unfold advance; rewrite Hc; cbn [deref rbind]; intros [= <-].
    + apply (e_skip st (ABroadcast c l) th rest); eauto.
    + by apply (e_broadcast st c l th rest).
Qed.

Lemma step_estep st st' : placed st -> step st st' -> estep st st'.
Proof.
  intros H Hst. destruct Hst as [st th c Hs Hc Ht Ha|st th a rest st' Hs Hc Ht E|st st' Hs E
    |st st' Hs E|st th st' Hs Hc Ht E|st finishing next st1 st' Hs En E|st s st' Hs Hp E].
  - by eapply e_call.
  - by eapply exec_estep.
  - destruct (p_current st H) as [th Hc]. unfold Yield, FindNextToRun in E.
    destruct (readyList st) as [|next l] eqn:Er; [injection E as <-; apply e_alone|].
    destruct (proj1 (p_ready st H next)) as (th' & Hn & Hr); [rewrite Er; set_solver|].
    assert (next <> currentThread st) as Hne.
    { intros ->. assert (status th = RUNNING) by (by apply (p_running st H _ _ Hc)). congruence. }
    unfold ReadyToRun, setStatus in E. fields. rewrite Hc in E. cbn [deref rbind] in E.
    unfold Run, setStatus in E. fields. rewrite (p_destroy st H) in E. cbn [negb orb ASSERT rbind] in E.
    rewrite lookup_insert_ne, Hn in E by done. cbn [deref rbind] in E.
    unfold CheckToBeDestroyed in E. fields. injection E as <-. by apply (e_yield st th next l th').
  - unfold Fork, ReadyToRun, setStatus in E. fields. rewrite lookup_insert_eq in E.
    cbn [deref rbind] in E. fields. injection E as <-. apply e_fork.
  - unfold Finish, Sleep, setStatus in E. rewrite Hc in E. cbn [deref rbind] in E. fields.
    injection E as <-. by apply (e_finish st th).
  - unfold FindNextToRun in En. destruct (readyList st) as [|next' l] eqn:Er; [done|].
    injection En as -> <-.
    destruct (proj1 (p_ready st H next)) as (th' & Hn & Hr); [rewrite Er; set_solver|].
    unfold Run, setStatus in E. fields. rewrite (p_destroy st H), bool_decide_true, orb_true_r in E by done.
    cbn [ASSERT rbind] in E. rewrite Hn in E. cbn [deref rbind] in E.
    unfold CheckToBeDestroyed in E. fields. destruct finishing; cbn [toBeDestroyed] in E; fields.
    + destruct (bool_decide_reflect (currentThread st = next)); cbn [negb ASSERT rbind] in E; [done|].
      injection E as <-. by apply (e_dispatch st true next l th').
    + injection E as <-. by apply (e_dispatch st false next l th').
  - apply V_vstep in E. by eapply e_interrupt.
Qed.

Lemma placed_vstep s st st' : placed st -> vstep s st st' -> placed st'.
Proof.
  intros H Hv. destruct Hv as [sem Hsem Hq|v t q th Hsem Ht].
  - apply placed_value; [done|done|]. destruct (p_queue st H s sem Hsem) as [? _]. lia.
  - by apply placed_wake.
Qed.

Lemma placed_estep st st' : placed st -> estep st st' -> placed st'.
Proof.
  intros H He. destruct He as [th c Hs Hc Ht Ha|s sem rest Hs Hsem Hv Hc
    |s sem th rest Hs Hsem Hv Hc Ht|s th rest st1 Hs Hc Ht Hv E1 E2 E3
    |l lk th rest Hs Hc Ht Hl|l lk th rest Hs Hc Ht Hl Hh|c l lk q th rest Hs Hc Ht Hl Hh Hq
    |c l w q th rest Hs Hc Ht Hq|a th rest Hs Hc Ht Ha|c l th rest Hs Hc Ht
    |th next l th' Hs Hc Hr Hn| | |th Hs Hc Ht
    |finishing next l th' Hs Hr Hn|s st' Hp Hv].
  - by apply placed_todo.
  - by apply placed_wait.
  - apply placed_todo; try done. apply placed_value; try done.
    destruct (p_queue st H s sem Hsem) as [? _]. lia.
  - unfold with_todo. rewrite <- E1 in E3. apply placed_todo; try done. by eapply placed_vstep.
  - apply placed_todo; try done. by apply placed_locks.
  - apply placed_todo; try done. by apply placed_locks.
  - apply placed_todo; try done. by apply placed_waiter.
  - apply placed_todo; try done. by apply placed_cond.
  - by apply placed_todo.
  - by apply placed_todo.
  - by apply placed_yield.
  - done.
  - by apply placed_fork.
  - by apply placed_finish.
  - by eapply placed_dispatch.
  - by eapply placed_vstep.
Qed.

Lemma reachable_placed st : reachable st -> placed st.
Proof.
  intros (st0 & H0 & Hr). eapply rtc_preserve; [|by apply initial_placed|exact Hr].
  intros x y Hxy Hx. eapply placed_estep; [done|]. by apply step_estep.
Qed.

End Threads.
