(* ===== verification/Synch.v ===== *)
(** * Properties of the thread system

    What the locks, the semaphores and the scheduler of Threads.v guarantee in
    every reachable state: mutual exclusion, no lost thread, no lost wake-up,
    dispatch in the order of the ready list.  Concrete schedules are run with
    an executable form of the step relation. *)

From S2P Require Import Prelude Threads.

Module Synch.

Import Threads.

(** ** Mutual exclusion

    The invariant of the locks only depends on the rest of each thread's
    routine, on the values of the semaphores, on the locks and on the queues of
    the conditions. *)

(** The lock whose semaphore the thread has taken or is about to give back,
    while [lockHolder] does not name it. *)
Definition hd_lock (td : list act) : option lid :=
  match td with
  | ASetHolder l :: _ => Some l
  | AV (OfLock l) :: _ => Some l
  | _ => None
  end.

(** The rests of routines between calls of [P] and [V] on lock semaphores. *)
Inductive routine : list act -> Prop :=
| r_nil : routine []
| r_P s td : (forall l, s <> OfLock l) -> routine td -> routine (AP s :: td)
| r_V s td : (forall l, s <> OfLock l) -> routine td -> routine (AV s :: td)
| r_acquire l td : routine td -> routine (AP (OfLock l) :: ASetHolder l :: td)
| r_release l td : routine td -> routine (AClearHolder l :: AV (OfLock l) :: td)
| r_wait c l td : routine td -> routine (AWait c l :: td)
| r_signal c l td : routine td -> routine (ASignal c l :: td)
| r_broadcast c l td : routine td -> routine (ABroadcast c l :: td).

#[local] Hint Constructors routine : core.

Definition todo_ok (td : list act) : Prop :=
  routine td \/ exists l td', hd_lock td = Some l /\ td' = tail td /\ routine td'.

Lemma routine_hd td : routine td -> hd_lock td = None.
Proof. intros H. destruct H as [|s td Hs|s td Hs| | | | |]; try done. destruct s; naive_solver. Qed.

Definition inside (T : gmap tid (list act)) (l : lid) (t : tid) : Prop :=
  exists td, T !! t = Some td /\ hd_lock td = Some l.

Definition lock_ok (T : gmap tid (list act)) (VS : gmap sid Z) (l : lid) (lk : Lock) : Prop :=
  (VS !! OfLock l = Some 1 /\ lockHolder lk = None /\ forall t, ~ inside T l t) \/
  (VS !! OfLock l = Some 0 /\ exists o, (forall t, inside T l t -> t = o) /\
     (lockHolder lk = None /\ inside T l o \/ lockHolder lk = Some o /\ ~ inside T l o)).

Definition locks_ok (T : gmap tid (list act)) (VS : gmap sid Z) (L : gmap lid Lock)
    (C : gmap cid (list sid)) : Prop :=
  (forall t td, T !! t = Some td -> todo_ok td) /\
  (forall c q s, C !! c = Some q -> s ∈ q -> forall l, s <> OfLock l) /\
  (forall l lk, L !! l = Some lk -> lock_ok T VS l lk).

Lemma inside_insert T c td l t :
  inside (<[c := td]> T) l t <-> (t = c /\ hd_lock td = Some l) \/ (t <> c /\ inside T l t).
Proof.
  unfold inside. destruct (decide (t = c)) as [->|Hne].
  - rewrite lookup_insert_eq. naive_solver.
  - rewrite lookup_insert_ne by done. naive_solver.
Qed.

Lemma lock_ok_ext T T' VS VS' l lk :
  (forall t, inside T' l t <-> inside T l t) -> VS' !! OfLock l = VS !! OfLock l ->
  lock_ok T VS l lk -> lock_ok T' VS' l lk.
Proof.
  intros Hi Hv [(H1 & H2 & H3)|(H1 & o & H2 & H3)]; unfold lock_ok; rewrite Hv; [left|right].
  - split; [done|]. split; [done|]. intros t. by rewrite Hi.
  - split; [done|]. exists o. split; [intros t; rewrite Hi; apply H2|]. by rewrite !Hi.
Qed.

Lemma inside_same T c td td' l t :
  T !! c = Some td -> (hd_lock td' = Some l <-> hd_lock td = Some l) ->
  inside (<[c := td']> T) l t <-> inside T l t.
Proof.
  intros Hc Hh. rewrite inside_insert. unfold inside.
  destruct (decide (t = c)) as [->|Hne]; naive_solver.
Qed.

Lemma todo_ok_tail a td : todo_ok (a :: td) ->
  (forall l, a <> AP (OfLock l)) -> (forall l, a <> AClearHolder l) -> routine td.
Proof.
  intros [H|(l & td' & _ & -> & H)] H1 H2; [|done]. inversion H; subst; naive_solver.
Qed.

(** A step that changes the head of no lock. *)
Lemma locks_ok_quiet T VS VS' L C C' c td td' :
  locks_ok T VS L C -> T !! c = Some td -> hd_lock td = None -> routine td' ->
  (forall l, VS' !! OfLock l = VS !! OfLock l) ->
  (forall c q s, C' !! c = Some q -> s ∈ q -> forall l, s <> OfLock l) ->
  locks_ok (<[c := td']> T) VS' L C'.
Proof.
  intros (Ht & Hq & Hl) Hc Hh Hr Hv Hq'. split; [|split; [done|]].
  - intros t x. rewrite lookup_insert_Some. intros [[<- <-]|[_ Hx]]; [by left|by eapply Ht].
  - intros l lk Hlk. eapply lock_ok_ext; [| apply Hv |by apply Hl].
    intros t. eapply inside_same; [exact Hc|]. rewrite Hh, routine_hd by done. done.
Qed.

(** [P] on the semaphore of a lock: the thread is inside. *)
Lemma locks_ok_acquire T VS L C c l td v :
  locks_ok T VS L C -> T !! c = Some (AP (OfLock l) :: ASetHolder l :: td) -> routine td ->
  VS !! OfLock l = Some v -> v <> 0 ->
  locks_ok (<[c := ASetHolder l :: td]> T) (<[OfLock l := v - 1]> VS) L C.
Proof.
  intros (Ht & Hq & Hl) Hc Hr Hv Hv0. split; [|split; [done|]].
  - intros t x. rewrite lookup_insert_Some. intros [[<- <-]|[_ Hx]]; [|by eapply Ht].
    right. by exists l, td.
  - intros l' lk Hlk. destruct (decide (l' = l)) as [->|Hne].
    + destruct (Hl l lk Hlk) as [(H1 & H2 & H3)|(H1 & _)]; [|congruence].
      right. rewrite lookup_insert_eq. split; [f_equal; assert (v = 1) by congruence; lia|].
      exists c. split.
      * intros t. rewrite inside_insert. intros [[-> _]|[_ Hx]]; [done|]. by destruct (H3 t).
      * left. split; [done|]. apply inside_insert. by left.
    + eapply lock_ok_ext; [| by rewrite lookup_insert_ne by congruence|by apply Hl].
      intros t. eapply inside_same; [exact Hc|]. cbn. naive_solver.
Qed.

(** A thread inside a lock, with [lockHolder] not naming it, is the only one. *)
Lemma inside_owner T VS l lk c : lock_ok T VS l lk -> inside T l c ->
  VS !! OfLock l = Some 0 /\ lockHolder lk = None /\ forall t, inside T l t -> t = c.
Proof.
  intros [(_ & _ & H)|(H1 & o & H2 & [[H3 H4]|[_ H4]])] Hc; [by destruct (H c)| |].
  - apply H2 in Hc as ->. done.
  - pose proof (H2 c Hc) as ->. done.
Qed.

Lemma locks_ok_release T VS L C c l td v :
  locks_ok T VS L C -> T !! c = Some (AV (OfLock l) :: td) -> routine td ->
  VS !! OfLock l = Some v ->
  locks_ok (<[c := td]> T) (<[OfLock l := v + 1]> VS) L C.
Proof.
  intros (Ht & Hq & Hl) Hc Hr Hv. split; [|split; [done|]].
  - intros t x. rewrite lookup_insert_Some. intros [[<- <-]|[_ Hx]]; [by left|by eapply Ht].
  - intros l' lk Hlk. destruct (decide (l' = l)) as [->|Hne].
    + destruct (inside_owner T VS l lk c) as (H1 & H2 & H3); [by apply Hl|by eexists|].
      left. rewrite lookup_insert_eq. split; [f_equal; assert (v = 0) by congruence; lia|]. split; [done|].
      intros t. rewrite inside_insert, routine_hd by done. intros [[_ ?]|[Hne Hx]]; [done|]. by apply Hne, H3.
    + eapply lock_ok_ext; [| by rewrite lookup_insert_ne by congruence|by apply Hl].
      intros t. eapply inside_same; [exact Hc|]. cbn. rewrite routine_hd by done. naive_solver.
Qed.

Lemma locks_ok_set T VS L C c l lk td :
  locks_ok T VS L C -> T !! c = Some (ASetHolder l :: td) -> routine td -> L !! l = Some lk ->
  locks_ok (<[c := td]> T) VS (<[l := mkLock (Some c)]> L) C.
Proof.
  intros (Ht & Hq & Hl) Hc Hr Hlk. split; [|split; [done|]].
  - intros t x. rewrite lookup_insert_Some. intros [[<- <-]|[_ Hx]]; [by left|by eapply Ht].
  - intros l' lk'. rewrite lookup_insert_Some. intros [[<- <-]|[Hne Hlk']].
    + destruct (inside_owner T VS l lk c) as (H1 & H2 & H3); [by apply Hl|by eexists|].
      right. split; [done|]. exists c. split.
      * intros t. rewrite inside_insert, routine_hd by done. intros [[_ ?]|[_ Hx]]; [done|by apply H3].
      * right. split; [done|]. rewrite inside_insert, routine_hd by done. naive_solver.
    + eapply lock_ok_ext; [| done|by apply Hl].
      intros t. eapply inside_same; [exact Hc|]. cbn. rewrite routine_hd by done. naive_solver.
Qed.

Lemma locks_ok_clear T VS L C c l lk td :
  locks_ok T VS L C -> T !! c = Some (AClearHolder l :: AV (OfLock l) :: td) -> routine td ->
  L !! l = Some lk -> lockHolder lk = Some c ->
  locks_ok (<[c := AV (OfLock l) :: td]> T) VS (<[l := mkLock None]> L) C.
Proof.
  intros (Ht & Hq & Hl) Hc Hr Hlk Hh. split; [|split; [done|]].
  - intros t x. rewrite lookup_insert_Some. intros [[<- <-]|[_ Hx]]; [|by eapply Ht].
    right. by exists l, td.
  - intros l' lk'. rewrite lookup_insert_Some. intros [[<- <-]|[Hne Hlk']].
    + destruct (Hl l lk Hlk) as [(_ & H & _)|(H1 & o & H2 & [[H _]|[H H4]])]; [congruence..|].
      assert (o = c) as -> by congruence. right. split; [done|]. exists c. split.
      * intros t. rewrite inside_insert. intros [[-> _]|[_ Hx]]; [done|by apply H2].
      * left. split; [done|]. apply inside_insert. by left.
    + eapply lock_ok_ext; [| done|by apply Hl].
      intros t. eapply inside_same; [exact Hc|]. cbn. naive_solver.
Qed.

(** A thread that is in no routine comes or goes. *)
Lemma locks_ok_fork T VS L C c :
  locks_ok T VS L C -> T !! c = None -> locks_ok (<[c := []]> T) VS L C.
Proof.
  intros (Ht & Hq & Hl) Hc. split; [|split; [done|]].
  - intros t x. rewrite lookup_insert_Some. intros [[<- <-]|[_ Hx]]; [left; constructor|by eapply Ht].
  - intros l lk Hlk. eapply lock_ok_ext; [|done|by apply Hl].
    intros t. rewrite inside_insert. unfold inside. cbn. naive_solver.
Qed.

Lemma locks_ok_delete T VS L C c :
  locks_ok T VS L C -> T !! c = Some [] -> locks_ok (delete c T) VS L C.
Proof.
  intros (Ht & Hq & Hl) Hc. split; [|split; [done|]].
  - intros t x. rewrite lookup_delete_Some. intros [_ Hx]. by eapply Ht.
  - intros l lk Hlk. eapply lock_ok_ext; [|done|by apply Hl].
    intros t. unfold inside. setoid_rewrite lookup_delete_Some. split; [naive_solver|].
    intros (td & Htd & Hh). exists td. split; [split; [|done]|done]. intros <-.
    rewrite Hc in Htd. by injection Htd as <-.
Qed.

(** ** The invariant of the locks along the steps *)

Definition excl (st : state) : Prop :=
  locks_ok (todo <$> threads st) (value <$> sems st) (locks st) (conds st).

Lemma initial_excl st : initial st -> excl st.
Proof.
  intros (_ & _ & _ & Ht & _ & _ & Hl & Hc & _). split; [|split].
  - intros t td. rewrite lookup_fmap_Some. intros (th & <- & Hth). rewrite Ht in Hth.
    apply lookup_singleton_Some in Hth as [_ <-]. left. constructor.
  - intros c q s Hq Hs. rewrite (Hc c q Hq) in Hs. by apply not_elem_of_nil in Hs.
  - intros l lk Hlk. destruct (Hl l lk Hlk) as [Hh Hs]. left. rewrite lookup_fmap, Hs.
    split; [done|]. split; [done|]. intros t (td & Htd & Hhd).
    apply lookup_fmap_Some in Htd as (th & <- & Hth). rewrite Ht in Hth.
    by apply lookup_singleton_Some in Hth as [_ <-].
Qed.

Lemma todos_insert (ts : gmap tid Thread) t th s :
  ts !! t = Some th -> todo <$> <[t := mkThread s (todo th)]> ts = todo <$> ts.
Proof.
  intros H. rewrite fmap_insert. apply insert_id. by rewrite lookup_fmap, H.
Qed.

(** What a call of [V] does to the projection. *)
Lemma vstep_proj s st st' : vstep s st st' ->
  exists v, (value <$> sems st) !! s = Some v /\ (value <$> sems st') = <[s := v + 1]> (value <$> sems st) /\
    todo <$> threads st' = todo <$> threads st /\ locks st' = locks st /\ conds st' = conds st.
Proof.
  intros [sem Hsem Hq|v t q th Hsem Ht]; fields.
  - exists (value sem). rewrite lookup_fmap, Hsem, fmap_insert. done.
  - exists v. rewrite lookup_fmap, Hsem, fmap_insert. rewrite todos_insert by done. done.
Qed.

Lemma routine_code c : allowed c -> routine (code c).
Proof. destruct c as [[]|[]| | | | |]; cbn; try done; auto; constructor; auto; naive_solver. Qed.

(** The step of [P] that takes a unit: on a lock semaphore or on another. *)
Lemma excl_go st s sem th rest :
  excl st -> sems st !! s = Some sem -> value sem <> 0 ->
  threads st !! currentThread st = Some th -> todo th = AP s :: rest ->
  excl (with_todo rest th
    (set_sems (<[s := mkSemaphore (value sem - 1) (queue sem)]> (sems st)) st)).
Proof.
  intros H Hsem Hv Hc Ht. unfold excl, with_todo in *. fields. rewrite !fmap_insert. fields.
  assert ((todo <$> threads st) !! currentThread st = Some (AP s :: rest)) as HT
    by (rewrite lookup_fmap, Hc; cbn; by rewrite Ht).
  assert ((value <$> sems st) !! s = Some (value sem)) as HV by (by rewrite lookup_fmap, Hsem).
  destruct (proj1 H _ _ HT) as [Hr|(l & td' & Hh & _)]; [|done].
  inversion Hr as [|s' td Hs Hr'| |l td Hr'| | | |]; subst.
  - eapply locks_ok_quiet; [exact H|exact HT|done|done| |apply H].
    intros l. by rewrite lookup_insert_ne by congruence.
  - by apply locks_ok_acquire.
Qed.

Lemma excl_V st s th rest st1 :
  excl st -> threads st !! currentThread st = Some th -> todo th = AV s :: rest ->
  vstep s st st1 -> currentThread st1 = currentThread st ->
  excl (with_todo rest th st1).
Proof.
  intros H Hc Ht Hv Ec. destruct (vstep_proj s st st1 Hv) as (v & HV & EV & ET & EL & EC).
  unfold excl, with_todo in *. fields. rewrite fmap_insert, EV, ET, EL, EC, Ec. fields.
  assert ((todo <$> threads st) !! currentThread st = Some (AV s :: rest)) as HT
    by (rewrite lookup_fmap, Hc; cbn; by rewrite Ht).
  assert (routine rest) as Hrest by (by eapply todo_ok_tail; [eapply (proj1 H); exact HT| |]).
  destruct s as [n|l|n]; [|by apply locks_ok_release|];
    (eapply locks_ok_quiet; [exact H|exact HT|done|done| |apply H];
     intros l; by rewrite lookup_insert_ne).
Qed.

Lemma excl_interrupt st s st' : excl st -> public s -> vstep s st st' -> excl st'.
Proof.
  intros (Ht & Hq & Hl) Hp Hv. destruct (vstep_proj s st st' Hv) as (v & HV & EV & ET & EL & EC).
  unfold excl. rewrite EV, ET, EL, EC. split; [done|]. split; [done|].
  intros l lk Hlk. eapply lock_ok_ext; [done| |by apply Hl].
  rewrite lookup_insert_ne; [done|]. intros ->. done.
Qed.

(** The other steps of a routine change no lock semaphore. *)
Lemma excl_quiet st th a rest rest' vs cs :
  excl st -> threads st !! currentThread st = Some th -> todo th = a :: rest ->
  (forall l, a <> AP (OfLock l)) -> (forall l, a <> AClearHolder l) -> hd_lock (a :: rest) = None ->
  (routine rest -> routine rest') ->
  (forall l, vs !! OfLock l = (value <$> sems st) !! OfLock l) ->
  (forall c q s, cs !! c = Some q -> s ∈ q -> forall l, s <> OfLock l) ->
  locks_ok (<[currentThread st := rest']> (todo <$> threads st)) vs (locks st) cs.
Proof.
  intros H Hc Ht Ha Ha' Hh Hr Hv Hq.
  assert ((todo <$> threads st) !! currentThread st = Some (a :: rest)) as HT
    by (rewrite lookup_fmap, Hc; cbn; by rewrite Ht).
  eapply locks_ok_quiet; try done. apply Hr.
  by eapply todo_ok_tail; [eapply (proj1 H); exact HT| |].
Qed.

Lemma excl_estep st st' : placed st -> excl st -> estep st st' -> excl st'.
Proof.
  intros HP H He. destruct He as [th c Hs Hc Ht Ha|s sem rest Hs Hsem Hv Hc
    |s sem th rest Hs Hsem Hv Hc Ht|s th rest st1 Hs Hc Ht Hv E1 E2 E3
    |l lk th rest Hs Hc Ht Hl|l lk th rest Hs Hc Ht Hl Hh|c l lk q th rest Hs Hc Ht Hl Hh Hq
    |c l w q th rest Hs Hc Ht Hq|a th rest Hs Hc Ht Ha|c l th rest Hs Hc Ht
    |th next l th' Hs Hc Hr Hn| | |th Hs Hc Ht
    |finishing next l th' Hs Hr Hn|s st' Hp Hv].
  - unfold excl, with_todo. fields. rewrite fmap_insert. fields.
    eapply (locks_ok_quiet _ _ _ _ _ _ _ []); [exact H| |done|by apply routine_code|done|apply H].
    rewrite lookup_fmap, Hc. cbn. by rewrite Ht.
  - unfold excl. fields. rewrite (todos_insert _ _ (mkThread RUNNING (AP s :: rest))) by done.
    rewrite fmap_insert. cbn [value]. rewrite insert_id; [done|]. by rewrite lookup_fmap, Hsem.
  - by eapply excl_go.
  - by eapply excl_V.
  - unfold excl, with_todo. fields. rewrite fmap_insert. fields.
    assert ((todo <$> threads st) !! currentThread st = Some (ASetHolder l :: rest)) as HT
      by (rewrite lookup_fmap, Hc; cbn; by rewrite Ht).
    eapply locks_ok_set; try done. by eapply todo_ok_tail; [eapply (proj1 H); exact HT| |].
  - unfold excl, with_todo. fields. rewrite fmap_insert. fields.
    assert ((todo <$> threads st) !! currentThread st = Some (AClearHolder l :: rest)) as HT
      by (rewrite lookup_fmap, Hc; cbn; by rewrite Ht).
    destruct (proj1 H _ _ HT) as [Hr|(l' & td' & Hh' & _)]; [|done].
    inversion Hr; subst. by eapply locks_ok_clear.
  - unfold excl, with_todo. fields. rewrite fmap_insert. fields. rewrite fmap_insert.
    eapply excl_quiet; try done; [|intros l'; by rewrite lookup_insert_ne|].
    + intros Hr. apply r_release. apply r_P; [done|]. by apply r_acquire.
    + intros c' q' s. rewrite lookup_insert_Some. intros [[<- <-]|[_ Hq']] Hin l'.
      * apply elem_of_app in Hin as [Hin|Hin%list_elem_of_singleton]; [|by subst].
        by eapply (proj1 (proj2 H)).
      * by eapply (proj1 (proj2 H)).
  - assert (forall l, w <> OfLock l) as Hw by (intros l'; eapply (proj1 (proj2 H)); [done|set_solver]).
    unfold excl, with_todo. fields. rewrite fmap_insert. fields.
    eapply excl_quiet; try done; [by apply r_V|].
    intros c' q' s. rewrite lookup_insert_Some. intros [[<- <-]|[_ Hq']] Hin l';
      eapply (proj1 (proj2 H)); try done. set_solver.
  - unfold excl, with_todo. fields. rewrite fmap_insert. fields.
    destruct Ha as (c & l & [-> | ->] & _); eapply excl_quiet; try done; apply H.
  - unfold excl, with_todo. fields. rewrite fmap_insert. fields.
    eapply excl_quiet; try done; [|apply H]. auto.
  - assert (next <> currentThread st) as Hne.
    { intros ->. assert (status th = RUNNING) by (by apply (p_running st HP _ _ Hc)).
      destruct (proj1 (p_ready st HP (currentThread st))) as (x & Hx & E); [rewrite Hr; set_solver|]. congruence. }
    unfold excl. fields. rewrite (todos_insert _ next th') by (by rewrite lookup_insert_ne).
    by rewrite todos_insert.
  - done.
  - unfold excl. fields. rewrite insert_insert_eq, fmap_insert. apply locks_ok_fork; [done|].
    rewrite lookup_fmap. destruct (threads st !! nextThread st) eqn:E; [|done].
    apply (p_next st HP) in E. lia.
  - unfold excl. fields. by rewrite todos_insert.
  - unfold excl. fields. destruct finishing; cbn [id]; [|by rewrite todos_insert].
    rewrite fmap_delete, todos_insert by done. apply locks_ok_delete; [done|].
    rewrite lookup_fmap. by rewrite (p_finishing st HP Hs).
  - by eapply excl_interrupt.
Qed.

Lemma reachable_excl st : reachable st -> excl st.
Proof.
  intros (st0 & H0 & Hr).
  cut (placed st /\ excl st); [by intros [_ ?]|].
  eapply (rtc_preserve (fun st => placed st /\ excl st)); [| |exact Hr].
  - intros x y Hxy [Hx Hx']. apply step_estep in Hxy; [|done].
    split; [by eapply placed_estep|by eapply excl_estep].
  - split; [by apply initial_placed|by apply initial_excl].
Qed.

(** ** Wake-ups *)

(** A thread that is going to test the value of the semaphore. *)
Definition awake (s : sid) (th : Thread) : Prop :=
  status th <> BLOCKED /\ head (todo th) = Some (AP s).

#[local] Instance awake_dec s th : Decision (awake s th).
Proof. unfold awake. apply _. Defined.

(** How many threads are. *)
Definition testers (s : sid) (ts : gmap tid Thread) : nat :=
  size (filter (fun x => awake s (snd x)) ts).

Lemma testers_insert s ts t th :
  testers s (<[t := th]> ts) =
    ((if decide (awake s th) then 1 else 0) + size (delete t (filter (fun x => awake s (snd x)) ts)))%nat.
Proof.
  unfold testers. rewrite map_filter_insert. cbn [snd]. destruct (decide (awake s th)).
  - rewrite <- insert_delete_eq, map_size_insert_None by apply lookup_delete_eq. done.
  - by rewrite map_filter_delete.
Qed.

Lemma testers_split s ts t th : ts !! t = Some th ->
  testers s ts =
    ((if decide (awake s th) then 1 else 0) + size (delete t (filter (fun x => awake s (snd x)) ts)))%nat.
Proof. intros H. rewrite <- (insert_id ts t th H) at 1. apply testers_insert. Qed.

Lemma testers_mono s ts t th th' :
  ts !! t = Some th -> (awake s th -> awake s th') -> (testers s ts <= testers s (<[t := th']> ts))%nat.
Proof.
  intros H Hm. rewrite (testers_split s ts t th H), testers_insert.
  destruct (decide (awake s th)), (decide (awake s th')); try lia; naive_solver.
Qed.

Lemma testers_delete s ts t th :
  ts !! t = Some th -> ~ awake s th -> testers s (delete t ts) = testers s ts.
Proof.
  intros H Hn. rewrite (testers_split s ts t th H), decide_False by done.
  unfold testers. by rewrite map_filter_delete.
Qed.

Lemma testers_fresh s ts t th : ts !! t = None -> (testers s ts <= testers s (<[t := th]> ts))%nat.
Proof.
  intros H. rewrite testers_insert. unfold testers.
  rewrite delete_id by (by rewrite map_lookup_filter, H). destruct (decide _); lia.
Qed.

(** While threads sleep on a semaphore with a positive value, at least as many
    threads as the value are on their way to test it. *)
Definition wakeful (st : state) : Prop :=
  forall s sem, sems st !! s = Some sem -> queue sem <> [] ->
    value sem <= Z.of_nat (testers s (threads st)).

(** A step that leaves the semaphores alone and stops no thread from testing. *)
Lemma wakeful_mono st st' :
  wakeful st -> sems st' = sems st ->
  (forall s, (testers s (threads st) <= testers s (threads st'))%nat) -> wakeful st'.
Proof.
  intros H Es Hm s sem Hs Hq. rewrite Es in Hs. specialize (H s sem Hs Hq). specialize (Hm s). lia.
Qed.

Lemma wakeful_todo st th a rest :
  wakeful st -> threads st !! currentThread st = Some th -> todo th = a ->
  (forall s, head a <> Some (AP s)) -> wakeful (with_todo rest th st).
Proof.
  intros H Hc Ht Ha. apply (wakeful_mono st); [done|done|]. intros s. unfold with_todo. fields.
  eapply testers_mono; [exact Hc|]. intros [_ Hh]. rewrite Ht in Hh. by destruct (Ha s).
Qed.

Lemma wakeful_vstep s st st' : placed st -> wakeful st -> vstep s st st' -> wakeful st'.
Proof.
  intros HP H [sem Hsem Hq|v t q th Hsem Ht]; intros s' sem'; fields;
    rewrite lookup_insert_Some; intros [[<- <-]|[Hne Hs']] Hq'; fields.
  - done.
  - by apply H.
  - destruct (p_queue st HP s _ Hsem) as (_ & _ & Hb). destruct (Hb t) as [r Hr]; [set_solver|].
    assert (th = mkThread BLOCKED (AP s :: r)) as -> by congruence.
    specialize (H s _ Hsem ltac:(done)). fields. rewrite testers_insert.
    rewrite (testers_split s _ t _ Ht), decide_False in H by (by intros [? _]).
    rewrite decide_True by done. lia.
  - destruct (p_queue st HP s _ Hsem) as (_ & _ & Hb). destruct (Hb t) as [r Hr]; [set_solver|].
    specialize (H s' sem' Hs' Hq').
    pose proof (testers_mono s' (threads st) t th (mkThread READY (todo th)) Ht) as Hm.
    assert (awake s' th -> awake s' (mkThread READY (todo th))) as Ha by (intros [_ ?]; done).
    specialize (Hm Ha). lia.
Qed.

Lemma wakeful_go st s sem th rest :
  wakeful st -> sems st !! s = Some sem -> threads st !! currentThread st = Some th ->
  todo th = AP s :: rest ->
  wakeful (with_todo rest th
    (set_sems (<[s := mkSemaphore (value sem - 1) (queue sem)]> (sems st)) st)).
Proof.
  intros H Hsem Hc Ht s' sem'. unfold with_todo. fields. rewrite lookup_insert_Some.
  intros [[<- <-]|[Hne Hs']] Hq'; fields.
  - specialize (H s sem Hsem Hq'). rewrite (testers_split s _ _ _ Hc) in H. rewrite testers_insert.
    destruct (decide (awake s th)); destruct (decide (awake s _)); lia.
  - specialize (H s' sem' Hs' Hq').
    pose proof (testers_mono s' (threads st) _ th (mkThread (status th) rest) Hc) as Hm.
    assert (awake s' th -> awake s' (mkThread (status th) rest)) as Ha.
    { intros [_ Hh]. rewrite Ht in Hh. cbn in Hh. congruence. }
    specialize (Hm Ha). lia.
Qed.

Lemma wakeful_estep st st' : placed st -> wakeful st -> estep st st' -> wakeful st'.
Proof.
  intros HP H He. destruct He as [th c Hs Hc Ht Ha|s sem rest Hs Hsem Hv Hc
    |s sem th rest Hs Hsem Hv Hc Ht|s th rest st1 Hs Hc Ht Hv E1 E2 E3
    |l lk th rest Hs Hc Ht Hl|l lk th rest Hs Hc Ht Hl Hh|c l lk q th rest Hs Hc Ht Hl Hh Hq
    |c l w q th rest Hs Hc Ht Hq|a th rest Hs Hc Ht Ha|c l th rest Hs Hc Ht
    |th next l th' Hs Hc Hr Hn| | |th Hs Hc Ht
    |finishing next l th' Hs Hr Hn|s st' Hp Hv].
  - by eapply wakeful_todo.
  - intros s' sem'. fields. rewrite lookup_insert_Some. intros [[<- <-]|[Hne Hs']] Hq'; fields; [lia|].
    specialize (H s' sem' Hs' Hq').
    pose proof (testers_mono s' (threads st) _ _ (mkThread BLOCKED (AP s :: rest)) Hc) as Hm.
    assert (awake s' (mkThread RUNNING (AP s :: rest)) -> awake s' (mkThread BLOCKED (AP s :: rest))) as Ha.
    { intros [_ Hh]. cbn in Hh. congruence. }
    specialize (Hm Ha). lia.
  - by eapply wakeful_go.
  - rewrite <- E1 in E3. eapply wakeful_todo; [by eapply wakeful_vstep|done|exact Ht|done].
  - by apply (wakeful_todo (set_locks (<[l := mkLock (Some (currentThread st))]> (locks st)) st) _ (todo th));
      rewrite ?Ht.
  - by apply (wakeful_todo (set_locks (<[l := mkLock None]> (locks st)) st) _ (todo th)); rewrite ?Ht.
  - apply (wakeful_todo (new_waiter c q st) _ (todo th)); rewrite ?Ht; try done.
    intros s sem. fields. rewrite lookup_insert_Some. intros [[<- <-]|[_ Hs']]; [done|by apply H].
  - by apply (wakeful_todo (set_cond c q st) _ (todo th)); rewrite ?Ht.
  - eapply wakeful_todo; [done|done|exact Ht|]. by destruct Ha as (c & l & [-> | ->] & _).
  - by eapply wakeful_todo.
  - apply (wakeful_mono st); [done|done|]. intros s. fields.
    assert (next <> currentThread st) as Hne.
    { intros ->. assert (status th = RUNNING) by (by apply (p_running st HP _ _ Hc)).
      destruct (proj1 (p_ready st HP (currentThread st))) as (x & Hx & E); [rewrite Hr; set_solver|]. congruence. }
    etrans; [eapply (testers_mono s _ (currentThread st) th (mkThread READY (todo th)) Hc)|].
    + by intros [_ ?].
    + eapply testers_mono; [rewrite lookup_insert_ne by done; exact Hn|]. by intros [_ ?].
  - done.
  - apply (wakeful_mono st); [done|done|]. intros s. fields. rewrite insert_insert_eq.
    apply testers_fresh. destruct (threads st !! nextThread st) eqn:E; [|done].
    apply (p_next st HP) in E. lia.
  - apply (wakeful_mono st); [done|done|]. intros s. fields. eapply testers_mono; [exact Hc|].
    intros [_ Hh]. by rewrite Ht in Hh.
  - apply (wakeful_mono st); [done|done|]. intros s. fields.
    etrans; [apply (testers_mono s _ next th' (mkThread RUNNING (todo th')) Hn); by intros [_ ?]|].
    destruct finishing; cbn [id]; [|done].
    destruct (decide (next = currentThread st)) as [->|Hne].
    { rewrite (p_finishing st HP Hs) in Hn. injection Hn as <-.
      erewrite testers_delete; [done|apply lookup_insert_eq|]. by intros [_ ?]. }
    erewrite testers_delete; [done|rewrite lookup_insert_ne by done; by apply (p_finishing st HP)|].
    by intros [? _].
  - by eapply wakeful_vstep.
Qed.

Lemma reachable_all st : reachable st -> placed st /\ excl st /\ wakeful st.
Proof.
  intros (st0 & H0 & Hr).
  eapply (rtc_preserve (fun st => placed st /\ excl st /\ wakeful st)); [| |exact Hr].
  - intros x y Hxy (Hx & Hx' & Hx''). apply step_estep in Hxy; [|done].
    split; [by eapply placed_estep|]. split; [by eapply excl_estep|by eapply wakeful_estep].
  - split; [by apply initial_placed|]. split; [by apply initial_excl|].
    destruct H0 as (_ & _ & _ & _ & _ & Hsem & _). intros s sem Hs Hq.
    by destruct (Hsem s sem Hs) as [_ ?].
Qed.

(** ** Schedules

    An executable form of the steps, with which concrete schedules are run. *)

Inductive op := OCall (c : call) | OExec | OYield | OFork | OFinish | ODispatch | OInterrupt (s : sid).

#[global] Instance public_dec s : Decision (public s).
Proof. destruct s; apply _. Defined.

#[global] Instance allowed_dec c : Decision (allowed c).
Proof. destruct c; apply _. Defined.

Definition do_op (o : op) (st : state) : option state :=
  let run := fun (r : res state) => match r with Ok st' => Some st' | Err _ => None end in
  match o, sleeping st, threads st !! currentThread st with
  | OCall c, None, Some th =>
      match todo th with
      | [] => if decide (allowed c) then
                Some (set_threads (<[currentThread st := mkThread (status th) (code c)]> (threads st)) st)
              else None
      | _ => None
      end
  | OExec, None, Some th =>
      match todo th with
      | a :: rest => run (exec a rest st)
      | [] => None
      end
  | OYield, None, _ => run (Yield st)
  | OFork, None, _ => run (Fork st)
  | OFinish, None, Some th => match todo th with [] => run (Finish st) | _ => None end
  | ODispatch, Some finishing, _ =>
      match FindNextToRun st with
      | (Some next, st1) => run (Run next finishing st1)
      | _ => None
      end
  | OInterrupt s, None, _ => if decide (public s) then run (V s st) else None
  | OInterrupt s, Some _, _ =>
      match readyList st with
      | [] => if decide (public s) then run (V s st) else None
      | _ => None
      end
  | _, _, _ => None
  end.

Lemma do_op_step o st st' : do_op o st = Some st' -> step st st'.
Proof.
  assert (forall r : res state, match r with Ok x => Some x | Err _ => None end = Some st' -> r = Ok st')
    as Hrun by (intros [x|e]; [by intros [= ->]|done]).
  unfold do_op. destruct o, (sleeping st) as [f|] eqn:Es; try done;
    destruct (threads st !! currentThread st) as [th|] eqn:Et; try done.
  - destruct (todo th) eqn:E; [|done]. case_decide; [|done]. intros [= <-]. by apply step_call.
  - destruct (todo th) eqn:E; [done|]. intros H. by eapply step_exec; [..|apply Hrun].
  - intros H. by apply step_yield; [|apply Hrun].
  - intros H. by apply step_yield; [|apply Hrun].
  - intros H. by apply step_fork; [|apply Hrun].
  - intros H. by apply step_fork; [|apply Hrun].
  - destruct (todo th) eqn:E; [|done]. intros H. by eapply step_finish; [..|apply Hrun].
  - destruct (FindNextToRun st) as [[next|] st1] eqn:E; [|done]. intros H.
    by eapply step_dispatch; [..|apply Hrun].
  - destruct (FindNextToRun st) as [[next|] st1] eqn:E; [|done]. intros H.
    by eapply step_dispatch; [..|apply Hrun].
  - destruct (readyList st) eqn:E; [|done]. case_decide; [|done]. intros Hx.
    eapply step_interrupt; [by right|done|by apply Hrun].
  - destruct (readyList st) eqn:E; [|done]. case_decide; [|done]. intros Hx.
    eapply step_interrupt; [by right|done|by apply Hrun].
  - case_decide; [|done]. intros Hx. eapply step_interrupt; [by left|done|by apply Hrun].
  - case_decide; [|done]. intros Hx. eapply step_interrupt; [by left|done|by apply Hrun].
Qed.

Fixpoint do_ops (os : list op) (st : state) : option state :=
  match os with
  | [] => Some st
  | o :: os' => match do_op o st with Some st' => do_ops os' st' | None => None end
  end.

Lemma do_ops_steps os : forall st st', do_ops os st = Some st' -> rtc step st st'.
Proof.
  induction os as [|o os IH]; intros st st'; cbn [do_ops]; [intros [= <-]; apply rtc_refl|].
  destruct (do_op o st) as [st1|] eqn:E; [|done]. intros H.
  eapply rtc_l; [by eapply do_op_step|by apply IH].
Qed.

(** The main thread, a semaphore with value 0, a free lock and a condition. *)
Definition booted : state :=
  {| currentThread := 0; sleeping := None; readyList := []; toBeDestroyed := None;
     threads := {[ 0%nat := mkThread RUNNING [] ]};
     sems := {[ Named 0 := mkSemaphore 0 []; OfLock 0 := mkSemaphore 1 [] ]};
     locks := {[ 0%nat := mkLock None ]}; conds := {[ 0%nat := [] ]};
     nextSem := 0; nextThread := 1 |}.

Lemma booted_initial : initial booted.
Proof.
  do 4 (split; [done|]). unfold booted. cbn [currentThread nextThread sems locks conds].
  split; [lia|]. split; [|split; [|split]].
  - intros s sem H. apply lookup_insert_Some in H as [[_ <-]|[_ H]]; [done|].
    by apply lookup_singleton_Some in H as [_ <-].
  - intros l lk H. by apply lookup_singleton_Some in H as [<- <-].
  - intros c q H. by apply lookup_singleton_Some in H as [_ <-].
  - intros n. by rewrite lookup_insert_ne, lookup_singleton_ne.
Qed.

Lemma do_ops_reachable os st : do_ops os booted = Some st -> reachable st.
Proof. intros H. exists booted. split; [apply booted_initial|by eapply do_ops_steps]. Qed.

(** ** Theorems *)

(** A thread is in the critical section of a lock from the moment its [P] on
    the lock's semaphore succeeds until its [V] on it. *)
Definition in_critical (st : state) (l : lid) (t : tid) : Prop :=
  (exists lk, locks st !! l = Some lk /\ lockHolder lk = Some t) \/
  inside (todo <$> threads st) l t.

(** C6: Locks exclude: whatever the threads call ([P], [V], [Acquire],
    [Release], [Wait], [Signal], [Broadcast]), in whatever order the scheduler,
    the timer and the device interrupts run them, at most one thread is in the
    critical section of a lock, and while one is, the lock's semaphore is 0, so
    that every other [Acquire] waits. *)
Theorem lock_mutual_exclusion st l t t' :
  reachable st -> is_Some (locks st !! l) -> in_critical st l t -> in_critical st l t' ->
  t = t' /\ value <$> sems st !! OfLock l = Some 0.
Proof.
  intros Hr [lk Hlk] Ht Ht'. destruct (reachable_excl st Hr) as (_ & _ & Hl).
  rewrite <- lookup_fmap.
  assert (forall x, in_critical st l x -> lockHolder lk = Some x \/ inside (todo <$> threads st) l x) as Hin.
  { intros x [(lk' & Hlk' & Hh)|Hx]; [|by right]. left. congruence. }
  apply Hin in Ht, Ht'.
  destruct (Hl l lk Hlk) as [(H1 & H2 & H3)|(H1 & o & H2 & Ho)]; [naive_solver congruence|].
  split; [|done].
  assert (forall x, lockHolder lk = Some x \/ inside (todo <$> threads st) l x -> x = o) as Hone.
  { intros x [Hx|Hx]; [|by apply H2]. destruct Ho as [[Ho _]|[Ho _]]; congruence. }
  by rewrite (Hone t), (Hone t').
Qed.

(** The main thread acquires the lock, forks a second thread and yields to it;
    the second thread calls [Acquire] too and sleeps. *)
Definition contended : option state :=
  do_ops [OCall (CallAcquire 0); OExec; OExec; OFork; OYield; OCall (CallAcquire 0); OExec] booted.

Lemma lock_mutual_exclusion_witness :
  exists st, contended = Some st /\ in_critical st 0 0 /\ ~ in_critical st 0 1.
Proof.
  destruct contended as [st|] eqn:E; [|vm_compute in E; done].
  assert (is_Some (locks st !! 0%nat)) as Hl by (vm_compute in E; injection E as <-; by eexists).
  assert (in_critical st 0 0) as H0.
  { left. vm_compute in E. injection E as <-. by eexists. }
  exists st. split; [done|]. split; [done|]. intros H1.
  destruct (lock_mutual_exclusion st 0 0 1) as [H _];
    [by eapply do_ops_reachable; exact E|done|done|done|discriminate H].
Defined.



(** C16: No wake-up is lost: whenever threads sleep on a semaphore whose value
    is positive, some thread that is ready or running is about to test it. *)
Theorem no_lost_wakeup st s sem :
  reachable st -> sems st !! s = Some sem -> queue sem <> [] -> 0 < value sem ->
  exists t th rest, threads st !! t = Some th /\ todo th = AP s :: rest /\
    (t ∈ readyList st \/ (sleeping st = None /\ t = currentThread st)).
Proof.
  intros Hr Hs Hq Hv. destruct (reachable_all st Hr) as (HP & _ & HW).
  specialize (HW s sem Hs Hq). unfold testers in HW.
  destruct (map_choose (filter (fun x => awake s (snd x)) (threads st))) as (t & th & Hx).
  { intros E. rewrite E, map_size_empty in HW. lia. }
  apply map_lookup_filter_Some in Hx as [Ht [Hb Hh]]. cbn [snd] in *.
  destruct (todo th) as [|a rest] eqn:E; [done|]. injection Hh as ->.
  exists t, th, rest. split; [done|]. split; [done|].
  destruct (status th) eqn:Es; [| | |done].
  - by destruct (p_created st HP t th Ht).
  - right. by apply (p_running st HP t th Ht).
  - left. apply (p_ready st HP). eauto.
Qed.

(** Two threads sleep on the semaphore, a third calls [V]. *)
Definition signalled : option state :=
  do_ops [OFork; OFork; OCall (CallP (Named 0)); OExec; ODispatch; OYield; OCall (CallP (Named 0));
          OExec; ODispatch; OCall (CallV (Named 0)); OExec] booted.

Lemma no_lost_wakeup_witness :
  exists st t th rest, signalled = Some st /\ threads st !! t = Some th /\ todo th = AP (Named 0) :: rest /\
    (t ∈ readyList st \/ (sleeping st = None /\ t = currentThread st)).
Proof.
  destruct signalled as [st|] eqn:E; [|vm_compute in E; done].
  destruct (no_lost_wakeup st (Named 0) (mkSemaphore 1 [2%nat])) as (t & th & rest & H).
  - by eapply do_ops_reachable; exact E.
  - vm_compute in E. injection E as <-. reflexivity.
  - done.
  - done.
  - exists st, t, th, rest. split; [reflexivity|exact H].
Defined.

(** ** Order of dispatch *)

(** The thread a step hands the processor to, if it does. *)
Definition dispatched (st st' : state) : option tid :=
  match sleeping st' with
  | Some _ => None
  | None =>
      match sleeping st with
      | Some _ => Some (currentThread st')
      | None =>
          if decide (currentThread st' = currentThread st) then None else Some (currentThread st')
      end
  end.

(** Runs, with the threads dispatched on the way. *)
Inductive runs : state -> list tid -> state -> Prop :=
| runs_done st : runs st [] st
| runs_step st st1 ds st2 :
    step st st1 -> runs st1 ds st2 -> runs st (option_list (dispatched st st1) ++ ds) st2.

(** A step takes threads from the front of the ready list by dispatching them,
    and adds threads at its end only. *)
Lemma estep_ready st st' : placed st -> estep st st' ->
  exists extra, readyList st ++ extra = option_list (dispatched st st') ++ readyList st'.
Proof.
  intros HP He. unfold dispatched.
  destruct He as [th c Hs Hc Ht Ha|s sem rest Hs Hsem Hv Hc
    |s sem th rest Hs Hsem Hv Hc Ht|s th rest st1 Hs Hc Ht Hv E1 E2 E3
    |l lk th rest Hs Hc Ht Hl|l lk th rest Hs Hc Ht Hl Hh|c l lk q th rest Hs Hc Ht Hl Hh Hq
    |c l w q th rest Hs Hc Ht Hq|a th rest Hs Hc Ht Ha|c l th rest Hs Hc Ht
    |th next l th' Hs Hc Hr Hn| | |th Hs Hc Ht
    |finishing next l th' Hs Hr Hn|s st' Hp Hv]; unfold with_todo; fields; rewrite ?Hs, ?E2.
  all: try (exists []; rewrite ?decide_True by done; by rewrite app_nil_r).
  - rewrite decide_True by done. destruct Hv as [sem Hsem Hq|v t q th' Hsem Ht']; fields.
    + exists []. by rewrite app_nil_r.
    + by exists [t].
  - assert (next <> currentThread st) as Hne.
    { intros ->. assert (status th = RUNNING) by (by apply (p_running st HP _ _ Hc)).
      destruct (proj1 (p_ready st HP (currentThread st))) as (x & Hx & E); [rewrite Hr; set_solver|]. congruence. }
    exists [currentThread st]. by rewrite decide_False, Hr.
  - exists []. destruct (sleeping st) as [f|]; rewrite ?decide_True by done; by rewrite app_nil_r.
  - exists [nextThread st]. destruct (sleeping st) as [f|]; rewrite ?decide_True by done; done.
  - destruct Hv as [sem Hsem Hq|v t q th Hsem Ht]; fields;
      [exists []|exists [t]]; destruct (sleeping st) as [f|]; rewrite ?decide_True by done;
      by rewrite ?app_nil_r.
Qed.

(** Scheduling is first come, first served: in every run from a reachable
    state, the thread at position [i] of the ready list is the [i]-th to be
    dispatched, whatever the threads and the interrupts do; so no ready thread
    waits for more than the threads before it. *)
Theorem fifo_dispatch st ds st' i t :
  reachable st -> runs st ds st' -> readyList st !! i = Some t -> (i < length ds)%nat ->
  ds !! i = Some t.
Proof.
  intros Hr Hruns. pose proof (reachable_placed st Hr) as HP. clear Hr. revert i HP.
  induction Hruns as [|st st1 ds st2 Hs Hruns IH]; intros i HP Hi Hlt; [cbn in Hlt; lia|].
  apply step_estep in Hs; [|done]. destruct (estep_ready st st1 HP Hs) as [extra E].
  apply (placed_estep _ _ HP) in Hs as HP1.
  assert ((readyList st ++ extra) !! i = Some t) as Hi' by (by apply lookup_app_l_Some).
  rewrite E in Hi'. destruct (dispatched st st1) as [d|]; cbn [option_list app] in *; [|by apply IH].
  destruct i as [|i]; [done|]. cbn in *. apply IH; [done|done|lia].
Qed.

(** Two threads are forked; the main thread yields, the first one finishes. *)
Lemma fifo_dispatch_witness :
  exists st st', do_ops [OFork; OFork] booted = Some st /\ runs st [1%nat; 2%nat] st'.
Proof.
  destruct (do_ops [OFork; OFork] booted) as [st|] eqn:E; [|vm_compute in E; done].
  assert (exists ds st', runs st ds st' /\ length ds = 2%nat) as (ds & st' & Hruns & Hl).
  { pose proof E as E'. vm_compute in E'. injection E' as E'.
    destruct (do_op OYield st) as [st1|] eqn:E1; [|subst st; vm_compute in E1; done].
    destruct (do_op OFinish st1) as [st2|] eqn:E2; [|subst st; vm_compute in E1; injection E1 as <-; vm_compute in E2; done].
    destruct (do_op ODispatch st2) as [st3|] eqn:E3;
      [|subst st; vm_compute in E1; injection E1 as <-; vm_compute in E2; injection E2 as <-; vm_compute in E3; done].
    exists (option_list (dispatched st st1) ++ option_list (dispatched st1 st2) ++
            option_list (dispatched st2 st3) ++ []), st3.
    split.
    - eapply runs_step; [by eapply do_op_step|]. eapply runs_step; [by eapply do_op_step|].
      eapply runs_step; [by eapply do_op_step|]. apply runs_done.
    - subst st. vm_compute in E1. injection E1 as <-. vm_compute in E2. injection E2 as <-.
      vm_compute in E3. injection E3 as <-. reflexivity. }
  exists st, st'. split; [reflexivity|]. destruct ds as [|d1 [|d2 [|]]]; try discriminate Hl.
  pose proof (do_ops_reachable _ _ E) as Hr.
  assert (readyList st = [1; 2]%nat) as Hrl by (vm_compute in E; injection E as <-; reflexivity).
  pose proof (fifo_dispatch st [d1; d2] st' 0 1 Hr Hruns) as H1. rewrite Hrl in H1.
  pose proof (fifo_dispatch st [d1; d2] st' 1 2 Hr Hruns) as H2. rewrite Hrl in H2.
  specialize (H1 eq_refl ltac:(cbn; lia)). specialize (H2 eq_refl ltac:(cbn; lia)).
  injection H1 as ->. injection H2 as ->. exact Hruns.
Defined.

End Synch.
