(* ===== verification/ThreadTest.v ===== *)
(** * The self tests of threads and semaphores

    [Thread::SelfTest] of threads/thread.cc, [Semaphore::SelfTest] of
    threads/synch.cc and their sequence in [Kernel::ThreadSelfTest] of
    threads/kernel.cc, as programs of three threads over the model of Threads.v.
    The timer may take the processor away before every step, so that the number
    of schedules is not bounded; the states they lead to are finitely many, and
    are enumerated. *)

From S2P Require Import Prelude Threads Synch.

Module ThreadTest.

Import Threads.

(** ** The programs *)

(** The statements of the tests; semaphores are named by numbers. *)
Inductive task :=
| TFork                              (* t->Fork(...) *)
| TYield                             (* kernel->currentThread->Yield() *)
| TPrint (which num : nat)           (* *** thread which looped num times *)
| TNew (s : nat)                     (* new Semaphore(..., 0) *)
| TAssertZero (s : nat)              (* ASSERT(value == 0) *)
| TP (s : nat) | TV (s : nat)
| TDelete (s : nat).                 (* delete semaphore *)

(** [SimpleThread] *)
Definition SimpleThread (which : nat) : list task :=
  concat (map (fun num => [TPrint which num; TYield]) (seq 0 5)).

(** [Thread::SelfTest] *)
Definition Thread_SelfTest : list task := [TFork; TYield] ++ SimpleThread 0.

(** Semaphore 0 is [this], semaphore 1 is [ping]. *)
Definition SelfTestHelper : list task := concat (replicate 10 [TP 1; TV 0]).

(** [Semaphore::SelfTest] *)
Definition Semaphore_SelfTest : list task :=
  [TAssertZero 0; TNew 1; TFork] ++ concat (replicate 10 [TV 1; TP 0]) ++ [TDelete 1].

(** [Kernel::ThreadSelfTest], without the tests of the library and of the
    synchronised list. *)
Definition ThreadSelfTest : list task := Thread_SelfTest ++ [TNew 0] ++ Semaphore_SelfTest ++ [TDelete 0].

(** The programs by thread, written out: the main thread, and those it forks,
    which [Fork] numbers 1 and 2. *)
Definition main_program : list task := Eval cbv in ThreadSelfTest.
Definition simple_program : list task := Eval cbv in SimpleThread 1.
Definition helper_program : list task := Eval cbv in SelfTestHelper.

Definition program (t : tid) : list task :=
  match t with
  | 0 => main_program
  | 1 => simple_program
  | _ => helper_program
  end%nat.

Definition program_length (t : tid) : Z :=
  match t with
  | 0%nat => 38
  | 1%nat => 10
  | _ => 20
  end.

(** ** Steps *)

(** The kernel, and how many statements each thread has executed. *)
Record config := mkConfig { base : state; executed : gmap tid nat }.

Definition position (c : config) (t : tid) : nat := default 0%nat (executed c !! t).

Definition finished (c : config) : bool :=
  (currentThread (base c) =? 0)%nat && (program_length 0 =? Z.of_nat (position c 0)).

(** The effect of a statement; [P] and [V] disable interrupts first, so that
    their call and their body are one step. *)
Definition start (k : task) (st : state) : res state :=
  match k with
  | TFork => Fork st
  | TYield => Yield st
  | TPrint _ _ => Ok st
  | TNew s => Ok (set_sems (<[Named s := mkSemaphore 0 []]> (sems st)) st)
  | TAssertZero s =>
      let* sem := deref (sems st !! Named s) in
      ASSERT (value sem =? 0) ;;; Ok st
  | TP s => let* st := advance (code (CallP (Named s))) st in exec (AP (Named s)) [] st
  | TV s => let* st := advance (code (CallV (Named s))) st in exec (AV (Named s)) [] st
  | TDelete s =>
      let* _ := deref (sems st !! Named s) in
      Ok (set_sems (delete (Named s) (sems st)) st)
  end.

(** One step of the kernel: the dispatcher, the routine that is under way, the
    next statement, or, behind the last one, [Finish]. *)
Definition work (c : config) : res config :=
  let st := base c in
  let t := currentThread st in
  match sleeping st with
  | Some finishing =>
      match FindNextToRun st with
      | (Some next, st1) => let* st := Run next finishing st1 in Ok (mkConfig st (executed c))
      | (None, _) => Err Diverges
      end
  | None =>
      let* th := deref (threads st !! t) in
      match todo th with
      | a :: rest => let* st := exec a rest st in Ok (mkConfig st (executed c))
      | [] =>
          match program t !! position c t with
          | Some k => let* st := start k st in Ok (mkConfig st (<[t := S (position c t)]> (executed c)))
          | None => let* st := Finish st in Ok (mkConfig st (executed c))
          end
      end
  end.

(** The timer interrupts the running thread. *)
Definition preempt (c : config) : res config := let* st := Yield (base c) in Ok (mkConfig st (executed c)).

Definition start_config : config :=
  mkConfig
    {| currentThread := 0; sleeping := None; readyList := []; toBeDestroyed := None;
       threads := {[ 0%nat := mkThread RUNNING [] ]}; sems := ∅; locks := ∅; conds := ∅;
       nextSem := 0; nextThread := 1 |} ∅.

#[global] Instance Thread_eq_dec : EqDecision Thread.
Proof. solve_decision. Defined.
#[global] Instance Semaphore_eq_dec : EqDecision Semaphore.
Proof. solve_decision. Defined.
#[global] Instance Lock_eq_dec : EqDecision Lock.
Proof. solve_decision. Defined.
#[global] Instance state_eq_dec : EqDecision state.
Proof. solve_decision. Defined.
#[global] Instance config_eq_dec : EqDecision config.
Proof. solve_decision. Defined.

(** ** Enumeration *)

(** A key under which a configuration is stored. *)
Definition digits_key (base : positive) (l : list nat) (k : positive) : positive :=
  foldl (fun k x => (k * base + Pos.of_succ_nat x)%positive) k l.

Definition thread_code (th : option Thread) : nat :=
  match th with
  | None => 0
  | Some th => match status th with JUST_CREATED => 1 | RUNNING => 2 | READY => 3 | BLOCKED => 5 end + length (todo th)
  end.

Definition key (c : config) : positive :=
  let st := base c in
  (digits_key 64 (map (position c) [0; 1; 2])
    (digits_key 8 (map (fun t => thread_code (threads st !! t)) [0; 1; 2])
      (digits_key 4 (currentThread st :: match sleeping st with None => 0 | Some false => 1 | Some true => 2 end :: readyList st)
         1)))%nat.

Definition successors (c : config) : list (res config) :=
  if finished c then [] else work c :: (if sleeping (base c) then [] else [preempt c]).

Definition insert_new (r : res config) (acc : list config * gmap positive config) : list config * gmap positive config :=
  match r with
  | Err _ => acc
  | Ok c => match acc.2 !! key c with Some _ => acc | None => (c :: acc.1, <[key c := c]> acc.2) end
  end.

Fixpoint explore (fuel : nat) (todo : list config) (seen : gmap positive config) : gmap positive config :=
  match fuel, todo with
  | S fuel', c :: todo' =>
      let '(todo2, seen2) := foldr insert_new (todo', seen) (successors c) in explore fuel' todo2 seen2
  | _, _ => seen
  end.

(** ** Runs *)

(** The line a step prints. *)
Definition printed (c : config) : list (nat * nat) :=
  match sleeping (base c), threads (base c) !! currentThread (base c) with
  | None, Some (mkThread _ []) =>
      match program (currentThread (base c)) !! position c (currentThread (base c)) with
      | Some (TPrint which num) => [(which, num)]
      | _ => []
      end
  | _, _ => []
  end.

(** [runs n tr c]: the test is in [c] after [n] steps and any number of
    preemptions, and has printed [tr]. *)
Inductive runs : nat -> list (nat * nat) -> config -> Prop :=
| runs_start : runs 0 [] start_config
| runs_work n tr c c' : runs n tr c -> finished c = false -> work c = Ok c' -> runs (S n) (tr ++ printed c) c'
| runs_preempt n tr c c' : runs n tr c -> finished c = false -> sleeping (base c) = None -> preempt c = Ok c' -> runs n tr c'.

(** The numbers a thread has printed. *)
Definition lines (which : nat) (tr : list (nat * nat)) : list nat :=
  omap (fun l => if decide (l.1 = which) then Some l.2 else None) tr.

(** What is left to do: statements, steps of routines, and the threads that can
    run. *)
Definition thread_measure (c : config) (t : tid) : Z :=
  6 * (program_length t - Z.of_nat (position c t)) +
  match threads (base c) !! t with
  | Some th => 3 * Z.of_nat (length (todo th)) + match status th with BLOCKED => 0 | _ => 2 end
  | None => if (nextThread (base c) <=? t)%nat then 2 else 0
  end.

Definition measure (c : config) : Z :=
  thread_measure c 0 + thread_measure c 1 + thread_measure c 2 + (if sleeping (base c) then 1 else 0).

(** ** All states *)

Section Closed.
Context (seen : gmap positive config).

Definition member (c : config) : bool := match seen !! key c with Some c' => bool_decide (c' = c) | None => false end.

(** The steps from [c] stay among the states seen, do not fail, and come nearer
    to the end, which is 0 away at least. *)
Definition checked (c : config) : bool :=
  (0 <=? measure c) &&
  if finished c then bool_decide (sems (base c) = ∅)
  else
    match work c with Ok c' => member c' && (measure c' <? measure c) | Err _ => false end &&
    (if sleeping (base c) then true
     else match preempt c with Ok c' => member c' && (measure c' =? measure c) | Err _ => false end).

Definition all_checked : bool := member start_config && forallb (fun p => checked p.2) (map_to_list seen).

Context (Hall : all_checked = true).

Lemma member_checked c : member c = true -> checked c = true.
Proof.
  unfold member. destruct (seen !! key c) as [c'|] eqn:E; [|done]. intros ->%bool_decide_eq_true.
  apply andb_true_iff in Hall as [_ H]. rewrite forallb_forall in H.
  apply (H (key c, c)), list_elem_of_In, elem_of_map_to_list, E.
Qed.

Lemma runs_member n tr c : runs n tr c -> member c = true /\ Z.of_nat n + measure c <= measure start_config.
Proof.
  induction 1 as [|n tr c c' H [Hm Hn] Hf E|n tr c c' H [Hm Hn] Hf Hs E].
  - split; [|done]. by apply andb_true_iff in Hall as [? _].
  - apply member_checked in Hm. unfold checked in Hm. apply andb_true_iff in Hm as [_ Hm]. rewrite Hf, E in Hm.
    apply andb_true_iff in Hm as [[Hm Hlt]%andb_true_iff _]. apply Z.ltb_lt in Hlt. split; [done|lia].
  - apply member_checked in Hm. unfold checked in Hm. apply andb_true_iff in Hm as [_ Hm]. rewrite Hf, Hs, E in Hm.
    apply andb_true_iff in Hm as [_ [Hm Heq]%andb_true_iff]. apply Z.eqb_eq in Heq. split; [done|lia].
Qed.

Lemma runs_go_on n tr c : runs n tr c ->
  if finished c then sems (base c) = ∅
  else (exists c', work c = Ok c') /\ (sleeping (base c) = None -> exists c', preempt c = Ok c').
Proof.
  intros [Hm _]%runs_member. apply member_checked in Hm. unfold checked in Hm. apply andb_true_iff in Hm as [_ Hm].
  destruct (finished c); [by apply bool_decide_eq_true in Hm|]. apply andb_true_iff in Hm as [H1 H2]. split.
  - destruct (work c) as [c'|]; [by exists c'|done].
  - intros Hs. rewrite Hs in H2. destruct (preempt c) as [c'|]; [by exists c'|done].
Qed.

End Closed.

Lemma all_states_checked : all_checked (explore 100000 [start_config] {[ key start_config := start_config ]}) = true.
Proof. vm_compute. reflexivity. Qed.

Lemma program_length_spec t : program_length t = Z.of_nat (length (program t)).
Proof. by destruct t as [|[|t]]. Qed.

(** ** What is printed *)

(** The numbers a thread prints in its first [p] statements. *)
Definition prints (which : tid) (p : nat) : list nat :=
  omap (fun k => match k with TPrint _ num => Some num | _ => None end) (take p (program which)).

Lemma program_prints t which num : TPrint which num ∈ program t -> which = t.
Proof.
  assert (Forall (fun k => match k with TPrint w _ => w = t | _ => True end) (program t)) as H.
  { destruct t as [|[|t]]; by repeat constructor. }
  rewrite Forall_forall in H. exact (H (TPrint which num)).
Qed.

Lemma lines_app which tr tr' : lines which (tr ++ tr') = lines which tr ++ lines which tr'.
Proof. apply omap_app. Qed.

Lemma work_prints c c' which : work c = Ok c' ->
  prints which (position c' which) = prints which (position c which) ++ lines which (printed c).
Proof.
  unfold work, printed. destruct (sleeping (base c)) as [f|].
  { destruct (FindNextToRun (base c)) as [[next|] st1]; [|done]. intros E. apply bind_Ok_inv in E as (st & _ & [= <-]).
    by rewrite app_nil_r. }
  destruct (threads (base c) !! currentThread (base c)) as [[sta td]|]; [|done]. cbn [deref rbind todo].
  destruct td as [|a rest]; [|intros E; apply bind_Ok_inv in E as (st & _ & [= <-]); by rewrite app_nil_r].
  set (t := currentThread (base c)). destruct (program t !! position c t) as [k|] eqn:Hk;
    [|intros E; apply bind_Ok_inv in E as (st & _ & [= <-]); by rewrite app_nil_r].
  intros E. apply bind_Ok_inv in E as (st & _ & [= <-]). unfold position at 1. cbn [executed].
  destruct (decide (t = which)) as [<-|Hne].
  - rewrite lookup_insert_eq. cbn [from_option id]. unfold prints. rewrite (take_S_r _ _ k Hk), omap_app. f_equal.
    destruct k; try done. apply list_elem_of_lookup_2, program_prints in Hk as ->. cbn. by rewrite decide_True.
  - rewrite lookup_insert_ne by done. fold (position c which). destruct k; try by rewrite app_nil_r.
    apply list_elem_of_lookup_2, program_prints in Hk as ->. cbn. rewrite decide_False by done. by rewrite app_nil_r.
Qed.

Lemma runs_lines n tr c which : runs n tr c -> lines which tr = prints which (position c which).
Proof.
  induction 1 as [|n tr c c' H IH Hf E|n tr c c' H IH Hf Hs E].
  - by destruct which as [|[|w]].
  - by rewrite lines_app, IH, (work_prints c c').
  - unfold preempt in E. apply bind_Ok_inv in E as (st & _ & [= <-]). exact IH.
Qed.

(** C11: The self tests of threads and semaphores pass, whatever the timer does.
    In every run of the test, with preemptions before any of its steps, at most
    414 steps are made; until the main thread is at the end of the test, the next
    step and the next preemption succeed: no assertion fails, no thread waits for
    ever, and no semaphore is used before it exists or after it was deleted.  At the end
    the main thread has printed its five lines in order, and both semaphores are
    gone; the forked thread has printed the first of its lines, in order. *)
Theorem thread_selftest_passes n tr c : runs n tr c ->
  (n <= 414)%nat /\
  (if finished c then lines 0 tr = seq 0 5 /\ sems (base c) = ∅
   else (exists c', work c = Ok c') /\ (sleeping (base c) = None -> exists c', preempt c = Ok c')) /\
  lines 1 tr `prefix_of` seq 0 5.
Proof.
  intros H. pose proof (runs_go_on _ all_states_checked n tr c H) as Hgo.
  destruct (runs_member _ all_states_checked n tr c H) as [Hm Hn]. rewrite !(runs_lines n tr c _ H). split_and!.
  - pose proof (member_checked _ all_states_checked c Hm) as Hc. unfold checked in Hc.
    apply andb_true_iff in Hc as [Hc%Z.leb_le _]. assert (measure start_config = 414) by reflexivity. lia.
  - destruct (finished c) eqn:Hf; [|done]. split; [|done]. apply andb_true_iff in Hf as [_ Hp%Z.eqb_eq].
    rewrite program_length_spec in Hp. unfold prints. rewrite take_ge by lia. done.
  - exists (omap (fun k => match k with TPrint _ num => Some num | _ => None end) (drop (position c 1) (program 1))).
    unfold prints. by rewrite <- omap_app, take_drop.
Qed.

(** The run without preemptions. *)
Fixpoint run_on (fuel : nat) (tr : list (nat * nat)) (c : config) : res (list (nat * nat) * config) :=
  if finished c then Ok (tr, c)
  else
    match fuel with
    | O => Err Diverges
    | S fuel' => let* c' := work c in run_on fuel' (tr ++ printed c) c'
    end.

Lemma run_on_runs fuel : forall n tr c tr' c', runs n tr c -> run_on fuel tr c = Ok (tr', c') ->
  exists n', runs n' tr' c' /\ finished c' = true.
Proof.
  induction fuel as [|fuel IH]; intros n tr c tr' c' H; cbn [run_on]; destruct (finished c) eqn:Hf;
    try (intros [= <- <-]; by exists n). intros E. apply bind_Ok_inv in E as (c1 & E1 & E2).
  apply (IH (S n) (tr ++ printed c) c1 tr' c'); [by apply runs_work|done].
Qed.

Lemma thread_selftest_passes_witness :
  exists n tr c, runs n tr c /\ finished c = true /\ lines 0 tr = seq 0 5 /\ lines 1 tr `prefix_of` seq 0 5.
Proof.
  destruct (run_on 414 [] start_config) as [[tr c]|e] eqn:E; [|vm_compute in E; discriminate].
  destruct (run_on_runs 414 0 [] start_config tr c runs_start E) as (n & H & Hf). exists n, tr, c.
  destruct (thread_selftest_passes n tr c H) as (_ & H1 & H2). rewrite Hf in H1. destruct H1 as [H1 _].
  repeat split; assumption.
Defined.

End ThreadTest.
