(* ===== verification/Waiters.v ===== *)
(** * What the steps of threads do to what they share

    A view of the thread system of Threads.v for programs that use locks and
    conditions: the rests of the routines, the values of the semaphores, the
    locks and the queues of the conditions, without the scheduling.  And the
    invariant of [Condition]: the semaphore that [Wait] creates is signalled
    once at most, and only after it has left the queue of the condition. *)

From S2P Require Import Prelude Threads Synch.

Module Waiters.

Import Threads Synch.

(** ** The view *)

Record shared := mkShared {
  sh_vals : gmap sid Z;
  sh_locks : gmap lid Lock;
  sh_conds : gmap cid (list sid);
  sh_next : nat
}.

Definition view (st : state) : shared := mkShared (value <$> sems st) (locks st) (conds st) (nextSem st).

Definition todos (st : state) : gmap tid (list act) := todo <$> threads st.

(** Thread [t] executes [a], before [rest]. *)
Inductive acted (t : tid) (rest : list act) : act -> shared -> list act -> shared -> Prop :=
| ac_P s v VS L C n :
    VS !! s = Some v -> v <> 0 ->
    acted t rest (AP s) (mkShared VS L C n) rest (mkShared (<[s := v - 1]> VS) L C n)
| ac_V s v VS L C n :
    VS !! s = Some v ->
    acted t rest (AV s) (mkShared VS L C n) rest (mkShared (<[s := v + 1]> VS) L C n)
| ac_set l lk VS L C n :
    L !! l = Some lk ->
    acted t rest (ASetHolder l) (mkShared VS L C n) rest (mkShared VS (<[l := mkLock (Some t)]> L) C n)
| ac_clear l lk VS L C n :
    L !! l = Some lk -> lockHolder lk = Some t ->
    acted t rest (AClearHolder l) (mkShared VS L C n) rest (mkShared VS (<[l := mkLock None]> L) C n)
| ac_wait c l lk q VS L C n :
    L !! l = Some lk -> lockHolder lk = Some t -> C !! c = Some q ->
    acted t rest (AWait c l) (mkShared VS L C n)
      (AClearHolder l :: AV (OfLock l) :: AP (Waiter n) :: AP (OfLock l) :: ASetHolder l :: rest)
      (mkShared (<[Waiter n := 0]> VS) L (<[c := q ++ [Waiter n]]> C) (S n))
| ac_signal c l w q VS L C n :
    C !! c = Some (w :: q) ->
    acted t rest (ASignal c l) (mkShared VS L C n) (AV w :: rest) (mkShared VS L (<[c := q]> C) n)
| ac_signal_none c l VS L C n :
    C !! c = Some [] -> acted t rest (ASignal c l) (mkShared VS L C n) rest (mkShared VS L C n)
| ac_broadcast_end c l VS L C n :
    C !! c = Some [] -> acted t rest (ABroadcast c l) (mkShared VS L C n) rest (mkShared VS L C n)
| ac_broadcast c l sh :
    acted t rest (ABroadcast c l) sh (ASignal c l :: ABroadcast c l :: rest) sh.

(** A step of the system: one thread calls or executes, comes or goes, an
    interrupt calls [V], or threads are only rescheduled. *)
Inductive viewed (st st' : state) : Prop :=
| vw_same :
    todos st' = todos st -> view st' = view st -> viewed st st'
| vw_interrupt s v :
    public s -> todos st' = todos st -> sh_vals (view st) !! s = Some v ->
    view st' = mkShared (<[s := v + 1]> (sh_vals (view st))) (locks st) (conds st) (nextSem st) -> viewed st st'
| vw_fork :
    todos st !! nextThread st = None -> todos st' = <[nextThread st := []]> (todos st) -> view st' = view st ->
    viewed st st'
| vw_gone t :
    todos st !! t = Some [] -> sleeping st = Some true -> t = currentThread st ->
    todos st' = delete t (todos st) -> view st' = view st -> viewed st st'
| vw_call c :
    sleeping st = None -> todos st !! currentThread st = Some [] -> allowed c ->
    todos st' = <[currentThread st := code c]> (todos st) -> view st' = view st -> viewed st st'
| vw_act a rest td' :
    sleeping st = None -> todos st !! currentThread st = Some (a :: rest) ->
    acted (currentThread st) rest a (view st) td' (view st') ->
    todos st' = <[currentThread st := td']> (todos st) -> viewed st st'.

Lemma todos_lookup st t th : threads st !! t = Some th -> todos st !! t = Some (todo th).
Proof. intros H. unfold todos. by rewrite lookup_fmap, H. Qed.

Lemma vals_lookup st s sem : sems st !! s = Some sem -> sh_vals (view st) !! s = Some (value sem).
Proof. intros H. cbn. by rewrite lookup_fmap, H. Qed.

(** A step of the current thread's routine that leaves the threads alone. *)
Lemma act_viewed st st1 th a rest td' :
  sleeping st = None -> threads st !! currentThread st = Some th -> todo th = a :: rest ->
  acted (currentThread st) rest a (view st) td' (view st1) ->
  currentThread st1 = currentThread st -> todos st1 = todos st -> viewed st (with_todo td' th st1).
Proof.
  intros Hs Hc Ht Ha Ec ET. apply (vw_act _ _ a rest td').
  - done.
  - by rewrite (todos_lookup _ _ _ Hc), Ht.
  - done.
  - unfold todos in *. unfold with_todo. fields. by rewrite fmap_insert, ET, Ec.
Qed.

Lemma estep_viewed st st' : placed st -> estep st st' -> viewed st st'.
Proof.
  intros HP He. destruct He as [th c Hs Hc Ht Ha|s sem rest Hs Hsem Hv Hc
    |s sem th rest Hs Hsem Hv Hc Ht|s th rest st1 Hs Hc Ht Hv E1 E2 E3
    |l lk th rest Hs Hc Ht Hl|l lk th rest Hs Hc Ht Hl Hh|c l lk q th rest Hs Hc Ht Hl Hh Hq
    |c l w q th rest Hs Hc Ht Hq|a th rest Hs Hc Ht Ha|c l th rest Hs Hc Ht
    |th next l th' Hs Hc Hr Hn| | |th Hs Hc Ht
    |finishing next l th' Hs Hr Hn|s st' Hp Hv].
  - apply (vw_call _ _ c); try done.
    + by rewrite (todos_lookup _ _ _ Hc), Ht.
    + unfold todos, with_todo. fields. by rewrite fmap_insert.
  - apply vw_same.
    + unfold todos. fields. by rewrite (todos_insert _ _ (mkThread RUNNING (AP s :: rest))).
    + unfold view. fields. rewrite fmap_insert. cbn [value]. rewrite insert_id; [done|]. by rewrite lookup_fmap, Hsem.
  - eapply (act_viewed st); try done. unfold view. fields. rewrite fmap_insert.
    apply ac_P; [by rewrite lookup_fmap, Hsem|done].
  - destruct (vstep_proj s st st1 Hv) as (v & HV & EV & ET & EL & EC).
    assert (nextSem st1 = nextSem st) as EN by (by destruct Hv).
    eapply (act_viewed st); try done. unfold view. rewrite EV, EL, EC, EN. by apply ac_V.
  - eapply (act_viewed st); try done. unfold view. fields. by eapply ac_set.
  - eapply (act_viewed st); try done. unfold view. fields. by eapply ac_clear.
  - eapply (act_viewed st); try done. unfold view. fields. rewrite fmap_insert. by eapply ac_wait.
  - eapply (act_viewed st); try done. unfold view. fields. by eapply ac_signal.
  - destruct Ha as (c & l & [-> | ->] & Hq); (eapply (act_viewed st); try done);
      [by eapply ac_signal_none|by eapply ac_broadcast_end].
  - eapply (act_viewed st); try done. by apply ac_broadcast.
  - assert (next <> currentThread st) as Hne.
    { intros ->. assert (status th = RUNNING) by (by apply (p_running st HP _ _ Hc)).
      destruct (proj1 (p_ready st HP (currentThread st))) as (x & Hx & E); [rewrite Hr; set_solver|]. congruence. }
    apply vw_same; [|done]. unfold todos. fields.
    rewrite (todos_insert _ next th') by (by rewrite lookup_insert_ne). by rewrite todos_insert.
  - by apply vw_same.
  - apply vw_fork; [| |done].
    + unfold todos. rewrite lookup_fmap. destruct (threads st !! nextThread st) eqn:E; [|done].
      apply (p_next st HP) in E. lia.
    + unfold todos. fields. by rewrite insert_insert_eq, fmap_insert.
  - apply vw_same; [|done]. unfold todos. fields. by rewrite todos_insert.
  - destruct finishing; cbn [id].
    + apply (vw_gone _ _ (currentThread st)); try done.
      * by rewrite (todos_lookup _ _ _ (p_finishing st HP Hs)).
      * unfold todos. fields. by rewrite fmap_delete, todos_insert.
    + apply vw_same; [|done]. unfold todos. fields. by rewrite todos_insert.
  - destruct (vstep_proj s st st' Hv) as (v & HV & EV & ET & EL & EC).
    assert (nextSem st' = nextSem st) as EN by (by destruct Hv).
    apply (vw_interrupt _ _ s v); try done. unfold view. by rewrite EV, EL, EC, EN.
Qed.

Lemma estep_next st st' : estep st st' -> (nextThread st <= nextThread st')%nat.
Proof.
  assert (forall s st1, vstep s st st1 -> nextThread st1 = nextThread st) as Hv by (by intros s st1 []).
  intros []; unfold with_todo; fields; try lia;
    match goal with H : vstep _ _ _ |- _ => by rewrite (Hv _ _ H) end.
Qed.

(** What changes the status of threads leaves their routines alone. *)
Lemma setStatus_todos t x st st' : setStatus t x st = Ok st' -> todos st' = todos st.
Proof.
  unfold setStatus. destruct (threads st !! t) as [th|] eqn:E; cbn; [|done]. intros [= <-].
  unfold todos. fields. by rewrite todos_insert.
Qed.

Lemma ReadyToRun_todos t st st' : ReadyToRun t st = Ok st' -> todos st' = todos st.
Proof.
  unfold ReadyToRun. destruct (setStatus t READY st) as [st1|] eqn:E; cbn; [|done]. intros [= <-].
  by apply setStatus_todos in E.
Qed.

Lemma Sleep_todos f st st' : Sleep f st = Ok st' -> todos st' = todos st.
Proof.
  unfold Sleep. destruct (setStatus _ _ st) as [st1|] eqn:E; cbn; [|done]. intros [= <-].
  by apply setStatus_todos in E.
Qed.

Lemma Run_todos next st st' : toBeDestroyed st = None -> Run next false st = Ok st' -> todos st' = todos st.
Proof.
  intros Hd. unfold Run. rewrite Hd. cbn [negb orb ASSERT rbind].
  destruct (setStatus _ _ _) as [st1|] eqn:E; cbn [rbind]; [|done]. pose proof (setStatus_todos _ _ _ _ E) as ET.
  unfold setStatus in E. fields. destruct (threads st !! next); cbn in E; [|done]. injection E as <-.
  unfold CheckToBeDestroyed. fields. intros [= <-]. exact ET.
Qed.

Lemma Yield_todos st st' : toBeDestroyed st = None -> Yield st = Ok st' -> todos st' = todos st.
Proof.
  intros Hd. unfold Yield, FindNextToRun. destruct (readyList st) as [|next l]; [by intros [= <-]|].
  destruct (ReadyToRun _ _) as [st1|] eqn:E; cbn [rbind]; [|done]. intros Hr.
  apply Run_todos in Hr; [|unfold ReadyToRun, setStatus in E; fields;
    destruct (threads st !! currentThread st); cbn in E; [by injection E as <-|done]].
  apply ReadyToRun_todos in E. by rewrite Hr, E.
Qed.

Lemma Fork_todos st st' : Fork st = Ok st' -> todos st' = <[nextThread st := []]> (todos st).
Proof. intros E%ReadyToRun_todos. rewrite E. unfold todos. fields. by rewrite fmap_insert. Qed.

Lemma V_todos s st st' : V s st = Ok st' -> todos st' = todos st.
Proof. intros E%V_vstep. by destruct (vstep_proj s st st' E) as (v & _ & _ & ET & _). Qed.

(** ** The semaphores of waiting threads *)

(** The waiter [n] is mentioned by [P], or is still to be signalled. *)
Definition awaits (n : nat) (td : list act) : Prop := AP (Waiter n) ∈ td.
Definition owes (n : nat) (td : list act) : Prop := AV (Waiter n) ∈ td.

Record waiters (T : gmap tid (list act)) (sh : shared) : Prop := {
  w_sem : forall n, (n < sh_next sh)%nat -> is_Some (sh_vals sh !! Waiter n);
  w_nodup : forall c q, sh_conds sh !! c = Some q -> NoDup q;
  w_disjoint : forall c c' q q' s, sh_conds sh !! c = Some q -> sh_conds sh !! c' = Some q' ->
    s ∈ q -> s ∈ q' -> c = c';
  w_queue : forall c q s, sh_conds sh !! c = Some q -> s ∈ q ->
    exists n, s = Waiter n /\ (n < sh_next sh)%nat /\ sh_vals sh !! Waiter n = Some 0;
  w_awaits : forall t td n, T !! t = Some td -> awaits n td -> (n < sh_next sh)%nat;
  w_awaits_one : forall t t' td td' n, T !! t = Some td -> T !! t' = Some td' ->
    awaits n td -> awaits n td' -> t = t';
  w_owes : forall t td n, T !! t = Some td -> owes n td ->
    (n < sh_next sh)%nat /\ sh_vals sh !! Waiter n = Some 0 /\ ~ owes n (tail td) /\
    forall c q, sh_conds sh !! c = Some q -> Waiter n ∉ q;
  w_owes_one : forall t t' td td' n, T !! t = Some td -> T !! t' = Some td' ->
    owes n td -> owes n td' -> t = t'
}.

(** The routine of a thread changes and mentions no new waiter. *)
Lemma waiters_todo T sh t td td' :
  waiters T sh -> T !! t = Some td ->
  (forall n, awaits n td' -> awaits n td) -> (forall n, owes n td' -> owes n td /\ ~ owes n (tail td')) ->
  waiters (<[t := td']> T) sh.
Proof.
  intros H Ht HA HO.
  assert (forall x y, <[t := td']> T !! x = Some y -> exists y', T !! x = Some y' /\
    (forall n, awaits n y -> awaits n y') /\ (forall n, owes n y -> owes n y')) as Hold.
  { intros x y. rewrite lookup_insert_Some. intros [[<- <-]|[_ Hy]]; [|by eauto].
    exists td. split; [done|]. split; [done|]. intros n Hn. by apply HO. }
  constructor; try apply H.
  - intros x y n Hx Hn. destruct (Hold x y Hx) as (y' & Hy' & Ha & _). eapply (w_awaits _ _ H); eauto.
  - intros x x' y y' n Hx Hx' Hn Hn'. destruct (Hold x y Hx) as (z & Hz & Ha & _).
    destruct (Hold x' y' Hx') as (z' & Hz' & Ha' & _). eapply (w_awaits_one _ _ H); eauto.
  - intros x y n Hx Hn. destruct (Hold x y Hx) as (z & Hz & _ & Ho).
    destruct (w_owes _ _ H x z n Hz (Ho n Hn)) as (H1 & H2 & H3 & H4). repeat split; try done.
    apply lookup_insert_Some in Hx as [[<- <-]|[_ Hx]]; [by apply HO|]. by assert (y = z) as -> by congruence.
  - intros x x' y y' n Hx Hx' Hn Hn'. destruct (Hold x y Hx) as (z & Hz & _ & Ha).
    destruct (Hold x' y' Hx') as (z' & Hz' & _ & Ha'). eapply (w_owes_one _ _ H); eauto.
Qed.

(** The value of a semaphore changes that nobody may be signalled through. *)
Lemma waiters_value T VS L L' C n s v :
  waiters T (mkShared VS L C n) ->
  (forall m, s = Waiter m -> (forall c q, C !! c = Some q -> Waiter m ∉ q) /\
     forall t td, T !! t = Some td -> ~ owes m td) ->
  waiters T (mkShared (<[s := v]> VS) L' C n).
Proof.
  intros H Hs. constructor; cbn [sh_vals sh_conds sh_next]; try apply H.
  - intros m Hm. apply lookup_insert_is_Some. destruct (decide (s = Waiter m)); [by left|right].
    split; [done|]. by apply (w_sem _ _ H).
  - intros c q x Hq Hx. destruct (w_queue _ _ H c q x Hq Hx) as (m & -> & Hm & H0). exists m. repeat split; try done.
    rewrite lookup_insert_ne; [done|]. intros E. destruct (Hs m E) as [Hc _]. by destruct (Hc c q Hq).
  - intros t td m Ht Hm. destruct (w_owes _ _ H t td m Ht Hm) as (H1 & H2 & H3 & H4). repeat split; try done.
    cbn [sh_vals]. rewrite lookup_insert_ne; [done|]. intros E. destruct (Hs m E) as [_ Ho]. by destruct (Ho t td Ht).
Qed.

Lemma waiters_locks T VS L L' C n : waiters T (mkShared VS L C n) -> waiters T (mkShared VS L' C n).
Proof. intros H. constructor; apply H. Qed.

(** [Wait] creates a waiter. *)
Lemma waiters_new T VS L C n t td td' c q :
  waiters T (mkShared VS L C n) -> T !! t = Some td -> C !! c = Some q ->
  (forall m, awaits m td' -> m = n \/ awaits m td) -> (forall m, owes m td' -> owes m td /\ ~ owes m (tail td')) ->
  waiters (<[t := td']> T) (mkShared (<[Waiter n := 0]> VS) L (<[c := q ++ [Waiter n]]> C) (S n)).
Proof.
  intros H Ht Hc HA HO.
  assert (forall c q, C !! c = Some q -> Waiter n ∉ q) as Hf.
  { intros c' q' Hq' Hin. destruct (w_queue _ _ H c' q' _ Hq' Hin) as (m & [= <-] & Hm & _). cbn in Hm. lia. }
  constructor; cbn [sh_vals sh_conds sh_next].
  - intros m Hm. apply lookup_insert_is_Some. destruct (decide (m = n)) as [->|Hne]; [by left|right].
    split; [congruence|]. apply (w_sem _ _ H). cbn. lia.
  - intros c' q'. rewrite lookup_insert_Some. intros [[<- <-]|[_ Hq']]; [|by apply (w_nodup _ _ H c')].
    apply NoDup_app. split; [by apply (w_nodup _ _ H c)|]. split; [|apply NoDup_singleton].
    intros x Hx ->%list_elem_of_singleton. by apply (Hf c q).
  - intros c1 c2 q1 q2 x. rewrite !lookup_insert_Some.
    intros [[<- <-]|[Hn1 H1]] [[<- <-]|[Hn2 H2]]; rewrite ?elem_of_app, ?list_elem_of_singleton; try done.
    + intros [Hx| ->] Hx2; [by eapply (w_disjoint _ _ H c c2)|]. by destruct (Hf c2 q2).
    + intros Hx1 [Hx| ->]; [by eapply (w_disjoint _ _ H c1 c)|]. by destruct (Hf c1 q1).
    + by apply (w_disjoint _ _ H).
  - intros c' q' x Hq' Hx. assert (x = Waiter n \/ exists c0 q0, C !! c0 = Some q0 /\ x ∈ q0) as [->|(c0 & q0 & H0 & Hx0)].
    { apply lookup_insert_Some in Hq' as [[<- <-]|[_ Hq']]; [|by eauto].
      apply elem_of_app in Hx as [Hx|Hx%list_elem_of_singleton]; [by eauto|by left]. }
    + exists n. rewrite lookup_insert_eq. split_and!; [done|lia|done].
    + destruct (w_queue _ _ H c0 q0 x H0 Hx0) as (m & -> & Hm & Hv). cbn in Hm, Hv. exists m.
      split_and!; [done|lia|]. rewrite lookup_insert_ne; [done|]. intros [=]. lia.
  - intros x y m. rewrite lookup_insert_Some. intros [[<- <-]|[_ Hy]] Hm.
    + apply HA in Hm as [->|Hm]; [lia|]. pose proof (w_awaits _ _ H t td m Ht Hm). cbn in *. lia.
    + pose proof (w_awaits _ _ H x y m Hy Hm). cbn in *. lia.
  - assert (forall x y, T !! x = Some y -> ~ awaits n y) as Hna.
    { intros x y Hx Hn. pose proof (w_awaits _ _ H x y n Hx Hn). cbn in *. lia. }
    intros x x' y y' m. rewrite !lookup_insert_Some.
    intros [[<- <-]|[_ Hy]] [[<- <-]|[_ Hy']] Hm Hm'; [done| | |by eapply (w_awaits_one _ _ H)].
    + apply HA in Hm as [->|Hm]; [by destruct (Hna x' y')|by eapply (w_awaits_one _ _ H t x')].
    + apply HA in Hm' as [->|Hm']; [by destruct (Hna x y)|by eapply (w_awaits_one _ _ H x t)].
  - intros x y m Hx Hm.
    assert (exists z, T !! x = Some z /\ owes m z /\ ~ owes m (tail y)) as (z & Hz & Hmz & Hy).
    { apply lookup_insert_Some in Hx as [[<- <-]|[_ Hx]]; [exists td; by destruct (HO m Hm)|].
      exists y. split; [done|]. split; [done|]. by apply (w_owes _ _ H x y m). }
    destruct (w_owes _ _ H x z m Hz Hmz) as (H1 & H2 & _ & H4). cbn in H1, H2, H4.
    assert (m <> n) as Hne by lia. split; [lia|]. split; [rewrite lookup_insert_ne by congruence; done|]. split; [done|].
    intros c' q'. rewrite lookup_insert_Some. intros [[<- <-]|[_ Hq']]; [|by apply (H4 c')].
    rewrite elem_of_app, list_elem_of_singleton. intros [Hin|[=]]; [by apply (H4 c q)|done].
  - intros x x' y y' m. rewrite !lookup_insert_Some.
    intros [[<- <-]|[_ Hy]] [[<- <-]|[_ Hy']] Hm Hm'; [done| | |by eapply (w_owes_one _ _ H)].
    + apply HO in Hm as [Hm _]. by eapply (w_owes_one _ _ H t x').
    + apply HO in Hm' as [Hm' _]. by eapply (w_owes_one _ _ H x t).
Qed.

(** [Signal] takes the first waiter out of the queue and owes it a [V]. *)
Lemma waiters_signal T VS L C n t td rest c w q :
  waiters T (mkShared VS L C n) -> T !! t = Some td -> C !! c = Some (w :: q) ->
  (forall m, awaits m rest -> awaits m td) -> (forall m, ~ owes m rest) ->
  waiters (<[t := AV w :: rest]> T) (mkShared VS L (<[c := q]> C) n).
Proof.
  intros H Ht Hc HA HO. destruct (w_queue _ _ H c (w :: q) w Hc) as (k & -> & Hk & Hk0); [set_solver|].
  pose proof (w_nodup _ _ H c _ Hc) as [Hkq Hnd]%NoDup_cons. cbn [sh_vals sh_next] in *.
  assert (forall c' q', <[c := q]> C !! c' = Some q' -> exists q0, C !! c' = Some q0 /\ (forall x, x ∈ q' -> x ∈ q0) /\
    Waiter k ∉ q') as Hold.
  { intros c' q'. rewrite lookup_insert_Some. intros [[<- <-]|[Hne Hq']].
    - exists (Waiter k :: q). split; [done|]. split; [set_solver|done].
    - exists q'. split; [done|]. split; [done|]. intros Hin.
      destruct Hne. eapply (w_disjoint _ _ H c c'); [done|done| |exact Hin]. set_solver. }
  assert (forall x y, T !! x = Some y -> ~ owes k y) as Hno.
  { intros x y Hx Hy. destruct (w_owes _ _ H x y k Hx Hy) as (_ & _ & _ & Hq). apply (Hq c _ Hc). set_solver. }
  assert (forall m, owes m (AV (Waiter k) :: rest) -> m = k) as Honly.
  { intros m. unfold owes. rewrite elem_of_cons. intros [[= ->]|Hm]; [done|]. by destruct (HO m). }
  constructor; cbn [sh_vals sh_conds sh_next]; try apply H.
  - intros c' q' Hq'. apply lookup_insert_Some in Hq' as [[<- <-]|[_ Hq']]; [done|by apply (w_nodup _ _ H c')].
  - intros c1 c2 q1 q2 x H1 H2 Hx1 Hx2. destruct (Hold _ _ H1) as (q1' & H1' & Hs1 & _).
    destruct (Hold _ _ H2) as (q2' & H2' & Hs2 & _). eapply (w_disjoint _ _ H c1 c2); eauto.
  - intros c' q' x Hq' Hx. destruct (Hold _ _ Hq') as (q0 & H0 & Hs & _). eapply (w_queue _ _ H c'); eauto.
  - intros x y m. rewrite lookup_insert_Some. intros [[<- <-]|[_ Hy]] Hm; [|by eapply (w_awaits _ _ H)].
    eapply (w_awaits _ _ H t td); [done|]. apply HA. by apply elem_of_cons in Hm as [|].
  - intros x x' y y' m. rewrite !lookup_insert_Some. unfold awaits.
    intros [[<- <-]|[_ Hy]] [[<- <-]|[_ Hy']]; rewrite ?elem_of_cons; [done| | |by eapply (w_awaits_one _ _ H)].
    + intros [?|Hm] Hm'; [done|]. eapply (w_awaits_one _ _ H t x'); [done|done| |exact Hm']. by apply HA.
    + intros Hm' [?|Hm]; [done|]. eapply (w_awaits_one _ _ H x t); [done|done|exact Hm'|]. by apply HA.
  - intros x y m. rewrite lookup_insert_Some. intros [[<- <-]|[_ Hy]] Hm.
    + apply Honly in Hm as ->. split_and!; [done|done|by apply HO|]. intros c' q' Hq'. by destruct (Hold _ _ Hq') as (? & _ & _ & ?).
    + destruct (w_owes _ _ H x y m Hy Hm) as (H1 & H2 & H3 & H4). split_and!; try done.
      intros c' q' Hq' Hin. destruct (Hold _ _ Hq') as (q0 & H0 & Hs & _). by eapply (H4 c' q0); [|apply Hs].
  - intros x x' y y' m. rewrite !lookup_insert_Some.
    intros [[<- <-]|[_ Hy]] [[<- <-]|[_ Hy']] Hm Hm'; [done| | |by eapply (w_owes_one _ _ H)].
    + apply Honly in Hm as ->. by destruct (Hno x' y').
    + apply Honly in Hm' as ->. by destruct (Hno x y).
Qed.

(** A thread without a routine comes, or goes. *)
Lemma waiters_fork T sh t : waiters T sh -> T !! t = None -> waiters (<[t := []]> T) sh.
Proof.
  intros H Ht. assert (forall x y a, <[t := []]> T !! x = Some y -> a ∈ y -> T !! x = Some y) as Hold.
  { intros x y a. rewrite lookup_insert_Some. intros [[<- <-]|[_ Hy]] Hn; [by apply not_elem_of_nil in Hn|done]. }
  constructor; try apply H.
  - intros x y n Hx Hn. eapply (w_awaits _ _ H); eauto.
  - intros x x' y y' n Hx Hx' Hn Hn'. eapply (w_awaits_one _ _ H); eauto.
  - intros x y n Hx Hn. eapply (w_owes _ _ H); eauto.
  - intros x x' y y' n Hx Hx' Hn Hn'. eapply (w_owes_one _ _ H); eauto.
Qed.

Lemma waiters_gone T sh t : waiters T sh -> waiters (delete t T) sh.
Proof.
  intros H. constructor; try apply H.
  - intros x y n [_ Hx]%lookup_delete_Some. by eapply (w_awaits _ _ H).
  - intros x x' y y' n [_ Hx]%lookup_delete_Some [_ Hx']%lookup_delete_Some. by eapply (w_awaits_one _ _ H).
  - intros x y n [_ Hx]%lookup_delete_Some. by eapply (w_owes _ _ H).
  - intros x x' y y' n [_ Hx]%lookup_delete_Some [_ Hx']%lookup_delete_Some. by eapply (w_owes_one _ _ H).
Qed.

Lemma waiters_acted T sh t a rest td' sh' :
  waiters T sh -> T !! t = Some (a :: rest) -> acted t rest a sh td' sh' -> waiters (<[t := td']> T) sh'.
Proof.
  intros H Ht Ha.
  assert (forall m, awaits m rest -> awaits m (a :: rest)) as HA by (intros m; apply list_elem_of_further).
  assert (forall m, ~ owes m rest) as HO.
  { intros m Hm. assert (owes m (a :: rest)) as Hm' by (by apply list_elem_of_further).
    by destruct (w_owes _ _ H t _ m Ht Hm') as (_ & _ & Hno & _). }
  assert (waiters (<[t := rest]> T) sh) as Hrest.
  { eapply waiters_todo; [done|exact Ht|done|]. intros n Hn. by destruct (HO n). }
  destruct Ha as [s v VS L C n Hv Hv0|s v VS L C n Hv|l lk VS L C n Hl|l lk VS L C n Hl Hh
    |c l lk q VS L C n Hl Hh Hq|c l w q VS L C n Hq|c l VS L C n Hq|c l VS L C n Hq|c l sh].
  - eapply waiters_value; [exact Hrest|]. intros m ->. split.
    + intros c q Hq Hin. destruct (w_queue _ _ H c q _ Hq Hin) as (k & [= <-] & _ & H0). cbn in H0. congruence.
    + intros x y Hx Hm. destruct (w_owes _ _ Hrest x y m Hx Hm) as (_ & H0 & _). cbn in H0. congruence.
  - eapply waiters_value; [exact Hrest|]. intros m ->.
    assert (owes m (AV (Waiter m) :: rest)) as Hm by (by apply elem_of_cons; left). split.
    + by apply (w_owes _ _ H t _ m Ht Hm).
    + intros x y Hx Hy. apply lookup_insert_Some in Hx as [[<- <-]|[Hne Hx]]; [by destruct (HO m)|].
      by eapply Hne, (w_owes_one _ _ H t x).
  - by eapply waiters_locks.
  - by eapply waiters_locks.
  - eapply waiters_new; [exact H|exact Ht|done| |].
    + intros m. unfold awaits. rewrite !elem_of_cons. intros [?|[?|[[= ->]|[?|[?|Hm]]]]]; try done; [by left|].
      right. by right.
    + intros m. unfold owes. rewrite !elem_of_cons. intros [?|[?|[?|[?|[?|Hm]]]]]; try done. by destruct (HO m).
  - by eapply waiters_signal.
  - done.
  - done.
  - eapply waiters_todo; [done|exact Ht| |].
    + intros m. unfold awaits. rewrite !elem_of_cons. naive_solver.
    + intros m. unfold owes. rewrite !elem_of_cons. intros [?|[?|Hm]]; try done. by destruct (HO m).
Qed.

Lemma waiters_viewed st st' : waiters (todos st) (view st) -> viewed st st' -> waiters (todos st') (view st').
Proof.
  intros H [-> ->|s v Hp -> Hv ->|Ht -> ->|t Ht _ _ -> ->|c Hs Ht Ha -> ->|a rest td' Hs Ht Ha ->].
  - done.
  - eapply waiters_value; [exact H|]. by intros m ->.
  - by apply waiters_fork.
  - by apply waiters_gone.
  - eapply waiters_todo; [done|exact Ht| |];
      (intros n Hn; unfold awaits, owes in Hn; destruct c as [[]|[]| | | | |]; set_solver).
  - by eapply waiters_acted.
Qed.

Lemma initial_waiters st : initial st -> nextSem st = 0%nat -> waiters (todos st) (view st).
Proof.
  intros (_ & _ & _ & Ht & _ & _ & _ & Hc & _) Hn.
  assert (forall t td, todos st !! t = Some td -> td = []) as Hnil.
  { intros t td. unfold todos. rewrite Ht, lookup_fmap_Some. intros (th & <- & Hth).
    by apply lookup_singleton_Some in Hth as [_ <-]. }
  constructor; cbn [view sh_vals sh_conds sh_next]; rewrite ?Hn; try lia.
  - intros c q Hq. rewrite (Hc c q Hq). constructor.
  - intros c c' q q' s Hq. rewrite (Hc c q Hq). intros _ Hs. by apply not_elem_of_nil in Hs.
  - intros c q s Hq. rewrite (Hc c q Hq). intros Hs. by apply not_elem_of_nil in Hs.
  - intros t td n H%Hnil. subst. intros Hs. by apply not_elem_of_nil in Hs.
  - intros t t' td td' n H%Hnil. subst. intros _ Hs. by apply not_elem_of_nil in Hs.
  - intros t td n H%Hnil. subst. intros Hs. by apply not_elem_of_nil in Hs.
  - intros t t' td td' n H%Hnil. subst. intros _ Hs. by apply not_elem_of_nil in Hs.
Qed.

End Waiters.
