(* ===== verification/SynchList.v ===== *)
(** * Synchronised lists

    threads/synchlist.cc: a list whose operations any thread may call.  Each
    operation is a program over the locks and conditions of Threads.v: its
    calls of [Acquire], [Signal], [Wait] and [Release] run there, with all their
    interleavings, and the code between two of them runs when the routine
    called last has returned.  Any number of synchronised lists exist; list [q]
    has the lock [q] and the condition [q] of its own, which nothing else
    uses.  The list inside is that of LinkedList.v, as a sequence. *)

From S2P Require Import Prelude Threads Synch Waiters.

Module SynchList.

Import Threads Synch Waiters.

(** Where a thread is in an operation of list [q]; [Idle] outside of them.  The
    first three lines are [Append], the next three [RemoveFront], the last
    [Apply]. *)
Inductive pc :=
| Idle
| AppendPut (q : nat) (item : Z)     (* lock->Acquire() called *)
| AppendSignal (q : nat)
| AppendRelease (q : nat)            (* listEmpty->Signal(lock) called *)
| AppendReturn (q : nat)             (* lock->Release() called *)
| RemoveTest (q : nat)               (* lock->Acquire() or listEmpty->Wait(lock) called *)
| RemoveTake (q : nat)
| RemoveRelease (q : nat) (item : Z)
| RemoveReturn (q : nat) (item : Z)  (* lock->Release() called *)
| ApplyRun (q : nat)                 (* lock->Acquire() called *)
| ApplyRelease (q : nat)
| ApplyReturn (q : nat).             (* lock->Release() called *)

#[global] Instance pc_eq_dec : EqDecision pc.
Proof. solve_decision. Defined.

Record sstate := mkS {
  base : Threads.state;
  lists : gmap nat (list Z);
  pcs : gmap tid pc
}.

Definition pc_of (s : sstate) (t : tid) : pc := default Idle (pcs s !! t).

(** What is observed: an item is put into a list or taken out, or [Apply] calls
    its function on the items. *)
Inductive event :=
| Put (q : nat) (item : Z)
| Took (q : nat) (item : Z)
| Applied (q : nat) (items : list Z).

(** The current thread goes to [p], and calls [c] if there is a call. *)
Definition goto (p : pc) (c : option call) (s : sstate) : res sstate :=
  let st := base s in
  let* th := deref (threads st !! currentThread st) in
  let st' := match c with
             | Some c => set_threads (<[currentThread st := mkThread (status th) (code c)]> (threads st)) st
             | None => st
             end in
  Ok (mkS st' (lists s) (<[currentThread st := p]> (pcs s))).

Definition set_list (q : nat) (l : list Z) (s : sstate) : sstate := mkS (base s) (<[q := l]> (lists s)) (pcs s).

(** The code of the operations between two calls. *)
Definition client (s : sstate) : res (option event * sstate) :=
  match pc_of s (currentThread (base s)) with
  | Idle => Ok (None, s)
  | AppendPut q item =>
      let* l := deref (lists s !! q) in
      let* s' := goto (AppendSignal q) None (set_list q (l ++ [item]) s) in
      Ok (Some (Put q item), s')
  | AppendSignal q => let* s' := goto (AppendRelease q) (Some (CallSignal q q)) s in Ok (None, s')
  | AppendRelease q => let* s' := goto (AppendReturn q) (Some (CallRelease q)) s in Ok (None, s')
  | AppendReturn q => let* s' := goto Idle None s in Ok (None, s')
  | RemoveTest q =>
      let* l := deref (lists s !! q) in
      let* s' := match l with
                 | [] => goto (RemoveTest q) (Some (CallWait q q)) s
                 | _ => goto (RemoveTake q) None s
                 end in
      Ok (None, s')
  | RemoveTake q =>
      let* l := deref (lists s !! q) in
      match l with
      | [] => Err AssertFailure                (* ASSERT(!IsEmpty()) of List::RemoveFront *)
      | item :: l' =>
          let* s' := goto (RemoveRelease q item) None (set_list q l' s) in
          Ok (Some (Took q item), s')
      end
  | RemoveRelease q item => let* s' := goto (RemoveReturn q item) (Some (CallRelease q)) s in Ok (None, s')
  | RemoveReturn q item => let* s' := goto Idle None s in Ok (None, s')
  | ApplyRun q =>
      let* l := deref (lists s !! q) in
      let* s' := goto (ApplyRelease q) None s in
      Ok (Some (Applied q l), s')
  | ApplyRelease q => let* s' := goto (ApplyReturn q) (Some (CallRelease q)) s in Ok (None, s')
  | ApplyReturn q => let* s' := goto Idle None s in Ok (None, s')
  end.

(** The beginnings of [Append], [RemoveFront] and [Apply]. *)
Definition Append (q : nat) (item : Z) (s : sstate) : res sstate := goto (AppendPut q item) (Some (CallAcquire q)) s.
Definition RemoveFront (q : nat) (s : sstate) : res sstate := goto (RemoveTest q) (Some (CallAcquire q)) s.
Definition Apply (q : nat) (s : sstate) : res sstate := goto (ApplyRun q) (Some (CallAcquire q)) s.

(** The locks and conditions of the synchronised lists are private. *)
Definition foreign (ls : gmap nat (list Z)) (c : call) : Prop :=
  match c with
  | CallP _ | CallV _ => True
  | CallAcquire l | CallRelease l => ls !! l = None
  | CallWait c l | CallSignal c l | CallBroadcast c l => ls !! c = None /\ ls !! l = None
  end.

(** ** Steps *)

Definition with_base (b : Threads.state) (s : sstate) : sstate := mkS b (lists s) (pcs s).

(** The current thread runs, between two routines of the thread system. *)
Definition at_rest (s : sstate) : Prop :=
  sleeping (base s) = None /\ todo <$> threads (base s) !! currentThread (base s) = Some [].

Inductive sstep (s : sstate) : option event -> sstate -> Prop :=
| s_append q item s' :
    at_rest s -> pc_of s (currentThread (base s)) = Idle -> is_Some (lists s !! q) ->
    Append q item s = Ok s' -> sstep s None s'
| s_remove q s' :
    at_rest s -> pc_of s (currentThread (base s)) = Idle -> is_Some (lists s !! q) ->
    RemoveFront q s = Ok s' -> sstep s None s'
| s_apply q s' :
    at_rest s -> pc_of s (currentThread (base s)) = Idle -> is_Some (lists s !! q) ->
    Apply q s = Ok s' -> sstep s None s'
| s_client e s' :
    at_rest s -> client s = Ok (e, s') -> sstep s e s'
| s_exec th a rest b' :
    sleeping (base s) = None -> threads (base s) !! currentThread (base s) = Some th -> todo th = a :: rest ->
    exec a rest (base s) = Ok b' -> sstep s None (with_base b' s)
| s_other c :
    at_rest s -> pc_of s (currentThread (base s)) = Idle -> allowed c -> foreign (lists s) c ->
    forall s', goto Idle (Some c) s = Ok s' -> sstep s None s'
| s_yield b' :
    sleeping (base s) = None -> Yield (base s) = Ok b' -> sstep s None (with_base b' s)
| s_fork b' :
    sleeping (base s) = None -> Fork (base s) = Ok b' -> sstep s None (with_base b' s)
| s_finish b' :
    at_rest s -> pc_of s (currentThread (base s)) = Idle -> Finish (base s) = Ok b' -> sstep s None (with_base b' s)
| s_dispatch finishing next st1 b' :
    sleeping (base s) = Some finishing -> FindNextToRun (base s) = (Some next, st1) ->
    Run next finishing st1 = Ok b' -> sstep s None (with_base b' s)
| s_interrupt n b' :
    (sleeping (base s) = None \/ readyList (base s) = []) -> public n -> V n (base s) = Ok b' ->
    sstep s None (with_base b' s).

(** Runs, with what is observed on the way. *)
Inductive sruns : sstate -> list event -> sstate -> Prop :=
| sr_refl s : sruns s [] s
| sr_step s s1 e tr s2 : sruns s tr s1 -> sstep s1 e s2 -> sruns s (tr ++ option_list e) s2.

(** At the beginning: the lists, empty, with their locks and conditions. *)
Definition sinitial (s : sstate) : Prop :=
  initial (base s) /\ nextSem (base s) = 0%nat /\ pcs s = ∅ /\
  forall q l, lists s !! q = Some l -> l = [] /\ is_Some (locks (base s) !! q) /\ is_Some (conds (base s) !! q).

Definition sreachable (tr : list event) (s : sstate) : Prop := exists s0, sinitial s0 /\ sruns s0 tr s.

(** ** Steps of the synchronised lists are steps of the thread system *)

Lemma goto_spec p c s : at_rest s -> (forall c', c = Some c' -> allowed c') ->
  exists s', goto p c s = Ok s' /\ rtc step (base s) (base s') /\ lists s' = lists s /\
    pcs s' = <[currentThread (base s) := p]> (pcs s) /\ view (base s') = view (base s) /\
    currentThread (base s') = currentThread (base s) /\ sleeping (base s') = None /\
    todos (base s') = <[currentThread (base s) := match c with Some c => code c | None => [] end]> (todos (base s)).
Proof.
  intros [Hs Ht] Hc. unfold goto. destruct (threads (base s) !! currentThread (base s)) as [th|] eqn:E; [|done].
  cbn [deref rbind]. injection Ht as Ht. eexists. split; [reflexivity|]. destruct c as [c|]; cbn [base lists pcs].
  - split_and!; try done.
    + apply rtc_once. by apply step_call; [..|apply Hc].
    + unfold todos. fields. by rewrite fmap_insert.
  - split_and!; try done.
    rewrite insert_id; [done|]. unfold todos. rewrite lookup_fmap, E. cbn. by rewrite Ht.
Qed.

(** ** The invariant *)

(** The list whose operation the thread is in. *)
Definition list_at (p : pc) : option nat :=
  match p with
  | Idle => None
  | AppendPut q _ | AppendSignal q | AppendRelease q | AppendReturn q | RemoveTest q | RemoveTake q
  | RemoveRelease q _ | RemoveReturn q _ | ApplyRun q | ApplyRelease q | ApplyReturn q => Some q
  end.

(** What is left of the calls, and whether the thread then holds the lock. *)
Inductive acquiring (q : nat) : list act -> bool -> Prop :=
| acq_P : acquiring q [AP (OfLock q); ASetHolder q] false
| acq_set : acquiring q [ASetHolder q] false
| acq_done : acquiring q [] true.

Inductive releasing (q : nat) : list act -> bool -> Prop :=
| rel_clear : releasing q [AClearHolder q; AV (OfLock q)] true
| rel_V : releasing q [AV (OfLock q)] false
| rel_done : releasing q [] false.

Inductive signalling (q : nat) : list act -> bool -> Prop :=
| sig_test : signalling q [ASignal q q] true
| sig_V n : signalling q [AV (Waiter n)] true
| sig_done : signalling q [] true.

Inductive waiting (q : nat) : list act -> bool -> Prop :=
| wait_begin : waiting q [AWait q q] true
| wait_clear n : waiting q [AClearHolder q; AV (OfLock q); AP (Waiter n); AP (OfLock q); ASetHolder q] true
| wait_V n : waiting q [AV (OfLock q); AP (Waiter n); AP (OfLock q); ASetHolder q] false
| wait_P n : waiting q [AP (Waiter n); AP (OfLock q); ASetHolder q] false
| wait_acquire td h : acquiring q td h -> waiting q td h.

#[local] Hint Constructors acquiring releasing signalling waiting : core.

Definition foreign_act (ls : gmap nat (list Z)) (a : act) : Prop :=
  match a with
  | AP (OfLock l) | AV (OfLock l) | ASetHolder l | AClearHolder l => ls !! l = None
  | AWait c l | ASignal c l | ABroadcast c l => ls !! c = None /\ ls !! l = None
  | _ => True
  end.

Definition located (ls : gmap nat (list Z)) (p : pc) (td : list act) (h : bool) : Prop :=
  match p with
  | Idle => Forall (foreign_act ls) td /\ h = false
  | AppendPut q _ | ApplyRun q => acquiring q td h
  | AppendSignal q | RemoveTake q | RemoveRelease q _ | ApplyRelease q => td = [] /\ h = true
  | AppendRelease q => signalling q td h
  | AppendReturn q | RemoveReturn q _ | ApplyReturn q => releasing q td h
  | RemoveTest q => waiting q td h
  end.

Definition holder (L : gmap lid Lock) (q : lid) : option (option tid) := lockHolder <$> L !! q.

(** A thread in an operation is where its routine is, and holds the lock when it
    should. *)
Definition placed_at (ls : gmap nat (list Z)) (L : gmap lid Lock) (t : tid) (p : pc) (td : list act) : Prop :=
  exists h, located ls p td h /\
    forall q, list_at p = Some q -> is_Some (ls !! q) /\ (h = true -> holder L q = Some (Some t)) /\
      (p = RemoveTake q -> ls !! q <> Some []).

(** The thread system is in order. *)
Definition sound (b : Threads.state) : Prop := placed b /\ excl b /\ waiters (todos b) (view b).

Record sinv (s : sstate) : Prop := {
  i_sound : sound (base s);
  i_threads : forall t td, todos (base s) !! t = Some td -> placed_at (lists s) (locks (base s)) t (pc_of s t) td;
  i_fresh : forall t, (nextThread (base s) <= t)%nat -> pc_of s t = Idle;
  i_lists : forall q, is_Some (lists s !! q) -> is_Some (locks (base s) !! q) /\ is_Some (conds (base s) !! q)
}.

Lemma sound_step b b' : sound b -> step b b' -> sound b'.
Proof.
  intros (HP & HE & HW) Hs. apply step_estep in Hs; [|done]. split_and!.
  - by eapply placed_estep.
  - by eapply excl_estep.
  - eapply waiters_viewed; [done|]. by apply estep_viewed.
Qed.

Lemma sound_rtc b b' : sound b -> rtc step b b' -> sound b'.
Proof. intros H Hr. eapply rtc_preserve; [|exact H|exact Hr]. intros x y Hxy Hx. by eapply sound_step. Qed.

(** The lock of a thread is not taken away by what others execute. *)
Lemma acted_holder T sh t t' a rest td' sh' q :
  locks_ok T (sh_vals sh) (sh_locks sh) (sh_conds sh) -> T !! t = Some (a :: rest) ->
  acted t rest a sh td' sh' -> t' <> t ->
  holder (sh_locks sh) q = Some (Some t') -> holder (sh_locks sh') q = Some (Some t').
Proof.
  intros (_ & _ & HL) Ht Ha Hne Hh. unfold holder in *.
  destruct Ha as [| |l lk VS L C n Hl|l lk VS L C n Hl Hlk| | | | |]; cbn [sh_locks sh_vals sh_conds] in *; try done.
  - destruct (decide (l = q)) as [->|Hlq]; [|by rewrite lookup_insert_ne].
    destruct (inside_owner T VS q lk t) as (_ & Hnone & _); [by apply HL|by exists (ASetHolder q :: rest)|].
    rewrite Hl in Hh. cbn in Hh. congruence.
  - destruct (decide (l = q)) as [->|Hlq]; [|by rewrite lookup_insert_ne].
    rewrite Hl in Hh. cbn in Hh. congruence.
Qed.

(** A thread executes the next step of its routine. *)
Definition holds_if (h : bool) (sh : shared) (q : nat) (t : tid) : Prop :=
  h = true -> holder (sh_locks sh) q = Some (Some t).

Lemma acted_acquiring q sh t a rest td' sh' h :
  acquiring q (a :: rest) h -> acted t rest a sh td' sh' -> exists h', acquiring q td' h' /\ holds_if h' sh' q t.
Proof.
  intros H Ha. inversion H; subst; inversion Ha; subst.
  - by exists false.
  - exists true. split; [done|]. intros _. unfold holder. cbn [sh_locks]. by rewrite lookup_insert_eq.
Qed.

Lemma acted_releasing q sh t a rest td' sh' h :
  releasing q (a :: rest) h -> acted t rest a sh td' sh' -> exists h', releasing q td' h' /\ holds_if h' sh' q t.
Proof.
  intros H Ha. inversion H; subst; inversion Ha; subst; by exists false.
Qed.

Lemma acted_signalling q sh t a rest td' sh' h :
  (forall c q s, sh_conds sh !! c = Some q -> s ∈ q -> exists n, s = Waiter n) ->
  signalling q (a :: rest) h -> acted t rest a sh td' sh' -> holds_if h sh q t ->
  exists h', signalling q td' h' /\ holds_if h' sh' q t.
Proof.
  intros Hw H Ha Hh. inversion H; subst; inversion Ha as [| | | | |c l w qs VS L C k0 Hq| | |]; subst;
    try (by exists true).
  destruct (Hw q (w :: qs) w Hq) as [k ->]; [set_solver|]. exists true. auto.
Qed.

Lemma acted_waiting q sh t a rest td' sh' h :
  waiting q (a :: rest) h -> acted t rest a sh td' sh' -> holds_if h sh q t ->
  exists h', waiting q td' h' /\ holds_if h' sh' q t.
Proof.
  intros H Ha Hh. inversion H as [| | | |td ? Hacq]; subst.
  5: { destruct (acted_acquiring _ _ _ _ _ _ _ _ Hacq Ha) as (h' & H1 & H2). eauto. }
  all: inversion Ha; subst; (by exists true; auto) || (by exists false; auto).
Qed.

Lemma acted_foreign ls sh t a rest td' sh' :
  (forall c q s, sh_conds sh !! c = Some q -> s ∈ q -> exists n, s = Waiter n) ->
  Forall (foreign_act ls) (a :: rest) -> acted t rest a sh td' sh' -> Forall (foreign_act ls) td'.
Proof.
  intros Hw [Ha Hr]%Forall_cons Hact.
  destruct Hact as [| | | | |c l w qs VS L C n Hq| | |]; try done.
  - destruct Ha as [Hc Hl]. by do 5 (constructor; [done|]).
  - destruct (Hw c (w :: qs) w Hq) as [k ->]; [set_solver|]. by constructor.
  - by do 2 (constructor; [done|]).
Qed.

Lemma acted_located ls sh t p a rest td' sh' h :
  (forall c q s, sh_conds sh !! c = Some q -> s ∈ q -> exists n, s = Waiter n) ->
  located ls p (a :: rest) h -> acted t rest a sh td' sh' ->
  (forall q, list_at p = Some q -> holds_if h sh q t) ->
  exists h', located ls p td' h' /\ forall q, list_at p = Some q -> holds_if h' sh' q t.
Proof.
  intros Hw Hloc Ha Hh.
  assert (forall q (P : list act -> bool -> Prop), list_at p = Some q ->
    (exists h', P td' h' /\ holds_if h' sh' q t) ->
    exists h', P td' h' /\ forall q', list_at p = Some q' -> holds_if h' sh' q' t) as Hone.
  { intros q P Hq (h' & H1 & H2). exists h'. split; [done|]. intros q' Hq'. by assert (q' = q) as -> by congruence. }
  destruct p as [|q x|q|q|q|q|q|q x|q x|q|q|q]; cbn [located] in *; try (by destruct Hloc as [? _]);
    try (apply (Hone q _ eq_refl); by eapply acted_acquiring);
    try (apply (Hone q _ eq_refl); by eapply acted_releasing).
  - exists false. split; [|done]. split; [|done]. destruct Hloc as [Hf _]. by eapply acted_foreign.
  - apply (Hone q _ eq_refl). eapply acted_signalling; eauto.
  - apply (Hone q _ eq_refl). eapply acted_waiting; eauto.
Qed.

Lemma placed_at_mono ls L L' t p td :
  placed_at ls L t p td -> (forall q, holder L q = Some (Some t) -> holder L' q = Some (Some t)) ->
  placed_at ls L' t p td.
Proof.
  intros (h & Hloc & Hq) Hmono. exists h. split; [done|]. intros q Hp.
  destruct (Hq q Hp) as (H1 & H2 & H3). split; [done|]. split; [|done]. intros Hh. auto.
Qed.

Lemma waiters_only b c q s : sound b -> conds b !! c = Some q -> s ∈ q -> exists n, s = Waiter n.
Proof. intros (_ & _ & HW) Hq Hs. destruct (w_queue _ _ HW c q s Hq Hs) as (n & -> & _). by exists n. Qed.

(** Locks and conditions do not disappear. *)
Lemma acted_kept t rest a sh td' sh' : acted t rest a sh td' sh' ->
  (forall l, is_Some (sh_locks sh !! l) -> is_Some (sh_locks sh' !! l)) /\
  (forall c, is_Some (sh_conds sh !! c) -> is_Some (sh_conds sh' !! c)).
Proof.
  intros []; cbn [sh_locks sh_conds]; split; intros x Hx; try done; apply lookup_insert_is_Some;
    match goal with |- ?k = _ \/ _ => destruct (decide (k = x)); [by left|by right] end.
Qed.

Lemma viewed_kept b b' : viewed b b' ->
  (forall l, is_Some (locks b !! l) -> is_Some (locks b' !! l)) /\
  (forall c, is_Some (conds b !! c) -> is_Some (conds b' !! c)).
Proof.
  assert (view b' = view b -> locks b' = locks b /\ conds b' = conds b) as Hsame by (unfold view; by intros [=]).
  intros [_ E|s v _ _ _ E|_ _ E|t _ _ _ _ E|c _ _ _ _ E|a rest td' _ _ Ha _].
  all: try (destruct (Hsame E) as [-> ->]; done).
  - unfold view in E. injection E as _ -> -> _. done.
  - apply (acted_kept _ _ _ _ _ _ Ha).
Qed.

(** A step of the thread system that calls nothing. *)
Lemma sys_inv s b' :
  sinv s -> step (base s) b' ->
  (sleeping (base s) = None -> todos (base s) !! currentThread (base s) = Some [] ->
     todos b' !! currentThread (base s) = Some []) ->
  sinv (with_base b' s).
Proof.
  intros H Hstep Hnocall. pose proof (i_sound s H) as Hsound. pose proof Hsound as (HP & HE & HW).
  pose proof (step_estep _ _ HP Hstep) as He. pose proof (estep_viewed _ _ HP He) as Hv.
  destruct (viewed_kept _ _ Hv) as [Hkl Hkc].
  constructor; cbn [with_base base lists pcs].
  - by eapply sound_step.
  - change (pc_of (with_base b' s)) with (pc_of s).
    assert (forall t td, todos (base s) !! t = Some td -> view b' = view (base s) ->
      placed_at (lists s) (locks b') t (pc_of s t) td) as Hsame.
    { intros t td Ht [= _ -> _ _]. by apply (i_threads s H). }
    destruct Hv as [ET EV|n v Hp ET HV EV|Hn ET EV|t Ht _ _ ET EV|c Hs Ht Ha ET EV|a rest td' Hs Ht Ha ET]; rewrite ET.
    + auto.
    + unfold view in EV. injection EV as _ -> _ _. apply (i_threads s H).
    + intros t td. rewrite lookup_insert_Some. intros [[<- <-]|[_ Ht]]; [|by auto].
      rewrite (i_fresh s H) by lia. by exists false.
    + intros t' td [_ Ht']%lookup_delete_Some. auto.
    + rewrite ET, lookup_insert_eq in Hnocall. specialize (Hnocall Hs Ht). injection Hnocall. by destruct c.
    + intros t td. rewrite lookup_insert_Some. intros [[<- <-]|[Hne Ht']].
      * destruct (i_threads s H _ _ Ht) as (h & Hloc & Hq).
        destruct (acted_located (lists s) (view (base s)) _ _ _ _ _ _ _ (fun c q x => waiters_only _ c q x Hsound) Hloc Ha)
          as (h' & Hloc' & Hh').
        { intros q Hp. by destruct (Hq q Hp) as (_ & Hh & _). }
        exists h'. split; [done|]. intros q Hp. destruct (Hq q Hp) as (H1 & _ & H3). split; [done|]. split; [by apply Hh'|done].
      * eapply placed_at_mono; [by apply (i_threads s H)|]. intros q.
        by eapply (acted_holder (todos (base s)) (view (base s)) _ t a rest td' (view b') q HE Ht Ha).
  - intros t Ht. apply (i_fresh s H). apply estep_next in He. lia.
  - intros q Hq. destruct (i_lists s H q Hq). auto.
Qed.

Lemma foreign_dom ls ls' td : (forall q, is_Some (ls' !! q) <-> is_Some (ls !! q)) ->
  Forall (foreign_act ls) td -> Forall (foreign_act ls') td.
Proof.
  intros Hd. assert (forall q, ls !! q = None -> ls' !! q = None) as Hn.
  { intros q Hq. apply eq_None_not_Some. rewrite Hd, Hq. by intros [? ?]. }
  intros Hf. eapply Forall_impl; [exact Hf|]. intros [[]|[]| | | | |]; cbn; naive_solver.
Qed.

(** What a thread between two routines does to the lists while it holds their
    locks leaves the other threads where they are. *)
Lemma placed_at_lists ls ls' L t t' p td :
  (forall q, is_Some (ls' !! q) <-> is_Some (ls !! q)) ->
  (forall q, ls' !! q <> ls !! q -> holder L q = Some (Some t)) -> t' <> t ->
  placed_at ls L t' p td -> placed_at ls' L t' p td.
Proof.
  intros Hd Hh Hne (h & Hloc & Hq). exists h. split.
  - destruct p; try done. destruct Hloc as [Hf ->]. split; [by eapply foreign_dom|done].
  - intros q Hp. destruct (Hq q Hp) as (H1 & H2 & H3). split; [by apply Hd|]. split; [done|].
    intros ->. destruct Hloc as [_ ->]. specialize (H2 eq_refl). specialize (H3 eq_refl).
    destruct (decide (ls' !! q = ls !! q)) as [->|Hx]; [done|]. specialize (Hh q Hx). congruence.
Qed.

Lemma goto_inv s ls' p c :
  sinv s -> at_rest s -> (forall c', c = Some c' -> allowed c') ->
  (forall q, is_Some (ls' !! q) <-> is_Some (lists s !! q)) ->
  (forall q, ls' !! q <> lists s !! q -> holder (locks (base s)) q = Some (Some (currentThread (base s)))) ->
  placed_at ls' (locks (base s)) (currentThread (base s)) p (match c with Some c => code c | None => [] end) ->
  exists s', goto p c (mkS (base s) ls' (pcs s)) = Ok s' /\ lists s' = ls' /\ sinv s'.
Proof.
  intros H Hr Hc Hd Hh Hp.
  destruct (goto_spec p c (mkS (base s) ls' (pcs s)) Hr Hc) as (s' & E & Hrtc & EL & EP & EV & EC & _ & ET).
  cbn [base lists pcs] in *. exists s'. split; [done|]. split; [done|].
  pose proof (i_sound s H) as Hsound. pose proof Hsound as (HP & _ & _).
  assert (locks (base s') = locks (base s) /\ conds (base s') = conds (base s)) as [HL HC] by (by injection EV).
  assert (forall t, t <> currentThread (base s) -> pc_of s' t = pc_of s t) as Hpc.
  { intros t Ht. unfold pc_of. by rewrite EP, lookup_insert_ne. }
  assert (currentThread (base s) < nextThread (base s))%nat as Hcur.
  { destruct (p_current _ HP) as [th Hth]. by eapply (p_next _ HP). }
  constructor.
  - by eapply sound_rtc.
  - intros t td. rewrite ET, HL, EL, lookup_insert_Some. intros [[<- <-]|[Hne Ht]].
    + unfold pc_of. by rewrite EP, lookup_insert_eq.
    + rewrite Hpc by done. eapply placed_at_lists; [exact Hd|exact Hh|done|]. by apply (i_threads s H).
  - intros t Ht. assert (nextThread (base s) <= nextThread (base s'))%nat as Hn.
    { eapply (rtc_preserve (fun b => sound b /\ nextThread (base s) <= nextThread b)%nat); [|by split|exact Hrtc].
      intros x y Hxy [Hx Hle]. split; [by eapply sound_step|]. destruct Hx as [Hx _].
      apply step_estep in Hxy; [|done]. apply estep_next in Hxy. lia. }
    rewrite Hpc by lia. apply (i_fresh s H). lia.
  - intros q. rewrite EL, HL, HC, Hd. apply (i_lists s H).
Qed.

(** The change of the lists that an event stands for. *)
Definition effect (e : option event) (ls ls' : gmap nat (list Z)) : Prop :=
  match e with
  | None => ls' = ls
  | Some (Put q x) => exists l, ls !! q = Some l /\ ls' = <[q := l ++ [x]]> ls
  | Some (Took q x) => exists l, ls !! q = Some (x :: l) /\ ls' = <[q := l]> ls
  | Some (Applied q l) => ls !! q = Some l /\ ls' = ls
  end.

(** Where a thread between two routines is. *)
Lemma at_rest_placed s : sinv s -> at_rest s ->
  placed_at (lists s) (locks (base s)) (currentThread (base s)) (pc_of s (currentThread (base s))) [].
Proof.
  intros H [_ Hr]. apply (i_threads s H). unfold todos. rewrite lookup_fmap. done.
Qed.

Lemma waiting_nil q h : waiting q [] h -> h = true.
Proof. intros Hw. inversion Hw as [| | | |td h' Ha]. subst. by inversion Ha. Qed.

Lemma placed_at_intro ls L t p td q h :
  list_at p = Some q -> located ls p td h -> is_Some (ls !! q) -> (h = true -> holder L q = Some (Some t)) ->
  (p = RemoveTake q -> ls !! q <> Some []) -> placed_at ls L t p td.
Proof. intros Hp Hloc Hs Hh Hr. exists h. split; [done|]. intros q' Hp'. by assert (q' = q) as -> by congruence. Qed.

(** The thread calls the next routine, or returns. *)
Lemma client_call s p c e :
  sinv s -> at_rest s -> (forall c', c = Some c' -> allowed c') ->
  placed_at (lists s) (locks (base s)) (currentThread (base s)) p (match c with Some c => code c | None => [] end) ->
  effect e (lists s) (lists s) ->
  exists e' s', (let* s' := goto p c s in Ok (e, s')) = Ok (e', s') /\ sinv s' /\ effect e' (lists s) (lists s').
Proof.
  intros H Hr Hc Hp He. destruct (goto_inv s (lists s) p c H Hr Hc) as (s' & E & EL & Hs'); try done.
  exists e, s'. replace (mkS (base s) (lists s) (pcs s)) with s in E by (by destruct s). rewrite E. cbn [rbind].
  split; [done|]. split; [done|]. by rewrite EL.
Qed.

(** The thread changes the list whose lock it holds. *)
Lemma client_change s p q l e :
  sinv s -> at_rest s -> list_at p = Some q -> located (<[q := l]> (lists s)) p [] true -> p <> RemoveTake q ->
  is_Some (lists s !! q) -> holder (locks (base s)) q = Some (Some (currentThread (base s))) ->
  effect e (lists s) (<[q := l]> (lists s)) ->
  exists e' s', (let* s' := goto p None (set_list q l s) in Ok (e, s')) = Ok (e', s') /\ sinv s' /\
    effect e' (lists s) (lists s').
Proof.
  intros H Hr Hp Hloc Hne Hs Hh He.
  destruct (goto_inv s (<[q := l]> (lists s)) p None H Hr) as (s' & E & EL & Hs').
  - done.
  - intros q'. rewrite lookup_insert_is_Some. destruct (decide (q = q')) as [->|]; naive_solver.
  - intros q' Hx. destruct (decide (q = q')) as [->|Hq]; [done|]. by rewrite lookup_insert_ne in Hx.
  - apply (placed_at_intro _ _ _ _ _ q true); try done. by rewrite lookup_insert_eq.
  - unfold set_list. rewrite E. cbn [rbind]. exists e, s'. split; [done|]. split; [done|]. by rewrite EL.
Qed.

(** Calls [c], with the lock of [q] held if [h]. *)
#[local] Ltac call c q h :=
  apply (client_call _ _ (Some c)); [done|done|by intros ? [= <-]| |done];
  apply (placed_at_intro _ _ _ _ _ q h); [done|cbn; auto|by eexists|done|done].

(** No step of the operations fails. *)
Lemma client_inv s : sinv s -> at_rest s ->
  exists e s', client s = Ok (e, s') /\ sinv s' /\ effect e (lists s) (lists s').
Proof.
  intros H Hr. pose proof (at_rest_placed s H Hr) as (h & Hloc & Hq). unfold client.
  destruct (pc_of s (currentThread (base s))) as [|q x|q|q|q|q|q|q x|q x|q|q|q] eqn:Hpc; cbn [located list_at] in *;
    [by exists None, s|..]; destruct (Hq q eq_refl) as ([l Hl] & Hh & Htake);
    rewrite ?Hl; cbn [deref rbind];
    try (assert (h = true) as -> by (by inversion Hloc || (by destruct Hloc)); specialize (Hh eq_refl)).
  - apply client_change; try done. by exists l.
  - call (CallSignal q q) q true.
  - call (CallRelease q) q true.
  - apply client_call; try done. by exists false.
  - apply waiting_nil in Hloc as ->. specialize (Hh eq_refl). destruct l as [|x l]; [call (CallWait q q) q true|].
    apply client_call; try done. apply (placed_at_intro _ _ _ _ _ q true); try done. by rewrite Hl.
  - destruct l as [|x l]; [by destruct (Htake eq_refl)|]. apply client_change; try done. by exists l.
  - call (CallRelease q) q true.
  - apply client_call; try done. by exists false.
  - apply client_call; try done. by apply (placed_at_intro _ _ _ _ _ q true).
  - call (CallRelease q) q true.
  - apply client_call; try done. by exists false.
Qed.

(** The step relation keeps the invariant, and the lists change only as the
    events say. *)
Lemma call_inv s p c :
  sinv s -> at_rest s -> allowed c -> placed_at (lists s) (locks (base s)) (currentThread (base s)) p (code c) ->
  forall s', goto p (Some c) s = Ok s' -> sinv s' /\ effect None (lists s) (lists s').
Proof.
  intros H Hr Hc Hp s' E. destruct (client_call s p (Some c) None H Hr) as (e & s1 & E1 & H1 & H2); [by intros ? [= <-]|done|done|].
  rewrite E in E1. cbn [rbind] in E1. by injection E1 as <- <-.
Qed.

Lemma foreign_code ls c : allowed c -> foreign ls c -> Forall (foreign_act ls) (code c).
Proof.
  destruct c as [[]|[]| | | | |]; cbn [allowed public foreign code]; intros Ha Hf; try done; rewrite ?Forall_cons; cbn; naive_solver.
Qed.

Lemma sstep_inv s e s' : sinv s -> sstep s e s' -> sinv s' /\ effect e (lists s) (lists s').
Proof.
  intros H Hs. pose proof (i_sound s H) as (HP & _ & _).
  assert (forall b', step (base s) b' -> (todos b' !! currentThread (base s) = todos (base s) !! currentThread (base s)) ->
    sinv (with_base b' s) /\ effect None (lists s) (lists (with_base b' s))) as Hsys.
  { intros b' Hb ET. split; [|done]. apply sys_inv; [done|done|]. intros _ Ht. by rewrite ET. }
  destruct Hs as [q x s' Hr Hi Hq E|q s' Hr Hi Hq E|q s' Hr Hi Hq E|e s' Hr E|th a rest b' Hsl Hth Ht E
    |c Hr Hi Ha Hf s' E|b' Hsl E|b' Hsl E|b' [Hsl Hr] Hi E|f next st1 b' Hsl En E|n b' Hsl Hn E].
  - eapply (call_inv s (AppendPut q x) (CallAcquire q)); try done. by apply (placed_at_intro _ _ _ _ _ q false); cbn; auto.
  - eapply (call_inv s (RemoveTest q) (CallAcquire q)); try done. by apply (placed_at_intro _ _ _ _ _ q false); cbn; auto.
  - eapply (call_inv s (ApplyRun q) (CallAcquire q)); try done. by apply (placed_at_intro _ _ _ _ _ q false); cbn; auto.
  - destruct (client_inv s H Hr) as (e' & s1 & E1 & H1 & H2). rewrite E in E1. by injection E1 as <- <-.
  - split; [|done]. apply sys_inv; [done|by eapply step_exec|]. intros _ Hnil.
    rewrite (todos_lookup _ _ _ Hth), Ht in Hnil. done.
  - eapply (call_inv s Idle c); try done. exists false. split; [|done]. split; [by apply foreign_code|done].
  - apply Hsys; [by apply step_yield|]. by rewrite (Yield_todos _ _ (p_destroy _ HP) E).
  - apply Hsys; [by apply step_fork|]. rewrite (Fork_todos _ _ E), lookup_insert_ne; [done|].
    destruct (p_current _ HP) as [th Hth]. pose proof (p_next _ HP _ _ Hth). lia.
  - destruct (threads (base s) !! currentThread (base s)) as [th|] eqn:Hth; [|done]. injection Hr as Hr.
    apply Hsys; [by eapply step_finish|]. by rewrite (Sleep_todos _ _ _ E).
  - split; [|done]. apply sys_inv; [done|by eapply step_dispatch|]. congruence.
  - apply Hsys; [by eapply step_interrupt|]. by rewrite (V_todos _ _ _ E).
Qed.

Lemma sinitial_inv s : sinitial s -> sinv s.
Proof.
  intros (Hi & Hn & Hp & Hl). assert (forall t, pc_of s t = Idle) as Hidle by (intros t; unfold pc_of; by rewrite Hp).
  constructor.
  - split; [by apply initial_placed|]. split; [by apply initial_excl|by apply initial_waiters].
  - intros t td. rewrite Hidle. destruct Hi as (_ & _ & _ & Ht & _). unfold todos. rewrite Ht, lookup_fmap_Some.
    intros (th & <- & Hth). apply lookup_singleton_Some in Hth as [_ <-]. by exists false.
  - done.
  - intros q [l Hq]. by destruct (Hl q l Hq) as (_ & ? & ?).
Qed.

(** ** What was put into a list and taken out of it *)

Definition puts (q : nat) (tr : list event) : list Z :=
  omap (fun e => match e with Put q' x => if decide (q' = q) then Some x else None | _ => None end) tr.

Definition takes (q : nat) (tr : list event) : list Z :=
  omap (fun e => match e with Took q' x => if decide (q' = q) then Some x else None | _ => None end) tr.

Lemma effect_history e ls ls' q tr :
  effect e ls ls' -> (forall l, ls !! q = Some l -> puts q tr = takes q tr ++ l) ->
  forall l, ls' !! q = Some l -> puts q (tr ++ option_list e) = takes q (tr ++ option_list e) ++ l.
Proof.
  intros He Hold l Hl. unfold puts, takes in *. rewrite !omap_app.
  destruct e as [[q' x|q' x|q' l']|]; cbn in *.
  - destruct He as (l0 & Hl0 & ->). destruct (decide (q' = q)) as [->|Hne].
    + rewrite lookup_insert_eq in Hl. injection Hl as <-. rewrite (Hold l0 Hl0), app_nil_r. by rewrite app_assoc.
    + rewrite lookup_insert_ne in Hl by done. rewrite !app_nil_r. auto.
  - destruct He as (l0 & Hl0 & ->). destruct (decide (q' = q)) as [->|Hne].
    + rewrite lookup_insert_eq in Hl. injection Hl as <-. rewrite (Hold _ Hl0), app_nil_r. by rewrite <- app_assoc.
    + rewrite lookup_insert_ne in Hl by done. rewrite !app_nil_r. auto.
  - destruct He as [_ ->]. rewrite !app_nil_r. auto.
  - subst. rewrite !app_nil_r. auto.
Qed.

Lemma sreachable_inv tr s : sreachable tr s ->
  sinv s /\ forall q l, lists s !! q = Some l -> puts q tr = takes q tr ++ l.
Proof.
  intros (s0 & H0 & Hr). induction Hr as [s|s s1 e tr s2 Hr IH Hs].
  - split; [by apply sinitial_inv|]. intros q l Hq. destruct H0 as (_ & _ & _ & Hl). by destruct (Hl q l Hq) as [-> _].
  - destruct (IH H0) as [H1 Hh]. destruct (sstep_inv s1 e s2 H1 Hs) as [H2 He]. split; [done|].
    intros q. eapply effect_history; [exact He|apply Hh].
Qed.

(** ** No step fails *)

Section NoFailure.
Context (b : Threads.state) (HP : placed b) (th : Thread).
Hypothesis (Hth : threads b !! currentThread b = Some th).

Lemma advance_runs rest st : threads st = threads b -> currentThread st = currentThread b ->
  exists st', advance rest st = Ok st'.
Proof. intros ET EC. unfold advance. rewrite ET, EC, Hth. by eexists. Qed.

Lemma V_ok n : is_Some (sems b !! n) ->
  exists st', V n b = Ok st' /\ currentThread st' = currentThread b /\ is_Some (threads st' !! currentThread b).
Proof.
  intros [sem Hsem]. unfold V. rewrite Hsem. cbn [deref rbind]. destruct (p_queue _ HP n sem Hsem) as (_ & _ & Hq).
  destruct (queue sem) as [|t l]; [by eexists|]. destruct (Hq t) as [r Hr]; [set_solver|].
  unfold ReadyToRun, setStatus. rewrite Hr. cbn [deref rbind]. eexists. split; [done|]. split; [done|]. fields.
  apply lookup_insert_is_Some. destruct (decide (t = currentThread b)); [by left|right; by rewrite Hth].
Qed.

Lemma P_ok n rest : is_Some (sems b !! n) -> exists st', P n rest b = Ok st'.
Proof.
  intros [sem Hsem]. unfold P. rewrite Hsem. cbn [deref rbind]. destruct (_ =? _).
  - unfold Sleep, setStatus. fields. rewrite Hth. by eexists.
  - by apply advance_runs.
Qed.

Lemma held_ok l : holder (locks b) l = Some (Some (currentThread b)) -> exists lk, held l b = Ok lk.
Proof.
  unfold holder, held. destruct (locks b !! l) as [lk|]; [|done]. cbn. intros [= ->]. rewrite bool_decide_true by done.
  by eexists.
Qed.

End NoFailure.

Lemma lock_sem b l : excl b -> is_Some (locks b !! l) -> is_Some (sems b !! OfLock l).
Proof.
  intros (_ & _ & HL) [lk Hlk]. apply (fmap_is_Some value). rewrite <- lookup_fmap.
  by destruct (HL l lk Hlk) as [(-> & _)|(-> & _)].
Qed.

Lemma waiter_sem b t td n : sound b -> todos b !! t = Some td -> AP (Waiter n) ∈ td \/ AV (Waiter n) ∈ td ->
  is_Some (sems b !! Waiter n).
Proof.
  intros (_ & _ & HW) Ht Hn. apply (fmap_is_Some value). rewrite <- lookup_fmap. apply (w_sem _ _ HW n).
  destruct Hn as [Hn|Hn]; [by eapply (w_awaits _ _ HW)|by eapply (w_owes _ _ HW)].
Qed.

(** What a thread in an operation is about to execute. *)
Lemma located_act ls p a rest h q : located ls p (a :: rest) h -> list_at p = Some q ->
  exists n, (a = AP n \/ a = AV n \/ (a = ASetHolder q /\ n = OfLock q) \/
    (h = true /\ n = OfLock q /\ (a = AClearHolder q \/ a = AWait q q \/ a = ASignal q q))) /\
    (n = OfLock q \/ exists k, n = Waiter k).
Proof.
  intros Hloc Hq.
  destruct p as [|q' x|q'|q'|q'|q'|q'|q' x|q' x|q'|q'|q']; cbn [located list_at] in *; try done; injection Hq as ->;
    try (by destruct Hloc as [? _]); inversion Hloc; subst;
    try match goal with H : acquiring _ _ _ |- _ => inversion H; subst end;
    try (exists (OfLock q); split; [tauto|by left]);
    match goal with n : nat |- _ => exists (Waiter n); split; [tauto|by right; exists n] end.
Qed.

(** The routines that the operations call fail no assertion. *)
Lemma exec_succeeds s th a rest :
  sinv s -> sleeping (base s) = None -> threads (base s) !! currentThread (base s) = Some th -> todo th = a :: rest ->
  pc_of s (currentThread (base s)) <> Idle -> exists b', exec a rest (base s) = Ok b'.
Proof.
  intros H Hsl Hth Ht Hpc. pose proof (i_sound s H) as Hsound. pose proof Hsound as (HP & HE & _).
  pose proof (todos_lookup _ _ _ Hth) as HT. rewrite Ht in HT.
  destruct (i_threads s H _ _ HT) as (h & Hloc & Hq). set (t := currentThread (base s)) in *.
  assert (forall n, is_Some (sems (base s) !! n) -> exists b', exec (AV n) rest (base s) = Ok b') as HV.
  { intros n Hn. cbn [exec]. destruct (V_ok (base s) HP th Hth n Hn) as (st' & -> & EC & [th' Hth']). cbn [rbind].
    unfold advance. rewrite EC, Hth'. by eexists. }
  destruct (list_at (pc_of s t)) as [q|] eqn:Hq'; [|by destruct (pc_of s t)].
  destruct (Hq q eq_refl) as (Hs & Hh & _). destruct (i_lists s H q Hs) as [Hlk [cq Hcq]].
  destruct (located_act _ _ _ _ _ _ Hloc Hq') as (n & Ha & Hn).
  assert (a = AP n \/ a = AV n -> is_Some (sems (base s) !! n)) as Hsem.
  { intros Ha'. destruct Hn as [->|[k ->]]; [by apply lock_sem|]. eapply waiter_sem; [done|exact HT|].
    destruct Ha' as [->| ->]; [left|right]; apply elem_of_cons; by left. }
  destruct Ha as [->|[->|[[-> ->]|(-> & -> & Ha)]]].
  - eapply P_ok; [exact Hth|auto].
  - auto.
  - cbn [exec]. destruct Hlk as [lk ->]. cbn [deref rbind]. by eapply advance_runs.
  - specialize (Hh eq_refl). destruct (held_ok (base s) q Hh) as [lk0 Hheld]. destruct Ha as [->|[->| ->]]; cbn [exec].
    + unfold holder in Hh. destruct Hlk as [lk Hlk]. rewrite Hlk in *. cbn [deref rbind]. injection Hh as Hh.
      rewrite bool_decide_true by done. cbn [ASSERT rbind]. by eapply advance_runs.
    + rewrite Hheld. cbn [rbind]. rewrite Hcq. cbn [deref rbind]. by eapply advance_runs.
    + rewrite Hheld. cbn [rbind]. rewrite Hcq. cbn [deref rbind]. destruct cq; by eapply advance_runs.
Qed.

(** ** Schedules *)

Inductive sop := SAppend (q : nat) (x : Z) | SRemove (q : nat) | SApply (q : nat) | SClient | SBase (o : op).

Definition start (s : sstate) (q : nat) (r : res sstate) : option (option event * sstate) :=
  match sleeping (base s), todo <$> threads (base s) !! currentThread (base s), lists s !! q, r with
  | None, Some [], Some _, Ok s' =>
      if decide (pc_of s (currentThread (base s)) = Idle) then Some (None, s') else None
  | _, _, _, _ => None
  end.

(** An executable form of the steps. *)
Definition do_sop (o : sop) (s : sstate) : option (option event * sstate) :=
  match o with
  | SAppend q x => start s q (Append q x s)
  | SRemove q => start s q (RemoveFront q s)
  | SApply q => start s q (Apply q s)
  | SClient =>
      match sleeping (base s), todo <$> threads (base s) !! currentThread (base s), client s with
      | None, Some [], Ok r => Some r
      | _, _, _ => None
      end
  | SBase (OCall _) => None
  | SBase OFinish =>
      if decide (pc_of s (currentThread (base s)) = Idle) then b ← do_op OFinish (base s); Some (None, with_base b s)
      else None
  | SBase o => b ← do_op o (base s); Some (None, with_base b s)
  end.

Lemma start_rest s q r e s' : start s q r = Some (e, s') ->
  at_rest s /\ pc_of s (currentThread (base s)) = Idle /\ is_Some (lists s !! q) /\ r = Ok s' /\ e = None.
Proof.
  unfold start, at_rest. destruct (sleeping (base s)); [done|]. destruct (todo <$> _) as [[|]|]; [|done..].
  destruct (lists s !! q) eqn:Hq; [|done]. destruct r as [s1|]; [|done]. case_decide; [|done]. intros [= <- <-]. by split_and!.
Qed.

Lemma run_Some (r : res Threads.state) b : match r with Ok x => Some x | Err _ => None end = Some b -> r = Ok b.
Proof. destruct r; [by intros [= ->]|done]. Qed.

Lemma do_sop_step o s e s' : do_sop o s = Some (e, s') -> sstep s e s'.
Proof.
  destruct o as [q x|q|q| |o]; cbn [do_sop].
  - intros (Hr & Hi & Hq & E & ->)%start_rest. by eapply s_append.
  - intros (Hr & Hi & Hq & E & ->)%start_rest. by eapply s_remove.
  - intros (Hr & Hi & Hq & E & ->)%start_rest. by eapply s_apply.
  - destruct (sleeping (base s)) eqn:Hs; [done|]. destruct (todo <$> _) as [[|]|] eqn:Ht; [|done..].
    destruct (client s) as [r|] eqn:E; [|done]. intros [= ->]. by apply s_client.
  - intros Ho. assert (exists b, do_op o (base s) = Some b /\ e = None /\ s' = with_base b s /\
      (forall c, o <> OCall c) /\ (o = OFinish -> pc_of s (currentThread (base s)) = Idle)) as (b & E & -> & -> & Hc & Hf).
    { destruct o; try done; try case_decide; try done; apply bind_Some in Ho as (b & Hb & [= <- <-]); by exists b. }
    unfold do_op in E. destruct o as [c| | | | | |n]; [by destruct (Hc c)| | | | | |];
      destruct (sleeping (base s)) as [f|] eqn:Hs; try done;
      destruct (threads (base s) !! currentThread (base s)) as [th|] eqn:Hth; try done;
      try (by apply s_yield; [|apply run_Some]); try (by apply s_fork; [|apply run_Some]).
    + destruct (todo th) as [|a rest] eqn:Ht; [done|]. by eapply s_exec; [..|apply run_Some].
    + destruct (todo th) eqn:Ht; [|done]. apply s_finish; [|by apply Hf|by apply run_Some].
      split; [done|]. by rewrite Hth, <- Ht.
    + destruct (FindNextToRun (base s)) as [[next|] st1] eqn:En; [|done]. by eapply s_dispatch; [..|apply run_Some].
    + destruct (FindNextToRun (base s)) as [[next|] st1] eqn:En; [|done]. by eapply s_dispatch; [..|apply run_Some].
    + destruct (readyList (base s)) eqn:Er; [|done]. case_decide; [|done]. eapply s_interrupt; [by right|done|by apply run_Some].
    + destruct (readyList (base s)) eqn:Er; [|done]. case_decide; [|done]. eapply s_interrupt; [by right|done|by apply run_Some].
    + case_decide; [|done]. eapply s_interrupt; [by left|done|by apply run_Some].
    + case_decide; [|done]. eapply s_interrupt; [by left|done|by apply run_Some].
Qed.

Fixpoint do_sops (os : list sop) (tr : list event) (s : sstate) : option (list event * sstate) :=
  match os with
  | [] => Some (tr, s)
  | o :: os' => r ← do_sop o s; do_sops os' (tr ++ option_list r.1) r.2
  end.

Lemma do_sops_runs os : forall s0 tr s tr' s', sruns s0 tr s -> do_sops os tr s = Some (tr', s') -> sruns s0 tr' s'.
Proof.
  induction os as [|o os IH]; intros s0 tr s tr' s' Hr; cbn [do_sops]; [by intros [= <- <-]|].
  intros ([e s1] & E & E')%bind_Some. eapply IH; [|exact E']. eapply sr_step; [exact Hr|]. by apply do_sop_step in E.
Qed.

(** Two synchronised lists, and the main thread. *)
Definition sbooted : sstate :=
  {| base := {| currentThread := 0; sleeping := None; readyList := []; toBeDestroyed := None;
                threads := {[ 0%nat := mkThread RUNNING [] ]};
                sems := {[ OfLock 0 := mkSemaphore 1 []; OfLock 1 := mkSemaphore 1 [] ]};
                locks := {[ 0%nat := mkLock None; 1%nat := mkLock None ]}; conds := {[ 0%nat := []; 1%nat := [] ]};
                nextSem := 0; nextThread := 1 |};
     lists := {[ 0%nat := []; 1%nat := [] ]}; pcs := ∅ |}.

Lemma sbooted_initial : sinitial sbooted.
Proof.
  split; [|split; [done|split; [done|]]].
  - do 4 (split; [done|]). cbn [sbooted base currentThread nextThread sems locks conds].
    split; [lia|]. split; [|split; [|split]].
    + intros s sem H. apply lookup_insert_Some in H as [[_ <-]|[_ H]]; [done|].
      by apply lookup_singleton_Some in H as [_ <-].
    + intros l lk H. apply lookup_insert_Some in H as [[<- <-]|[_ H]]; [done|]. by apply lookup_singleton_Some in H as [<- <-].
    + intros c q H. apply lookup_insert_Some in H as [[_ <-]|[_ H]]; [done|]. by apply lookup_singleton_Some in H as [_ <-].
    + intros n. by rewrite lookup_insert_ne, lookup_singleton_ne.
  - intros q l H. unfold sbooted in H. cbn [lists] in H.
    apply lookup_insert_Some in H as [[<- <-]|[_ H]]; [by split_and!; eexists|].
    apply lookup_singleton_Some in H as [<- <-]. by split_and!; eexists.
Qed.

Lemma do_sops_reachable os tr s : do_sops os [] sbooted = Some (tr, s) -> sreachable tr s.
Proof. intros H. exists sbooted. split; [apply sbooted_initial|]. eapply do_sops_runs; [apply sr_refl|exact H]. Qed.

(** ** Theorems *)

(** The thread is in the part of an operation of list [q] in which it uses the
    list: between [Acquire] and [Release], in no routine. *)
Definition in_list (s : sstate) (q : nat) (t : tid) : Prop :=
  todos (base s) !! t = Some [] /\ list_at (pc_of s t) = Some q /\
  match pc_of s t with AppendReturn _ | RemoveReturn _ _ | ApplyReturn _ => False | _ => True end.

Lemma in_list_holds s q t : sinv s -> in_list s q t -> holder (locks (base s)) q = Some (Some t).
Proof.
  intros H (Ht & Hq & Hp). destruct (i_threads s H t [] Ht) as (h & Hloc & Hl). destruct (Hl q Hq) as (_ & Hh & _).
  apply Hh. destruct (pc_of s t); cbn [located] in Hloc; try done; try (by destruct Hloc as [_ ->]);
    try (by inversion Hloc). by apply waiting_nil in Hloc.
Qed.


(** The main thread removes from an empty list and sleeps; the other appends. *)
Definition handover : list sop :=
  [SBase OFork; SRemove 0; SBase OExec; SBase OExec; SClient; SBase OExec; SBase OExec; SBase OExec; SBase OExec;
   SBase ODispatch; SAppend 0 7; SBase OExec; SBase OExec; SClient; SClient; SBase OExec; SBase OExec; SClient;
   SBase OExec; SBase OExec; SClient; SBase OYield; SBase OExec; SBase OExec; SBase OExec; SClient; SClient].


(** ** The self test *)

(** What the threads of the self test do: [None] stands for the item removed
    last. *)
Inductive task := TAppend (q : nat) (x : option Z) | TRemove (q : nat) | TCheck (val : Z).

(** List 0 is [this], list 1 is [selfTestPing]. *)
Definition SelfTestHelper : list task := concat (replicate 10 [TRemove 1; TAppend 0 None]).

Definition SelfTest (val : Z) : list task := concat (replicate 10 [TAppend 1 (Some val); TRemove 0; TCheck val]).

Record testing := mkTesting {
  sys : sstate;
  tasks : gmap tid (list task);   (* what is left for each thread *)
  removed : gmap tid Z;           (* the item each has removed last *)
  trace : list event
}.

Definition of_option {A} (e : err) (o : option A) : res A := match o with Some a => Ok a | None => Err e end.

Definition do_test_op (o : sop) (c : testing) : res testing :=
  let* r := of_option AssertFailure (do_sop o (sys c)) in
  let t := currentThread (base (sys c)) in
  Ok (mkTesting r.2 (tasks c)
        (match r.1 with Some (Took _ x) => <[t := x]> (removed c) | _ => removed c end)
        (trace c ++ option_list r.1)).

(** The next step: the dispatcher, the routine or the operation under way, or
    the next task; [None] when the main thread is at its end. *)
Definition test_step (c : testing) : res (option testing) :=
  let s := sys c in
  let t := currentThread (base s) in
  let go (o : sop) (ts : gmap tid (list task)) :=
    let* c' := do_test_op o (mkTesting s ts (removed c) (trace c)) in Ok (Some c') in
  if sleeping (base s) then go (SBase ODispatch) (tasks c)
  else if decide (todo <$> threads (base s) !! t = Some []) then
    if decide (pc_of s t = Idle) then
      match tasks c !! t with
      | Some (TAppend q (Some x) :: l) => go (SAppend q x) (<[t := l]> (tasks c))
      | Some (TAppend q None :: l) =>
          let* x := of_option AssertFailure (removed c !! t) in go (SAppend q x) (<[t := l]> (tasks c))
      | Some (TRemove q :: l) => go (SRemove q) (<[t := l]> (tasks c))
      | Some (TCheck val :: l) =>
          ASSERT (bool_decide (removed c !! t = Some val)) ;;;
          Ok (Some (mkTesting s (<[t := l]> (tasks c)) (removed c) (trace c)))
      | _ => if decide (t = 0%nat) then Ok None else go (SBase OFinish) (tasks c)
      end
    else go SClient (tasks c)
  else go (SBase OExec) (tasks c).

(** The test, with the running thread preempted after every [slice] steps. *)
Fixpoint run_test (fuel slice left : nat) (c : testing) : res testing :=
  match fuel with
  | O => Err Diverges
  | S fuel' =>
      let* r := test_step c in
      match r with
      | None => Ok c
      | Some c' =>
          match left with
          | S left' => run_test fuel' slice left' c'
          | O => if sleeping (base (sys c')) then run_test fuel' slice slice c'
                 else let* c'' := do_test_op (SBase OYield) c' in run_test fuel' slice slice c''
          end
      end
  end.

Definition start_test (val : Z) : res testing :=
  do_test_op (SBase OFork) (mkTesting sbooted {[ 0%nat := SelfTest val; 1%nat := SelfTestHelper ]} ∅ []).

(** The self test of the kernel, [SelfTest(9)], passes under time slices of every
    length up to 40 steps, and sends the value to and fro ten times. *)
Lemma synchlist_selftest :
  Forall (fun slice =>
    exists c, (let* c := start_test 9 in run_test 2000 slice slice c) = Ok c /\
      puts 0 (trace c) = replicate 10 9 /\ takes 0 (trace c) = replicate 10 9 /\
      takes 1 (trace c) = replicate 10 9) (seq 0 41).
Proof.
  assert (forall slice, match (let* c := start_test 9 in run_test 2000 slice slice c) with
    | Ok c => bool_decide (puts 0 (trace c) = replicate 10 9) && bool_decide (takes 0 (trace c) = replicate 10 9) &&
              bool_decide (takes 1 (trace c) = replicate 10 9)
    | Err _ => false
    end = true -> exists c, (let* c := start_test 9 in run_test 2000 slice slice c) = Ok c /\
      puts 0 (trace c) = replicate 10 9 /\ takes 0 (trace c) = replicate 10 9 /\
      takes 1 (trace c) = replicate 10 9) as Hdec.
  { intros slice. destruct (let* c := _ in _) as [c|]; [|done]. rewrite !andb_true_iff, !bool_decide_eq_true.
    intros [[H1 H2] H3]. by exists c. }
  apply Forall_forall. intros slice Hs. apply Hdec. clear Hdec. revert slice Hs. apply Forall_forall.
  by apply (bool_decide_unpack _); vm_compute.
Qed.

End SynchList.
