(* ===== verification/SynchWake.v ===== *)
(** * Synchronised lists lose no wake-up

    Continues SynchList.v.  While threads wait for a list that is not empty,
    enough others are about to signal, to test the list or to take from it: one
    for every item at least. *)

From S2P Require Import Prelude Threads Synch Waiters SynchList.

Module SynchWake.

Import Threads Synch Waiters SynchList.

(** The thread waits for one of the waiters in the queue [Q]. *)
Definition queued (Q : list sid) (td : list act) : Prop :=
  Exists (fun a => match a with AP (Waiter n) => Waiter n ∈ Q | _ => False end) td.

#[local] Instance queued_dec Q td : Decision (queued Q td).
Proof. unfold queued. apply list.Exists_dec. intros [[]| | | | | |]; apply _. Defined.

(** The thread is about to signal, on its way to test the list, or about to
    take an item. *)
Definition moving (q : nat) (Q : list sid) (p : pc) (td : list act) : Prop :=
  match p with
  | AppendSignal q' | RemoveTake q' => q' = q
  | AppendRelease q' => q' = q /\ td = [ASignal q q]
  | RemoveTest q' => q' = q /\ ~ queued Q td
  | _ => False
  end.

#[local] Instance moving_dec q Q p td : Decision (moving q Q p td).
Proof. destruct p; cbn [moving]; apply _. Defined.

Definition movers (s : sstate) (q : nat) (Q : list sid) : gset tid :=
  dom (filter (fun x => moving q Q (pc_of s (fst x)) (snd x)) (todos (base s))).

Lemma elem_of_movers s q Q t :
  t ∈ movers s q Q <-> exists td, todos (base s) !! t = Some td /\ moving q Q (pc_of s t) td.
Proof.
  unfold movers. rewrite elem_of_dom. split.
  - intros [td [H1 H2]%map_lookup_filter_Some]. by exists td.
  - intros (td & H1 & H2). exists td. by apply map_lookup_filter_Some.
Qed.

(** A queued thread is in the list's [Wait], and a waiter in the queue has its
    thread. *)
Record winv (s : sstate) : Prop := {
  n_items : forall q l Q, lists s !! q = Some l -> conds (base s) !! q = Some Q -> Q <> [] ->
    (length l <= size (movers s q Q))%nat;
  n_thread : forall q Q n, is_Some (lists s !! q) -> conds (base s) !! q = Some Q -> Waiter n ∈ Q ->
    exists t td, todos (base s) !! t = Some td /\ pc_of s t = RemoveTest q /\ awaits n td;
  n_empty : forall t q, pc_of s t = RemoveTest q -> todos (base s) !! t = Some [AWait q q] -> lists s !! q = Some [];
  n_finishing : sleeping (base s) = Some true -> pc_of s (currentThread (base s)) = Idle
}.

Lemma queued_awaits Q td : queued Q td <-> exists n, awaits n td /\ Waiter n ∈ Q.
Proof.
  unfold queued. rewrite Exists_exists. split.
  - intros (a & Ha & Hq). destruct a as [[]| | | | | |]; try done. eauto.
  - intros (n & Ha & Hq). by exists (AP (Waiter n)).
Qed.

(** A thread in [RemoveTest] awaits one waiter at most. *)
Lemma waiting_one q td h n m : waiting q td h -> awaits n td -> awaits m td -> n = m.
Proof.
  unfold awaits. intros Hw. inversion Hw as [| | | |? ? Ha]; subst; try inversion Ha; subst; rewrite ?elem_of_cons, ?elem_of_nil;
    naive_solver.
Qed.

Lemma size_le (X Y : gset tid) : X ⊆ Y -> (size X <= size Y)%nat.
Proof. apply subseteq_size. Qed.

Lemma size_without (X : gset tid) t : (size X <= S (size (X ∖ {[t]})))%nat.
Proof.
  assert (X ⊆ {[t]} ∪ X ∖ {[t]}) as H.
  { intros x Hx. destruct (decide (x = t)); set_solver. }
  apply subseteq_size in H. rewrite size_union in H by set_solver. rewrite size_singleton in H. lia.
Qed.

Lemma size_with (X : gset tid) t : t ∉ X -> size ({[t]} ∪ X) = S (size X).
Proof. intros Ht. rewrite size_union by set_solver. by rewrite size_singleton. Qed.

Lemma moving_busy q Q p td : moving q Q p td -> p <> Idle.
Proof. by destruct p. Qed.

(** Steps that change only threads outside the operations. *)
Lemma winv_idle s b' :
  winv s -> conds b' = conds (base s) ->
  (forall t td, pc_of s t <> Idle -> todos b' !! t = Some td <-> todos (base s) !! t = Some td) ->
  (sleeping b' = Some true -> pc_of s (currentThread b') = Idle) -> winv (with_base b' s).
Proof.
  intros H EC ET Hfin. constructor; cbn [with_base base lists]; change (pc_of (with_base b' s)) with (pc_of s); rewrite ?EC.
  - intros q l Q Hl HQ Hne. etrans; [by eapply (n_items s H)|]. apply size_le. intros t.
    rewrite !elem_of_movers. intros (td & Ht & Hm). exists td. split; [|done].
    apply ET; [by eapply moving_busy|done].
  - intros q Q n Hl HQ Hn. destruct (n_thread s H q Q n Hl HQ Hn) as (t & td & Ht & Hp & Ha). exists t, td.
    split; [|done]. apply ET; [by rewrite Hp|done].
  - intros t q Hp Ht. apply (n_empty s H t); [done|]. apply ET; [by rewrite Hp|done].
  - done.
Qed.

(** The current thread executes a step of a routine and changes no condition. *)
Lemma acted_quiet s a rest td' sh' q Q :
  sinv s -> todos (base s) !! currentThread (base s) = Some (a :: rest) ->
  acted (currentThread (base s)) rest a (view (base s)) td' sh' -> sh_conds sh' !! q = Some Q -> Q <> [] ->
  conds (base s) !! q = Some Q -> is_Some (lists s !! q) ->
  moving q Q (pc_of s (currentThread (base s))) (a :: rest) -> moving q Q (pc_of s (currentThread (base s))) td'.
Proof.
  intros H Ht Ha HQ Hne Hold Hs Hm. destruct (i_threads s H _ _ Ht) as (h & Hloc & _).
  destruct (pc_of s (currentThread (base s))) as [|q' x|q'|q'|q'|q'|q'|q' x|q' x|q'|q'|q'] eqn:Hp;
    cbn [moving located] in *; try done.
  - destruct Hm as [-> [= -> ->]]. inversion Ha as [| | | | |c l w qs VS L C n Hc Ea Es Et|c l VS L C n Hc| |]; subst.
    + cbn [sh_conds] in HQ. rewrite lookup_insert_eq in HQ. injection HQ as ->. cbn in Hold. rewrite Hc in Hold.
      injection Hold as Hold. apply (f_equal length) in Hold. cbn in Hold. lia.
    + cbn in Hold. congruence.
  - destruct Hm as [-> Hm]. split; [done|]. rewrite queued_awaits in *. intros (n & Hn & HnQ). apply Hm. exists n. split; [|done].
    inversion Hloc as [| | | |td0 h0 Hacq]; subst; [|inversion Ha; subst; unfold awaits in *; set_solver..|].
    + exfalso. inversion Ha as [| | | |c l lk qs VS L C k Hl Hh Hc Ea Es Et| | | |]; subst. cbn [sh_conds] in HQ.
      rewrite lookup_insert_eq in HQ. injection HQ as <-. cbn in Hold. rewrite Hc in Hold. injection Hold as Hold.
      apply (f_equal length) in Hold. rewrite length_app in Hold. cbn in Hold. lia.
    + destruct (acted_acquiring _ _ _ _ _ _ _ _ Hacq Ha) as (h' & Hacq' & _). inversion Hacq'; subst; unfold awaits in Hn; set_solver.
Qed.

(** How a step changes the queue of a condition. *)
Lemma acted_conds t rest a sh td' sh' q Q' :
  acted t rest a sh td' sh' -> sh_conds sh' !! q = Some Q' ->
  sh_conds sh !! q = Some Q' \/
  (exists l n Q, a = AWait q l /\ sh_conds sh !! q = Some Q /\ Q' = Q ++ [Waiter n] /\ awaits n td') \/
  (exists l w, a = ASignal q l /\ sh_conds sh !! q = Some (w :: Q') /\ td' = AV w :: rest).
Proof.
  intros Ha HQ. destruct Ha as [| | | |c l lk Q VS L C n Hl Hh HC|c l w Q VS L C n HC| | |]; cbn [sh_conds] in *; try by left.
  - destruct (decide (c = q)) as [->|Hne]; [|left; by rewrite lookup_insert_ne in HQ].
    rewrite lookup_insert_eq in HQ. injection HQ as <-. right. left. exists l, n, Q. split_and!; try done.
    unfold awaits. set_solver.
  - destruct (decide (c = q)) as [->|Hne]; [|left; by rewrite lookup_insert_ne in HQ].
    rewrite lookup_insert_eq in HQ. injection HQ as <-. right. right. by exists l, w.
Qed.

(** What a thread still awaits after a step. *)
Lemma acted_awaits t rest a sh td' sh' n :
  acted t rest a sh td' sh' -> awaits n (a :: rest) -> awaits n td' \/ (a = AP (Waiter n) /\ sh_vals sh !! Waiter n <> Some 0).
Proof.
  unfold awaits. intros Ha Hn. apply elem_of_cons in Hn as [<-|Hn].
  - right. split; [done|]. inversion Ha; subst; try done. cbn. congruence.
  - left. destruct Ha; set_solver.
Qed.

(** Where the steps that use the condition of a list are. *)
Lemma located_wait ls p q l rest h : located ls p (AWait q l :: rest) h -> is_Some (ls !! q) ->
  p = RemoveTest q /\ rest = [] /\ l = q.
Proof.
  intros Hloc [x Hx]. destruct p; cbn [located] in *; try (by destruct Hloc as [? _]); try (by inversion Hloc).
  - destruct Hloc as [[[Hn _] _]%Forall_cons _]. congruence.
  - inversion Hloc as [| | | |? ? Ha]; subst; [done|by inversion Ha].
Qed.

Lemma located_signal ls p q l rest h : located ls p (ASignal q l :: rest) h -> is_Some (ls !! q) ->
  p = AppendRelease q /\ rest = [] /\ l = q.
Proof.
  intros Hloc [x Hx]. destruct p; cbn [located] in *; try (by destruct Hloc as [? _]); try (by inversion Hloc).
  - destruct Hloc as [[[Hn _] _]%Forall_cons _]. congruence.
  - inversion Hloc as [| | | |? ? Ha]; subst; by inversion Ha.
Qed.

(** [Signal]: the current thread no longer moves, the thread it wakes does. *)
Lemma signal_movers s b' q w Q' rest l0 :
  sinv s -> winv s -> is_Some (lists s !! q) -> conds (base s) !! q = Some (w :: Q') ->
  todos (base s) !! currentThread (base s) = Some (ASignal q l0 :: rest) ->
  todos b' = <[currentThread (base s) := AV w :: rest]> (todos (base s)) ->
  (size (movers s q (w :: Q')) <= size (movers (with_base b' s) q Q'))%nat.
Proof.
  intros H HW Hs HQ Ht ET. set (c := currentThread (base s)) in *. pose proof (i_sound s H) as (_ & _ & Hwait).
  destruct (i_threads s H _ _ Ht) as (h & Hloc & _). destruct (located_signal _ _ _ _ _ _ Hloc Hs) as (Hpc & -> & ->).
  destruct (w_queue _ _ Hwait q (w :: Q') w HQ) as (n & -> & _); [set_solver|].
  pose proof (w_nodup _ _ Hwait q _ HQ) as [HnQ _]%NoDup_cons.
  destruct (n_thread s HW q _ n Hs HQ) as (t & td & Htd & Hpt & Han); [set_solver|].
  assert (t <> c) as Htc by (intros ->; congruence).
  assert (t ∉ movers s q (Waiter n :: Q')) as Hnot.
  { rewrite elem_of_movers. intros (td0 & Htd0 & Hm). rewrite Hpt in Hm. cbn [moving] in Hm.
    assert (td0 = td) as -> by congruence. destruct Hm as [_ Hm]. apply Hm, queued_awaits. exists n. set_solver. }
  transitivity (size ({[t]} ∪ movers s q (Waiter n :: Q') ∖ {[c]})).
  { rewrite size_with by set_solver. apply size_without. }
  apply size_le. intros x. rewrite elem_of_union, elem_of_singleton, elem_of_difference, not_elem_of_singleton, !elem_of_movers.
  cbn [with_base base]. rewrite ET. change (pc_of (with_base b' s)) with (pc_of s). intros [->|[(td0 & Hx & Hm) Hne]].
  - exists td. rewrite lookup_insert_ne by done. split; [done|]. rewrite Hpt. split; [done|].
    rewrite queued_awaits. intros (m & Ham & HmQ).
    destruct (i_threads s H _ _ Htd) as (ht & Hloct & _). rewrite Hpt in Hloct.
    by rewrite (waiting_one q td ht m n Hloct Ham Han) in HmQ.
  - exists td0. rewrite lookup_insert_ne by done. split; [done|].
    destruct (pc_of s x); try done. cbn [moving] in *. destruct Hm as [-> Hm]. split; [done|].
    rewrite queued_awaits in *. intros (m & Ham & HmQ). apply Hm. exists m. set_solver.
Qed.

Lemma winv_acted s b' a rest td' :
  sinv s -> winv s -> todos (base s) !! currentThread (base s) = Some (a :: rest) ->
  acted (currentThread (base s)) rest a (view (base s)) td' (view b') ->
  todos b' = <[currentThread (base s) := td']> (todos (base s)) ->
  (sleeping b' = Some true -> pc_of s (currentThread b') = Idle) -> winv (with_base b' s).
Proof.
  intros H HW Ht Ha ET Hfin. pose proof (i_sound s H) as (_ & _ & Hwait).
  destruct (i_threads s H _ _ Ht) as (h & Hloc & _). set (c := currentThread (base s)) in *.
  constructor; cbn [with_base base lists]; change (pc_of (with_base b' s)) with (pc_of s).
  - intros q l Q Hl HQ Hne. assert (is_Some (lists s !! q)) as Hs by eauto.
    destruct (acted_conds _ _ _ _ _ _ q Q Ha HQ) as [Hold|[(l0 & n & Q0 & -> & Hold & -> & _)|(l0 & w & -> & Hold & ->)]].
    + etrans; [by eapply (n_items s HW)|]. apply size_le. intros t. rewrite !elem_of_movers.
      cbn [with_base base]. change (pc_of (with_base b' s)) with (pc_of s). rewrite ET. intros (td & Htd & Hm).
      destruct (decide (t = c)) as [->|Htc]; [|exists td; by rewrite lookup_insert_ne].
      exists td'. rewrite lookup_insert_eq. split; [done|]. assert (td = a :: rest) as -> by congruence.
      by eapply acted_quiet.
    + destruct (located_wait _ _ _ _ _ _ Hloc Hs) as (Hpc & -> & ->).
      rewrite (n_empty s HW c q Hpc Ht) in Hl. injection Hl as <-. cbn. lia.
    + etrans; [eapply (n_items s HW q l (w :: Q)); try done|]. by eapply signal_movers.
  - assert (forall q Q n, is_Some (lists s !! q) -> conds (base s) !! q = Some Q -> Waiter n ∈ Q ->
      exists t td, todos b' !! t = Some td /\ pc_of s t = RemoveTest q /\ awaits n td) as Hkeep.
    { intros q Q n Hs HQ Hn. destruct (n_thread s HW q Q n Hs HQ Hn) as (t & td & Htd & Hp & Han).
      destruct (decide (t = c)) as [->|Htc]; [|exists t, td; by rewrite ET, lookup_insert_ne].
      assert (td = a :: rest) as -> by congruence. exists c, td'. rewrite ET, lookup_insert_eq. split_and!; try done.
      destruct (acted_awaits _ _ _ _ _ _ n Ha Han) as [|[_ Hv]]; [done|]. exfalso. apply Hv.
      by destruct (w_queue _ _ Hwait q Q _ HQ Hn) as (k & [= <-] & _ & ?). }
    intros q Q n Hs HQ Hn.
    destruct (acted_conds _ _ _ _ _ _ q Q Ha HQ) as [Hold|[(l0 & k & Q0 & -> & Hold & -> & Hk)|(l0 & w & -> & Hold & ->)]].
    + by eapply Hkeep.
    + apply elem_of_app in Hn as [Hn|[= ->]%list_elem_of_singleton]; [by eapply Hkeep|].
      destruct (located_wait _ _ _ _ _ _ Hloc Hs) as (Hpc & _). exists c, td'. by rewrite ET, lookup_insert_eq.
    + eapply Hkeep; [done|exact Hold|]. set_solver.
  - intros t q Hp. rewrite ET. destruct (decide (t = c)) as [->|Htc].
    + rewrite lookup_insert_eq. intros [= ->]. exfalso. rewrite Hp in Hloc. cbn [located] in Hloc.
      inversion Hloc as [| | | |? ? Hacq]; subst; try (by inversion Ha).
      destruct (acted_acquiring _ _ _ _ _ _ _ _ Hacq Ha) as (h' & Hacq' & _). by inversion Hacq'.
    + rewrite lookup_insert_ne by done. by apply (n_empty s HW).
  - done.
Qed.

(** What a thread counts for. *)
Definition weight (q : nat) (Q : list sid) (p : pc) (td : list act) : nat := if decide (moving q Q p td) then 1 else 0.

Lemma weight_no q Q p td : ~ moving q Q p td -> weight q Q p td = 0%nat.
Proof. intros H. unfold weight. by rewrite decide_False. Qed.

Lemma weight_yes q Q p td : moving q Q p td -> weight q Q p td = 1%nat.
Proof. intros H. unfold weight. by rewrite decide_True. Qed.

Lemma weight_mono q Q p td p' td' : (moving q Q p td -> moving q Q p' td') -> (weight q Q p td <= weight q Q p' td')%nat.
Proof. intros H. unfold weight. destruct (decide (moving q Q p td)); [rewrite decide_True by auto|]; lia. Qed.

(** The current thread goes on between two routines. *)
Lemma winv_goto s ls' p c s' :
  let t := currentThread (base s) in
  let td := match c with Some c => code c | None => [] end in
  sinv s -> winv s -> at_rest s -> (forall c', c = Some c' -> allowed c') ->
  goto p c (mkS (base s) ls' (pcs s)) = Ok s' ->
  (forall q l' Q, ls' !! q = Some l' -> conds (base s) !! q = Some Q -> exists l, lists s !! q = Some l /\
     (length l' + weight q Q (pc_of s t) [] <= length l + weight q Q p td)%nat) ->
  (forall q, ls' !! q <> lists s !! q -> holder (locks (base s)) q = Some (Some t)) ->
  (forall q, p = RemoveTest q -> td = [AWait q q] -> ls' !! q = Some []) -> winv s'.
Proof.
  intros t td H HW Hr Hc E Hitems Hh Hempty.
  destruct (goto_spec p c (mkS (base s) ls' (pcs s)) Hr Hc) as (s1 & E1 & _ & EL & EP & EV & EC & Hsl & ET).
  rewrite E in E1. injection E1 as <-. cbn [base lists pcs] in *. fold t td in EP, EC, ET.
  assert (conds (base s') = conds (base s)) as HC by (by injection EV).
  assert (pc_of s' t = p) as Hpt by (unfold pc_of; by rewrite EP, lookup_insert_eq).
  assert (forall x, x <> t -> pc_of s' x = pc_of s x) as Hpc by (intros x Hx; unfold pc_of; by rewrite EP, lookup_insert_ne).
  assert (todos (base s) !! t = Some []) as Hrest.
  { destruct Hr as [_ Hr]. unfold todos. by rewrite lookup_fmap. }
  assert (forall q, is_Some (lists s' !! q) -> is_Some (conds (base s) !! q) -> is_Some (lists s !! q)) as Hdom.
  { intros q [l' Hl'] [Q HQ]. rewrite EL in Hl'. by destruct (Hitems q l' Q Hl' HQ) as (l & -> & _). }
  constructor; rewrite ?HC.
  - intros q l' Q Hl' HQ Hne. rewrite EL in Hl'. destruct (Hitems q l' Q Hl' HQ) as (l & Hl & Hle).
    pose proof (n_items s HW q l Q Hl HQ Hne) as Hold.
    assert (movers s q Q ∖ {[t]} ⊆ movers s' q Q ∖ {[t]}) as Hsub.
    { intros x. rewrite !elem_of_difference, !elem_of_movers, ET. intros [(tx & Hx & Hm) Hxt]. split; [|done].
      rewrite not_elem_of_singleton in Hxt. exists tx. by rewrite lookup_insert_ne, Hpc. }
    apply size_le in Hsub.
    assert (size (movers s q Q) <= weight q Q (pc_of s t) [] + size (movers s q Q ∖ {[t]}))%nat as H1.
    { unfold weight. destruct (decide (moving q Q (pc_of s t) [])) as [_|Hn]; cbn [Nat.add]; [apply size_without|]. apply size_le. intros x Hx.
      apply elem_of_difference. split; [done|]. rewrite not_elem_of_singleton. intros ->.
      apply elem_of_movers in Hx as (tx & Hx & Hm). congruence. }
    assert (weight q Q p td + size (movers s' q Q ∖ {[t]}) <= size (movers s' q Q))%nat as H2.
    { unfold weight. destruct (decide (moving q Q p td)) as [Hm|_]; cbn [Nat.add]; [|apply size_le; set_solver].
      assert (t ∈ movers s' q Q) as Ht by (apply elem_of_movers; exists td; rewrite ET, lookup_insert_eq, Hpt; done).
      rewrite <- (size_with _ t) by set_solver. apply size_le. set_solver. }
    lia.
  - intros q Q n Hs HQ Hn. destruct (n_thread s HW q Q n) as (x & tx & Hx & Hp & Ha); [by apply Hdom|done|done|].
    assert (x <> t) as Hxt by (intros ->; rewrite Hrest in Hx; injection Hx as <-; by apply not_elem_of_nil in Ha).
    exists x, tx. by rewrite ET, lookup_insert_ne, Hpc.
  - intros x q Hp. rewrite ET, EL. destruct (decide (x = t)) as [->|Hxt].
    + rewrite lookup_insert_eq, Hpt in *. intros [= Etd]. by apply Hempty.
    + rewrite lookup_insert_ne, Hpc in * by done. intros Hx. rewrite <- (n_empty s HW x q Hp Hx).
      destruct (decide (ls' !! q = lists s !! q)) as [|Hne]; [done|]. specialize (Hh q Hne).
      destruct (i_threads s H x _ Hx) as (h & Hloc & Hq). rewrite Hp in Hloc, Hq. cbn [located list_at] in *.
      destruct (Hq q eq_refl) as (_ & Hhold & _). rewrite Hhold in Hh; [congruence|].
      inversion Hloc as [| | | |? ? Ha]; subst; [done|by inversion Ha].
  - by rewrite Hsl.
Qed.

(** The lists stay, and a thread that moves goes on doing so. *)
Lemma winv_goto_same s p c s' :
  let td := match c with Some c => code c | None => [] end in
  sinv s -> winv s -> at_rest s -> (forall c', c = Some c' -> allowed c') -> goto p c s = Ok s' ->
  (forall q Q, moving q Q (pc_of s (currentThread (base s))) [] -> moving q Q p td) ->
  (forall q, p = RemoveTest q -> td = [AWait q q] -> lists s !! q = Some []) -> winv s'.
Proof.
  intros td H HW Hr Hc E Hm He. destruct s as [b ls ps]. eapply (winv_goto (mkS b ls ps) ls p c); try done.
  intros q l Q Hl HQ. exists l. split; [done|]. cbn [base] in *.
  apply Nat.add_le_mono_l, weight_mono, Hm.
Qed.

(** The thread changes the list whose lock it holds. *)
Lemma winv_goto_change s p q l l' s' :
  sinv s -> winv s -> at_rest s -> goto p None (set_list q l' s) = Ok s' -> lists s !! q = Some l ->
  holder (locks (base s)) q = Some (Some (currentThread (base s))) ->
  (forall Q, length l' + weight q Q (pc_of s (currentThread (base s))) [] <= length l + weight q Q p [])%nat ->
  (forall q' Q, q' <> q -> moving q' Q (pc_of s (currentThread (base s))) [] -> moving q' Q p []) -> winv s'.
Proof.
  intros H HW Hr E Hl Hh Hlen Hm. eapply (winv_goto s (<[q := l']> (lists s)) p None); try done.
  - intros q' l0 Q Hl0 HQ. destruct (decide (q = q')) as [<-|Hne].
    + rewrite lookup_insert_eq in Hl0. injection Hl0 as <-. by exists l.
    + rewrite lookup_insert_ne in Hl0 by done. exists l0. split; [done|].
      apply Nat.add_le_mono_l, weight_mono. by apply Hm.
  - intros q' Hx. destruct (decide (q = q')) as [->|Hne]; [done|]. by rewrite lookup_insert_ne in Hx.
Qed.

#[local] Ltac gone_to := destruct (goto _ _ _) as [s1|] eqn:E; [|done]; intros [= <- <-].

#[local] Ltac goes c :=
  gone_to;
  match goal with E : goto ?p _ ?s = Ok ?s' |- _ =>
    apply (winv_goto_same s p (Some c) s'); [done|done|done|by intros ? [= <-]|exact E| |by intros ? [=]]
  end;
  match goal with H : pc_of _ _ = _ |- _ => rewrite H; cbn [moving code] end.

Lemma winv_client s e s' : sinv s -> winv s -> at_rest s -> client s = Ok (e, s') -> winv s'.
Proof.
  intros H HW Hr. pose proof (at_rest_placed s H Hr) as (h & Hloc & Hq). unfold client.
  destruct (pc_of s (currentThread (base s))) as [|q x|q|q|q|q|q|q x|q x|q|q|q] eqn:Hpc; cbn [located list_at] in *;
    [by intros [= <- <-]|..]; destruct (Hq q eq_refl) as ([l Hl] & Hh & _); rewrite ?Hl; cbn [deref rbind].
  - gone_to. inversion Hloc; subst h. eapply (winv_goto_change s _ q l _ _ H HW Hr E Hl); [by apply Hh| |].
    + intros Q. rewrite Hpc, length_app. rewrite (weight_no q Q (AppendPut q x)) by (by intros []). rewrite weight_yes by done. cbn. lia.
    + intros q' Q _. by rewrite Hpc.
  - goes (CallSignal q q). by intros q' Q ->.
  - goes (CallRelease q). by intros q' Q [_ ?].
  - gone_to. eapply (winv_goto_same s Idle None _ H HW Hr); try done. by rewrite Hpc.
  - destruct l as [|x l].
    + gone_to. eapply (winv_goto_same s _ (Some (CallWait q q)) _ H HW Hr); [by intros ? [= <-]|exact E| |].
      * rewrite Hpc. intros q' Q [-> _]. split; [done|]. rewrite queued_awaits. intros (n & Hn & _).
        unfold awaits in Hn. set_solver.
      * by intros q' [= <-].
    + gone_to. eapply (winv_goto_same s (RemoveTake q) None _ H HW Hr); try done. rewrite Hpc. by intros q' Q [-> _].
  - destruct l as [|x l]; [done|]. gone_to. destruct Hloc as [_ ->].
    eapply (winv_goto_change s _ q (x :: l) _ _ H HW Hr E Hl); [by apply Hh| |].
    + intros Q. rewrite Hpc, weight_yes by done. rewrite weight_no by (by intros []). cbn. lia.
    + intros q' Q Hne. rewrite Hpc. cbn. congruence.
  - goes (CallRelease q). done.
  - gone_to. eapply (winv_goto_same s Idle None _ H HW Hr); try done. by rewrite Hpc.
  - gone_to. eapply (winv_goto_same s (ApplyRelease q) None _ H HW Hr); try done. by rewrite Hpc.
  - goes (CallRelease q). done.
  - gone_to. eapply (winv_goto_same s Idle None _ H HW Hr); try done. by rewrite Hpc.
Qed.

(** ** All steps *)

Lemma advance_sleeping rest st st' : advance rest st = Ok st' -> sleeping st' = sleeping st.
Proof. unfold advance. destruct (threads st !! currentThread st); cbn; [by intros [= <-]|done]. Qed.

Lemma Run_sleeping next f st st' : Run next f st = Ok st' -> sleeping st' = None.
Proof.
  unfold Run, setStatus, CheckToBeDestroyed. fields. destruct (ASSERT _); cbn [rbind]; [|done].
  destruct (threads st !! next); cbn [deref rbind]; [|done]. fields.
  destruct (if f then _ else _); cbn [rbind]; [|by intros [= <-]]. destruct (ASSERT _); cbn [rbind]; [by intros [= <-]|done].
Qed.

Lemma Yield_sleeping st st' : sleeping st = None -> Yield st = Ok st' -> sleeping st' = None.
Proof.
  intros Hs. unfold Yield, FindNextToRun. destruct (readyList st); [by intros [= <-]|].
  destruct (ReadyToRun _ _); cbn [rbind]; [apply Run_sleeping|done].
Qed.

Lemma Fork_current st st' : Fork st = Ok st' -> sleeping st' = sleeping st /\ currentThread st' = currentThread st.
Proof.
  unfold Fork, ReadyToRun, setStatus. fields. destruct (_ !! _); cbn; [by intros [= <-]|done].
Qed.

Lemma V_current n st st' : V n st = Ok st' -> sleeping st' = sleeping st /\ currentThread st' = currentThread st.
Proof. intros []%V_vstep; done. Qed.

Lemma exec_sleeping a rest st st' : sleeping st = None -> exec a rest st = Ok st' -> sleeping st' <> Some true.
Proof.
  intros Hs. destruct a as [n|n|l|l|c l|c l|c l]; cbn [exec].
  - unfold P. destruct (sems st !! n) as [sem|]; cbn [deref rbind]; [|done]. destruct (_ =? _).
    + unfold Sleep, setStatus. fields. destruct (_ !! _); cbn; [by intros [= <-]|done].
    + intros ->%advance_sleeping. fields. congruence.
  - destruct (V n st) as [st1|] eqn:E; cbn [rbind]; [|done]. intros ->%advance_sleeping.
    apply V_current in E as [-> _]. congruence.
  - destruct (locks st !! l); cbn [deref rbind]; [|done]. intros ->%advance_sleeping. fields. congruence.
  - destruct (locks st !! l); cbn [deref rbind]; [|done]. destruct (ASSERT _); cbn [rbind]; [|done].
    intros ->%advance_sleeping. fields. congruence.
  - destruct (held l st); cbn [rbind]; [|done]. destruct (conds st !! c); cbn [deref rbind]; [|done].
    intros ->%advance_sleeping. fields. congruence.
  - destruct (held l st); cbn [rbind]; [|done]. destruct (conds st !! c) as [[]|]; cbn [deref rbind]; [| |done];
      intros ->%advance_sleeping; fields; congruence.
  - destruct (conds st !! c) as [[]|]; cbn [deref rbind]; [| |done]; intros ->%advance_sleeping; fields; congruence.
Qed.

Lemma winv_sys s b' :
  sinv s -> winv s -> step (base s) b' ->
  (sleeping (base s) = None -> todos (base s) !! currentThread (base s) = Some [] ->
     todos b' !! currentThread (base s) = Some []) ->
  (sleeping b' = Some true -> pc_of s (currentThread b') = Idle) -> winv (with_base b' s).
Proof.
  intros H HW Hstep Hnocall Hfin. pose proof (i_sound s H) as (HP & _ & _).
  pose proof (estep_viewed _ _ HP (step_estep _ _ HP Hstep)) as Hv.
  destruct Hv as [ET EV|n v Hp ET HV EV|Hn ET EV|t Ht Hs -> ET EV|c Hs Ht Ha ET EV|a rest td' Hs Ht Ha ET].
  - apply winv_idle; [done|by injection EV|by rewrite ET|done].
  - apply winv_idle; [done|by injection EV|by rewrite ET|done].
  - apply winv_idle; [done|by injection EV| |done]. intros t td Ht. rewrite ET, lookup_insert_ne; [done|].
    intros <-. by rewrite (i_fresh s H) in Ht.
  - apply winv_idle; [done|by injection EV| |done]. intros t td Hpc. rewrite ET, lookup_delete_ne; [done|].
    intros <-. by rewrite (n_finishing s HW Hs) in Hpc.
  - rewrite ET, lookup_insert_eq in Hnocall. specialize (Hnocall Hs Ht). injection Hnocall. by destruct c.
  - by eapply winv_acted.
Qed.

Lemma winv_call s p c s' :
  sinv s -> winv s -> at_rest s -> allowed c -> pc_of s (currentThread (base s)) = Idle ->
  (forall q, code c <> [AWait q q] \/ p <> RemoveTest q) -> goto p (Some c) s = Ok s' -> winv s'.
Proof.
  intros H HW Hr Hc Hi Hn E. eapply (winv_goto_same s p (Some c)); try done; [by intros ? [= <-]|by rewrite Hi|].
  intros q Hp Ht. by destruct (Hn q).
Qed.

Lemma winv_sstep s e s' : sinv s -> winv s -> sstep s e s' -> winv s'.
Proof.
  intros H HW Hs. pose proof (i_sound s H) as (HP & _ & _).
  destruct Hs as [q x s' Hr Hi Hq E|q s' Hr Hi Hq E|q s' Hr Hi Hq E|e s' Hr E|th a rest b' Hsl Hth Ht E
    |c Hr Hi Ha Hf s' E|b' Hsl E|b' Hsl E|b' [Hsl Hr] Hi E|f next st1 b' Hsl En E|n b' Hsl Hn E].
  - eapply (winv_call s (AppendPut q x) (CallAcquire q)); try done. by left.
  - eapply (winv_call s (RemoveTest q) (CallAcquire q)); try done. by left.
  - eapply (winv_call s (ApplyRun q) (CallAcquire q)); try done. by left.
  - by eapply winv_client.
  - apply winv_sys; [done|done|by eapply step_exec| |].
    + intros _ Hnil. rewrite (todos_lookup _ _ _ Hth), Ht in Hnil. done.
    + intros Hx. by destruct (exec_sleeping a rest (base s) b').
  - eapply (winv_call s Idle c); try done. by right.
  - apply winv_sys; [done|done|by apply step_yield| |].
    + by rewrite (Yield_todos _ _ (p_destroy _ HP) E).
    + by rewrite (Yield_sleeping _ _ Hsl E).
  - destruct (Fork_current _ _ E) as [Es Ec]. apply winv_sys; [done|done|by apply step_fork| |].
    + intros _ Hx. rewrite (Fork_todos _ _ E), lookup_insert_ne; [done|].
      destruct (p_current _ HP) as [th Hth]. pose proof (p_next _ HP _ _ Hth). lia.
    + rewrite Es, Ec. apply (n_finishing s HW).
  - destruct (threads (base s) !! currentThread (base s)) as [th|] eqn:Hth; [|done]. injection Hr as Hr.
    apply winv_sys; [done|done|by eapply step_finish| |].
    + by rewrite (Sleep_todos _ _ _ E).
    + intros _. unfold Finish, Sleep, setStatus in E. rewrite Hth in E. cbn in E. by injection E as <-.
  - apply winv_sys; [done|done|by eapply step_dispatch|congruence|]. by rewrite (Run_sleeping _ _ _ _ E).
  - destruct (V_current _ _ _ E) as [Es Ec]. apply winv_sys; [done|done|by eapply step_interrupt| |].
    + by rewrite (V_todos _ _ _ E).
    + rewrite Es, Ec. apply (n_finishing s HW).
Qed.

Lemma sreachable_winv tr s : sreachable tr s -> sinv s /\ winv s.
Proof.
  intros (s0 & H0 & Hr). induction Hr as [s|s s1 e tr s2 Hr IH Hs].
  - split; [by apply sinitial_inv|]. destruct H0 as (Hi & _ & Hp & Hl).
    destruct Hi as (Hsl & _ & _ & Ht & _ & _ & _ & Hc & _). constructor.
    + intros q l Q Hq HQ Hne. by destruct Hne; apply (Hc q).
    + intros q Q n _ HQ Hn. rewrite (Hc q Q HQ) in Hn. by apply not_elem_of_nil in Hn.
    + intros t q. unfold pc_of. by rewrite Hp.
    + by rewrite Hsl.
  - destruct (IH H0) as [H1 HW1]. split; [by eapply sstep_inv|by eapply winv_sstep].
Qed.

(** C13: No wake-up of a synchronised list is lost: whenever threads wait in
    [RemoveFront] for a list that holds items, then for each of the items there
    is a thread of its own that is about to signal a waiting thread, or is on its
    way to test the list (it waits for no signal), or is about to take an
    item. *)
Theorem synchlist_wakeups tr s q l Q :
  sreachable tr s -> lists s !! q = Some l -> conds (base s) !! q = Some Q -> Q <> [] ->
  exists ts, NoDup ts /\ length ts = length l /\
    Forall (fun t => exists td, todos (base s) !! t = Some td /\ moving q Q (pc_of s t) td) ts.
Proof.
  intros Hr Hl HQ Hne. destruct (sreachable_winv tr s Hr) as [_ HW]. pose proof (n_items s HW q l Q Hl HQ Hne) as Hle.
  exists (take (length l) (elements (movers s q Q))). split; [|split].
  - eapply (sublist_NoDup _ (elements (movers s q Q))); [apply NoDup_elements|apply sublist_take].
  - rewrite length_take. unfold size, set_size in Hle. cbn in Hle. lia.
  - apply Forall_take, Forall_forall. intros t Ht. apply elem_of_elements in Ht. by apply elem_of_movers.
Qed.

(** The main thread waits; the other has appended and not signalled yet. *)
Definition unsignalled : list sop :=
  [SBase OFork; SRemove 0; SBase OExec; SBase OExec; SClient; SBase OExec; SBase OExec; SBase OExec; SBase OExec;
   SBase ODispatch; SAppend 0 7; SBase OExec; SBase OExec; SClient].

Lemma synchlist_wakeups_witness :
  exists s t, do_sops unsignalled [] sbooted = Some ([Put 0 7], s) /\ moving 0 [Waiter 0] (pc_of s t) [].
Proof.
  destruct (do_sops unsignalled [] sbooted) as [[tr s]|] eqn:E; [|vm_compute in E; done].
  pose proof (do_sops_reachable _ _ _ E) as Hr.
  assert (tr = [Put 0 7] /\ lists s !! 0%nat = Some [7] /\ conds (base s) !! 0%nat = Some [Waiter 0] /\
    dom (todos (base s)) = {[ 0%nat; 1%nat ]} /\ pc_of s 0 = RemoveTest 0 /\ todos (base s) !! 1%nat = Some [] /\
    todos (base s) !! 0%nat = Some [AP (Waiter 0); AP (OfLock 0); ASetHolder 0]) as (-> & Hl & HQ & Hd & Hp & H1 & H0)
    by (vm_compute in E; injection E as <- <-; by vm_compute).
  destruct (synchlist_wakeups _ s 0 [7] [Waiter 0] Hr Hl HQ) as (ts & _ & Hlen & Hall); [done|].
  destruct ts as [|t [|]]; try discriminate Hlen. apply Forall_cons in Hall as [(td & Ht & Hm) _].
  exists s, 1%nat. split; [done|].
  assert (t ∈ dom (todos (base s))) as Hin by (apply elem_of_dom; by exists td). rewrite Hd in Hin.
  apply elem_of_union in Hin as [->%elem_of_singleton| ->%elem_of_singleton].
  - rewrite Hp in Hm. rewrite H0 in Ht. injection Ht as <-. destruct Hm as [_ Hm]. destruct Hm. by repeat constructor.
  - rewrite H1 in Ht. by injection Ht as <-.
Defined.

End SynchWake.
