(* ===== verification/Interrupt.v ===== *)
(** * Interrupts, the timer and the alarm

    machine/interrupt.cc, machine/timer.cc and threads/alarm.cc.  The pending
    interrupts are kept in a [SortedList], of which this file uses the contents
    ([LinkedList.ins] is the insertion that lib/list.cc implements).  Devices,
    the rest of the kernel and [Thread::Yield] are parameters; what the
    interrupt simulation relies on is the class [Handlers]: a handler returns,
    leaves the clock and the interrupt level alone and changes the pending
    interrupts only by scheduling future ones. *)

From S2P Require Import Prelude Ints LinkedList.

Module Interrupt.

Inductive IntStatus := IntOff | IntOn.

Inductive MachineStatus := IdleMode | SystemMode | UserMode.

Inductive IntType :=
| TimerInt | DiskInt | ConsoleWriteInt | ConsoleReadInt | NetworkSendInt | NetworkRecvInt.

#[global] Instance IntStatus_eq_dec : EqDecision IntStatus.
Proof. solve_decision. Defined.
#[global] Instance MachineStatus_eq_dec : EqDecision MachineStatus.
Proof. solve_decision. Defined.
#[global] Instance IntType_eq_dec : EqDecision IntType.
Proof. solve_decision. Defined.

Definition UserTick : Z := 1.
Definition SystemTick : Z := 10.
Definition TimerTicks : Z := 100.

(** [PendingInterrupt]; [D] are the objects with a [CallBack]. *)
Record PendingInterrupt (D : Type) := mkPending {
  callOnInterrupt : D;
  when : Z;
  type : IntType
}.
Arguments mkPending {D}.
Arguments callOnInterrupt {D}.
Arguments when {D}.
Arguments type {D}.

Definition PendingCompare {D} (x y : PendingInterrupt D) : Z :=
  if when x <? when y then -1 else if when y <? when x then 1 else 0.

(** The fields of [Interrupt], the clock of [kernel->stats], and the rest of
    the kernel. *)
Record sys (D K : Type) := mkSys {
  level : IntStatus;
  pending : list (PendingInterrupt D);
  inHandler : bool;
  yieldOnReturn : bool;
  status : MachineStatus;
  totalTicks : Z;
  idleTicks : Z;
  systemTicks : Z;
  userTicks : Z;
  rest : K
}.
Arguments mkSys {D K}.
Arguments level {D K}.
Arguments pending {D K}.
Arguments inHandler {D K}.
Arguments yieldOnReturn {D K}.
Arguments status {D K}.
Arguments totalTicks {D K}.
Arguments idleTicks {D K}.
Arguments systemTicks {D K}.
Arguments userTicks {D K}.
Arguments rest {D K}.

Section Interrupt.

Context {D K : Type}.

Implicit Types s : sys D K.

(** The constructor. *)
Definition Interrupt_init (k : K) : sys D K :=
  {| level := IntOff; pending := []; inHandler := false; yieldOnReturn := false;
     status := SystemMode; totalTicks := 0; idleTicks := 0; systemTicks := 0; userTicks := 0;
     rest := k |}.

Definition ChangeLevel (now : IntStatus) s : sys D K :=
  {| level := now; pending := pending s; inHandler := inHandler s;
     yieldOnReturn := yieldOnReturn s; status := status s; totalTicks := totalTicks s;
     idleTicks := idleTicks s; systemTicks := systemTicks s; userTicks := userTicks s;
     rest := rest s |}.

Definition set_pending (l : list (PendingInterrupt D)) s : sys D K :=
  {| level := level s; pending := l; inHandler := inHandler s;
     yieldOnReturn := yieldOnReturn s; status := status s; totalTicks := totalTicks s;
     idleTicks := idleTicks s; systemTicks := systemTicks s; userTicks := userTicks s;
     rest := rest s |}.

Definition set_inHandler (b : bool) s : sys D K :=
  {| level := level s; pending := pending s; inHandler := b;
     yieldOnReturn := yieldOnReturn s; status := status s; totalTicks := totalTicks s;
     idleTicks := idleTicks s; systemTicks := systemTicks s; userTicks := userTicks s;
     rest := rest s |}.

Definition set_yield (b : bool) s : sys D K :=
  {| level := level s; pending := pending s; inHandler := inHandler s;
     yieldOnReturn := b; status := status s; totalTicks := totalTicks s;
     idleTicks := idleTicks s; systemTicks := systemTicks s; userTicks := userTicks s;
     rest := rest s |}.

Definition setStatus (st : MachineStatus) s : sys D K :=
  {| level := level s; pending := pending s; inHandler := inHandler s;
     yieldOnReturn := yieldOnReturn s; status := st; totalTicks := totalTicks s;
     idleTicks := idleTicks s; systemTicks := systemTicks s; userTicks := userTicks s;
     rest := rest s |}.

Definition set_rest (k : K) s : sys D K :=
  {| level := level s; pending := pending s; inHandler := inHandler s;
     yieldOnReturn := yieldOnReturn s; status := status s; totalTicks := totalTicks s;
     idleTicks := idleTicks s; systemTicks := systemTicks s; userTicks := userTicks s;
     rest := k |}.

(** The clock moves to the next interrupt while the machine is idle. *)
Definition skip_to (t : Z) s : sys D K :=
  {| level := level s; pending := pending s; inHandler := inHandler s;
     yieldOnReturn := yieldOnReturn s; status := status s; totalTicks := t;
     idleTicks := s32 (idleTicks s + (t - totalTicks s)); systemTicks := systemTicks s;
     userTicks := userTicks s; rest := rest s |}.

(** The clock advances by one tick of the current mode. *)
Definition tick s : sys D K :=
  let system := bool_decide (status s = SystemMode) in
  {| level := level s; pending := pending s; inHandler := inHandler s;
     yieldOnReturn := yieldOnReturn s; status := status s;
     totalTicks := s32 (totalTicks s + if system then SystemTick else UserTick);
     idleTicks := idleTicks s;
     systemTicks := if system then s32 (systemTicks s + SystemTick) else systemTicks s;
     userTicks := if system then userTicks s else s32 (userTicks s + UserTick);
     rest := rest s |}.

Definition Schedule (toCall : D) (fromNow : Z) (ty : IntType) s : res (sys D K) :=
  let t := s32 (totalTicks s + fromNow) in
  ASSERT (0 <? fromNow) ;;;
  Ok (set_pending (LinkedList.ins PendingCompare (mkPending toCall t ty) (pending s)) s).

Definition YieldOnReturn s : res (sys D K) :=
  ASSERT (inHandler s) ;;;
  Ok (set_yield true s).

(** The parts of the kernel that the simulation calls: the handlers, the yield
    of the current thread, and [kernel->machine->DelayedLoad(0, 0)]. *)
Variable CallBack : D -> sys D K -> res (sys D K).
Variable Yield : sys D K -> res (sys D K).
Variable DelayedLoad : K -> res K.

(** The [do ... while] loop of [CheckIfDue]. *)
Fixpoint fire_loop (fuel : nat) s : res (sys D K) :=
  match fuel with
  | O => Err Diverges
  | S fuel' =>
      match pending s with
      | [] => Err AssertFailure
      | next :: l =>
          let* s1 := CallBack (callOnInterrupt next) (set_pending l s) in
          match pending s1 with
          | [] => Ok s1
          | front :: _ => if when front <=? totalTicks s1 then fire_loop fuel' s1 else Ok s1
          end
      end
  end.

Definition CheckIfDue (advanceClock : bool) s : res (bool * sys D K) :=
  ASSERT (bool_decide (level s = IntOff)) ;;;
  match pending s with
  | [] => Ok (false, s)
  | next :: _ =>
      if (totalTicks s <? when next) && negb advanceClock then Ok (false, s)
      else
        let s1 := if totalTicks s <? when next then skip_to (when next) s else s in
        let* k := DelayedLoad (rest s1) in
        let s2 := set_rest k s1 in
        let* s3 := fire_loop (length (pending s2)) (set_inHandler true s2) in
        Ok (true, set_inHandler false s3)
  end.

Definition OneTick s : res (sys D K) :=
  let oldStatus := status s in
  let s1 := ChangeLevel IntOff (tick s) in
  let* r := CheckIfDue false s1 in
  let s2 := ChangeLevel IntOn (snd r) in
  if yieldOnReturn s2 then
    let* s3 := Yield (setStatus SystemMode (set_yield false s2)) in
    Ok (setStatus oldStatus s3)
  else Ok s2.

Definition SetLevel (now : IntStatus) s : res (IntStatus * sys D K) :=
  let old := level s in
  ASSERT (bool_decide (now = IntOff) || negb (inHandler s)) ;;;
  let s1 := ChangeLevel now s in
  if bool_decide (now = IntOn /\ old = IntOff) then
    let* s2 := OneTick s1 in Ok (old, s2)
  else Ok (old, s1).

(** [Idle]: [None] when the machine halts, with nothing left to do. *)
Definition Idle s : res (option (sys D K)) :=
  let* r := CheckIfDue true (setStatus IdleMode s) in
  let '(fired, s1) := r in
  Ok (if fired : bool then Some (setStatus SystemMode s1) else None).

(** ** What the simulation relies on *)

Definition sorted (l : list (PendingInterrupt D)) : Prop :=
  StronglySorted (fun x y => when x <= when y) l.

Definition schedule_all (new l : list (PendingInterrupt D)) : list (PendingInterrupt D) :=
  foldl (fun l p => LinkedList.ins PendingCompare p l) l new.

(** [ok] is an invariant of the kernel under which its handlers work. *)
Class Handlers (ok : sys D K -> Prop) := {
  handler_runs : forall d s, ok s -> inHandler s = true -> level s = IntOff ->
    exists s' new, CallBack d s = Ok s' /\ ok s' /\
      inHandler s' = true /\ level s' = IntOff /\ totalTicks s' = totalTicks s /\
      Forall (fun p => totalTicks s < when p) new /\
      pending s' = schedule_all new (pending s);
  ok_pending : forall l s, ok s -> ok (set_pending l s);
  ok_inHandler : forall b s, ok s -> ok (set_inHandler b s);
  ok_delayed : forall s, ok s -> exists k, DelayedLoad (rest s) = Ok k /\ ok (set_rest k s)
}.

(** The handlers of a list of interrupts, one after the other. *)
Fixpoint fire (l : list (PendingInterrupt D)) s : res (sys D K) :=
  match l with
  | [] => Ok s
  | p :: l' =>
      let* s1 := CallBack (callOnInterrupt p) (set_pending (tail (pending s)) s) in
      fire l' s1
  end.

Lemma ins_later (x : PendingInterrupt D) m l :
  Forall (fun y => when y < when x) m ->
  LinkedList.ins PendingCompare x (m ++ l) = m ++ LinkedList.ins PendingCompare x l.
Proof.
  intros H. apply LinkedList.ins_app. eapply Forall_impl; [exact H|]. intros y Hy. cbn beta in *.
  unfold PendingCompare. rewrite (proj2 (Z.ltb_ge (when x) (when y))), (proj2 (Z.ltb_lt (when y) (when x))) by lia.
  done.
Qed.

Lemma ins_Forall (P : PendingInterrupt D -> Prop) x l :
  P x -> Forall P l -> Forall P (LinkedList.ins PendingCompare x l).
Proof.
  intros Hx. induction 1 as [|y l Hy Hl IH]; cbn [LinkedList.ins]; [by constructor|].
  destruct (PendingCompare x y <? 0); by repeat constructor.
Qed.

Lemma ins_when_sorted x l : sorted l -> sorted (LinkedList.ins PendingCompare x l).
Proof.
  induction 1 as [|y l Hl IH Hy]; cbn [LinkedList.ins]; [repeat constructor|].
  unfold PendingCompare at 1. destruct (Z.ltb_spec (when x) (when y)) as [Hlt|Hge]; cbn [Z.ltb Z.compare].
  - constructor; [by constructor|]. constructor; [lia|]. eapply Forall_impl; [exact Hy|]. cbn. lia.
  - assert (((if when y <? when x then 1 else 0) <? 0) = false) as -> by (by destruct (when y <? when x)).
    constructor; [done|]. apply ins_Forall; [lia|done].
Qed.

Lemma schedule_later new : forall m l t,
  Forall (fun y => when y <= t) m -> Forall (fun p => t < when p) new ->
  schedule_all new (m ++ l) = m ++ schedule_all new l.
Proof.
  induction new as [|x new IH]; intros m l t Hm Hn; [done|]. cbn [schedule_all foldl].
  apply Forall_cons in Hn as [Hx Hn]. rewrite ins_later; [by eapply IH|].
  eapply Forall_impl; [exact Hm|]. cbn. lia.
Qed.

Lemma schedule_Forall (P : PendingInterrupt D -> Prop) new : forall l,
  Forall P new -> Forall P l -> Forall P (schedule_all new l).
Proof.
  induction new as [|x new IH]; intros l Hn Hl; [done|]. apply Forall_cons in Hn as [Hx Hn].
  apply IH; [done|]. by apply ins_Forall.
Qed.

Lemma schedule_sorted new : forall l, sorted l -> sorted (schedule_all new l).
Proof.
  induction new as [|x new IH]; intros l Hl; [done|]. apply IH. by apply ins_when_sorted.
Qed.

Context (ok : sys D K -> Prop) `{!Handlers ok}.

(** The state after a round of handlers. *)
Definition settled (now : Z) s : Prop :=
  ok s /\ inHandler s = true /\ level s = IntOff /\ totalTicks s = now /\
  sorted (pending s) /\ Forall (fun p => now < when p) (pending s).

(** The loop runs the handlers of the interrupts that are due when it starts,
    and those only: each turn takes one of them, and what handlers schedule is
    not due.  So [length due] turns are enough. *)
Lemma fire_loop_due due : forall later fuel s,
  ok s -> inHandler s = true -> level s = IntOff ->
  pending s = due ++ later -> due <> [] ->
  Forall (fun p => when p <= totalTicks s) due ->
  Forall (fun p => totalTicks s < when p) later -> sorted later -> (length due <= fuel)%nat ->
  exists s', fire_loop fuel s = Ok s' /\ fire due s = Ok s' /\ settled (totalTicks s) s'.
Proof.
  induction due as [|p due IH]; intros later fuel s Hok Hin Hlev Hp Hne Hdue Hlater Hsort Hfuel; [done|].
  destruct fuel as [|fuel]; [cbn in Hfuel; lia|]. cbn [fire_loop fire]. rewrite Hp. cbn [app tail].
  destruct (handler_runs (callOnInterrupt p) (set_pending (due ++ later) s))
    as (s1 & new & E & Hok1 & Hin1 & Hlev1 & Ht1 & Hnew & Hp1); [by apply ok_pending|done|done|].
  rewrite E. cbn [rbind]. cbn [set_pending totalTicks pending] in *.
  apply Forall_cons in Hdue as [Hpd Hdue].
  rewrite (schedule_later new due later (totalTicks s)) in Hp1 by done.
  assert (Forall (fun q => totalTicks s < when q) (schedule_all new later)) as Hl1
    by (by apply schedule_Forall).
  assert (sorted (schedule_all new later)) as Hs1 by (by apply schedule_sorted).
  destruct due as [|p' due].
  - cbn [app] in Hp1. exists s1. cbn [fire]. split; [|split; [done|]].
    + rewrite Hp1. destruct (schedule_all new later) as [|f l]; [done|].
      apply Forall_cons in Hl1 as [Hf _]. by rewrite Ht1, (proj2 (Z.leb_gt _ _)).
    + unfold settled. rewrite Hp1. done.
  - rewrite Hp1. cbn [app]. apply Forall_cons in Hdue as [Hp' Hdue].
    rewrite Ht1, (proj2 (Z.leb_le _ _)) by done. rewrite <- Ht1.
    apply (IH (schedule_all new later)); try done.
    + by rewrite Ht1; constructor.
    + by rewrite Ht1.
    + cbn in *. lia.
Qed.

Lemma none_due now (l : list (PendingInterrupt D)) :
  Forall (fun p => now < when p) l -> filter (fun p => when p <= now) l = [].
Proof. induction 1 as [|p l Hp Hl IH]; [done|]. by rewrite filter_cons_False by lia. Qed.

(** A sorted list splits at the current time. *)
Lemma sorted_split now l : sorted l ->
  l = filter (fun p => when p <= now) l ++ filter (fun p => now < when p) l.
Proof.
  induction 1 as [|p l Hl IH Hp]; [done|]. destruct (decide (when p <= now)) as [Hle|Hgt].
  - rewrite filter_cons_True, (filter_cons_False (fun p => now < when p)) by lia. cbn. by f_equal.
  - rewrite filter_cons_False, filter_cons_True by lia.
    assert (filter (fun p => when p <= now) l = []) as En
      by (apply none_due; eapply Forall_impl; [exact Hp|]; cbn; lia).
    rewrite En in IH |- *. cbn. by f_equal.
Qed.

Lemma sorted_filter (P : PendingInterrupt D -> Prop) `{forall x, Decision (P x)} l :
  sorted l -> sorted (filter P l).
Proof.
  induction 1 as [|p l Hl IH Hp]; [constructor|]. destruct (decide (P p)).
  - rewrite filter_cons_True by done. constructor; [done|].
    apply Forall_forall. intros x Hx. apply list_elem_of_filter in Hx as [_ Hx].
    rewrite Forall_forall in Hp. by apply Hp.
  - by rewrite filter_cons_False.
Qed.

(** The time at which [CheckIfDue] fires handlers. *)
Definition fire_time (advanceClock : bool) s : Z :=
  match pending s with
  | next :: _ => if advanceClock then Z.max (totalTicks s) (when next) else totalTicks s
  | [] => totalTicks s
  end.

Definition due (now : Z) s : list (PendingInterrupt D) :=
  filter (fun p => when p <= now) (pending s).


End Interrupt.

(** ** The timer and the alarm clock *)

(** [Timer], with the state of the random number generator. *)
Record Timer := mkTimer {
  randomize : bool;
  disable : bool;
  seed : Z
}.

Section Timer.

(** [RandomNumber()] of the host: a number and the next state. *)
Variable RandomNumber : Z -> Z * Z.
Hypothesis RandomNumber_unsigned : forall x, 0 <= fst (RandomNumber x) < 2 ^ 32.

(** The rest of the kernel besides the timer, the effect of
    [DelayedLoad(0, 0)] on it, and when it is in order. *)
Context {X : Type}.
Variable delayed : X -> res X.
Variable in_order : X -> Prop.
Hypothesis delayed_ok : forall x, in_order x -> exists x', delayed x = Ok x' /\ in_order x'.

Notation tsys := (sys unit (Timer * X)).

Definition timer (s : tsys) : Timer := fst (rest s).
Definition others (s : tsys) : X := snd (rest s).
Definition set_timer (t : Timer) (s : tsys) : tsys := set_rest (t, others s) s.

Definition load (k : Timer * X) : res (Timer * X) :=
  let* x := delayed (snd k) in Ok (fst k, x).

Definition SetInterrupt (s : tsys) : res (tsys) :=
  let t := timer s in
  if negb (disable t) then
    let '(delay, t') :=
      if randomize t then
        let '(r, x) := RandomNumber (seed t) in
        (1 + r mod (TimerTicks * 2), mkTimer (randomize t) (disable t) x)
      else (TimerTicks, t) in
    Schedule tt delay TimerInt (set_timer t' s)
  else Ok s.

(** [Alarm::CallBack] *)
Definition Alarm_CallBack (s : tsys) : res (tsys) :=
  if bool_decide (status s <> IdleMode) then YieldOnReturn s else Ok s.

(** [Timer::CallBack] *)
Definition Timer_CallBack (_ : unit) (s : tsys) : res (tsys) :=
  let* s1 := Alarm_CallBack s in SetInterrupt s1.

(** [new Alarm(doRandom)], which starts the timer. *)
Definition Alarm_init (doRandom : bool) (s : tsys) : res (tsys) :=
  SetInterrupt (set_timer (mkTimer doRandom false (seed (timer s))) s).

(** The largest delay of the timer. *)
Definition slice (t : Timer) : Z := if randomize t then 2 * TimerTicks else TimerTicks.

Definition clock_ok (s : tsys) : Prop := 0 <= totalTicks s < 2 ^ 31 - 1000.

Lemma SetInterrupt_spec s : clock_ok s -> disable (timer s) = false ->
  exists w x, SetInterrupt s =
      Ok (set_pending (LinkedList.ins PendingCompare (mkPending tt w TimerInt) (pending s))
           (set_timer (mkTimer (randomize (timer s)) false x) s)) /\
    totalTicks s < w <= totalTicks s + slice (timer s).
Proof.
  intros Hc Hd. unfold SetInterrupt. rewrite Hd. cbn [negb]. unfold clock_ok in Hc.
  unfold slice. destruct (timer s) as [r d x]. cbn [randomize disable seed] in *. subst d.
  destruct r.
  - pose proof (RandomNumber_unsigned x) as Hr. destruct (RandomNumber x) as [n y]. cbn [fst] in Hr.
    unfold TimerTicks. pose proof (Z.mod_pos_bound n (100 * 2) ltac:(lia)).
    exists (totalTicks s + (1 + n mod (100 * 2))), y. unfold Schedule. cbn [set_timer set_rest totalTicks].
    rewrite ASSERT_true by (apply Z.ltb_lt; lia). cbn [rbind]. rewrite s32_id by zlia.
    split; [done|lia].
  - exists (totalTicks s + TimerTicks), x. unfold Schedule, TimerTicks. cbn [set_timer set_rest totalTicks].
    rewrite ASSERT_true by done. cbn [rbind]. rewrite s32_id by zlia. split; [done|lia].
Qed.

(** The timer's handler asks for a yield unless the machine is idle, and sets
    the next interrupt. *)
Lemma Timer_CallBack_spec s : clock_ok s -> disable (timer s) = false -> inHandler s = true ->
  exists w x, Timer_CallBack tt s =
      Ok (set_pending (LinkedList.ins PendingCompare (mkPending tt w TimerInt) (pending s))
           (set_timer (mkTimer (randomize (timer s)) false x)
             (if bool_decide (status s <> IdleMode) then set_yield true s else s))) /\
    totalTicks s < w <= totalTicks s + slice (timer s).
Proof.
  intros Hc Hd Hin. unfold Timer_CallBack, Alarm_CallBack, YieldOnReturn. rewrite Hin.
  case_bool_decide; cbn [ASSERT rbind].
  - exact (SetInterrupt_spec (set_yield true s) Hc Hd).
  - exact (SetInterrupt_spec s Hc Hd).
Qed.

#[global] Instance timer_handlers :
  Handlers (D := unit) (K := Timer * X) Timer_CallBack load
    (fun s => clock_ok s /\ disable (timer s) = false /\ in_order (others s)).
Proof.
  split; [|done|done|].
  - intros [] s (Hc & Hd & Hx) Hin Hlev. destruct (Timer_CallBack_spec s Hc Hd Hin) as (w & x & -> & Hw).
    eexists _, [mkPending tt w TimerInt]. split; [reflexivity|]. unfold clock_ok in *.
    assert (Forall (fun p => totalTicks s < when p) [mkPending tt w TimerInt]) by (repeat constructor; cbn; lia).
    case_bool_decide; done.
  - intros s (Hc & Hd & Hx). destruct (delayed_ok _ Hx) as (x' & E & Hx'). exists (timer s, x').
    unfold load. fold (others s). rewrite E. done.
Qed.

(** The timer is running: one timer interrupt is pending, within a slice. *)
Definition ticking (s : tsys) : Prop :=
  disable (timer s) = false /\ in_order (others s) /\ inHandler s = false /\ yieldOnReturn s = false /\
  exists w, pending s = [mkPending tt w TimerInt] /\ totalTicks s < w <= totalTicks s + slice (timer s).

Lemma Alarm_init_ticking doRandom n x : in_order x ->
  exists s, Alarm_init doRandom (Interrupt_init (mkTimer false false n, x)) = Ok s /\ ticking s /\
    totalTicks s = 0.
Proof.
  intros Hx. unfold Alarm_init.
  destruct (SetInterrupt_spec (set_timer (mkTimer doRandom false n) (Interrupt_init (mkTimer false false n, x))))
    as (w & y & E & Hw); [done|done|].
  eexists. split; [exact E|]. split; [|done]. do 4 (split; [done|]). exists w. split; [done|].
  unfold slice in *. exact Hw.
Qed.

(** [Thread::Yield] of the thread system. *)
Variable Yield : tsys -> res (tsys).

(** One tick while a thread runs: the timer's handler runs exactly when the
    timer interrupt is due, and exactly then the thread yields. *)
Lemma one_tick s w :
  0 <= totalTicks s < 2 ^ 31 - 2000 -> ticking s -> status s <> IdleMode ->
  pending s = [mkPending tt w TimerInt] ->
  let now := totalTicks s + if bool_decide (status s = SystemMode) then SystemTick else UserTick in
  (now < w -> exists s', OneTick Timer_CallBack Yield load s = Ok s' /\
     ticking s' /\ totalTicks s' = now /\ status s' = status s /\ pending s' = pending s) /\
  (w <= now -> exists s2, ticking s2 /\ totalTicks s2 = now /\ status s2 = SystemMode /\
     OneTick Timer_CallBack Yield load s = (let* s3 := Yield s2 in Ok (setStatus (status s) s3))).
Proof.
  intros Hc (Hd & Hx & Hin & Hy & w' & Hp' & Hw) Hs Hp now.
  rewrite Hp in Hp'. injection Hp' as <-.
  assert (s32 (totalTicks s + if bool_decide (status s = SystemMode) then SystemTick else UserTick) = now) as En.
  { subst now. case_bool_decide; apply s32_id; unfold SystemTick, UserTick; zlia. }
  assert (totalTicks s < now <= totalTicks s + 10) as Hn
    by (subst now; case_bool_decide; unfold SystemTick, UserTick; lia).
  unfold OneTick. set (s1 := ChangeLevel IntOff (tick s)).
  assert (totalTicks s1 = now /\ pending s1 = pending s /\ rest s1 = rest s /\ status s1 = status s /\
    yieldOnReturn s1 = false /\ inHandler s1 = false /\ level s1 = IntOff) as (E1 & E2 & E3 & E4 & E5 & E6 & E7) by done.
  unfold CheckIfDue. rewrite E7, E2, Hp. cbn [bool_decide ASSERT rbind when negb andb].
  rewrite bool_decide_true by done. cbn [ASSERT rbind]. rewrite E1, andb_true_r. split; intros Hlt.
  - rewrite (proj2 (Z.ltb_lt now w)) by done. cbn [rbind snd ChangeLevel yieldOnReturn].
    rewrite E5. eexists. split; [reflexivity|]. split; [|done].
    do 4 (split; [done|]).
    exists w. split; [exact Hp|].
    change (totalTicks s1 < w <= totalTicks s1 + slice (timer s)). lia.
  - rewrite (proj2 (Z.ltb_ge now w)) by done.
    destruct (delayed_ok (others s1) Hx) as (x' & Ex & Hx').
    assert (load (rest s1) = Ok (timer s, x')) as -> by (unfold load; fold (others s1); by rewrite Ex). cbn [rbind].
    set (s2 := set_inHandler true (set_rest (timer s, x') s1)).
    change (pending (set_rest (timer s, x') s1)) with (pending s1). rewrite E2, Hp.
    cbn [length fire_loop]. change (pending s2) with (pending s1). rewrite E2, Hp. cbn [callOnInterrupt].
    destruct (Timer_CallBack_spec (set_pending [] s2)) as (v & x & -> & Hv);
      [unfold clock_ok; change (totalTicks (set_pending [] s2)) with (totalTicks s1); lia|done|done|].
    change (totalTicks (set_pending [] s2)) with (totalTicks s1) in Hv. rewrite E1 in Hv.
    rewrite bool_decide_true by done.
    cbn [rbind set_pending set_timer set_rest set_yield pending LinkedList.ins when totalTicks snd].
    change (totalTicks s2) with (totalTicks s1). rewrite E1, (proj2 (Z.leb_gt v now)) by lia.
    cbn [rbind snd set_inHandler ChangeLevel yieldOnReturn].
    eexists. split; [|split; [|split; [|reflexivity]]]; [|exact E1|done].
    do 4 (split; [done|]). exists v. split; [done|].
    change (totalTicks s1 < v <= totalTicks s1 + slice (timer s)). rewrite E1. exact Hv.
Qed.

(** [n] ticks of the clock. *)
Fixpoint ticks (n : nat) (s : tsys) : res (tsys) :=
  match n with
  | O => Ok s
  | S n' => let* s1 := OneTick Timer_CallBack Yield load s in ticks n' s1
  end.

(** Time slicing: a running thread (or the kernel working for it) is made
    to yield, whatever it does, before its slice of 100 ticks (200 if the timer
    is random) is over.  Ticks pass without a yield until the pending timer
    interrupt is due; the tick that reaches it calls [Thread::Yield] in system
    mode, restores the mode afterwards, and the timer is set again. *)
Theorem time_slicing s :
  0 <= totalTicks s < 2 ^ 31 - 3000 -> ticking s -> status s <> IdleMode ->
  exists n s1 s2, Z.of_nat n < slice (timer s) /\ ticks n s = Ok s1 /\
    OneTick Timer_CallBack Yield load s1 = (let* s3 := Yield s2 in Ok (setStatus (status s) s3)) /\
    ticking s2 /\ status s2 = SystemMode /\
    totalTicks s < totalTicks s2 < totalTicks s + slice (timer s) + SystemTick.
Proof.
  intros Hc Ht Hs. pose proof Ht as (_ & _ & _ & _ & w & Hp & Hw).
  assert (slice (timer s) <= 200) as Hsl by (unfold slice, TimerTicks; destruct (randomize _); lia).
  remember (slice (timer s)) as b eqn:Eb. clear Eb.
  assert (exists n s1 s2, Z.of_nat n < w - totalTicks s /\ ticks n s = Ok s1 /\
    OneTick Timer_CallBack Yield load s1 = (let* s3 := Yield s2 in Ok (setStatus (status s) s3)) /\
    ticking s2 /\ status s2 = SystemMode /\ totalTicks s < totalTicks s2 < w + SystemTick)
    as (n & s1 & s2 & Hn & Et & E & Ht2 & Hs2 & Hb).
  { assert (0 <= totalTicks s /\ w < 2 ^ 31 - 2000) as Hc' by lia. clear Hc. destruct Hw as [Hw _].
    remember (Z.to_nat (w - totalTicks s)) as k eqn:Ek. assert (w - totalTicks s <= Z.of_nat k) as Hk by lia.
    clear Ek. revert s Ht Hs Hp Hw Hc' Hk. induction k as [|k IH]; intros s Ht Hs Hp Hw Hc Hk; [lia|].
    destruct (one_tick s w) as [Hno Hyes]; [lia|done..|].
    set (d := if bool_decide (status s = SystemMode) then SystemTick else UserTick) in *.
    assert (1 <= d <= 10) as Hd by (subst d; case_bool_decide; unfold SystemTick, UserTick; lia).
    destruct (decide (w <= totalTicks s + d)) as [Hle|Hgt].
    - destruct (Hyes Hle) as (s2 & Ht2 & Ec & Hs2 & E). exists 0%nat, s, s2. unfold SystemTick.
      do 5 (split; [done || lia|]). lia.
    - destruct Hno as (s' & E' & Ht' & Ec' & Es' & Ep'); [lia|].
      destruct (IH s') as (n & s1 & s2 & Hn & Et & E & Ht2 & Hs2 & Hb); [done|congruence|congruence|lia..|].
      exists (S n), s1, s2. cbn [ticks]. rewrite E', <- Es'. cbn [rbind].
      do 5 (split; [done || lia|]). lia. }
  exists n, s1, s2. unfold SystemTick in *. do 5 (split; [done || lia|]). lia.
Qed.

End Timer.

(** The timer started at boot, without randomness, and a first look at it. *)
Definition booted_timer : sys unit (Timer * unit) :=
  match Alarm_init (fun x => (x mod 2 ^ 32, x + 1)) false (Interrupt_init (mkTimer false false 0, tt)) with
  | Ok s => s
  | Err _ => Interrupt_init (mkTimer false true 0, tt)
  end.

Lemma counter_unsigned x : 0 <= fst ((fun x => (x mod 2 ^ 32, x + 1)) x) < 2 ^ 32.
Proof. cbn [fst]. apply Z.mod_pos_bound. lia. Qed.

Lemma unit_ok (x : unit) : True -> exists x', Ok x = Ok x' /\ True.
Proof. intros _. by exists x. Qed.


Lemma time_slicing_witness :
  exists n s1 s2, Z.of_nat n < 100 /\
    ticks (fun x => (x mod 2 ^ 32, x + 1)) Ok Ok n booted_timer = Ok s1 /\
    totalTicks s2 < 110 /\
    OneTick (Timer_CallBack (fun x => (x mod 2 ^ 32, x + 1))) Ok (load Ok) s1 = Ok (setStatus SystemMode s2).
Proof.
  destruct (time_slicing (fun x => (x mod 2 ^ 32, x + 1)) counter_unsigned Ok (fun _ => True) unit_ok Ok booted_timer)
    as (n & s1 & s2 & Hn & Et & E & _ & _ & Hb); [by split|by repeat split; exists 100|done|].
  exists n, s1, s2. exact (conj Hn (conj Et (conj (proj2 Hb) E))).
Defined.

End Interrupt.
