(* ===== verification/Run.v ===== *)
(** * Running user programs

    [Machine::Run] (machine/mipssim.cc): instructions and ticks of the clock in
    turn, for ever.  It composes the simulator of Mips.v with the interrupts and
    the timer of Interrupt.v, over one state: the clock and the pending
    interrupts, the timer, and the simulated machine, on which the simulation
    of interrupts calls [DelayedLoad(0, 0)].  The exception handler of the kernel
    and [Thread::Yield] are parameters; the time that system calls take is not
    counted, and the calls of the single-step debugger are in Debugger.v. *)

From S2P Require Import Prelude Ints Machine Mips Interrupt.

Module Run.

Import Machine Mips Interrupt.

Section Run.

(** The exception handler of the kernel, the random numbers of the timer, and
    the yield of the thread that runs the program. *)
Context (ExceptionHandler : ExceptionType -> machine -> res machine).
Context (RandomNumber : Z -> Z * Z).

Notation user := (sys unit (Timer * machine)).

Context (Yield : user -> res user).

(** [kernel->machine->DelayedLoad(0, 0)] *)
Definition settle : machine -> res machine := Machine.DelayedLoad 0 0.

Definition set_machine (m : machine) (s : user) : user := set_rest (timer s, m) s.

(** One turn of the loop. *)
Definition turn (s : user) : res user :=
  let* m := OneInstruction ExceptionHandler (others s) in
  OneTick (Timer_CallBack RandomNumber) Yield (load settle) (set_machine m s).

(** [n] turns of the loop. *)
Fixpoint turns (n : nat) (s : user) : res user :=
  match n with
  | O => Ok s
  | S n' => let* s1 := turn s in turns n' s1
  end.

(** [Run], up to its [n]-th instruction. *)
Definition Run (n : nat) (s : user) : res user := turns n (setStatus UserMode s).

Hypothesis (Hhandler : handler_ok ExceptionHandler).
Hypothesis (RandomNumber_unsigned : forall x, 0 <= fst (RandomNumber x) < 2 ^ 32).

Lemma settle_ok m : machine_ok m -> exists m', settle m = Ok m' /\ machine_ok m'.
Proof. intros Hm%machine_ok_almost. by apply DelayedLoad_ok. Qed.

(** The timer runs and the machine is in a good state. *)
Notation running := (ticking machine_ok).

(** A turn of the loop: the instruction traps the host, the time slice goes on,
    or it ends with a yield. *)
Lemma turn_cases s w :
  0 <= totalTicks s < 2 ^ 31 - 2000 -> running s -> status s = UserMode -> pending s = [mkPending tt w TimerInt] ->
  turn s = Err ArithTrap \/
  (totalTicks s + 1 < w /\ exists s', turn s = Ok s' /\ running s' /\ totalTicks s' = totalTicks s + 1 /\
     status s' = UserMode /\ pending s' = pending s) \/
  (w <= totalTicks s + 1 /\ exists s2, turn s = (let* s3 := Yield s2 in Ok (setStatus UserMode s3)) /\ running s2 /\
     totalTicks s2 = totalTicks s + 1 /\ status s2 = SystemMode).
Proof.
  intros Hc Hr Hs Hp. pose proof Hr as (Hd & Hm & Hin & Hy & w' & Hp' & Hw). unfold turn.
  destruct (OneInstruction_safe ExceptionHandler Hhandler (others s) Hm) as [(m & -> & Hm')|(-> & _)]; [|by left].
  right. cbn [rbind].
  assert (running (set_machine m s)) as Hr' by (do 4 (split; [done|]); by exists w').
  destruct (one_tick RandomNumber RandomNumber_unsigned settle machine_ok settle_ok Yield (set_machine m s) w)
    as [Hno Hyes]; [done|done|by cbn; rewrite Hs|done|].
  cbn [set_machine set_rest status totalTicks pending] in Hno, Hyes. rewrite Hs in Hno, Hyes.
  rewrite bool_decide_false in Hno, Hyes by done. unfold UserTick in *.
  destruct (Z.lt_ge_cases (totalTicks s + 1) w) as [Hlt|Hge].
  - left. split; [done|]. destruct (Hno Hlt) as (s' & E & H1 & H2 & H3 & H4). by exists s'.
  - right. split; [lia|]. destruct (Hyes ltac:(lia)) as (s2 & H1 & H2 & H3 & E). by exists s2.
Qed.

Lemma turns_preempted k : forall s w,
  0 <= totalTicks s -> w < 2 ^ 31 - 2000 -> running s -> status s = UserMode -> pending s = [mkPending tt w TimerInt] ->
  w - totalTicks s <= Z.of_nat k ->
  exists n s1, (n < k)%nat /\ turns n s = Ok s1 /\ running s1 /\
    (turn s1 = Err ArithTrap \/
     exists s2, turn s1 = (let* s3 := Yield s2 in Ok (setStatus UserMode s3)) /\ running s2 /\
       totalTicks s2 = totalTicks s + Z.of_nat n + 1 /\ status s2 = SystemMode).
Proof.
  induction k as [|k IH]; intros s w Hc Hw Hr Hs Hp Hk.
  { destruct Hr as (_ & _ & _ & _ & w' & Hp' & Hw'). rewrite Hp in Hp'. injection Hp' as <-. lia. }
  pose proof Hr as (_ & _ & _ & _ & w' & Hp' & Hw'). rewrite Hp in Hp'. injection Hp' as <-.
  destruct (turn_cases s w) as [E|[(Hlt & s' & E & Hr' & Ht' & Hs' & Hp')|(Hge & s2 & E & Hr2 & Ht2 & Hs2)]]; [lia|done..| | |].
  - exists 0%nat, s. split; [lia|]. split; [done|]. split; [done|]. by left.
  - destruct (IH s' w) as (n & s1 & Hn & Et & Hr1 & Hcase); [lia|done|done|done|congruence|lia|].
    exists (S n), s1. split; [lia|]. cbn [turns]. rewrite E. cbn [rbind]. split; [done|]. split; [done|].
    destruct Hcase as [|(s2 & E2 & Hr2 & Ht2 & Hs2)]; [by left|]. right. exists s2. split_and!; try done. lia.
  - exists 0%nat, s. split; [lia|]. split; [done|]. split; [done|]. right. exists s2. split_and!; try done. lia.
Qed.


End Run.

(** A program of zeros (which decode to SLL r0, r0, 0) runs for 100 ticks. *)
Definition zeros_program : sys unit (Timer * machine) :=
  set_pending [mkPending tt 100 TimerInt] (Interrupt_init (mkTimer false false 0, one_page)).


End Run.
