(* ===== verification/Debugger.v ===== *)
(** * The single-step debugger

    [Machine::Debugger] and [Machine::DumpState] of machine/machine.cc,
    [Interrupt::DumpState] of machine/interrupt.cc, [Debug::IsEnabled] of
    lib/debug.cc, and the loop of
    [Machine::Run] with its calls of the debugger.  The standard input is a
    stream of the C++ library: the characters that are still to come, and
    whether it is good; a stream that has failed gives no more characters. *)

From S2P Require Import Prelude Ints CString Machine Mips Interrupt Run.

Module Debugger.

Import Machine Mips Interrupt.

Definition newline : Z := 10.
Definition tab : Z := 9.

(** ** Streams *)

Record istream := mkStream { chars : list Z; good : bool }.

(** The characters up to the next newline, [n] at most, and those behind. *)
Fixpoint get_until (n : nat) (l : list Z) : list Z * list Z :=
  match n, l with
  | S n', c :: l' =>
      if c =? newline then ([], l)
      else let '(s, rest) := get_until n' l' in (c :: s, rest)
  | _, _ => ([], l)
  end.

(** [cin.get(buf, n)]: the characters stored in [buf], to which it adds a zero.
    It leaves the newline in the stream; the stream fails when no character is
    stored, and when its end is reached. *)
Definition get_line (n : nat) (i : istream) : list Z * istream :=
  if good i then
    let '(s, rest) := get_until (n - 1) (chars i) in
    (s, mkStream rest (negb (bool_decide (s = [])) && negb (bool_decide (rest = []))))
  else ([], i).

(** [cin.get()], of which the character is not used. *)
Definition get_char (i : istream) : istream :=
  if good i then
    match chars i with
    | _ :: rest => mkStream rest true
    | [] => mkStream [] false
    end
  else i.

(** [sscanf(s, "%d", &num) == 1], and [num]: a number that is no [long] becomes
    the nearest one. *)
Definition sscanf_d (s : list Z) : option Z :=
  let s1 := skip_spaces s in
  let '(neg, s2) :=
    match s1 with
    | c :: s' => if c =? 45 then (true, s') else if c =? 43 then (false, s') else (false, s1)
    | [] => (false, s1)
    end in
  (fun n => Z.max (- 2 ^ 31) (Z.min (2 ^ 31 - 1) (if neg : bool then - n else n))) <$> parse_digits s2 None.

(** ** Which messages are printed *)

(** [strchr(s, c) != 0]; the terminating zero is part of the string. *)
Fixpoint strchr (s : list Z) (c : Z) : res bool :=
  match s with
  | [] => Err OutOfBounds
  | x :: s' => if x =? c then Ok true else if x =? 0 then Ok false else strchr s' c
  end.

(** [Debug::IsEnabled]; [enableFlags] is the string after the option -d, or
    null. *)
Definition IsEnabled (enableFlags : option (list Z)) (flag : Z) : res bool :=
  match enableFlags with
  | Some s =>
      let* b := strchr s flag in
      if b : bool then Ok true else strchr s 43
  | None => Ok false
  end.

Lemma strchr_spec l c : 0 ∉ l -> strchr (l ++ [0]) c = Ok (bool_decide (c = 0 \/ c ∈ l)).
Proof.
  induction l as [|x l IH]; intros H0; cbn [app strchr].
  - destruct (Z.eqb_spec 0 c) as [<-|Hc]; [done|]. rewrite bool_decide_false; [done|].
    intros [->|H]; [done|by apply not_elem_of_nil in H].
  - apply not_elem_of_cons in H0 as [Hx H0]. destruct (Z.eqb_spec x c) as [<-|Hc].
    + rewrite bool_decide_true; [done|]. right. by left.
    + rewrite (proj2 (Z.eqb_neq x 0)) by done. rewrite IH by done. f_equal. apply bool_decide_ext.
      rewrite elem_of_cons. naive_solver.
Qed.

(** A message is printed when its flag, or a plus sign, is among the flags. *)
Lemma IsEnabled_spec l flag : 0 ∉ l -> flag <> 0 ->
  IsEnabled (Some (l ++ [0])) flag = Ok (bool_decide (flag ∈ l \/ 43 ∈ l)).
Proof.
  intros H0 Hf. unfold IsEnabled. rewrite !strchr_spec by done. cbn [rbind].
  destruct (bool_decide_reflect (flag = 0 \/ flag ∈ l)) as [[H|H]|H]; [done|by rewrite bool_decide_true by auto|].
  f_equal. apply bool_decide_ext. naive_solver.
Qed.

(** ** The state that is printed *)

(** [Machine::DumpState] *)
Definition Machine_DumpState (m : machine) : res (list Z) :=
  let field name num out :=
    let* v := arr_get (registers m) num in
    Ok (out ++ [tab] ++ str name ++ [tab] ++ to_string v) in
  let* out :=
    for_range (Z.to_nat NumGPRegs) 0
      (fun i out =>
         let* v := arr_get (registers m) i in
         let out :=
           out ++ [tab] ++
           (if i =? StackReg then str "SP(" ++ to_string i ++ str "):"
            else if i =? RetAddrReg then str "RA(" ++ to_string i ++ str "):"
            else to_string i ++ str ":") ++ [tab] ++ to_string v in
         Ok (if Z.rem i 4 =? 3 then out ++ [newline] else out))
      (str "Machine registers:" ++ [newline]) in
  let* out := field "Hi:" HiReg out in
  let* out := field "Lo:" LoReg out in
  let* out := field "PC:" PCReg out in
  let* out := field "NextPC:" NextPCReg out in
  let* out := field "PrevPC:" PrevPCReg out in
  let* out := field "Load:" LoadReg out in
  let* out := field "LoadV:" LoadValueReg out in
  Ok (out ++ [newline]).

Definition intLevelNames (l : IntStatus) : list Z := match l with IntOff => str "off" | IntOn => str "on" end.

Definition intTypeNames (t : IntType) : list Z :=
  match t with
  | TimerInt => str "timer" | DiskInt => str "disk" | ConsoleWriteInt => str "console write"
  | ConsoleReadInt => str "console read" | NetworkSendInt => str "network send" | NetworkRecvInt => str "network recv"
  end.

Definition PrintPending {D} (p : PendingInterrupt D) : list Z :=
  str "Interrupt handler " ++ intTypeNames (type p) ++ str ", scheduled at " ++ to_string (when p).

(** [Interrupt::DumpState] *)
Definition Interrupt_DumpState {D K} (s : sys D K) : list Z :=
  str "Time: " ++ to_string (totalTicks s) ++ str ", interrupts " ++ intLevelNames (level s) ++ [newline] ++
  str "Pending interrupts:" ++ [newline] ++ concat (map PrintPending (pending s)) ++
  [newline] ++ str "End of pending interrupts" ++ [newline].

(** ** The debugger *)

(** The fields of [Machine] it uses, and the standard input. *)
Record debugging := mkDebugging { runUntilTime : Z; singleStep : bool; input : istream }.

Definition help : list Z :=
  str "Machine commands:" ++ [newline] ++
  str "    <return>  execute one instruction" ++ [newline] ++
  str "    <number>  run until the given timer tick" ++ [newline] ++
  str "    c         run until completion" ++ [newline] ++
  str "    ?         print help message" ++ [newline].

Definition unknown (buf : list Z) : list Z :=
  str "Unknown command: " ++ buf ++ [newline] ++ str "Type ? for help." ++ [newline].

(** The loop: what is printed, and the state when it is done. *)
Fixpoint debugger_loop (fuel : nat) (time : Z) (d : debugging) : res (list Z * debugging) :=
  let prompt := to_string time ++ str ">" in
  let '(line, i) := get_line 80 (input d) in
  let* buf := c_str (line ++ [0]) in
  match sscanf_d buf with
  | Some num => Ok (prompt, mkDebugging num (singleStep d) (get_char i))
  | None =>
      match buf with
      | [] => Ok (prompt, mkDebugging 0 (singleStep d) (get_char i))
      | c :: _ =>
          if c =? 99 then Ok (prompt, mkDebugging 0 false (get_char i))
          else
            let answer := if c =? 63 then help else unknown buf in
            match fuel with
            | O => Err Diverges
            | S fuel' =>
                let2* (out, d) := debugger_loop fuel' time (mkDebugging 0 (singleStep d) (get_char i)) in
                Ok (prompt ++ answer ++ out, d)
            end
      end
  end.

Notation user := (sys unit (Timer * machine)).

(** [Debugger]; each turn of its loop but the last takes a character at least. *)
Definition Debugger (s : user) (d : debugging) : res (list Z * debugging) :=
  let* text := Machine_DumpState (others s) in
  let2* (out, d) := debugger_loop (length (chars (input d))) (totalTicks s) d in
  Ok (Interrupt_DumpState s ++ text ++ out, d).

Section Run.
Context (ExceptionHandler : ExceptionType -> machine -> res machine) (RandomNumber : Z -> Z * Z).
Context (Yield : user -> res user).

(** One turn of the loop of [Machine::Run]. *)
Definition debug_turn (s : user) (d : debugging) : res (list Z * user * debugging) :=
  let* s := Run.turn ExceptionHandler RandomNumber Yield s in
  if singleStep d && (runUntilTime d <=? totalTicks s) then
    let2* (out, d) := Debugger s d in Ok (out, s, d)
  else Ok ([], s, d).

Fixpoint debug_turns (n : nat) (s : user) (d : debugging) : res (list Z * user * debugging) :=
  match n with
  | O => Ok ([], s, d)
  | S n' =>
      let3* (out, s, d) := debug_turn s d in
      let3* (out', s, d) := debug_turns n' s d in
      Ok (out ++ out', s, d)
  end.

(** [Run], up to its [n]-th instruction. *)
Definition debug_run (n : nat) (s : user) (d : debugging) : res (list Z * user * debugging) :=
  debug_turns n (setStatus UserMode s) d.

End Run.

(** ** The debugger always returns *)

Lemma get_until_split n : forall l s r, get_until n l = (s, r) -> l = s ++ r.
Proof.
  induction n as [|n IH]; intros [|c l] s r; cbn [get_until]; try by intros [= <- <-].
  destruct (c =? newline); [by intros [= <- <-]|]. destruct (get_until n l) as [s1 r1] eqn:E. intros [= <- <-].
  cbn [app]. f_equal. by apply IH.
Qed.

Lemma get_line_shrinks n i s i' : get_line n i = (s, i') -> (length s + length (chars i') = length (chars i) \/ s = [] /\ i' = i)%nat.
Proof.
  unfold get_line. destruct (good i); [|intros [= <- <-]; by right]. destruct (get_until _ _) as [s1 r1] eqn:E.
  intros [= <- <-]. apply get_until_split in E as ->. left. cbn [chars]. by rewrite length_app.
Qed.

Lemma get_char_shrinks i : (length (chars (get_char i)) <= length (chars i))%nat.
Proof. unfold get_char. destruct (good i); [|done]. destruct (chars i); cbn; lia. Qed.

Lemma debugger_loop_total fuel time : forall d, (length (chars (input d)) <= fuel)%nat ->
  exists out d', debugger_loop fuel time d = Ok (out, d').
Proof.
  induction fuel as [|fuel IH]; intros d Hf; cbn [debugger_loop]; destruct (get_line 80 (input d)) as [line i] eqn:E;
    pose proof (get_line_shrinks _ _ _ _ E) as Hl; destruct (c_str_ends line) as [buf Eb]; rewrite Eb; cbn [rbind];
    (destruct (sscanf_d buf); [by eexists _, _|]); (destruct buf as [|c buf]; [by eexists _, _|]);
    (destruct (c =? 99); [by eexists _, _|]);
    (assert (length line <> 0)%nat as Hne by (by destruct line)).
  - destruct Hl as [Hl|[-> _]]; [lia|done].
  - destruct Hl as [Hl|[-> _]]; [|done]. pose proof (get_char_shrinks i).
    destruct (IH (mkDebugging 0 (singleStep d) (get_char i))) as (out & d' & ->); [cbn [input]; lia|]. by eexists _, _.
Qed.

Lemma DumpState_total m : machine_ok m -> exists text, Machine_DumpState m = Ok text.
Proof.
  intros ((Hlen & _) & _). assert (forall i, 0 <= i < 40 -> exists v, arr_get (registers m) i = Ok v) as Hget.
  { intros i Hi. apply arr_get_in_range. lia. }
  unfold Machine_DumpState.
  match goal with |- context [for_range ?n 0 ?body ?o] =>
    destruct (for_range_inv (fun _ _ => True) n 0 body o) as (out & -> & _) end; [done| |].
  { intros i out Hi _. destruct (Hget i) as (v & ->); [unfold NumGPRegs in Hi; lia|]. by eexists. }
  cbn [rbind].
  do 7 (match goal with |- context [arr_get (registers m) ?i] => destruct (Hget i) as (? & ->); [done|]; cbn [rbind] end).
  by eexists.
Qed.

Lemma Debugger_total s d : machine_ok (others s) -> exists out d', Debugger s d = Ok (out, d').
Proof.
  intros (text & E)%DumpState_total. unfold Debugger. rewrite E. cbn [rbind].
  destruct (debugger_loop_total (length (chars (input d))) (totalTicks s) d) as (out & d' & ->); [done|]. by eexists _, _.
Qed.

(** ** Commands *)

(** A line that fits the buffer. *)
Definition plain (line : list Z) : Prop :=
  Forall (fun c => c <> 0 /\ c <> newline) line /\ (length line <= 79)%nat.

(** A line the debugger answers and asks again. *)
Definition chatter (line : list Z) : Prop :=
  plain line /\ line <> [] /\ head line <> Some 99 /\ sscanf_d line = None.

Definition answer (line : list Z) : list Z := if bool_decide (head line = Some 63) then help else unknown line.

Definition typed (lines : list (list Z)) : list Z := concat (map (fun l => l ++ [newline]) lines).

Lemma get_until_line n line rest : Forall (fun c => c <> 0 /\ c <> newline) line -> (length line <= n)%nat ->
  get_until n (line ++ newline :: rest) = (line, newline :: rest).
Proof.
  revert n. induction line as [|c line IH]; intros n Hl Hn; [by destruct n|]. apply Forall_cons in Hl as [[_ Hc] Hl].
  destruct n as [|n]; [cbn in Hn; lia|]. cbn [app get_until]. rewrite (proj2 (Z.eqb_neq _ _) Hc).
  rewrite IH; [done|done|cbn in Hn; lia].
Qed.

Lemma plain_get line rest : plain line ->
  get_line 80 (mkStream (line ++ newline :: rest) true) =
    (line, mkStream (newline :: rest) (negb (bool_decide (line = [])))) /\
  c_str (line ++ [0]) = Ok line.
Proof.
  intros [Hl Hn]. unfold get_line. cbn [good chars]. rewrite get_until_line by (done || lia). split.
  - by rewrite andb_true_r.
  - apply c_str_app. intros H0. rewrite Forall_forall in Hl. by destruct (Hl 0 H0).
Qed.

(** The input after a line was read. *)
Definition after (line rest : list Z) : istream :=
  if bool_decide (line = []) then mkStream (newline :: rest) false else mkStream rest true.

(** The end of the loop: a number, an empty line or a [c]. *)
Lemma loop_done fuel time t ss line rest : plain line ->
  (is_Some (sscanf_d line) \/ line = [] \/ head line = Some 99) ->
  debugger_loop fuel time (mkDebugging t ss (mkStream (line ++ newline :: rest) true)) =
    Ok (to_string time ++ str ">",
        mkDebugging (default 0 (sscanf_d line)) (ss && negb (bool_decide (head line = Some 99))) (after line rest)).
Proof.
  intros Hp Hd. destruct (plain_get line rest Hp) as [E1 E2].
  assert (get_char (mkStream (newline :: rest) (negb (bool_decide (line = [])))) = after line rest) as E3.
  { unfold after, get_char. cbn [good chars]. by destruct (bool_decide (line = [])). }
  destruct fuel; cbn [debugger_loop input singleStep]; rewrite E1, E2; cbn [rbind]; rewrite E3;
  (destruct (sscanf_d line) as [num|] eqn:En;
    [rewrite bool_decide_false; [by rewrite andb_true_r|];
     intros Hh; destruct line as [|c line]; [done|]; injection Hh as ->; done|]);
  destruct Hd as [[? [=]]|[->|Hh]]; try (by rewrite bool_decide_false, andb_true_r);
  (destruct line as [|c line]; [done|]; injection Hh as ->; cbn [Z.eqb Pos.eqb]; by rewrite andb_false_r).
Qed.

Lemma loop_answers talk : forall fuel time t ss line rest, Forall chatter talk -> plain line ->
  (length talk <= fuel)%nat -> (is_Some (sscanf_d line) \/ line = [] \/ head line = Some 99) ->
  debugger_loop fuel time (mkDebugging t ss (mkStream (typed talk ++ line ++ newline :: rest) true)) =
    Ok (concat (map (fun l => (to_string time ++ str ">") ++ answer l) talk) ++ to_string time ++ str ">",
        mkDebugging (default 0 (sscanf_d line)) (ss && negb (bool_decide (head line = Some 99))) (after line rest)).
Proof.
  induction talk as [|l talk IH]; intros fuel time t ss line rest Ht Hp Hf Hd; [by apply loop_done|].
  apply Forall_cons in Ht as [(Hl & Hne & Hh & Hn) Ht]. destruct fuel as [|fuel]; [cbn in Hf; lia|].
  unfold typed. cbn [map concat]. rewrite <- !app_assoc. cbn [app]. fold (typed talk).
  destruct (plain_get l (typed talk ++ line ++ newline :: rest) Hl) as [E1 E2].
  cbn [debugger_loop input singleStep]. rewrite E1, E2. cbn [rbind]. rewrite Hn.
  destruct l as [|c l]; [done|]. rewrite bool_decide_false by done. cbn [negb]. unfold get_char. cbn [good chars].
  assert ((c =? 99) = false) as -> by (apply Z.eqb_neq; intros ->; done).
  rewrite IH by (done || (cbn in Hf; lia)). cbn [rbind]. unfold answer at 2. cbn [head].
  replace (bool_decide (Some c = Some 63)) with (c =? 63); [by rewrite <- !app_assoc|].
  destruct (Z.eqb_spec c 63) as [->|]; [done|]. rewrite bool_decide_false by congruence. done.
Qed.

(** A number is read as it is printed. *)
Lemma sscanf_to_string n : 0 <= n < 2 ^ 31 -> sscanf_d (to_string n) = Some n.
Proof.
  intros Hn. rewrite to_string_nonneg by lia. pose proof (digits_digits n) as Hd.
  pose proof (parse_digits_app (digits n) [] None Hd ltac:(done) (or_introl (digits_not_nil n))) as Hp.
  rewrite app_nil_r in Hp. change (default 0 None) with 0 in Hp. rewrite digits_value in Hp by lia. unfold sscanf_d.
  destruct (digits n) as [|c ds]; [done|]. apply Forall_cons in Hd as [Hc _]. cbn [skip_spaces].
  assert (isspace c = false) as ->.
  { unfold isspace. rewrite (proj2 (Z.eqb_neq c 32)), (proj2 (Z.leb_gt c 13)) by lia. by rewrite andb_false_r. }
  rewrite (proj2 (Z.eqb_neq c 45)), (proj2 (Z.eqb_neq c 43)) by lia. rewrite Hp. cbn. f_equal. lia.
Qed.

Lemma length_typed l rest : (length l <= length (typed l ++ rest))%nat.
Proof.
  rewrite length_app. unfold typed. induction l as [|x l IH]; [cbn; lia|]. cbn [map concat length].
  rewrite !length_app. cbn [length]. lia.
Qed.

Section Properties.
Context (ExceptionHandler : ExceptionType -> machine -> res machine) (RandomNumber : Z -> Z * Z).
Context (Yield : user -> res user).

Notation turns := (Run.turns ExceptionHandler RandomNumber Yield).
Notation Run := (Run.Run ExceptionHandler RandomNumber Yield).
Notation debug_turns := (debug_turns ExceptionHandler RandomNumber Yield).
Notation debug_run := (debug_run ExceptionHandler RandomNumber Yield).

Lemma turns_transparent n : forall s d,
  (forall k s1, (k <= n)%nat -> turns k s = Ok s1 -> machine_ok (others s1)) ->
  match turns n s with
  | Ok s' => exists out d', debug_turns n s d = Ok (out, s', d')
  | Err e => debug_turns n s d = Err e
  end.
Proof.
  induction n as [|n IH]; intros s d Hok; [by eexists _, _|]. cbn [Run.turns Debugger.debug_turns].
  unfold debug_turn. destruct (Run.turn ExceptionHandler RandomNumber Yield s) as [s1|e] eqn:E; cbn [rbind]; [|done].
  assert (machine_ok (others s1)) as Hm by (apply (Hok 1%nat); [lia|]; cbn; by rewrite E).
  assert (exists out d1, (if singleStep d && (runUntilTime d <=? totalTicks s1)
    then let2* (out, d0) := Debugger s1 d in Ok (out, s1, d0) else Ok ([], s1, d)) = Ok (out, s1, d1)) as (out & d1 & ->).
  { destruct (_ && _); [|by eexists _, _]. destruct (Debugger_total s1 d Hm) as (out & d1 & ->). by eexists _, _. }
  cbn [rbind]. specialize (IH s1 d1). destruct (turns n s1) as [s2|e] eqn:E2.
  - destruct IH as (out' & d2 & ->); [|by eexists _, _].
    intros k s3 Hk Ek. apply (Hok (S k)); [lia|]. cbn. by rewrite E.
  - rewrite IH; [done|]. intros k s3 Hk Ek. apply (Hok (S k)); [lia|]. cbn. by rewrite E.
Qed.

(** C25: The debugger is transparent.  Whatever is typed, [Machine::Run] with the
    single-step debugger executes the same instructions with the same results as
    without it, up to any number of instructions: every call of the debugger
    returns, prints the state and changes nothing of the machine, of the clock or
    of the pending interrupts; where the program without the debugger ends with an
    error, it ends with the same one. *)
Theorem debugger_transparent n s d :
  (forall k s1, (k <= n)%nat -> turns k (setStatus UserMode s) = Ok s1 -> machine_ok (others s1)) ->
  match Run n s with
  | Ok s' => exists out d', debug_run n s d = Ok (out, s', d')
  | Err e => debug_run n s d = Err e
  end.
Proof. apply turns_transparent. Qed.

(** A stream that has failed stays so, and the debugger goes on after each
    instruction. *)
Lemma Debugger_deaf s d text : Machine_DumpState (others s) = Ok text -> good (input d) = false ->
  Debugger s d = Ok (Interrupt_DumpState s ++ text ++ to_string (totalTicks s) ++ str ">",
                     mkDebugging 0 (singleStep d) (input d)).
Proof.
  intros E Hg. unfold Debugger. rewrite E. cbn [rbind].
  destruct (length (chars (input d))); cbn [debugger_loop]; unfold get_line, get_char; rewrite Hg; cbn; by rewrite Hg.
Qed.

Lemma turns_deaf n : forall s d out s' d', good (input d) = false -> debug_turns n s d = Ok (out, s', d') ->
  input d' = input d /\ singleStep d' = singleStep d.
Proof.
  induction n as [|n IH]; intros s d out s' d' Hg; cbn [Debugger.debug_turns]; [by intros [= _ _ <-]|].
  unfold debug_turn. intros E. apply bind_Ok_inv in E as ([[out1 s1] d1] & E & E2).
  apply bind_Ok_inv in E2 as ([[out2 s2] d2] & E2 & [= _ _ <-]). apply bind_Ok_inv in E as (s3 & E3 & E).
  assert (input d1 = input d /\ singleStep d1 = singleStep d) as [Hi Hs].
  { destruct (_ && _); [|by injection E as _ _ <-]. apply bind_Ok_inv in E as ([o d0] & E & [= _ _ <-]).
    pose proof E as Et. unfold Debugger in Et. apply bind_Ok_inv in Et as (text & Et & _).
    rewrite (Debugger_deaf s3 d text Et Hg) in E. by injection E as _ <-. }
  destruct (IH s1 d1 out2 s2 d2) as [H1 H2]; [by rewrite Hi|done|]. split; congruence.
Qed.

(** C26: The commands of the debugger.  It answers each line that is no command
    (and [?] with the help) with a new prompt, and stops reading at the first
    line that is one: after a number the program runs until the clock shows it;
    after a line that begins with [c] the debugger is not entered again; after an
    empty line one instruction is executed.  After the first two the input goes on
    with the next line.  After the empty line it does not: the stream has failed,
    and however many instructions are executed from then on, nothing that is typed
    is read, and single stepping does not end. *)
Theorem debugger_commands s d text talk line rest :
  Machine_DumpState (others s) = Ok text -> Forall chatter talk -> plain line ->
  input d = mkStream (typed talk ++ line ++ newline :: rest) true ->
  let prompt := to_string (totalTicks s) ++ str ">" in
  let out := Interrupt_DumpState s ++ text ++ concat (map (fun l => prompt ++ answer l) talk) ++ prompt in
  (forall t, 0 <= t < 2 ^ 31 -> line = to_string t ->
     Debugger s d = Ok (out, mkDebugging t (singleStep d) (mkStream rest true))) /\
  (head line = Some 99 -> Debugger s d = Ok (out, mkDebugging 0 false (mkStream rest true))) /\
  (line = [] -> exists d1, Debugger s d = Ok (out, d1) /\ runUntilTime d1 = 0 /\ singleStep d1 = singleStep d /\
     forall n s1 out' s' d', debug_turns n s1 d1 = Ok (out', s', d') ->
       input d' = input d1 /\ singleStep d' = singleStep d).
Proof.
  intros Ht Hch Hp Hi prompt out. destruct d as [t0 ss i]. cbn [input singleStep] in *. subst i.
  assert (is_Some (sscanf_d line) \/ line = [] \/ head line = Some 99 ->
    Debugger s (mkDebugging t0 ss (mkStream (typed talk ++ line ++ newline :: rest) true)) =
    Ok (out, mkDebugging (default 0 (sscanf_d line)) (ss && negb (bool_decide (head line = Some 99))) (after line rest))) as E.
  { intros Hd. unfold Debugger. rewrite Ht. cbn [rbind input chars].
    by rewrite (loop_answers talk _ _ _ _ _ _ Hch Hp (length_typed _ _) Hd). }
  assert (line <> [] -> after line rest = mkStream rest true) as Ea.
  { intros Hn. unfold after. by rewrite bool_decide_false. }
  split_and!.
  - intros t Hr ->. rewrite E by (left; rewrite sscanf_to_string by done; by eexists).
    rewrite sscanf_to_string by done. cbn [default]. rewrite to_string_nonneg in * by lia.
    pose proof (digits_not_nil t) as Hn. rewrite Ea by done. rewrite bool_decide_false; [by rewrite andb_true_r|].
    intros Hh. pose proof (digits_digits t) as Hdg. destruct (digits t) as [|c l]; [done|]. injection Hh as ->.
    apply Forall_cons in Hdg as [? _]. lia.
  - intros Hh. rewrite E by auto. rewrite bool_decide_true by done. cbn [negb]. rewrite andb_false_r.
    destruct line as [|c l]; [done|]. injection Hh as ->. by rewrite Ea.
  - intros ->. eexists. split; [apply E; auto|]. split; [done|]. cbn [singleStep]. split; [by rewrite andb_true_r|].
    intros n s1 out' s' d' E'. apply turns_deaf in E' as [-> ->]; [|done]. cbn [singleStep]. by rewrite andb_true_r.
Qed.

End Properties.

(** An instruction of a program of zeros, single-stepped with a question mark
    and a number. *)
Definition stepped : debugging := mkDebugging 0 true (mkStream (str "?" ++ [newline] ++ str "90" ++ [newline]) true).

Lemma zeros_turn : exists s1,
  Run.turn (fun _ m => Ok m) (fun x => (x mod 2 ^ 32, x + 1)) Ok (setStatus UserMode Run.zeros_program) = Ok s1 /\
  machine_ok (others s1).
Proof.
  assert (handler_ok (fun _ m => Ok m)) as Hh by (intros which m Hm; by exists m).
  pose proof (Run.turn_cases (fun _ m => Ok m) (fun x => (x mod 2 ^ 32, x + 1)) Ok Hh Interrupt.counter_unsigned
    (setStatus UserMode Run.zeros_program) 100) as Hc.
  destruct Hc as [E|[(_ & s1 & E & Hr & _)|(Hlt & _)]].
  - by split.
  - split; [reflexivity|]. split; [exact one_page_ok|]. split; [reflexivity|]. split; [reflexivity|]. exists 100. by split.
  - reflexivity.
  - reflexivity.
  - vm_compute in E. discriminate.
  - exists s1. split; [exact E|apply Hr].
  - vm_compute in Hlt. by destruct Hlt.
Qed.

Lemma debugger_transparent_witness :
  exists out s' d', debug_run (fun _ m => Ok m) (fun x => (x mod 2 ^ 32, x + 1)) Ok 1 Run.zeros_program stepped =
    Ok (out, s', d').
Proof.
  destruct zeros_turn as (s1 & E & Hm). assert (machine_ok (others Run.zeros_program)) as H0 by exact one_page_ok.
  generalize dependent Run.zeros_program. intros z E H0.
  pose proof (debugger_transparent (fun _ m => Ok m) (fun x => (x mod 2 ^ 32, x + 1)) Ok 1 z stepped) as H.
  unfold Run.Run in H. cbn [Run.turns] in H. rewrite E in H. cbn [rbind] in H.
  destruct H as (out & d' & Ed); [|exists out, s1, d'; exact Ed].
  intros [|[|k]] s2 Hk; [intros [= <-]; exact H0| |lia]. cbn [Run.turns]. rewrite E. intros [= <-]. exact Hm.
Defined.

Lemma stepped_lines : Forall chatter [str "?"] /\ plain (to_string 90).
Proof.
  split.
  - apply Forall_singleton. split; [|by split_and!]. split; [by apply Forall_singleton|cbn; lia].
  - change (to_string 90) with [57; 48]. split; [|cbn; lia]. apply Forall_cons. split; [done|by apply Forall_singleton].
Qed.

Lemma debugger_commands_witness :
  exists out, Debugger Run.zeros_program stepped = Ok (out, mkDebugging 90 true (mkStream [] true)).
Proof.
  destruct (DumpState_total _ one_page_ok) as (text & E).
  destruct (debugger_commands (fun _ m => Ok m) (fun x => (x mod 2 ^ 32, x + 1)) Ok Run.zeros_program stepped text
    [str "?"] (to_string 90) []) as (H & _).
  - exact E.
  - exact (proj1 stepped_lines).
  - exact (proj2 stepped_lines).
  - reflexivity.
  - eexists. apply (H 90); [lia|reflexivity].
Defined.

End Debugger.
