(* ===== verification/Isolation.v ===== *)
(** * What an instruction can change, and what it depends on

    The simulator of Mips.v, seen from an address space: an instruction changes
    only the registers, the use and dirty bits of the page table and the memory of
    the frames it maps ([confined]), and does the same on two machines that agree
    on these ([agree]). *)

From S2P Require Import Prelude Ints Machine Mips.

Module Isolation.

Import Machine Mips.

(** ** A process stays within its address space *)

(** Two entries translate alike; the use and dirty bits may differ. *)
Definition same_map (e e' : TranslationEntry) : Prop :=
  virtualPage e' = virtualPage e /\ physicalPage e' = physicalPage e /\
  valid e' = valid e /\ readOnly e' = readOnly e.

(** [m'] differs from [m] at most in the registers, the status, the use and
    dirty bits, and the memory of the frames that the page table maps. *)
Definition confined (m m' : machine) : Prop :=
  tlb m' = tlb m /\ pageTableSize m' = pageTableSize m /\
  length (mainMemory m') = length (mainMemory m) /\
  exists t t', pageTable m = Some t /\ pageTable m' = Some t' /\ Forall2 same_map t t' /\
    forall j, ~ frame_of t (Z.of_nat j / PageSize) -> mainMemory m' !! j = mainMemory m !! j.

#[local] Instance same_map_refl : Reflexive same_map.
Proof. intros e. done. Qed.

#[local] Instance same_map_trans : Transitive same_map.
Proof. intros e1 e2 e3 (? & ? & ? & ?) (? & ? & ? & ?). split_and!; congruence. Qed.

Lemma frame_of_same t t' f : Forall2 same_map t t' -> frame_of t f -> frame_of t' f.
Proof.
  intros H (e & He & Hv & Hf). apply list_elem_of_lookup in He as [i He].
  destruct (Forall2_lookup_l _ _ _ _ _ H He) as (e' & He' & _ & Hp & Hv' & _). exists e'.
  split; [by eapply list_elem_of_lookup_2|]. split; congruence.
Qed.

Lemma confined_refl m : tables_ok m -> confined m m.
Proof. intros (_ & t & Ht & _). do 3 (split; [done|]). by exists t, t. Qed.

Lemma confined_trans m1 m2 m3 : confined m1 m2 -> confined m2 m3 -> confined m1 m3.
Proof.
  intros (E1 & E2 & E3 & t1 & t2 & Ht1 & Ht2 & F & M) (E4 & E5 & E6 & t2' & t3 & Ht2' & Ht3 & F' & M').
  assert (t2' = t2) as -> by congruence. do 3 (split; [congruence|]). exists t1, t3.
  split; [done|]. split; [done|]. split; [by etrans|]. intros j Hj. rewrite M', M; [done|done|].
  intros Hf. apply Hj. apply (frame_of_same t2); [|done].
  eapply Forall2_flip, Forall2_impl; [exact F|]. intros e e' (? & ? & ? & ?). split_and!; congruence.
Qed.

Lemma confined_tables m m' : tables_ok m -> confined m m' -> tables_ok m'.
Proof.
  intros (Ht & t0 & Hp & Hl) (E1 & E2 & _ & t & t' & Hp' & Hp'' & F & _). split; [congruence|].
  exists t'. split; [done|]. rewrite <- (Forall2_length _ _ _ F), E2. congruence.
Qed.

(** Only the registers and the status change. *)
Lemma confined_registers m m' : tables_ok m ->
  mainMemory m' = mainMemory m -> tlb m' = tlb m -> pageTable m' = pageTable m ->
  pageTableSize m' = pageTableSize m -> confined m m'.
Proof.
  intros (_ & t & Ht & _) E1 E2 E3 E4. unfold confined. rewrite E1, E2, E3, E4.
  do 3 (split; [done|]). by exists t, t.
Qed.

Lemma set_reg_rest n v m m' : set_reg n v m = Ok m' ->
  mainMemory m' = mainMemory m /\ tlb m' = tlb m /\ pageTable m' = pageTable m /\
  pageTableSize m' = pageTableSize m.
Proof. unfold set_reg. intros E. apply bind_Ok_inv in E as (rs & _ & [= <-]). done. Qed.

Lemma set_reg_confined n v m m' : tables_ok m -> set_reg n v m = Ok m' -> confined m m'.
Proof. intros Ht (E1 & E2 & E3 & E4)%set_reg_rest. by apply confined_registers. Qed.

Lemma touch_confined m t va w e : tables_ok m -> pageTable m = Some t ->
  t !! Z.to_nat (u32 va / PageSize) = Some e -> confined m (touch t va w e m).
Proof.
  intros (Ht & _) Hp He. split; [done|]. do 2 (split; [done|]). eexists t, _. split; [done|].
  split; [done|]. split; [|done].
  rewrite <- (list_insert_id t _ _ He) at 1. by apply Forall2_insert.
Qed.

(** ** Executing an instruction *)

Section Confined.

Context (ExceptionHandler : ExceptionType -> machine -> res machine).

(** The exception handler works on the address space of the caller only. *)
Definition handler_confined : Prop := forall which m m',
  tables_ok m -> length (mainMemory m) = Z.to_nat MemorySize ->
  ExceptionHandler which m = Ok m' -> confined m m'.

Context (Hhandler : handler_confined).
Context (m0 : machine).
Context (Htab0 : tables_ok m0) (Hlen0 : length (mainMemory m0) = Z.to_nat MemorySize).

Definition here (m : machine) : Prop := confined m0 m.

Lemma here_ok m : here m -> tables_ok m /\ length (mainMemory m) = Z.to_nat MemorySize.
Proof. intros H. split; [by eapply confined_tables|]. destruct H as (_ & _ & -> & _). done. Qed.

Lemma here_step m m' : here m -> (tables_ok m -> confined m m') -> here m'.
Proof. intros H Hc. eapply confined_trans; [exact H|]. apply Hc. by apply here_ok. Qed.

Lemma here_set_reg n v m m' : here m -> set_reg n v m = Ok m' -> here m'.
Proof. intros H E. eapply here_step; [exact H|]. intros. by eapply set_reg_confined. Qed.

Lemma here_DelayedLoad nr nv m m' : here m -> DelayedLoad nr nv m = Ok m' -> here m'.
Proof.
  intros H E. unfold DelayedLoad in E.
  apply bind_Ok_inv in E as (l & _ & E). apply bind_Ok_inv in E as (v & _ & E).
  apply bind_Ok_inv in E as (m1 & E1 & E). apply bind_Ok_inv in E as (m2 & E2 & E).
  apply bind_Ok_inv in E as (m3 & E3 & E). eauto using here_set_reg.
Qed.

Lemma here_raise which bad m m' : here m -> RaiseException ExceptionHandler which bad m = Ok m' -> here m'.
Proof.
  intros H E. unfold RaiseException in E. apply bind_Ok_inv in E as (m1 & E1 & E).
  apply bind_Ok_inv in E as (m2 & E2 & E). apply bind_Ok_inv in E as (m3 & E3 & [= <-]).
  apply (here_set_reg _ _ _ _ H) in E1. apply (here_DelayedLoad _ _ _ _ E1) in E2 as H2.
  assert (here m3) as H3.
  { apply here_ok in H2 as Hok. eapply here_step; [exact H2|]. intros _.
    eapply (Hhandler which (setStatus SystemMode m2)) in E3; [exact E3|apply Hok..]. }
  exact H3.
Qed.

Lemma here_ReadMem va size m o m' : is_size size -> here m ->
  ReadMem ExceptionHandler va size m = Ok (o, m') -> here m'.
Proof.
  intros Hsize H E. destruct (here_ok m H) as [Htab Hlen].
  destruct (Translate_cases m va size false Htab Hsize)
    as [(ex & Hex & ET & _)|(t & e & pa & Hp & Hmap & _)].
  - unfold ReadMem in E. rewrite ET in E. cbn [rbind] in E. rewrite decide_False in E by done.
    apply bind_Ok_inv in E as (m1 & E1 & [= <- <-]). by eapply here_raise.
  - rewrite (ReadMem_mapped _ m va size t e pa) in E by done. injection E as <- <-.
    eapply here_step; [exact H|]. intros _. apply touch_confined; [done|done|]. apply Hmap.
Qed.

Lemma here_WriteMem va size v m b m' : is_size size -> here m ->
  WriteMem ExceptionHandler va size v m = Ok (b, m') -> here m'.
Proof.
  intros Hsize H E. destruct (here_ok m H) as [Htab Hlen].
  destruct (Translate_cases m va size true Htab Hsize)
    as [(ex & Hex & ET & _)|(t & e & pa & Hp & Hmap & H0 & H1 & _)].
  - unfold WriteMem in E. rewrite ET in E. cbn [rbind] in E. rewrite decide_False in E by done.
    apply bind_Ok_inv in E as (m1 & E1 & [= <- <-]). by eapply here_raise.
  - rewrite (WriteMem_mapped _ m va size v t e pa) in E by done. injection E as <- <-.
    assert (Z.of_nat (length (le_bytes (Z.to_nat size) v)) = size) as Hb
      by (rewrite length_le_bytes; destruct Hsize as [->|[->| ->]]; done).
    eapply here_step; [exact H|]. intros _.
    destruct (touch_confined m t va true e) as (E1 & E2 & E3 & t1 & t2 & Ht1 & Ht2 & F & _);
      [done|done|apply Hmap|].
    split; [done|]. split; [done|]. assert (t1 = t) as -> by congruence. split.
    { cbn [mainMemory with_mem touch set_tables]. apply length_memcpy. rewrite Hlen. lia. }
    exists t, t2. do 3 (split; [done|]). intros j Hj. cbn [mainMemory with_mem touch set_tables].
    apply lookup_memcpy_out; [rewrite Hlen; lia|].
    assert (~ pa <= Z.of_nat j < pa + size) as Hne; [|lia].
    intros Hin. apply Hj. by apply (mapped_frame t va size true e pa).
Qed.

(** Every way a case of the [switch] ends is within the address space. *)
Definition keeps (r : res outcome) : Prop :=
  forall o, r = Ok o -> here (match o with Break m _ _ _ => m | Return m => m end).

Lemma keeps_break m pc lr lv : here m -> keeps (Ok (Break m pc lr lv)).
Proof. by intros H o [= <-]. Qed.

Lemma keeps_bind {X} (x : res X) k : (forall v, keeps (k v)) -> keeps (rbind x k).
Proof. intros H o E. apply bind_Ok_inv in E as (v & _ & E). by apply (H v). Qed.

Lemma keeps_set_reg n v m k : here m -> (forall m', here m' -> keeps (k m')) ->
  keeps (let* m := set_reg n v m in k m).
Proof. intros H Hk o E. apply bind_Ok_inv in E as (m' & E' & E). apply (Hk m'); [by eapply here_set_reg|done]. Qed.

Lemma keeps_link dst m k : here m -> (forall m', here m' -> keeps (k m')) ->
  keeps (let* m := link dst m in k m).
Proof.
  intros H Hk o E. apply bind_Ok_inv in E as (m' & E' & E). unfold link in E'.
  apply bind_Ok_inv in E' as (v & _ & E'). apply (Hk m'); [by eapply here_set_reg|done].
Qed.

Lemma keeps_assign dst v pc m : here m -> keeps (assign dst v pc m).
Proof. intros H. apply keeps_set_reg; [done|]. intros. by apply keeps_break. Qed.

Lemma keeps_branch c i pc m : here m -> keeps (branch c i pc m).
Proof. intros H. apply keeps_bind. intros v. by apply keeps_break. Qed.

Lemma keeps_raise which bad m : here m -> keeps (raise ExceptionHandler which bad m).
Proof. intros H o E. apply bind_Ok_inv in E as (m' & E' & [= <-]). by eapply here_raise. Qed.

Lemma keeps_read va size m k : is_size size -> here m -> (forall v m', here m' -> keeps (k v m')) ->
  keeps (read_or_return ExceptionHandler va size m k).
Proof.
  intros Hsize H Hk o E. apply bind_Ok_inv in E as ([v m'] & E' & E).
  apply here_ReadMem in E'; [|done..]. destruct v as [v|]; [by apply (Hk v m')|]. by injection E as <-.
Qed.

Lemma keeps_write va size v pc m : is_size size -> here m ->
  keeps (write_or_return ExceptionHandler va size v pc m).
Proof.
  intros Hsize H o E. apply bind_Ok_inv in E as ([b m'] & E' & [= <-]).
  apply here_WriteMem in E'; [|done..]. by destruct b.
Qed.

Lemma keeps_none : keeps (Err AssertFailure).
Proof. by intros o [=]. Qed.

Lemma keeps_trap : keeps (Err ArithTrap).
Proof. by intros o [=]. Qed.

(** Runs a case of the [switch]. *)
Ltac keep_case :=
  repeat first
    [ assumption
    | apply keeps_none | apply keeps_trap
    | apply keeps_link | apply keeps_set_reg
    | apply keeps_assign | apply keeps_branch | apply keeps_raise
    | apply keeps_read | apply keeps_write | apply keeps_break
    | match goal with
      | |- keeps (if ?b then _ else _) => destruct b
      | |- keeps (match ?v with (_, _) => _ end) => destruct v
      end
    | apply keeps_bind
    | (unfold is_size; lia)
    | progress intros ].

Lemma execute_keeps i pc m : here m -> keeps (execute ExceptionHandler i pc m).
Proof.
  intros Hm. unfold execute, execute_add, execute_branch, execute_div, execute_jump, execute_load,
    execute_hilo, execute_logic, execute_store, execute_other.
  destruct (opCode i); cbn [first_case]; keep_case.
Qed.

Lemma OneInstruction_here m m' : here m -> OneInstruction ExceptionHandler m = Ok m' -> here m'.
Proof.
  intros H E. unfold OneInstruction in E. apply bind_Ok_inv in E as (pc & _ & E).
  apply bind_Ok_inv in E as ([raw m1] & E1 & E). apply here_ReadMem in E1; [|by right; right|done].
  destruct raw as [raw|]; [|by injection E as <-].
  apply bind_Ok_inv in E as (i & _ & E). apply bind_Ok_inv in E as (npc & _ & E).
  apply bind_Ok_inv in E as (o & E2 & E). apply execute_keeps in E2; [|done].
  destruct o as [m2 pc' lr lv|m2]; [|by injection E as <-].
  apply bind_Ok_inv in E as (m3 & E3 & E). apply here_DelayedLoad in E3; [|done].
  apply bind_Ok_inv in E as (p & _ & E). apply bind_Ok_inv in E as (m4 & E4 & E).
  apply bind_Ok_inv in E as (n & _ & E). apply bind_Ok_inv in E as (m5 & E5 & E).
  eauto using here_set_reg.
Qed.

End Confined.

(** An instruction of a process touches its registers, the use and dirty bits of
    its pages and the memory of its own frames, and nothing else. *)
Lemma OneInstruction_confined H m m' : handler_confined H -> machine_ok m ->
  OneInstruction H m = Ok m' -> confined m m'.
Proof.
  intros Hh (_ & [Hlen _] & Htab). apply OneInstruction_here; try done. by apply confined_refl.
Qed.

(** ** Execution depends only on the address space *)

(** The machines look alike to a program: the same registers and page table, and
    the same memory in the frames that the table maps. *)
Definition agree (m m' : machine) : Prop :=
  registers m' = registers m /\ tlb m' = tlb m /\ pageTable m' = pageTable m /\
  pageTableSize m' = pageTableSize m /\ length (mainMemory m') = length (mainMemory m) /\
  forall t j, pageTable m = Some t -> frame_of t (Z.of_nat j / PageSize) -> mainMemory m' !! j = mainMemory m !! j.

#[export] Instance agree_equivalence : Equivalence agree.
Proof.
  split.
  - intros m. done.
  - intros m m' (E1 & E2 & E3 & E4 & E5 & M). split_and!; try done. intros t j Ht Hf. symmetry.
    apply (M t); [congruence|done].
  - intros m1 m2 m3 (E1 & E2 & E3 & E4 & E5 & M) (E1' & E2' & E3' & E4' & E5' & M').
    split_and!; try congruence. intros t j Ht Hf. rewrite <- (M t j Ht Hf). apply (M' t); [congruence|done].
Qed.

(** Equal results, up to a relation on the values. *)
Definition res_rel {X} (R : X -> X -> Prop) (r r' : res X) : Prop :=
  match r, r' with
  | Ok x, Ok x' => R x x'
  | Err e, Err e' => e = e'
  | _, _ => False
  end.

Lemma res_rel_bind {X Y} (R : X -> X -> Prop) (S : Y -> Y -> Prop) r r' k k' :
  res_rel R r r' -> (forall x x', R x x' -> res_rel S (k x) (k' x')) -> res_rel S (rbind r k) (rbind r' k').
Proof. intros Hr Hk. destruct r, r'; cbn in *; try done; auto. Qed.

Lemma res_rel_eq {X} (r : res X) : res_rel eq r r.
Proof. by destruct r. Qed.

(** The tables after a translation, in the other machine. *)
Lemma Translate_agree m m' va size w : tables_ok m -> agree m m' ->
  Translate va size w m' =
    (let* (tr, m1) := Translate va size w m in Ok (tr, set_tables (tlb m1) (pageTable m1) m')).
Proof.
  intros (Htlb & t & Hp & _) (_ & E2 & E3 & E4 & _). unfold Translate. rewrite E2, E3, E4, Htlb, Hp.
  assert (set_tables None (Some t) m' = m') as Em by (destruct m'; unfold set_tables; cbn in *; congruence).
  case_match; [cbn; by rewrite Htlb, Hp, Em|].
  rewrite !bool_decide_true by (by left || by right). cbn [ASSERT rbind deref].
  case_match; [cbn; by rewrite Htlb, Hp, Em|].
  destruct (arr_get t _) as [e|]; [|done]. cbn [rbind]. destruct (negb (valid e)); [cbn; by rewrite Htlb, Hp, Em|].
  unfold use_entry. case_match; [cbn; by rewrite Htlb, Hp, Em|]. case_match; [cbn; by rewrite Htlb, Hp, Em|].
  destruct (arr_set t _ _); [|done]. cbn [rbind]. by repeat (destruct (ASSERT _); cbn [rbind]).
Qed.

(** Machines that agree, on a linear page table. *)
Definition twin (m m' : machine) : Prop :=
  agree m m' /\ tables_ok m /\ length (mainMemory m) = Z.to_nat MemorySize.

Lemma twin_right m m' : twin m m' -> tables_ok m' /\ length (mainMemory m') = Z.to_nat MemorySize.
Proof.
  intros ((_ & E2 & E3 & E4 & E5 & _) & (Ht & t & Hp & Hl) & Hm). split; [|congruence].
  split; [congruence|]. exists t. split; congruence.
Qed.

Lemma twin_reg m m' n : twin m m' -> reg n m' = reg n m.
Proof. intros ((E & _) & _). unfold reg. by rewrite E. Qed.

Lemma twin_with_registers rs m m' st st' : twin m m' ->
  twin {| registers := rs; mainMemory := mainMemory m; tlb := tlb m; pageTable := pageTable m;
          pageTableSize := pageTableSize m; status := st |}
       {| registers := rs; mainMemory := mainMemory m'; tlb := tlb m'; pageTable := pageTable m';
          pageTableSize := pageTableSize m'; status := st' |}.
Proof. intros ((_ & E2 & E3 & E4 & E5 & M) & Ht & Hm). by split_and!. Qed.

Lemma twin_setStatus st m m' : twin m m' -> twin (setStatus st m) (setStatus st m').
Proof.
  intros Ht. pose proof Ht as ((E & _) & _). unfold setStatus. rewrite E. by apply twin_with_registers.
Qed.

Lemma set_reg_twin n v m m' : twin m m' -> res_rel twin (set_reg n v m) (set_reg n v m').
Proof.
  intros Ht. pose proof Ht as ((E & _) & _). unfold set_reg. rewrite E.
  destruct (arr_set _ _ _) as [rs|]; [|done]. by apply twin_with_registers.
Qed.

Lemma twin_touch m m' t va w e : twin m m' -> pageTable m = Some t -> t !! Z.to_nat (u32 va / PageSize) = Some e ->
  twin (touch t va w e m) (touch t va w e m').
Proof.
  intros Ht Hp He. pose proof Ht as ((E1 & E2 & E3 & E4 & E5 & M) & Htab & Hm).
  pose proof (touch_confined m t va w e Htab Hp He) as (_ & _ & _ & t1 & t2 & Ht1 & Ht2 & F & _).
  split; [|split; [by eapply touch_tables|done]]. split_and!; try done.
  intros t3 j Ht3 Hf. cbn [mainMemory touch set_tables]. apply (M t); [done|].
  assert (t3 = t2) as -> by congruence. assert (t1 = t) as -> by congruence.
  apply (frame_of_same t2); [|done]. eapply Forall2_flip, Forall2_impl; [exact F|].
  intros a b (? & ? & ? & ?). split_and!; congruence.
Qed.

(** Memory that a table maps reads the same. *)
Lemma twin_read_value m m' t va size w e pa : twin m m' -> is_size size -> pageTable m = Some t ->
  mapped t va size w e pa -> read_value size pa (mainMemory m') = read_value size pa (mainMemory m).
Proof.
  intros ((_ & _ & _ & _ & _ & M) & _) Hsize Hp Hmap. unfold read_value.
  assert (0 <= pa) as H0 by (destruct Hmap as (_ & _ & _ & _ & Hr & ->); unfold PageSize; zify_div; lia).
  rewrite (slice_eq _ _ _ (mainMemory m)); [done|]. intros i Hi. apply (M t); [done|].
  apply (mapped_frame t va size w e pa); [done..|]. destruct Hsize as [->|[->| ->]]; lia.
Qed.

Lemma twin_with_mem m m' pa bs : twin m m' -> 0 <= pa -> pa + Z.of_nat (length bs) <= MemorySize ->
  twin (with_mem pa bs m) (with_mem pa bs m').
Proof.
  intros Ht H0 H1. destruct (twin_right m m' Ht) as [_ Hm']. destruct Ht as ((E1 & E2 & E3 & E4 & E5 & M) & Htab & Hm).
  assert (length (memcpy (mainMemory m) (Z.to_nat pa) bs) = Z.to_nat MemorySize) as Hl by (rewrite length_memcpy; lia).
  assert (length (memcpy (mainMemory m') (Z.to_nat pa) bs) = Z.to_nat MemorySize) as Hl' by (rewrite length_memcpy; lia).
  split; [|done]. unfold agree. split_and!; try done; cbn [mainMemory with_mem]; [congruence|]. intros t j Ht Hf.
  destruct (decide (Z.to_nat pa <= j < Z.to_nat pa + length bs)%nat) as [Hin|Hout].
  - by rewrite !lookup_memcpy_in by lia.
  - rewrite !lookup_memcpy_out by lia. by apply (M t).
Qed.

Section Agree.

Context (ExceptionHandler : ExceptionType -> machine -> res machine).

(** The exception handler depends only on the address space of the caller. *)
Definition handler_agrees : Prop := forall which m m',
  twin m m' -> res_rel twin (ExceptionHandler which m) (ExceptionHandler which m').

Context (Hhandler : handler_agrees).

Lemma DelayedLoad_twin nr nv m m' : twin m m' -> res_rel twin (DelayedLoad nr nv m) (DelayedLoad nr nv m').
Proof.
  intros Ht. unfold DelayedLoad. rewrite !(twin_reg m m') by done.
  destruct (reg LoadReg m); [|done]. cbn [rbind]. destruct (reg LoadValueReg m); [|done]. cbn [rbind].
  repeat (eapply res_rel_bind; [by apply set_reg_twin|]; clear Ht; intros ?? Ht). by apply set_reg_twin.
Qed.

Lemma RaiseException_twin which bad m m' : twin m m' ->
  res_rel twin (RaiseException ExceptionHandler which bad m) (RaiseException ExceptionHandler which bad m').
Proof.
  intros Ht. unfold RaiseException.
  eapply res_rel_bind; [by apply set_reg_twin|]. intros m1 m1' H1.
  eapply res_rel_bind; [by apply DelayedLoad_twin|]. intros m2 m2' H2.
  eapply res_rel_bind; [apply Hhandler; by apply twin_setStatus|]. intros m3 m3' H3.
  by apply twin_setStatus.
Qed.

(** Equal values and machines that agree. *)
Definition with_twin {X} (p p' : X * machine) : Prop := fst p = fst p' /\ twin (snd p) (snd p').

Lemma Translate_twin m m' va size w ex : twin m m' -> Translate va size w m = Ok (ex, 0, m) ->
  Translate va size w m' = Ok (ex, 0, m').
Proof.
  intros (Ha & Htab & _) E. rewrite (Translate_agree m m') by done. rewrite E. cbn [rbind]. do 2 f_equal.
  destruct Ha as (_ & <- & <- & _). by destruct m'.
Qed.

Lemma mapped_twin m m' t : twin m m' -> pageTable m = Some t -> pageTable m' = Some t.
Proof. intros ((_ & _ & E & _) & _) Hp. congruence. Qed.

Lemma ReadMem_twin va size m m' : is_size size -> twin m m' ->
  res_rel with_twin (ReadMem ExceptionHandler va size m) (ReadMem ExceptionHandler va size m').
Proof.
  intros Hsize Ht. pose proof Ht as (_ & Htab & Hm). destruct (twin_right m m' Ht) as [Htab' Hm'].
  destruct (Translate_cases m va size false Htab Hsize) as [(ex & Hex & E & _)|(t & e & pa & Hp & Hmap & _)].
  - unfold ReadMem. rewrite (Translate_twin m m' va size false ex Ht E), E. cbn [rbind]. rewrite !decide_False by done.
    eapply res_rel_bind; [by apply RaiseException_twin|]. intros m1 m1' H1. done.
  - rewrite (ReadMem_mapped _ m va size t e pa), (ReadMem_mapped _ m' va size t e pa) by (done || by eapply mapped_twin).
    split; cbn [fst snd]; [by erewrite <- twin_read_value|]. apply twin_touch; [done|done|]. apply Hmap.
Qed.

Lemma WriteMem_twin va size v m m' : is_size size -> twin m m' ->
  res_rel with_twin (WriteMem ExceptionHandler va size v m) (WriteMem ExceptionHandler va size v m').
Proof.
  intros Hsize Ht. pose proof Ht as (_ & Htab & Hm). destruct (twin_right m m' Ht) as [Htab' Hm'].
  destruct (Translate_cases m va size true Htab Hsize) as [(ex & Hex & E & _)|(t & e & pa & Hp & Hmap & H0 & H1 & _)].
  - unfold WriteMem. rewrite (Translate_twin m m' va size true ex Ht E), E. cbn [rbind]. rewrite !decide_False by done.
    eapply res_rel_bind; [by apply RaiseException_twin|]. intros m1 m1' H1. done.
  - rewrite (WriteMem_mapped _ m va size v t e pa), (WriteMem_mapped _ m' va size v t e pa) by (done || by eapply mapped_twin).
    split; cbn [fst snd]; [done|]. apply twin_with_mem; [apply twin_touch; [done|done|apply Hmap]|done|].
    rewrite length_le_bytes. destruct Hsize as [->|[->| ->]]; done.
Qed.

(** Cases of the [switch] that end alike. *)
Definition outcome_twin (o o' : outcome) : Prop :=
  match o, o' with
  | Break m pc lr lv, Break m' pc' lr' lv' => twin m m' /\ pc = pc' /\ lr = lr' /\ lv = lv'
  | Return m, Return m' => twin m m'
  | _, _ => False
  end.

Definition alike (r r' : res outcome) : Prop := res_rel outcome_twin r r'.

Lemma alike_break m m' pc lr lv : twin m m' -> alike (Ok (Break m pc lr lv)) (Ok (Break m' pc lr lv)).
Proof. by intros. Qed.

Lemma alike_bind {X} (x : res X) k k' : (forall v, alike (k v) (k' v)) -> alike (rbind x k) (rbind x k').
Proof. intros Hk. destruct x; [apply Hk|done]. Qed.

Lemma alike_reg n m m' k k' : twin m m' -> (forall v, alike (k v) (k' v)) ->
  alike (let* v := reg n m in k v) (let* v := reg n m' in k' v).
Proof. intros Ht Hk. rewrite (twin_reg m m') by done. by apply alike_bind. Qed.

Lemma alike_set_reg n v m m' k k' : twin m m' -> (forall m m', twin m m' -> alike (k m) (k' m')) ->
  alike (let* m := set_reg n v m in k m) (let* m := set_reg n v m' in k' m).
Proof. intros Ht Hk. eapply res_rel_bind; [by apply set_reg_twin|done]. Qed.

Lemma alike_link dst m m' k k' : twin m m' -> (forall m m', twin m m' -> alike (k m) (k' m')) ->
  alike (let* m := link dst m in k m) (let* m := link dst m' in k' m).
Proof.
  intros Ht Hk. unfold link. rewrite (twin_reg m m') by done. destruct (reg NextPCReg m); [|done]. cbn [rbind].
  by apply alike_set_reg.
Qed.

Lemma alike_assign dst v pc m m' : twin m m' -> alike (assign dst v pc m) (assign dst v pc m').
Proof. intros Ht. by apply alike_set_reg. Qed.

Lemma alike_branch c i pc m m' : twin m m' -> alike (branch c i pc m) (branch c i pc m').
Proof. intros Ht. by apply alike_reg. Qed.

Lemma alike_raise which bad m m' : twin m m' ->
  alike (raise ExceptionHandler which bad m) (raise ExceptionHandler which bad m').
Proof. intros Ht. eapply res_rel_bind; [by apply RaiseException_twin|done]. Qed.

Lemma alike_address i m m' k k' : twin m m' -> (forall a, alike (k a) (k' a)) ->
  alike (let* a := address i m in k a) (let* a := address i m' in k' a).
Proof. intros Ht Hk. unfold address. rewrite (twin_reg m m') by done. by apply alike_bind. Qed.

Lemma alike_merge i m m' k k' : twin m m' -> (forall a, alike (k a) (k' a)) ->
  alike (let* a := merge_base i m in k a) (let* a := merge_base i m' in k' a).
Proof. intros Ht Hk. unfold merge_base. rewrite !(twin_reg m m') by done. by apply alike_bind. Qed.

Lemma alike_read va size m m' k k' : is_size size -> twin m m' ->
  (forall v m m', twin m m' -> alike (k v m) (k' v m')) ->
  alike (read_or_return ExceptionHandler va size m k) (read_or_return ExceptionHandler va size m' k').
Proof.
  intros Hsize Ht Hk. eapply res_rel_bind; [by apply ReadMem_twin|]. intros [o m1] [o' m1'] [E H1]. cbn [fst snd] in *.
  subst o'. destruct o; [by apply Hk|done].
Qed.

Lemma alike_write va size v pc m m' : is_size size -> twin m m' ->
  alike (write_or_return ExceptionHandler va size v pc m) (write_or_return ExceptionHandler va size v pc m').
Proof.
  intros Hsize Ht. eapply res_rel_bind; [by apply WriteMem_twin|]. intros [b m1] [b' m1'] [E H1]. cbn [fst snd] in *.
  subst b'. by destruct b.
Qed.

Lemma alike_err e : alike (Err e) (Err e).
Proof. done. Qed.

(** Runs a case of the [switch] on both machines. *)
Ltac alike_case :=
  repeat first
    [ assumption
    | apply alike_err
    | apply alike_merge | apply alike_address | apply alike_reg
    | apply alike_link | apply alike_set_reg
    | apply alike_assign | apply alike_branch | apply alike_raise
    | apply alike_read | apply alike_write | apply alike_break
    | match goal with
      | |- alike (if ?b then _ else _) _ => destruct b
      | |- alike (match ?v with (_, _) => _ end) _ => destruct v
      end
    | apply alike_bind
    | (unfold is_size; lia)
    | progress intros ].

Lemma execute_twin i pc m m' : twin m m' -> alike (execute ExceptionHandler i pc m) (execute ExceptionHandler i pc m').
Proof.
  intros Ht. unfold execute, execute_add, execute_branch, execute_div, execute_jump, execute_load,
    execute_hilo, execute_logic, execute_store, execute_other.
  destruct (opCode i); cbn [first_case]; alike_case.
Qed.

Lemma OneInstruction_twin m m' : twin m m' ->
  res_rel twin (OneInstruction ExceptionHandler m) (OneInstruction ExceptionHandler m').
Proof.
  intros Ht. unfold OneInstruction. rewrite (twin_reg m m') by done. destruct (reg PCReg m) as [pc|]; [|done]. cbn [rbind].
  eapply res_rel_bind; [apply ReadMem_twin; [by right; right|done]|]. intros [o m1] [o' m1'] [E H1]. cbn [fst snd] in *.
  subst o'. destruct o as [raw|]; [|done]. destruct (Decode _) as [i|]; [|done]. cbn [rbind].
  rewrite (twin_reg m1 m1') by done. destruct (reg NextPCReg m1) as [npc|]; [|done]. cbn [rbind].
  eapply res_rel_bind; [by apply execute_twin|]. intros o o' Ho.
  destruct o as [m2 pc' lr lv|m2], o' as [m2' pc'' lr' lv'|m2']; try done. destruct Ho as (H2 & -> & -> & ->).
  eapply res_rel_bind; [by apply DelayedLoad_twin|]. intros m3 m3' H3.
  rewrite (twin_reg m3 m3') by done. destruct (reg PCReg m3); [|done]. cbn [rbind].
  eapply res_rel_bind; [by apply set_reg_twin|]. intros m4 m4' H4.
  rewrite (twin_reg m4 m4') by done. destruct (reg NextPCReg m4); [|done]. cbn [rbind].
  eapply res_rel_bind; [by apply set_reg_twin|]. intros m5 m5' H5. by apply set_reg_twin.
Qed.

End Agree.

End Isolation.
