(* ===== verification/Console.v ===== *)
(** * The console

    machine/console.cc (the device) and userprog/synchconsole.cc (the
    synchronous interface), used by one thread at a time: the lock of the
    synchronous console is free between calls, and a thread that waits lets the
    machine idle until the next console interrupt.  When none is scheduled it
    waits for ever, the outcome [Diverges].

    The UNIX file behind the keyboard is the list of what the device finds when
    it polls: [None] when nothing has arrived, a byte otherwise; after the list,
    the end of the file. *)

From S2P Require Import Prelude Ints.

(** ** Interfaces for programs that read and write characters *)

Definition EOF : Z := -1.

(** [stream s l]: the characters [l] are still to be read, and then the end of
    the file. *)
Class CharSource (S : Type) := {
  get_char : S -> res (Z * S);
  stream : S -> list Z -> Prop;
  get_char_law : forall s c l, stream s (c :: l) ->
    exists s', get_char s = Ok (c, s') /\ stream s' l;
  get_eof_law : forall s, stream s [] -> exists s', get_char s = Ok (EOF, s');
  stream_chars : forall s l, stream s l -> Forall (fun c => -128 <= c < 128 /\ c <> EOF) l
}.

(** [shown s l]: the characters [l] have been written. *)
Class CharSink (S : Type) := {
  put_char : Z -> S -> res S;
  shown : S -> list Z -> Prop;
  put_char_law : forall s l c, shown s l -> exists s', put_char c s = Ok s' /\ shown s' (l ++ [c])
}.

Module Console.

(** ** The device *)

(** [ConsoleInput]; [readInt] tells whether a [ConsoleReadInt] is pending. *)
Record ConsoleInput := mkInput {
  readFile : list (option Z);
  incoming : Z;
  readInt : bool;
  numConsoleCharsRead : Z
}.

(** The constructor. *)
Definition ConsoleInput_init (file : list (option Z)) : ConsoleInput := mkInput file EOF true 0.

(** [ConsoleInput::CallBack], and whether it calls [callWhenAvail->CallBack()]. *)
Definition ConsoleInput_CallBack (d : ConsoleInput) : res (bool * ConsoleInput) :=
  ASSERT (incoming d =? EOF) ;;;
  match readFile d with
  | None :: l => Ok (false, mkInput l (incoming d) true (numConsoleCharsRead d))
  | Some c :: l => Ok (true, mkInput l (s8 c) (readInt d) (s32 (numConsoleCharsRead d + 1)))
  | [] => Ok (true, d)
  end.

(** [ConsoleInput::GetChar] *)
Definition ConsoleInput_GetChar (d : ConsoleInput) : Z * ConsoleInput :=
  let ch := incoming d in
  (ch, mkInput (readFile d) EOF
         (if negb (incoming d =? EOF) then true else readInt d) (numConsoleCharsRead d)).

(** [ConsoleOutput]; [writeInt] tells whether a [ConsoleWriteInt] is pending. *)
Record ConsoleOutput := mkOutput {
  writeFile : list Z;
  putBusy : bool;
  writeInt : bool;
  numConsoleCharsWritten : Z
}.

(** The constructor. *)
Definition ConsoleOutput_init : ConsoleOutput := mkOutput [] false false 0.

Definition ConsoleOutput_CallBack (d : ConsoleOutput) : ConsoleOutput :=
  mkOutput (writeFile d) false (writeInt d) (s32 (numConsoleCharsWritten d + 1)).

Definition ConsoleOutput_PutChar (ch : Z) (d : ConsoleOutput) : res ConsoleOutput :=
  ASSERT (negb (putBusy d)) ;;;
  Ok (mkOutput (writeFile d ++ [ch]) true true (numConsoleCharsWritten d)).

(** ** The synchronous console *)

(** The lock and the value of the semaphore [waitFor]. *)
Record SynchConsoleInput := mkSynchInput {
  consoleInput : ConsoleInput;
  in_lock : bool;
  in_waitFor : Z
}.

Record SynchConsoleOutput := mkSynchOutput {
  consoleOutput : ConsoleOutput;
  out_lock : bool;
  out_waitFor : Z
}.

Definition SynchConsoleInput_init (file : list (option Z)) : SynchConsoleInput :=
  mkSynchInput (ConsoleInput_init file) false 0.

Definition SynchConsoleOutput_init : SynchConsoleOutput :=
  mkSynchOutput ConsoleOutput_init false 0.

(** [SynchConsoleInput::CallBack] is [waitFor->V()]. *)
Definition SynchConsoleInput_CallBack (s : SynchConsoleInput) : SynchConsoleInput :=
  mkSynchInput (consoleInput s) (in_lock s) (in_waitFor s + 1).

Definition SynchConsoleOutput_CallBack (s : SynchConsoleOutput) : SynchConsoleOutput :=
  mkSynchOutput (consoleOutput s) (out_lock s) (out_waitFor s + 1).

(** The next console interrupt, if one is scheduled. *)
Definition read_interrupt (s : SynchConsoleInput) : res SynchConsoleInput :=
  let d := consoleInput s in
  if readInt d then
    let2* (notify, d') :=
      ConsoleInput_CallBack (mkInput (readFile d) (incoming d) false (numConsoleCharsRead d)) in
    let s' := mkSynchInput d' (in_lock s) (in_waitFor s) in
    Ok (if notify : bool then SynchConsoleInput_CallBack s' else s')
  else Err Diverges.

Definition write_interrupt (s : SynchConsoleOutput) : res SynchConsoleOutput :=
  let d := consoleOutput s in
  if writeInt d then
    Ok (SynchConsoleOutput_CallBack
          (mkSynchOutput
             (ConsoleOutput_CallBack (mkOutput (writeFile d) (putBusy d) false (numConsoleCharsWritten d)))
             (out_lock s) (out_waitFor s)))
  else Err Diverges.

(** [waitFor->P()]: the thread sleeps until an interrupt raises the semaphore.
    Each interrupt takes an event of the file, so the length of the file bounds
    their number. *)
Fixpoint in_P (fuel : nat) (s : SynchConsoleInput) : res SynchConsoleInput :=
  if in_waitFor s =? 0 then
    match fuel with
    | O => Err Diverges
    | S fuel' => let* s' := read_interrupt s in in_P fuel' s'
    end
  else Ok (mkSynchInput (consoleInput s) (in_lock s) (in_waitFor s - 1)).

Definition out_P (s : SynchConsoleOutput) : res SynchConsoleOutput :=
  let* s' := if out_waitFor s =? 0 then write_interrupt s else Ok s in
  if out_waitFor s' =? 0 then Err Diverges
  else Ok (mkSynchOutput (consoleOutput s') (out_lock s') (out_waitFor s' - 1)).

(** [SynchConsoleInput::GetChar]; a second thread would wait for the lock. *)
Definition GetChar (s : SynchConsoleInput) : res (Z * SynchConsoleInput) :=
  if in_lock s then Err Diverges else
  let s1 := mkSynchInput (consoleInput s) true (in_waitFor s) in
  let* s2 := in_P (S (length (readFile (consoleInput s1)))) s1 in
  let '(ch, d) := ConsoleInput_GetChar (consoleInput s2) in
  Ok (ch, mkSynchInput d false (in_waitFor s2)).

(** The loop of [GetString], from index [i]: the characters stored, whether the
    file ended, and the console. *)
Fixpoint GetString_loop (n : nat) (s : SynchConsoleInput)
  : res (list Z * bool * SynchConsoleInput) :=
  match n with
  | O => Ok ([], false, s)
  | S n' =>
      let2* (ch, s1) := GetChar s in
      if ch =? EOF then Ok ([0], true, s1)
      else
        let3* (l, eof, s2) := GetString_loop n' s1 in
        Ok (ch :: l, eof, s2)
  end.

(** [SynchConsoleInput::GetString]: what it stores at the beginning of the
    buffer, and its result. *)
Definition GetString (size : Z) (s : SynchConsoleInput) : res (list Z * Z * SynchConsoleInput) :=
  let3* (l, eof, s') := GetString_loop (Z.to_nat size) s in
  Ok (l, if eof : bool then -2 else size, s').

(** [SynchConsoleOutput::PutChar] *)
Definition PutChar (ch : Z) (s : SynchConsoleOutput) : res SynchConsoleOutput :=
  if out_lock s then Err Diverges else
  let* d := ConsoleOutput_PutChar ch (consoleOutput s) in
  let* s1 := out_P (mkSynchOutput d true (out_waitFor s)) in
  Ok (mkSynchOutput (consoleOutput s1) false (out_waitFor s1)).

(** [SynchConsoleOutput::PutString] *)
Definition PutString (buffer : list Z) (size : Z) (s : SynchConsoleOutput)
  : res (Z * SynchConsoleOutput) :=
  let* s' := for_range (Z.to_nat size) 0
    (fun i s => let* c := arr_get buffer i in PutChar c s) s in
  Ok (size, s').

(** ** What the console delivers *)

(** The characters of the file up to its end.  The byte 255 is the [char] EOF,
    which the device cannot tell from the end of the file. *)
Fixpoint text (f : list (option Z)) : list Z :=
  match f with
  | [] => []
  | None :: f' => text f'
  | Some c :: f' => if s8 c =? EOF then [] else s8 c :: text f'
  end.

(** The keyboard is polled, holds a character, or has reported the end. *)
Definition input_stream (s : SynchConsoleInput) (l : list Z) : Prop :=
  let d := consoleInput s in
  in_lock s = false /\
  ((readInt d = true /\ in_waitFor s = 0 /\ incoming d = EOF /\ l = text (readFile d)) \/
   (readInt d = false /\ in_waitFor s = 1 /\ incoming d <> EOF /\ -128 <= incoming d < 128 /\
      l = incoming d :: text (readFile d)) \/
   (readInt d = false /\ in_waitFor s = 1 /\ incoming d = EOF /\ l = [])).

(** The end of the file has been read. *)
Definition input_ended (s : SynchConsoleInput) : Prop :=
  in_lock s = false /\ readInt (consoleInput s) = false /\
  incoming (consoleInput s) = EOF /\ in_waitFor s = 0.

Lemma s8_char c : -128 <= s8 c < 128.
Proof. unfold s8. pose proof (Z.mod_pos_bound (c + 2 ^ 7) (2 ^ 8)). lia. Qed.

Lemma text_chars f : Forall (fun c => -128 <= c < 128 /\ c <> EOF) (text f).
Proof.
  induction f as [|[c|] f IH]; cbn [text]; [done| |done].
  destruct (Z.eqb_spec (s8 c) EOF); [done|]. constructor; [|done]. split; [apply s8_char|done].
Qed.

(** Waiting for input takes events off the file up to the first character or
    the end. *)
Lemma in_P_polled f : forall fuel b k,
  (length f < fuel)%nat ->
  exists s', in_P fuel (mkSynchInput (mkInput f EOF true k) b 0) = Ok s' /\
    in_lock s' = b /\ in_waitFor s' = 0 /\ readInt (consoleInput s') = false /\
    match text f with
    | c :: l => incoming (consoleInput s') = c /\ text (readFile (consoleInput s')) = l
    | [] => incoming (consoleInput s') = EOF
    end.
Proof.
  induction f as [|[c|] f IH]; intros fuel b k Hf; (destruct fuel as [|fuel]; [cbn in Hf; lia|]); cbn [length] in Hf.
  - destruct fuel; eexists; (split; [reflexivity|]); done.
  - assert (exists s', in_P (S fuel) (mkSynchInput (mkInput (Some c :: f) EOF true k) b 0) = Ok s' /\
      s' = mkSynchInput (mkInput f (s8 c) false (s32 (k + 1))) b 0) as (s' & -> & ->).
    { destruct fuel; eexists; (split; [reflexivity|]); done. }
    eexists. split; [reflexivity|]. cbn [in_lock in_waitFor consoleInput readInt incoming readFile text].
    destruct (Z.eqb_spec (s8 c) EOF); done.
  - destruct (IH fuel b k) as (s' & E & H); [lia|]. exists s'. split; [|done].
    rewrite <- E. cbn [in_P in_waitFor]. done.
Qed.

Lemma GetChar_spec s l : input_stream s l ->
  match l with
  | c :: l' => exists s', GetChar s = Ok (c, s') /\ input_stream s' l'
  | [] => exists s', GetChar s = Ok (EOF, s') /\ input_ended s'
  end.
Proof.
  intros (Hlock & Hcase). destruct s as [[f inc ri k] lk w]. cbn in *. subst lk. unfold GetChar.
  cbn [in_lock consoleInput readFile in_waitFor].
  destruct Hcase as [(-> & -> & -> & ->)|[(-> & -> & Hne & Hs & ->)|(-> & -> & -> & ->)]].
  - destruct (in_P_polled f (S (length f)) true k) as (s2 & -> & Hl & Hw & Hr & Hm); [lia|]. cbn [rbind].
    destruct s2 as [[f2 inc2 ri2 k2] lk2 w2]. cbn in *. subst. pose proof (text_chars f) as Hc.
    destruct (text f) as [|c l].
    + subst. eexists. split; [reflexivity|]. done.
    + destruct Hm as [-> <-]. apply Forall_cons in Hc as [[_ Hc] _].
      eexists. split; [reflexivity|]. split; [done|]. left. cbn.
      by rewrite (proj2 (Z.eqb_neq c EOF)).
  - eexists. split; [reflexivity|]. split; [done|]. left. cbn. by rewrite (proj2 (Z.eqb_neq inc EOF)).
  - eexists. split; [reflexivity|]. done.
Qed.

(** A keyboard interrupt between two calls changes nothing of what is read. *)
Lemma interrupt_stream s l : input_stream s l -> readInt (consoleInput s) = true ->
  exists s', read_interrupt s = Ok s' /\ input_stream s' l.
Proof.
  intros (Hlock & Hcase) Hr. destruct s as [[f inc ri k] lk w]. cbn in *. subst.
  destruct Hcase as [(_ & -> & -> & ->)|[(? & _)|(? & _)]]; [|done..].
  destruct f as [|[c|] f]; (eexists; split; [reflexivity|]); (split; [done|]); cbn.
  - by right; right.
  - destruct (Z.eqb_spec (s8 c) EOF) as [->|Hne]; [by right; right|]. right; left.
    pose proof (s8_char c). done.
  - by left.
Qed.

Lemma GetChar_ended s : input_ended s -> GetChar s = Err Diverges.
Proof.
  intros (Hlock & Hr & Hi & Hw). destruct s as [[f inc ri k] lk w]. cbn in *. subst. done.
Qed.

#[global] Instance console_source : CharSource SynchConsoleInput.
Proof.
  refine {| get_char := GetChar; stream := input_stream |}.
  - intros s c l H. exact (GetChar_spec s (c :: l) H).
  - intros s H. destruct (GetChar_spec s [] H) as (s' & E & _). by exists s'.
  - intros s l (_ & [(_ & _ & _ & ->)|[(_ & _ & Hne & Hs & ->)|(_ & _ & _ & ->)]]).
    + apply text_chars.
    + constructor; [done|apply text_chars].
    + done.
Defined.

(** The display is idle, and has shown [l]. *)
Definition output_idle (s : SynchConsoleOutput) (l : list Z) : Prop :=
  out_lock s = false /\ out_waitFor s = 0 /\ putBusy (consoleOutput s) = false /\
  writeInt (consoleOutput s) = false /\ writeFile (consoleOutput s) = l.

Lemma PutChar_spec s l c : output_idle s l ->
  exists s', PutChar c s = Ok s' /\ output_idle s' (l ++ [c]).
Proof.
  intros (Hl & Hw & Hb & Hi & Hf). destruct s as [[f b i k] lk w]. cbn in *. subst.
  eexists. split; [reflexivity|]. done.
Qed.

#[global] Instance console_sink : CharSink SynchConsoleOutput.
Proof.
  refine {| put_char := PutChar; shown := output_idle |}. intros s l c H. by apply PutChar_spec.
Defined.

Lemma GetString_loop_spec n : forall s l, input_stream s l ->
  exists s', GetString_loop n s =
      Ok (take n l ++ (if (n <=? length l)%nat then [] else [0]), negb (n <=? length l)%nat, s') /\
    if (n <=? length l)%nat then input_stream s' (drop n l) else input_ended s'.
Proof.
  induction n as [|n IH]; intros s l Hs; [by exists s|]. cbn [GetString_loop].
  pose proof (GetChar_spec s l Hs) as HG. destruct l as [|c l].
  - destruct HG as (s1 & -> & He). cbn [rbind]. by exists s1.
  - destruct HG as (s1 & -> & Hs1). cbn [rbind].
    destruct Hs as (_ & Hcase).
    assert (c <> EOF) as Hc.
    { destruct Hcase as [(_ & _ & _ & E)|[(_ & _ & Hne & _ & E)|(_ & _ & _ & E)]]; [|congruence|done].
      pose proof (text_chars (readFile (consoleInput s))) as Ht. rewrite <- E in Ht.
      by apply Forall_cons in Ht as [[_ ?] _]. }
    rewrite (proj2 (Z.eqb_neq c EOF)) by done. destruct (IH s1 l Hs1) as (s2 & -> & H2). cbn [rbind].
    exists s2. done.
Qed.

Lemma PutString_spec buffer n s l :
  output_idle s l -> 0 <= n <= Z.of_nat (length buffer) ->
  exists s', PutString buffer n s = Ok (n, s') /\ output_idle s' (l ++ take (Z.to_nat n) buffer).
Proof.
  intros Hs Hn. unfold PutString.
  destruct (for_range_inv (fun i s => output_idle s (l ++ take (Z.to_nat i) buffer)) (Z.to_nat n) 0
    (fun i s => let* c := arr_get buffer i in PutChar c s) s) as (s' & -> & Hs').
  - cbn [Z.to_nat]. by rewrite take_0, app_nil_r.
  - intros i s1 Hi H1. destruct (lookup_lt_is_Some_2 buffer (Z.to_nat i)) as [c Hc]; [lia|].
    rewrite (arr_get_lookup buffer i c) by (done || lia). cbn [rbind].
    destruct (PutChar_spec s1 _ c H1) as (s2 & -> & H2). exists s2. split; [done|].
    replace (Z.to_nat (i + 1)) with (S (Z.to_nat i)) by lia. by rewrite (take_S_r _ _ c), app_assoc.
  - cbn [rbind]. exists s'. split; [done|]. by rewrite Z.add_0_l, Z2Nat.id in Hs' by lia.
Qed.

(** C35: The console is a pipe to and from the UNIX files behind it.  Whatever
    the times at which characters arrive, reading [n] characters returns the
    first [n] of the input in order, waiting for each; at the end of the input
    (or at a byte 255, which as a [char] is EOF) it returns -2, and a further
    read waits for ever.  Writing puts the characters on the display in order,
    and returns their number. *)
Theorem console_pipes f (n : nat) buffer size :
  0 <= size <= Z.of_nat (length buffer) ->
  ((n <= length (text f))%nat ->
     exists s', GetString (Z.of_nat n) (SynchConsoleInput_init f) = Ok (take n (text f), Z.of_nat n, s')) /\
  ((length (text f) < n)%nat ->
     exists s', GetString (Z.of_nat n) (SynchConsoleInput_init f) = Ok (text f ++ [0], -2, s') /\
       GetChar s' = Err Diverges) /\
  exists s', PutString buffer size SynchConsoleOutput_init = Ok (size, s') /\
    writeFile (consoleOutput s') = take (Z.to_nat size) buffer.
Proof.
  intros Hsize. assert (input_stream (SynchConsoleInput_init f) (text f)) as Hs by (split; [done|by left]).
  unfold GetString. rewrite Nat2Z.id.
  destruct (GetString_loop_spec n _ _ Hs) as (s' & -> & Hs'). cbn [rbind]. split_and!.
  - intros Hn. rewrite (proj2 (Nat.leb_le _ _)) by done. rewrite app_nil_r. by exists s'.
  - intros Hn. rewrite (proj2 (Nat.leb_gt _ _)) in * by done. rewrite take_ge by lia. exists s'.
    split; [done|]. by apply GetChar_ended.
  - destruct (PutString_spec buffer size SynchConsoleOutput_init []) as (s2 & -> & H2); [done|done|].
    exists s2. split; [done|]. apply H2.
Qed.

Lemma console_pipes_witness :
  exists s', GetString 2 (SynchConsoleInput_init [None; Some 72; None; Some 105; Some 10]) =
    Ok ([72; 105], 2, s').
Proof.
  destruct (console_pipes [None; Some 72; None; Some 105; Some 10] 2 [65] 1) as [H _]; [cbn; lia|].
  apply H. vm_compute. lia.
Defined.

End Console.
