(* ===== verification/Dump.v ===== *)
(** * Printing the file system

    What [nachos -D] prints: [FileHeader::Print] of filesys/filehdr.cc,
    [Bitmap::Print] of lib/bitmap.cc, [Directory::Print] of filesys/directory.cc
    and [FileSystem::Print] of filesys/filesys.cc.  The text is the list of its
    characters. *)

From S2P Require Import Prelude Ints CString Bitmap Disk FileHdr OpenFile Directory PBitmap FileSys.

Module Dump.

Import Disk FileHdr.

Definition newline : Z := 10.

(** [printf("%x", c)] of an [unsigned char]. *)
Definition hex_digit (d : Z) : Z := if d <? 10 then 48 + d else 87 + d.

Definition print_hex (c : Z) : list Z :=
  if c <? 16 then [hex_digit c] else [hex_digit (c / 16); hex_digit (c mod 16)].

(** One byte of a file; [data[j]] is a signed [char]. *)
Definition print_char (c : Z) : list Z :=
  if (32 <=? s8 c) && (s8 c <=? 126) then [c] else 92 :: print_hex c.

(** The inner loop: [k] bytes of the file of [numBytes] bytes have been
    printed. *)
Fixpoint print_bytes (numBytes : Z) (data : list Z) (k : Z) : list Z * Z :=
  match data with
  | [] => ([], k)
  | c :: data' =>
      if k <? numBytes then
        let '(out, k) := print_bytes numBytes data' (k + 1) in (print_char c ++ out, k)
      else ([], k)
  end.

(** [FileHeader::Print] *)
Definition FileHeader_Print (h : FileHeader) (s : synchdisk) : res (list Z * synchdisk) :=
  let out := str "FileHeader contents.  File size: " ++ to_string (numBytes h) ++ str ".  File blocks:" ++ [newline] in
  let* out :=
    for_range (Z.to_nat (numSectors h)) 0
      (fun i out => let* b := arr_get (dataSectors h) i in Ok (out ++ to_string b ++ str " ")) out in
  let out := out ++ [newline] ++ str "File contents:" ++ [newline] in
  let3* (out, _, s) :=
    for_range (Z.to_nat (numSectors h)) 0
      (fun i '(out, k, s) =>
         let* b := arr_get (dataSectors h) i in
         let2* (data, s) := ReadSector b s in
         let '(line, k) := print_bytes (numBytes h) data k in
         Ok (out ++ line ++ [newline], k, s)) (out, 0, s) in
  Ok (out, s).

(** [Bitmap::Print] *)
Definition Bitmap_Print (b : Bitmap.bitmap) : res (list Z) :=
  let* out :=
    for_range (Z.to_nat (Bitmap.numBits b)) 0
      (fun i out => let* t := Bitmap.Test i b in Ok (if t then out ++ to_string i ++ str ", " else out))
      (str "Bitmap set:" ++ [newline]) in
  Ok (out ++ [newline]).

(** [Directory::Print] *)
Definition Directory_Print (d : Directory.Directory) (s : synchdisk) : res (list Z * synchdisk) :=
  let2* (out, s) :=
    for_range (Z.to_nat (Directory.tableSize d)) 0
      (fun i '(out, s) =>
         let* e := arr_get (Directory.table d) i in
         if Directory.inUse e then
           let* nm := c_str (Directory.name e) in
           let out := out ++ str "Name: " ++ nm ++ str ", Sector: " ++ to_string (Directory.sector e) ++ [newline] in
           let2* (hdr, s) := FetchFrom (Directory.sector e) s in
           let2* (text, s) := FileHeader_Print hdr s in
           Ok (out ++ text, s)
         else Ok (out, s)) (str "Directory contents:" ++ [newline], s) in
  Ok (out ++ [newline], s).

(** [FileSystem::Print] *)
Definition Print (fresh : Z -> Z) (fs : FileSys.FileSystem) (s : synchdisk) : res (list Z * synchdisk) :=
  let2* (freeMap, s) := PBitmap.PersistentBitmap_from fresh (FileSys.freeMapFile fs) NumSectors s in
  let* directory := FileSys.new_Directory fresh in
  let2* (bitHdr, s) := FetchFrom FileSys.FreeMapSector s in
  let2* (text1, s) := FileHeader_Print bitHdr s in
  let2* (dirHdr, s) := FetchFrom FileSys.DirectorySector s in
  let2* (text2, s) := FileHeader_Print dirHdr s in
  let* text3 := Bitmap_Print freeMap in
  let2* (directory, s) := Directory.FetchFrom fresh (FileSys.directoryFile fs) directory s in
  let2* (text4, s) := Directory_Print directory s in
  Ok (str "Bit map file header:" ++ [newline] ++ text1 ++
      str "Directory file header:" ++ [newline] ++ text2 ++ text3 ++ text4, s).

(** ** What the text shows *)

(** The text of a file: its length, its sectors, and its bytes in lines of
    [SectorSize] bytes. *)
Definition show_bytes (c : list Z) : list Z := concat (map print_char c).

Definition show_file (blocks c : list Z) : list Z :=
  str "FileHeader contents.  File size: " ++ to_string (Z.of_nat (length c)) ++ str ".  File blocks:" ++ [newline] ++
  concat (map (fun b => to_string b ++ str " ") blocks) ++ [newline] ++ str "File contents:" ++ [newline] ++
  concat (map (fun i => show_bytes (slice (128 * i) 128 c) ++ [newline]) (seq 0 (length blocks))).

(** The text of a set of numbers. *)
Definition show_set (l : list Z) : list Z :=
  str "Bitmap set:" ++ [newline] ++ concat (map (fun i => to_string i ++ str ", ") l) ++ [newline].

(** A file of the directory: its name, the sector of its header, its data
    sectors and its bytes. *)
Record file := mkFile { fname : list Z; at_sector : Z; blocks : list Z; bytes : list Z }.

Definition show_entry (f : file) : list Z :=
  str "Name: " ++ fname f ++ str ", Sector: " ++ to_string (at_sector f) ++ [newline] ++
  show_file (blocks f) (bytes f).

Definition show_directory (l : list file) : list Z :=
  str "Directory contents:" ++ [newline] ++ concat (map show_entry l) ++ [newline].

(** The whole disk: the files of the free map and of the directory (sectors and
    bytes), the sectors in use, and the files. *)
Definition show_disk (free dir : list Z * list Z) (used : list Z) (l : list file) : list Z :=
  str "Bit map file header:" ++ [newline] ++ show_file free.1 free.2 ++
  str "Directory file header:" ++ [newline] ++ show_file dir.1 dir.2 ++
  show_set used ++ show_directory l.

(** ** Headers *)

Lemma print_bytes_spec n data : forall k, k <= n ->
  print_bytes n data k = (show_bytes (take (Z.to_nat (n - k)) data), Z.min (k + Z.of_nat (length data)) n).
Proof.
  induction data as [|c data IH]; intros k Hk; cbn [print_bytes].
  - rewrite take_nil. f_equal. cbn. lia.
  - destruct (Z.ltb_spec k n) as [H|H].
    + rewrite IH by lia. replace (Z.to_nat (n - k)) with (S (Z.to_nat (n - (k + 1)))) by lia.
      cbn [take show_bytes map concat length]. f_equal. lia.
    + replace (Z.to_nat (n - k)) with O by lia. rewrite take_0. f_equal. cbn [length]. lia.
Qed.

(** The bytes of block [i] of a file. *)
Lemma block_bytes s h i b : Disk.wf s -> FileHdr.wf h -> sectors_of h !! i = Some b ->
  take (Z.to_nat (numBytes h) - 128 * i) (sector s b) = slice (128 * i) 128 (OpenFile.file_bytes s h).
Proof.
  intros Hs Hh Hi. apply list_eq. intros r. unfold slice. rewrite !lookup_take.
  assert (length (sector s b) = 128%nat) as Hl.
  { apply length_sector; [done|]. destruct Hh as (_ & _ & _ & _ & _ & Hf). by eapply Forall_lookup_1 in Hf. }
  destruct (decide (r < 128)%nat) as [Hr|Hr].
  - rewrite lookup_drop. unfold OpenFile.file_bytes. rewrite lookup_take.
    rewrite (OpenFile.lookup_raw s h i b r) by done.
    destruct (decide (r < Z.to_nat (numBytes h) - 128 * i)%nat), (decide (128 * i + r < Z.to_nat (numBytes h))%nat);
      done || lia.
  - case_decide; [|done]. apply lookup_ge_None_2. lia.
Qed.

Lemma FileHeader_Print_spec h s : Disk.wf s -> FileHdr.wf h ->
  exists s', FileHeader_Print h s = Ok (show_file (sectors_of h) (OpenFile.file_bytes s h), s') /\
    Disk.wf s' /\ unixfile (dev s') = unixfile (dev s).
Proof.
  intros Hs Hh. pose proof (wf_numSectors h Hh) as Hn. pose proof (length_sectors_of h Hh) as Hl.
  assert (forall i, 0 <= i < numSectors h -> exists b, arr_get (dataSectors h) i = Ok b /\
    sectors_of h !! Z.to_nat i = Some b /\ sector_ok b) as Hget.
  { intros i Hi. destruct (ByteToSector_block h i Hh Hi) as (b & E & Hb & Hok). exists b. split; [|done].
    unfold ByteToSector in E. by rewrite Z.quot_mul in E. }
  unfold FileHeader_Print.
  set (out0 := str "FileHeader contents.  File size: " ++ _).
  match goal with |- context [for_range ?n 0 ?body out0] =>
    destruct (for_range_inv (fun i out => out = out0 ++
      concat (map (fun b => to_string b ++ str " ") (take (Z.to_nat i) (sectors_of h)))) n 0 body out0)
      as (out1 & -> & E1) end; [by rewrite take_0, app_nil_r| |].
  { intros i out Hi ->. destruct (Hget i) as (b & -> & Hb & _); [lia|]. cbn [rbind]. eexists. split; [done|].
    replace (Z.to_nat (i + 1)) with (S (Z.to_nat i)) by lia. rewrite (take_S_r _ _ b Hb), map_app, concat_app.
    cbn [map concat]. by rewrite app_nil_r, <- app_assoc. }
  cbn [rbind]. rewrite take_ge in E1 by lia. set (out2 := out1 ++ _).
  match goal with |- context [for_range ?n 0 ?body (out2, 0, s)] =>
    destruct (for_range_inv (fun i '(out, k, s') => Disk.wf s' /\ unixfile (dev s') = unixfile (dev s) /\
      k = Z.min (128 * i) (numBytes h) /\ out = out2 ++
      concat (map (fun i => show_bytes (slice (128 * i) 128 (OpenFile.file_bytes s h)) ++ [newline]) (seq 0 (Z.to_nat i))))
      n 0 body (out2, 0, s)) as ([[out3 k] s'] & -> & Hs' & Hu & _ & E3) end.
  - destruct Hh as ((H0 & _) & _). rewrite app_nil_r. repeat split; try apply Hs; lia.
  - intros i [[out k] s1] Hi (Hs1 & Hu & -> & ->). destruct (Hget i) as (b & -> & Hb & Hok); [lia|]. cbn [rbind].
    destruct (ReadSector_spec s1 b Hs1 Hok) as (s2 & -> & Hs2 & Hu2). cbn [rbind].
    rewrite print_bytes_spec by lia. eexists. split; [reflexivity|]. split; [done|]. split; [congruence|].
    pose proof (length_sector s1 b Hs1 Hok) as Hlen. change (Z.to_nat SectorSize) with 128%nat in Hlen. split; [lia|].
    replace (Z.to_nat (i + 1)) with (S (Z.to_nat i)) by lia. rewrite seq_S, map_app, concat_app. cbn [map concat]. rewrite Nat.add_0_l.
    rewrite app_nil_r, <- app_assoc. do 3 f_equal. rewrite <- (block_bytes s h (Z.to_nat i) b) by done.
    rewrite (FileSys.sector_same s s1) by done. do 2 f_equal. lia.
  - cbn [rbind]. exists s'. split; [|done]. rewrite E3. unfold out2. rewrite E1. unfold out0, show_file.
    rewrite OpenFile.length_file_bytes by done. replace (length (sectors_of h)) with (Z.to_nat (0 + Z.of_nat (Z.to_nat (numSectors h)))) by lia.
    by rewrite <- !app_assoc.
Qed.

(** ** The free map *)

(** The numbers in a bitmap, in increasing order. *)
Definition members (b : Bitmap.bitmap) : list Z :=
  filter (fun i => Bitmap.bit b i = true) (seqZ 0 (Bitmap.numBits b)).

Lemma concat_if {A B} (p : A -> bool) (g : A -> list B) l :
  concat (map (fun i => if p i then g i else []) l) = concat (map g (filter (fun i => p i = true) l)).
Proof.
  induction l as [|x l IH]; [done|]. cbn [map concat]. destruct (p x) eqn:E.
  - rewrite filter_cons_True by done. cbn [map concat]. by rewrite IH.
  - rewrite filter_cons_False by congruence. done.
Qed.

Lemma Bitmap_Print_spec b : Bitmap.wf b -> Bitmap_Print b = Ok (show_set (members b)).
Proof.
  intros Hb. assert (0 < Bitmap.numBits b) by apply Hb. unfold Bitmap_Print.
  rewrite (for_range_collect (fun i => if Bitmap.bit b i then to_string i ++ str ", " else [])).
  - cbn [rbind]. rewrite Z2Nat.id, concat_if by lia. unfold show_set, members. by rewrite <- !app_assoc.
  - intros i out Hi. rewrite Bitmap.Test_bit by (done || lia). cbn [rbind].
    destruct (Bitmap.bit b i); by rewrite ?app_nil_r.
Qed.

Lemma members_sorted b : StronglySorted Z.lt (members b).
Proof.
  unfold members. assert (forall n lo, StronglySorted Z.lt (seqZ lo (Z.of_nat n))) as Hseq.
  { induction n as [|n IH]; intros lo; [constructor|]. rewrite seqZ_cons by lia.
    replace (Z.pred (Z.of_nat (S n))) with (Z.of_nat n) by lia. constructor; [apply IH|].
    apply Forall_forall. intros x Hx%elem_of_seqZ. lia. }
  assert (forall l (P : Z -> Prop) `{!forall x, Decision (P x)}, StronglySorted Z.lt l -> StronglySorted Z.lt (filter P l)) as Hf.
  { induction 1 as [|x l Hl IH Hx]; [constructor|]. rewrite filter_cons. case_decide; [|done].
    constructor; [done|]. rewrite Forall_forall in Hx |- *. intros y [_ Hy]%list_elem_of_filter. auto. }
  apply Hf. destruct (Z.le_gt_cases 0 (Bitmap.numBits b)) as [H|H].
  - rewrite <- (Z2Nat.id _ H). apply Hseq.
  - rewrite seqZ_nil by lia. constructor.
Qed.

Section Files.
Context (fs : FileSys.FileSystem) (s : synchdisk) (d : Directory.Directory) (b : Bitmap.bitmap).
Context (N : gmap (list Z) (Z * FileHeader)) (HL : FileSys.layout fs s d b N).

Lemma members_layout : members b ≡ₚ FileSys.sys_sectors fs ++ FileSys.nodes N.
Proof.
  destruct (FileSys.l_bitmap _ _ _ _ _ HL) as (Hb & Hn & Hbits).
  apply NoDup_Permutation; [|apply HL|].
  - unfold members. apply NoDup_filter, NoDup_seqZ.
  - intros i. unfold members. rewrite list_elem_of_filter, elem_of_seqZ, Hn.
    assert (sector_ok i -> Bitmap.bit b i = bool_decide (i ∈ FileSys.sys_sectors fs ++ FileSys.nodes N)) as Hbit.
    { intros Hi. pose proof (Bitmap.bits_lookup b i) as E. rewrite Hbits, FileSys.lookup_marks in E by done.
      rewrite Hn in E. by injection (E Hi) as <-. }
    split.
    + intros [E Hi]. rewrite Hbit in E by (unfold sector_ok; lia). by apply bool_decide_eq_true in E.
    + intros Hi. pose proof (FileSys.l_ok _ _ _ _ _ HL) as Hok. rewrite Forall_forall in Hok.
      pose proof (Hok i Hi) as [? ?]. rewrite Hbit by done. split; [by apply bool_decide_eq_true|lia].
Qed.

(** ** The directory *)

(** What the text says of an entry of the directory. *)
Definition file_of (e : list Z * Z) : file :=
  match N !! e.1 with
  | Some (_, h) => mkFile e.1 e.2 (sectors_of h) (OpenFile.file_bytes s h)
  | None => mkFile e.1 e.2 [] []
  end.

Definition node_file (kn : list Z * (Z * FileHeader)) : file :=
  mkFile kn.1 kn.2.1 (sectors_of kn.2.2) (OpenFile.file_bytes s kn.2.2).

Lemma files_of_entries : map file_of (Directory.entries d) ≡ₚ map node_file (map_to_list N).
Proof.
  destruct (FileSys.l_directory _ _ _ _ _ HL) as (Hd & _ & Hm).
  assert (Directory.entries d ≡ₚ map_to_list (Directory.dmap d)) as ->.
  { unfold Directory.dmap. by rewrite map_to_list_to_map by apply Hd. }
  rewrite Hm, map_to_list_fmap. change (map ?f ?l) with (f <$> l). rewrite <- list_fmap_compose.
  apply reflexive_eq, list_fmap_ext. intros ? [k [i h]] Hk%list_elem_of_lookup_2%elem_of_map_to_list. cbn.
  unfold file_of. cbn. by rewrite Hk.
Qed.

Lemma Directory_Print_spec s1 : Disk.wf s1 -> unixfile (dev s1) = unixfile (dev s) ->
  map_Forall (fun k _ => (length k < Directory.FileNameMaxLen)%nat) N ->
  exists s', Directory_Print d s1 = Ok (show_directory (map file_of (Directory.entries d)), s') /\
    Disk.wf s' /\ unixfile (dev s') = unixfile (dev s).
Proof.
  intros Hs1 Hu1 Hshort. destruct (FileSys.l_directory _ _ _ _ _ HL) as (Hd & _ & Hm). unfold Directory_Print.
  set (out0 := str "Directory contents:" ++ _).
  match goal with |- context [for_range ?n 0 ?body (out0, s1)] =>
    destruct (for_range_inv (fun i '(out, s') => Disk.wf s' /\ unixfile (dev s') = unixfile (dev s) /\
      out = out0 ++ concat (map show_entry (map file_of (omap Directory.entry_view (take (Z.to_nat i) (Directory.table d))))))
      n 0 body (out0, s1)) as ([out s'] & -> & Hs' & Hu & ->) end.
  - by rewrite app_nil_r.
  - intros i [out s2] Hi (Hs2 & Hu2 & ->).
    destruct (Directory.wf_get d i Hd) as (e & -> & He & Hok); [lia|]. cbn [rbind].
    replace (Z.to_nat (i + 1)) with (S (Z.to_nat i)) by lia. rewrite (take_S_r _ _ e He), omap_app, !map_app, concat_app.
    assert (Directory.entry_view e = if Directory.inUse e then
      Some (Directory.key Directory.FileNameMaxLen (Directory.name e), Directory.sector e) else None) as Hv by done.
    cbn [omap list_omap]. rewrite Hv. destruct (Directory.inUse e) eqn:Hin; [|eexists; split; [done|]; by rewrite app_nil_r].
    assert (Directory.dmap d !! Directory.key Directory.FileNameMaxLen (Directory.name e) = Some (Directory.sector e)) as Hde.
    { apply Directory.dmap_Some; [done|]. exists e. split; [by eapply list_elem_of_lookup_2|done]. }
    rewrite Hm, lookup_fmap in Hde. destruct (N !! _) as [[sec h]|] eqn:Hn; [|done]. cbn in Hde. injection Hde as ->.
    destruct (FileSys.node_ok _ _ _ _ _ _ _ HL Hn) as (Hsec & Hh & Hb). cbn [fst snd] in *.
    rewrite (Directory.c_str_key Directory.FileNameMaxLen); [|by apply (Hshort _ _ Hn)|].
    2: { apply Directory.holds_name_long. destruct Hok as (-> & _). unfold Directory.FileNameMaxLen. lia. }
    cbn [rbind]. rewrite <- (FileSys.sector_same s s2) in Hb by done.
    destruct (FileSys.read_header s2 _ h Hs2 Hh Hsec Hb) as (s3 & -> & Hs3 & Hu3). cbn [rbind].
    destruct (FileHeader_Print_spec h s3 Hs3 Hh) as (s4 & -> & Hs4 & Hu4). cbn [rbind].
    eexists. split; [reflexivity|]. split; [done|]. split; [congruence|].
    cbn [map concat]. unfold file_of. cbn [fst snd]. rewrite Hn. unfold show_entry. cbn [fname at_sector blocks bytes].
    rewrite (FileSys.file_bytes_same s s3) by congruence. by rewrite app_nil_r, <- !app_assoc.
  - cbn [rbind]. exists s'. split; [|done]. rewrite take_ge by (destruct Hd as (Hlen & _); lia).
    unfold show_directory, out0, Directory.entries. by rewrite <- !app_assoc.
Qed.

End Files.

(** ** The disk *)

(** A text that shows the files [m] on a disk. *)
Definition shows (m : gmap (list Z) (list Z)) (text : list Z) : Prop :=
  exists free dir used files, text = show_disk free dir used files /\
    map (fun f => (fname f, bytes f)) files ≡ₚ map_to_list m /\
    StronglySorted Z.lt used /\
    used ≡ₚ FileSys.FreeMapSector :: FileSys.DirectorySector ::
      free.1 ++ dir.1 ++ concat (map (fun f => at_sector f :: blocks f) files).

Lemma concat_bind {A B} (f : A -> list B) l : concat (map f l) = l ≫= f.
Proof. induction l as [|x l IH]; [done|]. cbn. by rewrite IH. Qed.

Lemma node_files_sectors s l :
  concat (map FileSys.node_sectors l.*2) = concat (map (fun f => at_sector f :: blocks f) (map (node_file s) l)).
Proof. change (l.*2) with (map snd l). by rewrite !map_map. Qed.

Section Disk.
Context (fresh : Z -> Z) (Hfresh : forall i, is_u8 (fresh i)).

Lemma Print_layout fs s d b N : FileSys.layout fs s d b N ->
  map_Forall (fun k _ => (length k < Directory.FileNameMaxLen)%nat) N ->
  let file h := (sectors_of h, OpenFile.file_bytes s h) in
  exists s', Print fresh fs s =
      Ok (show_disk (file (OpenFile.hdr (FileSys.freeMapFile fs))) (file (OpenFile.hdr (FileSys.directoryFile fs)))
            (members b) (map (file_of s N) (Directory.entries d)), s') /\
    Disk.wf s' /\ unixfile (dev s') = unixfile (dev s).
Proof.
  intros HL Hshort file. unfold Print.
  destruct (FileSys.fetch_freemap_spec fresh fs s d b N HL) as (s1 & -> & Hs1 & Hu1). cbn [rbind].
  destruct (FileSys.new_Directory_spec fresh Hfresh) as (d0 & -> & Hd0 & Ht0 & _). cbn [rbind].
  destruct (FileSys.l_maphdr _ _ _ _ _ HL) as (Hm & Hmn & Hms), (FileSys.l_dirhdr _ _ _ _ _ HL) as (Hd & Hdn & Hds).
  assert (sector_ok FileSys.FreeMapSector /\ sector_ok FileSys.DirectorySector) as [Ok0 Ok1] by done.
  rewrite <- (FileSys.sector_same s s1) in Hms by done.
  destruct (FileSys.read_header s1 _ _ Hs1 Hm Ok0 Hms) as (s2 & -> & Hs2 & Hu2). cbn [rbind].
  destruct (FileHeader_Print_spec _ s2 Hs2 Hm) as (s3 & -> & Hs3 & Hu3). cbn [rbind].
  rewrite <- (FileSys.sector_same s s3) in Hds by congruence.
  destruct (FileSys.read_header s3 _ _ Hs3 Hd Ok1 Hds) as (s4 & -> & Hs4 & Hu4). cbn [rbind].
  destruct (FileHeader_Print_spec _ s4 Hs4 Hd) as (s5 & -> & Hs5 & Hu5). cbn [rbind].
  rewrite Bitmap_Print_spec by apply HL. cbn [rbind].
  assert (FileSys.layout fs s5 d b N) as HL5 by (eapply FileSys.layout_same; [exact HL|done|congruence]).
  destruct (FileSys.l_directory _ _ _ _ _ HL5) as (Hdir & Htab & _).
  destruct (Directory.FetchFrom_spec fresh (FileSys.directoryFile fs) d0 d s5) as (s6 & -> & Hs6 & Hu6);
    try done; [congruence|apply HL5|by rewrite Hdn, Htab|]. cbn [rbind].
  destruct (Directory_Print_spec fs s d b N HL s6 Hs6) as (s7 & -> & Hs7 & Hu7); [congruence|done|]. cbn [rbind].
  exists s7. split; [|done]. unfold show_disk, file. cbn [fst snd].
  by rewrite (FileSys.file_bytes_same s s2), (FileSys.file_bytes_same s s4) by congruence.
Qed.

(** What [nachos -D] prints.  On a consistent disk with names of at most
    eight characters [FileSystem::Print] ends without an error and changes no
    file; its text shows every file once, with its name, its length, its sectors
    and all of its bytes, and the set it prints for the free map is, in increasing
    order, exactly the sectors that the rest of the text names. *)
Lemma Print_shows fs s m : FileSys.represents fs s m ->
  map_Forall (fun k _ => (length k < Directory.FileNameMaxLen)%nat) m ->
  exists text s', Print fresh fs s = Ok (text, s') /\ shows m text /\ FileSys.represents fs s' m.
Proof.
  intros HR Hshort. pose proof HR as (d & b & N & HL & ->).
  destruct (Print_layout fs s d b N HL) as (s' & E & Hs' & Hu).
  { intros k n Hn. apply (Hshort k (OpenFile.file_bytes s n.2)). by rewrite lookup_fmap, Hn. }
  eexists _, s'. split; [exact E|]. split; [|by eapply FileSys.represents_same].
  eexists _, _, _, _. split; [reflexivity|]. cbn [fst snd].
  pose proof (files_of_entries fs s d b N HL) as HP. split; [|split; [apply members_sorted|]].
  - change (map ?f ?l) with (f <$> l). rewrite HP, map_to_list_fmap. change (map ?f ?l) with (f <$> l).
    rewrite <- list_fmap_compose. apply reflexive_eq, list_fmap_ext. by intros ? [].
  - rewrite (members_layout fs s d b N HL). unfold FileSys.sys_sectors. cbn [app]. do 2 f_equiv. rewrite <- app_assoc.
    do 2 f_equiv. rewrite concat_bind, HP. unfold FileSys.nodes.
    by rewrite <- !concat_bind, (node_files_sectors s).
Qed.

End Disk.

End Dump.
