(* ===== verification/Main.v ===== *)
(** * The command line and the start of the kernel

    threads/main.cc and the parts of threads/kernel.cc it calls: the options,
    which two loops read (that of [main] and that of the constructor of
    [Kernel]), the order of what they ask for, [Copy] and [Print] of files, and
    the console test.  The program is taken as compiled with its own file
    system (without FILESYS_STUB), so that all options exist. *)

From S2P Require Import Prelude Ints CString Disk FileHdr OpenFile Directory FileSys Dump Console.

Module Main.

Import Disk FileHdr.

(** ** Options *)

(** What the constructor of [Kernel] sets; [seed] is the argument of
    [RandomInit], [reliability] that of [atof] (the default is 1). *)
Record Kernel := mkKernel {
  seed : option Z;
  randomSlice : bool;
  debugUserProg : bool;
  consoleIn : option (list Z);
  consoleOut : option (list Z);
  formatFlag : bool;
  reliability : option (list Z);
  hostName : Z
}.

Definition default_Kernel : Kernel := mkKernel None false false None None false None 0.

(** [Kernel::Kernel] on [argv[1]], ...; an option whose argument is missing fails
    [ASSERT(i + 1 < argc)]. *)
Fixpoint Kernel_args (args : list (list Z)) (k : Kernel) : res Kernel :=
  match args with
  | [] => Ok k
  | a :: rest =>
      if decide (a = str "-rs") then
        match rest with
        | [] => Err AssertFailure
        | v :: rest' => Kernel_args rest' (mkKernel (Some (atoi v)) true (debugUserProg k) (consoleIn k) (consoleOut k)
                                             (formatFlag k) (reliability k) (hostName k))
        end
      else if decide (a = str "-s") then
        Kernel_args rest (mkKernel (seed k) (randomSlice k) true (consoleIn k) (consoleOut k)
                            (formatFlag k) (reliability k) (hostName k))
      else if decide (a = str "-ci") then
        match rest with
        | [] => Err AssertFailure
        | v :: rest' => Kernel_args rest' (mkKernel (seed k) (randomSlice k) (debugUserProg k) (Some v) (consoleOut k)
                                             (formatFlag k) (reliability k) (hostName k))
        end
      else if decide (a = str "-co") then
        match rest with
        | [] => Err AssertFailure
        | v :: rest' => Kernel_args rest' (mkKernel (seed k) (randomSlice k) (debugUserProg k) (consoleIn k) (Some v)
                                             (formatFlag k) (reliability k) (hostName k))
        end
      else if decide (a = str "-f") then
        Kernel_args rest (mkKernel (seed k) (randomSlice k) (debugUserProg k) (consoleIn k) (consoleOut k)
                            true (reliability k) (hostName k))
      else if decide (a = str "-n") then
        match rest with
        | [] => Err AssertFailure
        | v :: rest' => Kernel_args rest' (mkKernel (seed k) (randomSlice k) (debugUserProg k) (consoleIn k) (consoleOut k)
                                             (formatFlag k) (Some v) (hostName k))
        end
      else if decide (a = str "-m") then
        match rest with
        | [] => Err AssertFailure
        | v :: rest' => Kernel_args rest' (mkKernel (seed k) (randomSlice k) (debugUserProg k) (consoleIn k) (consoleOut k)
                                             (formatFlag k) (reliability k) (atoi v))
        end
      else Kernel_args rest k
  end.

(** The variables of [main]. *)
Record options := mkOptions {
  debugArg : list Z;
  userProgName : option (list Z);
  threadTestFlag : bool;
  consoleTestFlag : bool;
  networkTestFlag : bool;
  copyFiles : option (list Z * list Z);     (* copyUnixFileName, copyNachosFileName *)
  printFileName : option (list Z);
  removeFileName : option (list Z);
  dirListFlag : bool;
  dumpFlag : bool
}.

Definition default_options : options := mkOptions [] None false false false None None None false false.

(** The loop of [main]. *)
Fixpoint main_args (args : list (list Z)) (o : options) : res options :=
  let '(mkOptions d x kt ct nt cp p r l D) := o in
  match args with
  | [] => Ok o
  | a :: rest =>
      if decide (a = str "-d") then
        match rest with
        | [] => Err AssertFailure
        | v :: rest' => main_args rest' (mkOptions v x kt ct nt cp p r l D)
        end
      else if decide (a = str "-z") then main_args rest o
      else if decide (a = str "-x") then
        match rest with
        | [] => Err AssertFailure
        | v :: rest' => main_args rest' (mkOptions d (Some v) kt ct nt cp p r l D)
        end
      else if decide (a = str "-K") then main_args rest (mkOptions d x true ct nt cp p r l D)
      else if decide (a = str "-C") then main_args rest (mkOptions d x kt true nt cp p r l D)
      else if decide (a = str "-N") then main_args rest (mkOptions d x kt ct true cp p r l D)
      else if decide (a = str "-cp") then
        match rest with
        | u :: n :: rest' => main_args rest' (mkOptions d x kt ct nt (Some (u, n)) p r l D)
        | _ => Err AssertFailure
        end
      else if decide (a = str "-p") then
        match rest with
        | [] => Err AssertFailure
        | v :: rest' => main_args rest' (mkOptions d x kt ct nt cp (Some v) r l D)
        end
      else if decide (a = str "-r") then
        match rest with
        | [] => Err AssertFailure
        | v :: rest' => main_args rest' (mkOptions d x kt ct nt cp p (Some v) l D)
        end
      else if decide (a = str "-l") then main_args rest (mkOptions d x kt ct nt cp p r true D)
      else if decide (a = str "-D") then main_args rest (mkOptions d x kt ct nt cp p r l true)
      else main_args rest o
  end.

(** ** What [main] does *)

Inductive file_command :=
| RemoveFile (name : list Z)
| CopyFile (unix nachos : list Z)
| DumpDisk
| ListDirectory
| PrintFile (name : list Z).

Inductive action :=
| ThreadSelfTest
| ConsoleTest
| NetworkTest
| OnFiles (c : file_command)
| RunProgram (name : list Z)        (* does not return *)
| YieldForever.

Definition when {A} (o : option A) (f : A -> action) : list action := match o with Some a => [f a] | None => [] end.

(** In the order of [main], after the kernel is initialised. *)
Definition main_actions (o : options) : list action :=
  (if threadTestFlag o then [ThreadSelfTest] else []) ++
  (if consoleTestFlag o then [ConsoleTest] else []) ++
  (if networkTestFlag o then [NetworkTest] else []) ++
  when (removeFileName o) (fun n => OnFiles (RemoveFile n)) ++
  when (copyFiles o) (fun p => OnFiles (CopyFile p.1 p.2)) ++
  (if dumpFlag o then [OnFiles DumpDisk] else []) ++
  (if dirListFlag o then [OnFiles ListDirectory] else []) ++
  when (printFileName o) (fun n => OnFiles (PrintFile n)) ++
  match userProgName o with Some x => [RunProgram x] | None => [YieldForever] end.

(** The commands on files among them. *)
Definition file_commands (o : options) : list file_command :=
  omap (fun a => match a with OnFiles c => Some c | _ => None end) (main_actions o).

(** What the commands print. *)
Inductive message :=
| Text (bytes : list Z)
| CannotOpenInput (name : list Z)     (* Copy: couldn't open input file *)
| CannotCreate (name : list Z)        (* Copy: couldn't create output file *)
| UnableToOpen (name : list Z).       (* Print: unable to open file *)

Section Files.
Variable fresh : Z -> Z.

Definition TransferSize : Z := 128.

(** The loop of [Copy]; [rest] is what is left of the UNIX file. *)
Fixpoint copy_loop (fuel : nat) (rest : list Z) (f : OpenFile.OpenFile) (s : synchdisk) : res synchdisk :=
  let buffer := take (Z.to_nat TransferSize) rest in
  if 0 <? Z.of_nat (length buffer) then
    match fuel with
    | O => Err Diverges
    | S fuel' =>
        let3* (_, f, s) := OpenFile.Write fresh buffer (Z.of_nat (length buffer)) f s in
        copy_loop fuel' (drop (Z.to_nat TransferSize) rest) f s
    end
  else Ok s.

(** [Copy]; [unix] gives the contents of the UNIX files that can be opened. *)
Definition Copy (unix : list Z -> option (list Z)) (from to : list Z) (fs : FileSys.FileSystem) (s : synchdisk)
  : res (list message * synchdisk) :=
  match unix from with
  | None => Ok ([CannotOpenInput from], s)
  | Some c =>
      let2* (created, s) := FileSys.Create fresh fs (to ++ [0]) (Z.of_nat (length c)) s in
      if negb created then Ok ([CannotCreate to], s)
      else
        let2* (openFile, s) := FileSys.Open fresh fs (to ++ [0]) s in
        match openFile with
        | None => Err AssertFailure
        | Some f => let* s := copy_loop (length c) c f s in Ok ([], s)
        end
  end.

(** The loop of [Print]: the bytes it prints. *)
Fixpoint print_loop (fuel : nat) (f : OpenFile.OpenFile) (s : synchdisk) : res (list Z * synchdisk) :=
  let3* (buffer, f, s) := OpenFile.Read fresh TransferSize f s in
  if 0 <? Z.of_nat (length buffer) then
    match fuel with
    | O => Err Diverges
    | S fuel' => let2* (out, s) := print_loop fuel' f s in Ok (buffer ++ out, s)
    end
  else Ok ([], s).

(** [Print]; each turn of its loop but the last prints a byte at least. *)
Definition Print (name : list Z) (fs : FileSys.FileSystem) (s : synchdisk) : res (list message * synchdisk) :=
  let2* (openFile, s) := FileSys.Open fresh fs (name ++ [0]) s in
  match openFile with
  | None => Ok ([UnableToOpen name], s)
  | Some f =>
      let2* (out, s) := print_loop (Z.to_nat (OpenFile.Length f)) f s in
      Ok ([Text out], s)
  end.

Definition run_command (unix : list Z -> option (list Z)) (fs : FileSys.FileSystem) (c : file_command) (s : synchdisk)
  : res (list message * synchdisk) :=
  match c with
  | RemoveFile name => let2* (_, s) := FileSys.Remove fresh fs (name ++ [0]) s in Ok ([], s)
  | CopyFile u n => Copy unix u n fs s
  | DumpDisk => let2* (text, s) := Dump.Print fresh fs s in Ok ([Text text], s)
  | ListDirectory =>
      let2* (names, s) := FileSys.List fresh fs s in
      Ok (map (fun n => Text (n ++ [10])) names, s)
  | PrintFile name => Print name fs s
  end.

Fixpoint run_commands (unix : list Z -> option (list Z)) (fs : FileSys.FileSystem) (l : list file_command)
    (s : synchdisk) : res (list message * synchdisk) :=
  match l with
  | [] => Ok ([], s)
  | c :: l' =>
      let2* (out, s) := run_command unix fs c s in
      let2* (out', s) := run_commands unix fs l' s in
      Ok (out ++ out', s)
  end.

End Files.

(** [Kernel::ConsoleTest]: the characters are echoed until the end of the
    input. *)
Fixpoint console_test {I O : Type} `{CharSource I} `{CharSink O} (fuel : nat) (i : I) (o : O) : res (I * O) :=
  match fuel with
  | Datatypes.O => Err Diverges
  | S fuel' =>
      let2* (ch, i) := get_char i in
      if negb (ch =? EOF) then
        let* o := put_char ch o in
        console_test fuel' i o
      else Ok (i, o)
  end.

(** ** The command line is read back *)

(** A command line for the options: every option with its arguments. *)
Definition command_line (o : options) : list (list Z) :=
  let opt (flag : string) (v : option (list Z)) := match v with Some a => [str flag; a] | None => [] end in
  let set (flag : string) (b : bool) := if b then [str flag] else [] in
  [str "-d"; debugArg o] ++ opt "-x" (userProgName o) ++ set "-K" (threadTestFlag o) ++
  set "-C" (consoleTestFlag o) ++ set "-N" (networkTestFlag o) ++
  match copyFiles o with Some (u, n) => [str "-cp"; u; n] | None => [] end ++
  opt "-p" (printFileName o) ++ opt "-r" (removeFileName o) ++ set "-l" (dirListFlag o) ++ set "-D" (dumpFlag o).

Lemma command_line_roundtrip o : main_args (command_line o) default_options = Ok o.
Proof. by destruct o as [d [x|] [] [] [] [[u n]|] [p|] [r|] [] []]. Qed.

(** ** Commands on files as operations of a map *)

Notation store := (gmap (list Z) (list Z)).

(** The name under which the directory keeps a file. *)
Definition file_key (n : list Z) : list Z := Directory.key Directory.FileNameMaxLen (n ++ [0]).

(** The effect of a command on the files, and what it prints. *)
Definition command_spec (unix : list Z -> option (list Z)) (c : file_command) (m : store)
    (out : list message) (m' : store) : Prop :=
  match c with
  | RemoveFile n => out = [] /\ m' = delete (file_key n) m
  | CopyFile u n =>
      match unix u with
      | None => out = [CannotOpenInput u] /\ m' = m
      | Some bytes =>
          if decide (m !! file_key n = None /\ Z.of_nat (size m) < FileSys.NumDirEntries)
          then out = [] /\ m' = <[file_key n := bytes]> m
          else out = [CannotCreate n] /\ m' = m
      end
  | DumpDisk => (exists text, Dump.shows m text /\ out = [Text text]) /\ m' = m
  | ListDirectory =>
      (exists names, names ≡ₚ (map_to_list m).*1 /\ out = map (fun n => Text (n ++ [10])) names) /\ m' = m
  | PrintFile n =>
      out = match m !! file_key n with Some bytes => [Text bytes] | None => [UnableToOpen n] end /\ m' = m
  end.

Inductive commands_spec (unix : list Z -> option (list Z)) : list file_command -> store -> list message -> store -> Prop :=
| spec_nil m : commands_spec unix [] m [] m
| spec_cons c l m out m1 out' m' :
    command_spec unix c m out m1 -> commands_spec unix l m1 out' m' ->
    commands_spec unix (c :: l) m (out ++ out') m'.

(** Names are strings of characters; those of copied files have at most eight of
    them, so that a listing ends; the UNIX files fit into a file of Nachos. *)
Definition command_ok (unix : list Z -> option (list Z)) (c : file_command) : Prop :=
  match c with
  | RemoveFile n | PrintFile n => Forall is_u8 n
  | CopyFile u n =>
      Forall is_u8 n /\ (length n < Directory.FileNameMaxLen)%nat /\
      forall bytes, unix u = Some bytes -> Forall is_u8 bytes /\ Z.of_nat (length bytes) <= MaxFileSize
  | DumpDisk | ListDirectory => True
  end.

Definition short_names (m : store) : Prop :=
  map_Forall (fun k _ => (length k < Directory.FileNameMaxLen)%nat) m.

Lemma name_ok_argument n : Forall is_u8 n -> FileSys.name_ok (n ++ [0]).
Proof.
  intros Hn. split; [|apply Forall_app; by repeat constructor].
  generalize Directory.FileNameMaxLen as k. induction Hn as [|c n _ _ IH]; intros [|k]; try done.
  cbn [app Directory.holds_name]. by rewrite IH, orb_true_r.
Qed.

Lemma length_file_key n : (length (file_key n) <= length n)%nat.
Proof.
  unfold file_key. generalize Directory.FileNameMaxLen as k. induction n as [|c n IH]; intros [|k]; cbn; try lia.
  destruct (c =? 0); cbn; [lia|]. specialize (IH k). lia.
Qed.

Lemma last_chunk (rest : list Z) : Z.of_nat (length (take (Z.to_nat TransferSize) rest)) <= 0 -> rest = [].
Proof. rewrite length_take. unfold TransferSize. intros H. apply nil_length_inv. lia. Qed.

Section Refinement.
Context (fresh : Z -> Z) (Hfresh : forall i, is_u8 (fresh i)).
Context (fs : FileSys.FileSystem) (k : list Z) (h : FileHeader).

Notation at_pos p := (OpenFile.mkOpenFile h (Z.of_nat p)).

(** The turns of [Copy] replace what the new file held. *)
Lemma copy_file_spec fuel : forall (m : store) (before rest old : list Z) s,
  (length rest <= fuel)%nat -> length old = length rest -> Forall is_u8 rest ->
  Z.of_nat (length (before ++ rest)) < 2 ^ 31 ->
  FileSys.opened fs s (<[k := before ++ old]> m) k h ->
  exists s', copy_loop fresh fuel rest (at_pos (length before)) s = Ok s' /\
    FileSys.represents fs s' (<[k := before ++ rest]> m).
Proof.
  induction fuel as [|fuel IH]; intros m before rest old s Hf Hl Hu H31 HO.
  { destruct rest, old; try (cbn in *; lia). exists s. split; [done|]. by eapply FileSys.opened_represents. }
  cbn [copy_loop]. set (buffer := take (Z.to_nat TransferSize) rest).
  destruct (Z.ltb_spec 0 (Z.of_nat (length buffer))) as [Hb|Hb].
  - assert (length buffer <= length rest)%nat as Hbr by (subst buffer; rewrite length_take; lia).
    rewrite length_app in H31. unfold OpenFile.Write. cbn [OpenFile.seekPosition OpenFile.hdr].
    destruct (FileSys.WriteAt_opened fresh Hfresh fs s _ k h (before ++ old) buffer (Z.of_nat (length buffer))
      (Z.of_nat (length before)) HO) as (s1 & -> & HO1).
    + apply lookup_insert_eq.
    + by apply Forall_take.
    + lia.
    + lia.
    + rewrite length_app. lia.
    + cbn [rbind]. rewrite length_app in *. replace (Z.max 0 _) with (Z.of_nat (length buffer)) in * by lia.
      rewrite s32_id by (unfold is_s32; lia). rewrite <- Nat2Z.inj_add, <- length_app.
      rewrite insert_insert_eq in HO1.
      rewrite !Nat2Z.id, take_ge in HO1 by lia. unfold memcpy in HO1.
      rewrite take_app_length, drop_app_add in HO1.
      assert (buffer ++ drop (Z.to_nat TransferSize) rest = rest) as Hr by apply take_drop.
      replace (before ++ rest) with ((before ++ buffer) ++ drop (Z.to_nat TransferSize) rest)
        by (by rewrite <- app_assoc, Hr).
      apply (IH m _ _ (drop (length buffer) old)).
      * apply (f_equal length) in Hr. rewrite length_app in Hr. lia.
      * apply (f_equal length) in Hr. rewrite length_app in Hr. rewrite length_drop. lia.
      * by apply Forall_drop.
      * rewrite <- app_assoc, Hr, length_app. lia.
      * by rewrite <- app_assoc.
  - apply last_chunk in Hb as ->.
    destruct old; [|done]. exists s. split; [done|]. by eapply FileSys.opened_represents.
Qed.

(** Those of [Print] read the file to its end. *)
Lemma print_loop_spec m fuel : forall (before rest : list Z) s,
  (length rest <= fuel)%nat -> Z.of_nat (length (before ++ rest)) < 2 ^ 31 - 128 ->
  m !! k = Some (before ++ rest) -> FileSys.opened fs s m k h ->
  exists s', print_loop fresh fuel (at_pos (length before)) s = Ok (rest, s') /\ FileSys.opened fs s' m k h.
Proof.
  induction fuel as [|fuel IH]; intros before rest s Hf H31 Hk HO; cbn [print_loop]; unfold OpenFile.Read;
    cbn [OpenFile.seekPosition OpenFile.hdr]; rewrite length_app in H31;
    (destruct (FileSys.ReadAt_opened fresh fs s m k h (before ++ rest) TransferSize (Z.of_nat (length before)) HO Hk)
      as (s1 & -> & HO1); [lia|unfold TransferSize; lia|]); cbn [rbind]; unfold slice;
    rewrite Nat2Z.id, drop_app_length.
  { destruct rest; [|cbn in Hf; lia]. by exists s1. }
  set (buffer := take (Z.to_nat TransferSize) rest).
  assert (buffer ++ drop (Z.to_nat TransferSize) rest = rest) as Hr by apply take_drop.
  pose proof (f_equal length Hr) as Hlen. rewrite length_app in Hlen.
  destruct (Z.ltb_spec 0 (Z.of_nat (length buffer))) as [Hb|Hb].
  - rewrite s32_id by (unfold is_s32; lia). rewrite <- Nat2Z.inj_add, <- length_app.
    destruct (IH (before ++ buffer) (drop (Z.to_nat TransferSize) rest) s1) as (s2 & -> & HO2).
    + lia.
    + rewrite <- app_assoc, Hr, length_app. lia.
    + by rewrite <- app_assoc, Hr.
    + done.
    + cbn [rbind]. exists s2. by rewrite Hr.
  - apply last_chunk in Hb as ->.
    by exists s1.
Qed.

End Refinement.

Section Commands.
Context (fresh : Z -> Z) (Hfresh : forall i, is_u8 (fresh i)).
Context (unix : list Z -> option (list Z)) (fs : FileSys.FileSystem).

Lemma Copy_spec u n s m : FileSys.represents fs s m -> command_ok unix (CopyFile u n) ->
  exists out s' m', Copy fresh unix u n fs s = Ok (out, s') /\ command_spec unix (CopyFile u n) m out m' /\
    FileSys.represents fs s' m'.
Proof.
  intros HR (Hn & _ & Hu). unfold Copy. cbn [command_spec]. destruct (unix u) as [c|]; [|by do 3 eexists].
  destruct (Hu c eq_refl) as [Hc Hmax]. apply name_ok_argument in Hn.
  destruct (FileSys.Create_represents fresh Hfresh fs s m (n ++ [0]) (Z.of_nat (length c)) HR Hn) as [Hnew Hold]; [lia|].
  fold (file_key n) in Hnew, Hold. destruct (decide (_ /\ _)) as [[Hk Hsz]|Hno].
  - destruct (Hnew Hk Hsz) as (s1 & old & -> & Hlen & HR1). cbn [rbind negb].
    pose proof (FileSys.Open_represents fresh Hfresh fs s1 _ (n ++ [0]) HR1 Hn) as HO. cbv zeta in HO.
    fold (file_key n) in HO. rewrite lookup_insert_eq in HO. destruct HO as (h & s2 & -> & HO). cbn [rbind].
    assert (MaxFileSize = 3840) as HM by done.
    destruct (copy_file_spec fresh Hfresh fs (file_key n) h (length c) m [] c old s2) as (s3 & E & HR3); try done.
    + lia.
    + cbn [app]. lia.
    + change (Z.of_nat (length [])) with 0 in E. cbn [app] in HR3. rewrite E. cbn [rbind]. by exists [], s3, (<[file_key n := c]> m).
  - assert (Z.of_nat (size m) <= FileSys.NumDirEntries) as Hle.
    { destruct HR as (d & b & N & HL & ->). rewrite map_size_fmap. by eapply FileSys.size_bound. }
    destruct Hold as (s1 & -> & HR1).
    { destruct (m !! file_key n) eqn:E; [by left|]. right. destruct (decide (Z.of_nat (size m) < FileSys.NumDirEntries)); [naive_solver|lia]. }
    cbn [rbind negb]. by exists [CannotCreate n], s1, m.
Qed.

Lemma Print_spec n s m : FileSys.represents fs s m -> Forall is_u8 n ->
  exists s' , Print fresh n fs s =
      Ok (match m !! file_key n with Some bytes => [Text bytes] | None => [UnableToOpen n] end, s') /\
    FileSys.represents fs s' m.
Proof.
  intros HR Hn%name_ok_argument. unfold Print.
  pose proof (FileSys.Open_represents fresh Hfresh fs s m (n ++ [0]) HR Hn) as HO. cbv zeta in HO.
  fold (file_key n) in HO. destruct (m !! file_key n) as [c|] eqn:Hk.
  - destruct HO as (h & s1 & -> & HO). cbn [rbind]. unfold OpenFile.Length. cbn [OpenFile.hdr].
    rewrite (FileSys.opened_length _ _ _ _ _ _ HO Hk), Nat2Z.id.
    destruct (print_loop_spec fresh fs (file_key n) h m (length c) [] c s1) as (s2 & E & HO2); try done.
    + pose proof (FileSys.opened_max _ _ _ _ _ HO) as Hmax. rewrite (FileSys.opened_length _ _ _ _ _ _ HO Hk) in Hmax.
      assert (MaxFileSize = 3840) as HM by done. cbn [app]. lia.
    + change (Z.of_nat (length [])) with 0 in E. rewrite E. cbn [rbind]. exists s2. split; [done|]. by eapply FileSys.opened_represents.
  - destruct HO as (s1 & -> & HR1). cbn [rbind]. by exists s1.
Qed.

Lemma run_command_spec c s m : FileSys.represents fs s m -> short_names m -> command_ok unix c ->
  exists out s' m', run_command fresh unix fs c s = Ok (out, s') /\ command_spec unix c m out m' /\
    FileSys.represents fs s' m' /\ short_names m'.
Proof.
  intros HR Hshort Hok. destruct c as [n|u n| | |n]; cbn [run_command].
  - pose proof (FileSys.Remove_represents fresh Hfresh fs s m (n ++ [0]) HR (name_ok_argument n Hok)) as HRm.
    cbv zeta in HRm. fold (file_key n) in HRm. destruct (m !! file_key n) eqn:Hk; destruct HRm as (s1 & -> & HR1).
    + exists [], s1, (delete (file_key n) m). repeat split; [done|]. by apply map_Forall_delete.
    + exists [], s1, m. repeat split; try done. by rewrite delete_id.
  - destruct (Copy_spec u n s m HR Hok) as (out & s1 & m1 & E & Hspec & HR1). exists out, s1, m1.
    repeat split; try done. destruct Hok as (_ & Hlen & _). cbn [command_spec] in Hspec.
    destruct (unix u); [|by destruct Hspec as [_ ->]]. destruct (decide _); destruct Hspec as [_ ->]; [|done].
    apply map_Forall_insert_2; [|done]. pose proof (length_file_key n). lia.
  - destruct (Dump.Print_shows fresh Hfresh fs s m HR Hshort) as (text & s1 & -> & Hshows & HR1). cbn [rbind].
    exists [Text text], s1, m. split; [reflexivity|]. split; [|split; assumption].
    split; [|reflexivity]. exists text. split; [exact Hshows|reflexivity].
  - destruct (FileSys.List_represents fresh Hfresh fs s m HR Hshort) as (names & s1 & -> & HP & HR1). cbn [rbind].
    exists (map (fun n => Text (n ++ [10])) names), s1, m. repeat split; try done. by exists names.
  - destruct (Print_spec n s m HR Hok) as (s1 & -> & HR1). by do 3 eexists.
Qed.

Lemma run_commands_spec l : forall s m, FileSys.represents fs s m -> short_names m -> Forall (command_ok unix) l ->
  exists out s' m', run_commands fresh unix fs l s = Ok (out, s') /\ commands_spec unix l m out m' /\
    FileSys.represents fs s' m'.
Proof.
  induction l as [|c l IH]; intros s m HR Hshort Hok; cbn [run_commands].
  { exists [], s, m. split; [done|]. split; [constructor|done]. }
  apply Forall_cons in Hok as [Hc Hok].
  destruct (run_command_spec c s m HR Hshort Hc) as (out & s1 & m1 & -> & Hspec & HR1 & Hshort1). cbn [rbind].
  destruct (IH s1 m1 HR1 Hshort1 Hok) as (out' & s2 & m2 & -> & Hspec' & HR2). cbn [rbind].
  exists (out ++ out'), s2, m2. split; [done|]. split; [by econstructor|done].
Qed.


End Commands.

(** The console test echoes its input: it writes to the output exactly the
    characters of the input, in their order, and ends at the end of the input,
    after one turn for each character and one for the end.  It is stated for
    whatever delivers and takes characters; the console drivers do. *)
Theorem console_test_echoes {I O : Type} `{CharSource I} `{CharSink O} (i : I) (o : O) (l out : list Z) :
  stream i l -> shown o out ->
  exists i' o', console_test (S (length l)) i o = Ok (i', o') /\ shown o' (out ++ l).
Proof.
  revert i o out. induction l as [|c l IH]; intros i o out Hi Ho.
  - destruct (get_eof_law i Hi) as (i' & E). exists i', o. cbn [length console_test]. rewrite E. cbn.
    by rewrite app_nil_r.
  - destruct (get_char_law i c l Hi) as (i1 & E & Hi1). destruct (put_char_law o out c Ho) as (o1 & E1 & Ho1).
    pose proof (stream_chars i _ Hi) as Hc. apply Forall_cons in Hc as [[_ Hc] _].
    destruct (IH i1 o1 _ Hi1 Ho1) as (i' & o' & E' & Ho'). exists i', o'. rewrite <- app_assoc in Ho'. split; [|done].
    cbn [length]. cbn [console_test]. rewrite E. cbn [rbind]. rewrite (proj2 (Z.eqb_neq _ _) Hc). cbn [negb].
    by rewrite E1.
Qed.


(** Two characters typed with a pause between them. *)
Lemma console_test_echoes_witness :
  exists i' o', console_test 3 (Console.SynchConsoleInput_init [Some 104; None; Some 105])
      Console.SynchConsoleOutput_init = Ok (i', o') /\
    shown o' [104; 105].
Proof.
  apply (console_test_echoes (Console.SynchConsoleInput_init [Some 104; None; Some 105])
    Console.SynchConsoleOutput_init [104; 105] []); [split; [done|by left]|done].
Defined.

End Main.
