(* ===== verification/SysNum.v ===== *)
(** * Reading and printing numbers and strings (system calls)

    The console part of userprog/ksyscall.h and userprog/ksyscallhelper.h:
    [SysReadNum], [SysPrintNum], [SysReadString], [SysPrintString] and their
    helpers, over any console that meets the interfaces of Console.v.  Signed
    overflow wraps around, as the comments of the source count on. *)

From S2P Require Import Prelude Ints CString Console.

Module SysNum.

Definition LF : Z := 10.
Definition CR : Z := 13.
Definition TAB : Z := 9.
Definition SPACE : Z := 32.
Definition MAX_NUM_LENGTH : Z := 11.
Definition INT32_MIN : Z := - 2 ^ 31.

Definition isBlank (c : Z) : bool := (c =? LF) || (c =? CR) || (c =? TAB) || (c =? SPACE).

(** "-2147483648", "2147483648" and "0" *)
Definition min_string : list Z := [45; 50; 49; 52; 55; 52; 56; 51; 54; 52; 56; 0].
Definition min_digits : list Z := [50; 49; 52; 55; 52; 56; 51; 54; 52; 56; 0].
Definition zero_string : list Z := [48; 0].

Section Input.
Context {T : Type} `{CharSource T}.

(** The loop of [readUntilBlank], with [n] characters in the buffer.  It stops
    when [n > MAX_NUM_LENGTH], so twelve turns are enough. *)
Fixpoint read_loop (fuel : nat) (c n : Z) (buf : list Z) (s : T) : res (list Z * T) :=
  if negb (isBlank c || (c =? EOF)) then
    match fuel with
    | O => Err Diverges
    | S fuel' =>
        let* buf := arr_set buf n c in
        if MAX_NUM_LENGTH <? n + 1 then Ok (buf, s)
        else
          let2* (c, s) := get_char s in
          read_loop fuel' c (n + 1) buf s
    end
  else Ok (buf, s).

(** [readUntilBlank]: the contents of [_numberBuffer]. *)
Definition readUntilBlank (s : T) : res (list Z * T) :=
  let buf := replicate (Z.to_nat (MAX_NUM_LENGTH + 2)) 0 in
  let2* (c, s) := get_char s in
  if c =? EOF then Ok (buf, s)
  else if isBlank c then Ok (buf, s)
  else read_loop 12 c 0 buf s.

(** The loop of [compareNumAndString]: [s] points to position [off] of the
    string.  An [int] has ten digits at most. *)
Fixpoint compare_loop (fuel : nat) (integer : Z) (str : list Z) (off len : Z) : res bool :=
  if 0 <? integer then
    match fuel with
    | O => Err Diverges
    | S fuel' =>
        let* c := arr_get str (off + (len - 1)) in
        if negb (c - 48 =? Z.rem integer 10) then Ok false
        else compare_loop fuel' (Z.quot integer 10) str off (len - 1)
    end
  else Ok (len =? 0).

Definition compareNumAndString (integer : Z) (str : list Z) : res bool :=
  if integer =? 0 then let* c := strcmp str zero_string in Ok (c =? 0)
  else
    let* len := strlen str in
    let* c0 := arr_get str 0 in
    if (integer <? 0) && negb (c0 =? 45) then Ok false
    else if integer <? 0 then compare_loop 10 (s32 (- integer)) str 1 (len - 1)
    else compare_loop 10 integer str 0 len.

(** The loop over the digits: leading zeros, whether no other digit was met,
    and the number so far; it leaves at a character that is no digit. *)
Definition digit_step (buf : list Z) (i : Z) (st : Z * bool * Z) : res (Z * bool * Z + unit) :=
  let '(zeros, is_leading, num) := st in
  let* c := arr_get buf i in
  let '(zeros, is_leading) :=
    if (c =? 48) && is_leading then (zeros + 1, is_leading) else (zeros, false) in
  if (c <? 48) || (57 <? c) then Ok (inr tt)
  else Ok (inl (zeros, is_leading, s32 (num * 10 + (c - 48)))).

(** [SysReadNum] after [readUntilBlank]. *)
Definition number_in (buf : list Z) : res Z :=
  let* len := strlen buf in
  if len =? 0 then Ok 0
  else
    let* d := strcmp buf min_string in
    if d =? 0 then Ok INT32_MIN
    else
      let* c0 := arr_get buf 0 in
      let nega := c0 =? 45 in
      let start := if nega then 1 else 0 in
      let* r := for_break (Z.to_nat (len - start)) start (digit_step buf) (0, true, 0) in
      match r with
      | inr _ => Ok 0
      | inl (zeros, _, num) =>
          if (1 <? zeros) || (negb (zeros =? 0) && (negb (num =? 0) || nega)) then Ok 0
          else
            let num := if nega then s32 (- num) else num in
            if len <=? MAX_NUM_LENGTH - 2 then Ok num
            else
              let* same := compareNumAndString num buf in
              Ok (if same then num else 0)
      end.

Definition SysReadNum (s : T) : res (Z * T) :=
  let2* (buf, s) := readUntilBlank s in
  let* r := number_in buf in
  Ok (r, s).

Definition SysReadChar (s : T) : res (Z * T) := get_char s.

(** [SysReadString]: the buffer it returns.  [new char[length + 1]] throws for a
    negative number; length -1 stores before an empty array. *)
Definition SysReadString (length : Z) (s : T) : res (list Z * T) :=
  if length + 1 <? 0 then Err Uncaught
  else if length <? 0 then Err OutOfBounds
  else
    let2* (buf, s) := for_range (Z.to_nat length) 0
      (fun _ st =>
         let '(buf, s) := st in
         let2* (c, s) := SysReadChar s in
         Ok (buf ++ [c], s)) ([], s) in
    Ok (buf ++ [0], s).

End Input.

Section Output.
Context {T : Type} `{CharSink T}.

Definition SysPrintChar (c : Z) (s : T) : res T := put_char c s.

Definition SysPrintString (buffer : list Z) (length : Z) (s : T) : res T :=
  for_range (Z.to_nat length) 0
    (fun i s => let* c := arr_get buffer i in put_char c s) s.

(** [while (num) { _numberBuffer[n++] = num % 10; num /= 10; }] *)
Fixpoint digits_of (fuel : nat) (num n : Z) (buf : list Z) : res (Z * list Z) :=
  if negb (num =? 0) then
    match fuel with
    | O => Err Diverges
    | S fuel' =>
        let* buf := arr_set buf n (Z.rem num 10) in
        digits_of fuel' (Z.quot num 10) (n + 1) buf
    end
  else Ok (n, buf).

(** [SysPrintNum]; [buf] is what [_numberBuffer] holds. *)
Definition SysPrintNum (buf : list Z) (num : Z) (s : T) : res T :=
  if num =? 0 then put_char 48 s
  else if num =? INT32_MIN then
    let* s := put_char 45 s in
    for_range 10 0 (fun i s => let* c := arr_get min_digits i in put_char c s) s
  else
    let* s := if num <? 0 then put_char 45 s else Ok s in
    let num := if num <? 0 then s32 (- num) else num in
    let2* (n, buf) := digits_of 10 num 0 buf in
    for_range (Z.to_nat n) 0
      (fun i s => let* d := arr_get buf (n - 1 - i) in put_char (d + 48) s) s.

End Output.

(** ** Digits *)

(** The digits of a number that may be zero and then has none. *)
Definition dz (n : Z) : list Z := if n =? 0 then [] else digits n.

Lemma dz_pos n : 0 < n -> dz n = digits n.
Proof. intros Hn. unfold dz. by rewrite (proj2 (Z.eqb_neq n 0)) by lia. Qed.

Lemma dz_step n : 0 < n -> dz n = dz (n / 10) ++ [48 + n mod 10].
Proof.
  intros Hn. rewrite dz_pos by done. destruct (decide (n < 10)) as [Hs|Hs].
  - rewrite digits_small, Z.div_small, Z.mod_small by lia. done.
  - rewrite digits_step by lia. rewrite dz_pos by (zify_div; lia). done.
Qed.

Lemma length_dz k : forall n, 0 <= n < 10 ^ Z.of_nat k -> (length (dz n) <= k)%nat.
Proof.
  induction k as [|k IH]; intros n Hn.
  - change (10 ^ Z.of_nat 0) with 1 in Hn. assert (n = 0) as -> by lia. done.
  - destruct (decide (n = 0)) as [->|Hne]; [cbn; lia|]. rewrite dz_step, length_app by lia. cbn [length].
    rewrite Nat2Z.inj_succ, Z.pow_succ_r in Hn by lia. specialize (IH (n / 10)).
    assert (length (dz (n / 10)) <= k)%nat; [apply IH; zify_div; lia|lia].
Qed.

Lemma to_string_cases v :
  to_string v = if v <? 0 then 45 :: dz (- v) else if v =? 0 then [48] else dz v.
Proof.
  unfold to_string. destruct (Z.ltb_spec v 0); [by rewrite dz_pos by lia|].
  destruct (Z.eqb_spec v 0) as [->|]; [done|]. by rewrite dz_pos by lia.
Qed.

Lemma length_to_string v : is_s32 v -> (length (to_string v) <= 11)%nat.
Proof.
  intros Hv. rewrite to_string_cases. unfold is_s32 in Hv.
  destruct (Z.ltb_spec v 0) as [Hn|Hn].
  - pose proof (length_dz 10 (- v)). cbn [length]. lia.
  - destruct (Z.eqb_spec v 0); [cbn; lia|]. pose proof (length_dz 10 v). lia.
Qed.

(** ** The buffer *)

(** The characters before the first blank. *)
Fixpoint token (l : list Z) : list Z :=
  match l with
  | c :: l' => if isBlank c then [] else c :: token l'
  | [] => []
  end.

Section InputProofs.
Context {T : Type} `{CharSource T}.

Lemma read_loop_spec k : forall c l s done,
  stream s l -> c <> EOF -> (0 < k)%nat -> (length done + k = 12)%nat ->
  let t := take k (token (c :: l)) in
  exists s', read_loop k c (Z.of_nat (length done)) (done ++ replicate (k + 1) 0) s =
      Ok (done ++ t ++ replicate (k + 1 - length t) 0, s') /\
    forall b rest, c :: l = token (c :: l) ++ b :: rest -> (length (token (c :: l)) < k)%nat ->
      stream s' rest.
Proof.
  induction k as [|k IH]; intros c l s done Hs Hc H0 Hk; [lia|].
  cbn [read_loop token]. rewrite (proj2 (Z.eqb_neq c EOF)), orb_false_r by done.
  destruct (isBlank c) eqn:Eb; cbn [negb].
  { cbn [take length app]. exists s. split; [by rewrite Nat.sub_0_r|].
    intros b rest E _. cbn in E. by injection E as _ <-. }
  assert (arr_set (done ++ replicate (S k + 1) 0) (Z.of_nat (length done)) c =
    Ok ((done ++ [c]) ++ replicate (k + 1) 0)) as ->.
  { rewrite arr_set_in_range by (rewrite length_app, length_replicate; lia). f_equal.
    rewrite Nat2Z.id, insert_app_r_alt, Nat.sub_diag by lia. cbn [Nat.add replicate insert list_insert].
    by rewrite <- app_assoc. }
  cbn [rbind]. unfold MAX_NUM_LENGTH. destruct (Z.ltb_spec 11 (Z.of_nat (length done) + 1)) as [Hend|Hmore].
  - assert (k = 0%nat) as -> by lia. exists s. cbn [take firstn length]. split.
    { rewrite take_0. cbn [length Nat.sub Nat.add]. by rewrite <- !app_assoc. }
    cbn [length]. lia.
  - destruct l as [|c' l].
    + destruct (get_eof_law s Hs) as (s1 & ->). cbn [rbind].
      destruct k as [|k]; [lia|]. cbn [read_loop]. rewrite Z.eqb_refl, orb_true_r. cbn [negb].
      exists s1. split; [|intros b rest E; cbn in E; discriminate].
      cbn [token take firstn length].
      rewrite <- !app_assoc. cbn [app]. do 4 f_equal.
    + destruct (get_char_law s c' l Hs) as (s1 & -> & Hs1). cbn [rbind].
      pose proof (stream_chars s _ Hs) as Hch. apply Forall_cons in Hch as [[_ Hc'] _].
      destruct (IH c' l s1 (done ++ [c])) as (s' & E & Hrest); [done|done|lia|rewrite length_app; cbn; lia|].
      exists s'. rewrite length_app in E. cbn [length] in E. rewrite Nat2Z.inj_add in E.
      split.
      * change (Z.of_nat 1) with 1 in E. rewrite E. cbn [take firstn length]. rewrite <- !app_assoc. done.
      * intros b rest Eb' Hlen. cbn [length] in Hlen. apply (Hrest b rest); [|lia].
        cbn [app] in Eb'. by injection Eb'.
Qed.

Lemma readUntilBlank_spec s l : stream s l ->
  let t := take 12 (token l) in
  exists s', readUntilBlank s = Ok (t ++ replicate (13 - length t) 0, s') /\
    forall b rest, l = token l ++ b :: rest -> (length (token l) <= 11)%nat -> stream s' rest.
Proof.
  intros Hs. unfold readUntilBlank. destruct l as [|c l].
  { destruct (get_eof_law s Hs) as (s1 & ->). exists s1. split; [done|]. intros b rest E. discriminate. }
  destruct (get_char_law s c l Hs) as (s1 & -> & Hs1). cbn [rbind].
  pose proof (stream_chars s _ Hs) as Hch. apply Forall_cons in Hch as [[_ Hc] _].
  rewrite (proj2 (Z.eqb_neq c EOF)) by done.
  destruct (isBlank c) eqn:Eb.
  { exists s1. cbn [token]. rewrite Eb. split; [done|]. intros b rest E _. cbn in E. by injection E as _ <-. }
  destruct (read_loop_spec 12 c l s1 [] Hs1 Hc) as (s' & E & Hrest); [lia|done|].
  exists s'. split; [exact E|]. intros b rest E' Hl. apply (Hrest b rest); [done|lia].
Qed.

End InputProofs.

(** ** The loops over the digits *)

Definition digit (c : Z) : Prop := 48 <= c <= 57.

(** The number of zeros at the beginning. *)
Fixpoint lz (d : list Z) : Z :=
  match d with
  | c :: d' => if c =? 48 then 1 + lz d' else 0
  | [] => 0
  end.

Lemma s32_step num c : s32 (s32 num * 10 + c) = s32 (num * 10 + c).
Proof.
  unfold s32. pose proof (Z.div_mod (num + 2 ^ 31) (2 ^ 32) ltac:(lia)) as E.
  set (q := (num + 2 ^ 31) / 2 ^ 32) in *. set (r := (num + 2 ^ 31) mod 2 ^ 32) in *.
  f_equal. replace (num * 10 + c + 2 ^ 31) with ((r - 2 ^ 31) * 10 + c + 2 ^ 31 + q * 10 * 2 ^ 32) by lia.
  symmetry. apply Z.mod_add. lia.
Qed.

Lemma dec_value_s32 d : forall num, s32 (dec_value (s32 num) d) = s32 (dec_value num d).
Proof.
  induction d as [|c d IH] using rev_ind; intros num; [by rewrite s32_id by apply s32_range|].
  rewrite !dec_value_snoc. rewrite <- s32_step, IH. apply s32_step.
Qed.

(** The loop over digits [d] that stand at position [i] of the buffer. *)
Lemma digit_loop_spec buf d : forall i z ld num,
  0 <= i -> (forall j c, d !! j = Some c -> buf !! (Z.to_nat i + j)%nat = Some c) -> is_s32 num ->
  (Forall digit d -> exists ld',
     for_break (length d) i (digit_step buf) (z, ld, num) =
       Ok (inl (z + (if ld : bool then lz d else 0), ld', s32 (dec_value num d)))) /\
  (~ Forall digit d -> for_break (length d) i (digit_step buf) (z, ld, num) = Ok (inr tt)).
Proof.
  induction d as [|c d IH]; intros i z ld num Hi Hbuf Hn.
  - split; [|by intros []]. intros _. exists ld. cbn. rewrite s32_id by done. do 4 f_equal. destruct ld; lia.
  - assert (arr_get buf i = Ok c) as Ec.
    { apply arr_get_lookup; [done|]. rewrite <- (Nat.add_0_r (Z.to_nat i)). by apply Hbuf. }
    assert (forall j x, d !! j = Some x -> buf !! (Z.to_nat (i + 1) + j)%nat = Some x) as Hbuf'.
    { intros j x Hj. replace (Z.to_nat (i + 1) + j)%nat with (Z.to_nat i + S j)%nat by lia. by apply Hbuf. }
    cbn [length for_break]. unfold digit_step at 1 3. rewrite Ec. cbn [rbind].
    set (zl := if (c =? 48) && ld then (z + 1, ld) else (z, false)).
    destruct zl as [z' ld''] eqn:Ezl. unfold zl in Ezl.
    destruct (decide (digit c)) as [Hd|Hd].
    + assert ((c <? 48) || (57 <? c) = false) as -> by (unfold digit in Hd; apply orb_false_iff; split; apply Z.ltb_ge; lia).
      cbn [rbind]. destruct (IH (i + 1) z' ld'' (s32 (num * 10 + (c - 48)))) as [H1 H2]; [lia|done|apply s32_range|].
      split.
      * intros Hf. apply Forall_cons in Hf as [_ Hf]. destruct (H1 Hf) as (l' & E). exists l'. rewrite E.
        rewrite dec_value_s32. cbn [lz]. do 4 f_equal.
        destruct ld; destruct (Z.eqb_spec c 48); cbn in Ezl; injection Ezl as <- <-; lia.
      * intros Hf. apply H2. intros Hf'. apply Hf. by constructor.
    + assert ((c <? 48) || (57 <? c) = true) as ->.
      { unfold digit in Hd. apply orb_true_iff. rewrite !Z.ltb_lt. lia. }
      cbn [rbind]. split; [|done]. intros Hf. by apply Forall_cons in Hf as [? _].
Qed.

(** Comparing a number with the digits at position [length pre] of a string. *)
Lemma compare_loop_spec fuel : forall n pre d post,
  0 <= n < 10 ^ Z.of_nat fuel -> (length (dz n) <= length d)%nat ->
  compare_loop fuel n (pre ++ d ++ post) (Z.of_nat (length pre)) (Z.of_nat (length d)) =
    Ok (bool_decide (d = dz n)).
Proof.
  induction fuel as [|fuel IH]; intros n pre d post Hn Hl.
  { change (10 ^ Z.of_nat 0) with 1 in Hn. assert (n = 0) as -> by lia. cbn. destruct d; done. }
  cbn [compare_loop]. destruct (Z.ltb_spec 0 n) as [Hpos|Hz].
  2: { assert (n = 0) as -> by lia. change (dz 0) with (@nil Z). destruct d; done. }
  rewrite dz_step in * by done. rewrite length_app in Hl. cbn [length] in Hl.
  destruct d as [|x d _] using rev_ind; [cbn in Hl; lia|]. rewrite length_app in Hl |- *. cbn [length] in *.
  rewrite (arr_get_lookup _ _ x); [|lia|].
  2: { replace (Z.to_nat _) with (length pre + length d)%nat by lia.
    rewrite lookup_app_r by lia. replace (length pre + length d - length pre)%nat with (length d) by lia.
    rewrite <- app_assoc, lookup_app_r, Nat.sub_diag by lia. done. }
  cbn [rbind]. rewrite Z.rem_mod_nonneg, Z.quot_div_nonneg by lia.
  destruct (Z.eqb_spec (x - 48) (n mod 10)) as [Ex|Ex]; cbn [negb].
  - replace (Z.of_nat (length d + 1) - 1) with (Z.of_nat (length d)) by lia.
    rewrite <- app_assoc. rewrite IH; [|rewrite Nat2Z.inj_succ, Z.pow_succ_r in Hn by lia; zify_div; lia|lia].
    f_equal. apply bool_decide_ext. replace x with (48 + n mod 10) by lia. split; [by intros ->|].
    intros E. by apply app_inj_2 in E as [? _].
  - f_equal. symmetry. apply bool_decide_false. intros E. apply app_inj_2 in E as [_ E]; [|done].
    injection E as E. lia.
Qed.

Lemma compareNumAndString_spec n t post :
  is_s32 n -> n <> INT32_MIN -> t <> [] -> 0 ∉ t ->
  (n < 0 -> head t = Some 45 -> (length (dz (- n)) <= length t - 1)%nat) ->
  (0 < n -> (length (dz n) <= length t)%nat) ->
  compareNumAndString n (t ++ 0 :: post) = Ok (bool_decide (t = to_string n)).
Proof.
  intros Hn Hmin Hne Hz Hl1 Hl2. unfold compareNumAndString. rewrite to_string_cases.
  destruct (c_str_app t post Hz) as [Ec Es].
  destruct (Z.eqb_spec n 0) as [->|Hn0].
  { destruct (strcmp_spec (t ++ 0 :: post) zero_string t [48] Ec eq_refl) as (c & -> & Hc). cbn [rbind Z.ltb].
    f_equal. destruct (Z.eqb_spec c 0) as [E|E]; symmetry.
    - apply bool_decide_true. by apply Hc.
    - apply bool_decide_false. intros E'. by apply E, Hc. }
  rewrite Es. cbn [rbind]. destruct t as [|c0 t]; [done|].
  change (arr_get ((c0 :: t) ++ 0 :: post) 0) with (Ok c0). cbn [rbind].
  unfold is_s32, INT32_MIN in *. destruct (Z.ltb_spec n 0) as [Hneg|Hpos]; cbn [andb].
  - destruct (Z.eqb_spec c0 45) as [->|Hc0]; cbn [negb].
    2: { symmetry. f_equal. apply bool_decide_false. congruence. }
    rewrite s32_id by zlia. cbn [length] in *.
    replace (Z.of_nat (S (length t)) - 1) with (Z.of_nat (length t)) by lia.
    change ((45 :: t) ++ 0 :: post) with ([45] ++ t ++ 0 :: post).
    change 1 with (Z.of_nat (length [45])) at 1. rewrite compare_loop_spec.
    + f_equal. apply bool_decide_ext. split; [by intros ->|by intros [=]].
    + lia.
    + specialize (Hl1 Hneg eq_refl). lia.
  - apply (compare_loop_spec 10 n [] (c0 :: t) (0 :: post)); [lia|]. apply Hl2. lia.
Qed.

(** What [SysReadNum] finds in its buffer: the number a decimal notation of an
    [int] denotes, and zero for anything else. *)
Definition reads_as (t : list Z) (r : Z) : Prop :=
  (forall v, is_s32 v -> t = to_string v -> r = v) /\ (r <> 0 -> is_s32 r /\ t = to_string r).

Lemma to_string_signed v : exists neg d, to_string v = (if neg : bool then [45] else []) ++ d /\
  Forall digit d /\ neg = bool_decide (v < 0) /\ dec_value 0 d = Z.abs v /\
  d <> [] /\ (lz d = 0 \/ (v = 0 /\ d = [48])).
Proof.
  exists (bool_decide (v < 0)), (digits (Z.abs v)). split.
  { unfold to_string. destruct (Z.ltb_spec v 0).
    - rewrite bool_decide_true by done. by rewrite Z.abs_neq by lia.
    - rewrite bool_decide_false by lia. by rewrite Z.abs_eq. }
  split; [apply digits_digits|]. split; [done|]. split; [apply digits_value; lia|].
  split; [apply digits_not_nil|]. destruct (decide (v = 0)) as [->|Hv]; [by right|]. left.
  destruct (digits_head (Z.abs v)) as (c & l & -> & Hc); [lia|]. cbn [lz].
  by rewrite (proj2 (Z.eqb_neq c 48)) by lia.
Qed.

(** The sign and the rest of a string. *)
Lemma split_sign c0 t :
  exists d, c0 :: t = (if c0 =? 45 then [45] else []) ++ d /\
    forall v, c0 :: t = to_string v ->
      (c0 =? 45) = bool_decide (v < 0) /\ Forall digit d /\ dec_value 0 d = Z.abs v /\
      (lz d = 0 \/ (v = 0 /\ d = [48])).
Proof.
  destruct (Z.eqb_spec c0 45) as [->|Hc]; [exists t|exists (c0 :: t)]; (split; [done|]); intros v E;
    destruct (to_string_signed v) as (neg & d & E' & Hd & Hneg & Hv & Hne & Hz); rewrite E' in E;
    destruct neg; cbn in E.
  - injection E as ->. done.
  - subst d. apply Forall_cons in Hd as [Hd _]. unfold digit in Hd. lia.
  - by injection E as -> _.
  - by subst d.
Qed.

Lemma to_string_unique u v : to_string u = to_string v -> u = v.
Proof.
  intros E. destruct (to_string u) as [|c0 t] eqn:Eu.
  { destruct (to_string_signed u) as (neg & d & E' & _ & _ & _ & Hne & _). rewrite E' in Eu. by destruct neg, d. }
  destruct (split_sign c0 t) as (d & _ & Hd).
  destruct (Hd u (eq_sym Eu)) as (Su & _ & Vu & _). destruct (Hd v E) as (Sv & _ & Vv & _).
  rewrite Su in Sv.
  do 2 case_bool_decide; lia || done.
Qed.

Lemma lz_pos d : Forall digit d -> lz d = 0 -> 0 < dec_value 0 d -> digits (dec_value 0 d) = d.
Proof.
  intros Hd Hz Hv. destruct d as [|c d]; [cbn in Hv; lia|]. apply Forall_cons in Hd as [Hc Hd].
  cbn [lz] in Hz. destruct (Z.eqb_spec c 48) as [|Hne].
  { assert (0 <= lz d) as Hl; [|lia]. clear. induction d as [|x d IH]; [done|]. cbn. destruct (x =? 48); lia. }
  apply digits_dec_value; [|done]. unfold digit in Hc. lia.
Qed.

(** The number after the checks on leading zeros. *)
Lemma number_checked (nega : bool) T d num :
  T = (if nega then [45] else []) ++ d -> Forall digit d -> (length T <= 12)%nat ->
  (lz d = 0 \/ (lz d = 1 /\ s32 (dec_value 0 d) = 0 /\ nega = false)) ->
  num = (if nega then s32 (- s32 (dec_value 0 d)) else s32 (dec_value 0 d)) ->
  (length T <= 9)%nat -> (forall v, T = to_string v -> nega = bool_decide (v < 0) /\ dec_value 0 d = Z.abs v) ->
  reads_as T num.
Proof.
  intros ET Hd HT Hz Hnum Hl Hv. pose proof (dec_value_range d Hd) as Hr.
  assert (dec_value 0 d < 10 ^ 9) as Hb.
  { eapply Z.lt_le_trans; [apply Hr|]. apply Z.pow_le_mono_r; [lia|]. rewrite ET, length_app in Hl. lia. }
  rewrite s32_id in Hnum, Hz by zlia. rewrite s32_id in Hnum by zlia.
  split.
  - intros v Hs Ev. destruct (Hv v Ev) as [-> E]. rewrite E in Hnum.
    case_bool_decide; lia.
  - intros Hne. assert (0 < dec_value 0 d) as Hp by (destruct nega; lia).
    assert (lz d = 0) as Hlz by (destruct Hz as [|(_ & ? & _)]; [done|lia]).
    pose proof (lz_pos d Hd Hlz Hp) as E. split; [destruct nega; zlia|]. rewrite ET. subst num.
    unfold to_string. destruct nega.
    + rewrite (proj2 (Z.ltb_lt _ _)) by lia. rewrite Z.opp_involutive, E. done.
    + rewrite (proj2 (Z.ltb_ge _ _)) by lia. by rewrite E.
Qed.

(** The number compared with its own notation. *)
Lemma number_compared (nega : bool) T d num post :
  T = (if nega then [45] else []) ++ d -> Forall digit d -> 0 ∉ T -> T <> to_string INT32_MIN ->
  num = (if nega then s32 (- s32 (dec_value 0 d)) else s32 (dec_value 0 d)) ->
  (10 <= length T)%nat -> (forall v, T = to_string v -> nega = bool_decide (v < 0) /\ dec_value 0 d = Z.abs v) ->
  exists same : bool, compareNumAndString num (T ++ 0 :: post) = Ok same /\
    reads_as T (if same then num else 0).
Proof.
  intros ET Hd Hz Hmin Hnum Hl Hv. pose proof (dec_value_range d Hd) as Hr.
  assert (is_s32 num) as H32 by (subst num; destruct nega; apply s32_range).
  assert (forall v, is_s32 v -> T = to_string v -> num = v) as Hsame.
  { intros v Hs Ev. destruct (Hv v Ev) as [-> E]. rewrite E in Hnum.
    assert (v <> INT32_MIN) as Hvm by (intros ->; by apply Hmin).
    unfold INT32_MIN, is_s32 in *. rewrite (s32_id (Z.abs v)) in Hnum by zlia.
    case_bool_decide; [rewrite s32_id in Hnum by zlia|]; lia. }
  destruct (decide (num = INT32_MIN)) as [->|Hne].
  - exists false. split.
    + unfold compareNumAndString. destruct (c_str_app T post Hz) as [_ ->]. cbn [rbind].
      destruct T as [|c0 t]; [cbn in Hl; lia|]. change (arr_get ((c0 :: t) ++ _) 0) with (Ok c0).
      change (INT32_MIN =? 0) with false. change (INT32_MIN <? 0) with true. cbn [rbind andb].
      destruct (c0 =? 45); cbn [negb]; [|done]. change (s32 (- INT32_MIN)) with INT32_MIN.
      cbn [compare_loop]. change (0 <? INT32_MIN) with false. f_equal. apply Z.eqb_neq. cbn [length] in *. lia.
    + split; [|done]. intros v Hs Ev. pose proof (Hsame v Hs Ev) as <-. by apply Hmin in Ev.
  - exists (bool_decide (T = to_string num)). split.
    + apply compareNumAndString_spec; try done; [intros ->; cbn in Hl; lia| |].
      * intros Hneg Hhead. destruct nega; cbn [app] in ET.
        2: { subst d. destruct T as [|c T]; [done|]. injection Hhead as ->.
             apply Forall_cons in Hd as [Hd _]. unfold digit in Hd. lia. }
        subst T. cbn [length] in *. destruct (decide (length d = 9)%nat) as [E9|E9].
        -- rewrite E9 in Hr. change (10 ^ Z.of_nat 9) with 1000000000 in Hr.
           rewrite s32_id in Hnum by zlia. rewrite s32_id in Hnum by zlia.
           pose proof (length_dz 9 (- num)). lia.
        -- pose proof (length_dz 10 (- num)). unfold is_s32 in H32. lia.
      * intros Hpos. pose proof (length_dz 10 num). unfold is_s32 in H32. lia.
    + case_bool_decide as E; [|split; [|done]; intros v Hs Ev; rewrite (Hsame v Hs Ev) in E; done].
      split; [apply Hsame|]. done.
Qed.

Lemma lz_nonneg d : 0 <= lz d.
Proof. induction d as [|x d IH]; [done|]. cbn. destruct (x =? 48); lia. Qed.

Lemma number_in_spec t post : 0 ∉ t -> (length t <= 12)%nat ->
  exists r, number_in (t ++ 0 :: post) = Ok r /\ reads_as t r.
Proof.
  intros Hz Hlen. unfold number_in. destruct (c_str_app t post Hz) as [Ec Es]. rewrite Es. cbn [rbind].
  destruct t as [|c0 t].
  { exists 0. split; [done|]. split; [|done]. intros v _ E.
    destruct (to_string_signed v) as (neg & d & E' & _ & _ & _ & Hne & _). rewrite E' in E. by destruct neg, d. }
  rewrite (proj2 (Z.eqb_neq _ 0)) by (cbn [length]; lia).
  destruct (strcmp_spec ((c0 :: t) ++ 0 :: post) min_string (c0 :: t) (to_string INT32_MIN) Ec eq_refl) as (e & -> & He).
  cbn [rbind]. destruct (Z.eqb_spec e 0) as [E|E].
  { apply He in E. exists INT32_MIN. split; [done|]. split; [|done].
    intros v Hv Ev. rewrite E in Ev. by apply to_string_unique. }
  assert (c0 :: t <> to_string INT32_MIN) as Hmin by (intros E'; by apply E, He).
  change (arr_get ((c0 :: t) ++ 0 :: post) 0) with (Ok c0). cbn [rbind].
  destruct (split_sign c0 t) as (d & ET & Hv). set (nega := c0 =? 45) in *.
  assert (forall v, c0 :: t = to_string v -> nega = bool_decide (v < 0) /\ dec_value 0 d = Z.abs v) as Hv'.
  { intros v Ev. by destruct (Hv v Ev) as (? & _ & ? & _). }
  assert (Z.to_nat (Z.of_nat (length (c0 :: t)) - (if nega then 1 else 0)) = length d) as ->.
  { rewrite ET, length_app. destruct nega; cbn [length]; lia. }
  destruct (digit_loop_spec ((c0 :: t) ++ 0 :: post) d (if nega then 1 else 0) 0 true 0) as [Hyes Hno].
  { by destruct nega. }
  { intros j x Hj. rewrite ET. destruct nega; cbn [app]; change (Z.to_nat 1) with 1%nat; change (Z.to_nat 0) with 0%nat;
      cbn [Nat.add lookup list_lookup]; by apply lookup_app_l_Some. }
  { zlia. }
  set (T := c0 :: t) in *.
  destruct (decide (Forall digit d)) as [Hd|Hd].
  2: { rewrite Hno by done. cbn [rbind]. exists 0. split; [done|]. split; [|done].
       intros v _ Ev. by destruct (Hv v Ev) as (_ & ? & _). }
  destruct (Hyes Hd) as (ld' & ->). cbn [rbind]. rewrite Z.add_0_l. pose proof (lz_nonneg d) as Hlz.
  destruct ((1 <? lz d) || (negb (lz d =? 0) && (negb (s32 (dec_value 0 d) =? 0) || nega))) eqn:Echk.
  { exists 0. split; [done|]. split; [|done]. intros v _ Ev.
    destruct (Hv v Ev) as (Hneg & _ & Hval & [Hz0|[-> ->]]); [|done].
    rewrite Hz0 in Echk. discriminate Echk. }
  assert (lz d = 0 \/ (lz d = 1 /\ s32 (dec_value 0 d) = 0 /\ nega = false)) as Hzero.
  { apply orb_false_iff in Echk as [E1 E2]. apply Z.ltb_ge in E1.
    destruct (Z.eqb_spec (lz d) 0) as [|Hz1]; [by left|]. cbn [negb andb] in E2.
    apply orb_false_iff in E2 as [E2 E3]. apply negb_false_iff, Z.eqb_eq in E2. right. split; [lia|done]. }
  unfold MAX_NUM_LENGTH. destruct (Z.leb_spec (Z.of_nat (length T)) (11 - 2)) as [Hs|Hs].
  - eexists. split; [reflexivity|]. eapply number_checked; try done. lia.
  - edestruct (number_compared nega T d) as (same & -> & Hr); try done; [lia|]. cbn [rbind].
    eexists. split; [reflexivity|]. exact Hr.
Qed.

Section Reading.
Context {T : Type} `{CharSource T}.

Lemma SysReadNum_spec s l : stream s l -> 0 ∉ token l ->
  exists r s', SysReadNum s = Ok (r, s') /\ reads_as (token l) r /\
    forall b rest, l = token l ++ b :: rest -> (length (token l) <= 11)%nat -> stream s' rest.
Proof.
  intros Hs Hz. unfold SysReadNum. destruct (readUntilBlank_spec s l Hs) as (s' & -> & Hrest). cbn [rbind].
  set (t := take 12 (token l)). assert (length t <= 12)%nat as Hl by (unfold t; rewrite length_take; lia).
  replace (13 - length t)%nat with (S (12 - length t)) by lia. cbn [replicate].
  assert (0 ∉ t) as Hzt by (intros Hin; apply Hz; rewrite <- (take_drop 12 (token l)); apply elem_of_app; by left).
  destruct (number_in_spec t (replicate (12 - length t) 0) Hzt Hl) as (r & -> & Hr1 & Hr2). cbn [rbind].
  exists r, s'. split; [done|]. split; [|done].
  assert (forall v, is_s32 v -> t = to_string v -> token l = to_string v) as Ht.
  { intros v Hv Ev. pose proof (length_to_string v Hv) as Hlv. rewrite <- Ev in *. unfold t in *.
    rewrite length_take in Hlv. by rewrite take_ge by lia. }
  split.
  - intros v Hv Ev. apply Hr1; [done|]. unfold t. rewrite Ev. apply take_ge.
    pose proof (length_to_string v Hv). lia.
  - intros Hne. destruct (Hr2 Hne) as [H32 E]. split; [done|]. by apply Ht.
Qed.

(** [SysReadNum] reads exactly the decimal notations of 32-bit integers.  If
    the characters up to the first blank (or the end of the input) are the
    notation of an [int], it returns that number, also at the limits of the
    range; for every other word (leading zeros, a sign alone, -0, other
    characters, numbers out of range) it returns 0.  It consumes the word and
    the blank after it, if the word has at most eleven characters. *)
Theorem read_num_exact s l :
  stream s l -> 0 ∉ token l ->
  exists r s', SysReadNum s = Ok (r, s') /\
    (forall v, is_s32 v -> token l = to_string v -> r = v) /\
    ((forall v, is_s32 v -> token l <> to_string v) -> r = 0) /\
    (forall b rest, l = token l ++ b :: rest -> (length (token l) <= 11)%nat -> stream s' rest).
Proof.
  intros Hs Hz. destruct (SysReadNum_spec s l Hs Hz) as (r & s' & E & [Hr1 Hr2] & Hrest).
  exists r, s'. split; [done|]. split; [done|]. split; [|done].
  intros Hno. destruct (decide (r = 0)) as [|Hne]; [done|]. destruct (Hr2 Hne) as [H32 E'].
  by destruct (Hno r H32).
Qed.

Lemma token_app t b rest : Forall (fun c => isBlank c = false) t -> isBlank b = true ->
  token (t ++ b :: rest) = t.
Proof.
  intros Ht Hb. induction Ht as [|c t Hc Ht IH]; cbn [app token]; [by rewrite Hb|]. by rewrite Hc, IH.
Qed.

Lemma to_string_chars v : Forall (fun c => isBlank c = false /\ c <> 0) (to_string v).
Proof.
  destruct (to_string_signed v) as (neg & d & -> & Hd & _). apply Forall_app. split.
  - destruct neg; [|done]. by repeat constructor.
  - eapply Forall_impl; [exact Hd|]. intros c Hc. unfold digit in Hc. split; [|lia].
    unfold isBlank, LF, CR, TAB, SPACE.
    by rewrite !(proj2 (Z.eqb_neq _ _)) by lia.
Qed.

Lemma SysReadString_spec n cs rest s : stream s (cs ++ rest) -> Z.of_nat (length cs) = n ->
  exists s', SysReadString n s = Ok (cs ++ [0], s') /\ stream s' rest.
Proof.
  intros Hs Hn. unfold SysReadString. rewrite (proj2 (Z.ltb_ge (n + 1) 0)), (proj2 (Z.ltb_ge n 0)) by lia.
  destruct (for_range_inv (fun i st => st.1 = take (Z.to_nat i) cs /\ stream st.2 (drop (Z.to_nat i) cs ++ rest))
    (Z.to_nat n) 0 (fun _ st => let '(buf, s) := st in
       let2* (c, s) := SysReadChar s in Ok (buf ++ [c], s)) ([], s)) as ([buf s'] & -> & Hb & Hs').
  - done.
  - intros i [buf s1] Hi [Hb Hs1]. cbn [fst snd] in *. subst buf.
    destruct (lookup_lt_is_Some_2 cs (Z.to_nat i)) as [c Hc]; [lia|]. rewrite (drop_S _ _ _ Hc) in Hs1.
    destruct (get_char_law s1 c _ Hs1) as (s2 & E & Hs2). unfold SysReadChar. rewrite E. cbn [rbind].
    eexists. split; [reflexivity|]. cbn [fst snd]. replace (Z.to_nat (i + 1)) with (S (Z.to_nat i)) by lia.
    split; [by rewrite (take_S_r _ _ _ Hc)|done].
  - cbn [fst snd rbind] in *. rewrite Z.add_0_l, Z2Nat.id in Hb, Hs' by lia.
    rewrite take_ge in Hb by lia. rewrite drop_ge in Hs' by lia. subst buf. by exists s'.
Qed.

End Reading.

Section Printing.
Context {T : Type} `{CharSink T}.

(** The buffer holds the digits, the last one first. *)
Lemma digits_of_spec fuel : forall num n buf,
  0 <= num < 10 ^ Z.of_nat fuel -> 0 <= n -> n + Z.of_nat fuel <= Z.of_nat (length buf) ->
  exists buf', digits_of fuel num n buf = Ok (n + Z.of_nat (length (dz num)), buf') /\
    (forall j, (j < Z.to_nat n)%nat -> buf' !! j = buf !! j) /\
    forall j c, reverse (dz num) !! j = Some c -> buf' !! (Z.to_nat n + j)%nat = Some (c - 48).
Proof.
  induction fuel as [|fuel IH]; intros num n buf Hn H0 Hl.
  { change (10 ^ Z.of_nat 0) with 1 in Hn. assert (num = 0) as -> by lia. exists buf. cbn.
    rewrite Z.add_0_r. done. }
  cbn [digits_of]. destruct (Z.eqb_spec num 0) as [->|Hne]; cbn [negb].
  { exists buf. cbn. rewrite Z.add_0_r. done. }
  rewrite Nat2Z.inj_succ, Z.pow_succ_r in Hn by lia. rewrite Nat2Z.inj_succ in Hl.
  rewrite Z.rem_mod_nonneg, Z.quot_div_nonneg by lia. rewrite arr_set_in_range by lia. cbn [rbind].
  destruct (IH (num / 10) (n + 1) (<[Z.to_nat n := num mod 10]> buf)) as (buf' & -> & Hlow & Hd);
    [zify_div; lia|lia|rewrite length_insert; lia|].
  exists buf'. rewrite (dz_step num) by lia. rewrite length_app, reverse_app. cbn [length].
  split; [do 2 f_equal; lia|]. split.
  - intros j Hj. rewrite Hlow by lia. apply list_lookup_insert_ne. lia.
  - intros j c Hj. change (reverse [48 + num mod 10]) with [48 + num mod 10] in Hj. cbn [app] in Hj.
    destruct j as [|j].
    + injection Hj as <-. rewrite Nat.add_0_r, Hlow by lia.
      rewrite list_lookup_insert_eq by lia. f_equal. lia.
    + cbn in Hj. rewrite <- (Hd j c Hj). f_equal. lia.
Qed.

Lemma print_loop n (body : Z -> T -> res T) out s l :
  shown s l -> length out = n ->
  (forall i c s, out !! i = Some c -> body (Z.of_nat i) s = put_char c s) ->
  exists s', for_range n 0 body s = Ok s' /\ shown s' (l ++ out).
Proof.
  intros Hs Hn Hf.
  destruct (for_range_inv (fun i s => shown s (l ++ take (Z.to_nat i) out)) n 0 body s) as (s' & E & Hs').
  - cbn [Z.to_nat]. by rewrite take_0, app_nil_r.
  - intros i s1 Hi H1. destruct (lookup_lt_is_Some_2 out (Z.to_nat i)) as [c Hc]; [lia|].
    specialize (Hf _ _ s1 Hc). rewrite Z2Nat.id in Hf by lia. rewrite Hf.
    destruct (put_char_law s1 _ c H1) as (s2 & -> & H2). exists s2. split; [done|].
    replace (Z.to_nat (i + 1)) with (S (Z.to_nat i)) by lia. by rewrite (take_S_r _ _ c), app_assoc.
  - exists s'. split; [done|]. rewrite Z.add_0_l, Nat2Z.id, take_ge in Hs' by lia. done.
Qed.

Lemma SysPrintNum_spec buf num s l :
  is_s32 num -> length buf = 13%nat -> shown s l ->
  exists s', SysPrintNum buf num s = Ok s' /\ shown s' (l ++ to_string num).
Proof.
  intros Hn Hb Hs. unfold SysPrintNum. rewrite to_string_cases.
  destruct (Z.eqb_spec num 0) as [->|H0]; [exact (put_char_law s l 48 Hs)|].
  destruct (Z.eqb_spec num INT32_MIN) as [->|Hmin].
  { destruct (put_char_law s l 45 Hs) as (s1 & -> & H1). cbn [rbind].
    destruct (print_loop 10 (fun i s => let* c := arr_get min_digits i in put_char c s) (dz (2 ^ 31)) s1 (l ++ [45]) H1)
      as (s' & E & Hs'); [done| |].
    - intros i c s2 Hi.
      assert (dz (2 ^ 31) = [50; 49; 52; 55; 52; 56; 51; 54; 52; 56]) as Edz by (by vm_compute). rewrite Edz in Hi.
      do 10 (destruct i as [|i]; [by injection Hi as <-|]). done.
    - exists s'. split; [exact E|]. by rewrite <- app_assoc in Hs'. }
  unfold is_s32, INT32_MIN in *.
  assert (exists s1 m, (if num <? 0 then put_char 45 s else Ok s) = Ok s1 /\
    shown s1 (l ++ if num <? 0 then [45] else []) /\
    (if num <? 0 then s32 (- num) else num) = m /\ m = Z.abs num) as (s1 & m & -> & H1 & -> & Hm).
  { destruct (Z.ltb_spec num 0) as [Hneg|Hpos].
    - destruct (put_char_law s l 45 Hs) as (s1 & -> & H1). exists s1. eexists. split; [done|]. split; [done|].
      split; [done|]. rewrite s32_id by zlia. lia.
    - exists s. eexists. split; [done|]. rewrite app_nil_r. split; [done|]. split; [done|]. lia. }
  cbn [rbind]. destruct (digits_of_spec 10 m 0 buf) as (buf' & -> & _ & Hd); [lia|lia|lia|]. cbn [rbind].
  rewrite Z.add_0_l, Nat2Z.id.
  destruct (print_loop (length (dz m))
    (fun i s => let* d := arr_get buf' (Z.of_nat (length (dz m)) - 1 - i) in put_char (d + 48) s)
    (dz m) s1 _ H1) as (s' & E & Hs'); [done| |].
  - intros i c s2 Hi. assert (i < length (dz m))%nat as Hlt by (by eapply lookup_lt_Some).
    rewrite (arr_get_lookup _ _ (c - 48)); [cbn [rbind]; f_equal; lia|lia|].
    rewrite <- (Hd (length (dz m) - 1 - i)%nat c); [f_equal; lia|].
    rewrite reverse_lookup by lia. rewrite <- Hi. f_equal. lia.
  - exists s'. split; [exact E|]. rewrite <- app_assoc in Hs'. subst m.
    destruct (Z.ltb_spec num 0); [by rewrite Z.abs_neq in Hs' by lia|].
    by rewrite Z.abs_eq in Hs' by lia.
Qed.

Lemma SysPrintString_spec buffer n s l : shown s l -> 0 <= n <= Z.of_nat (length buffer) ->
  exists s', SysPrintString buffer n s = Ok s' /\ shown s' (l ++ take (Z.to_nat n) buffer).
Proof.
  intros Hs Hn. apply print_loop; [done|rewrite length_take; lia|].
  intros i c s1 Hc. apply lookup_take_Some in Hc as [Hc _].
  rewrite (arr_get_lookup buffer _ c) by (lia || by rewrite Nat2Z.id). done.
Qed.

End Printing.

(** Printing a number and reading it back: for every [int], [SysPrintNum]
    writes its decimal notation and nothing else, and [SysReadNum] on an input
    that begins with what was written and a blank returns the number and leaves
    the input behind the blank. *)
Theorem print_read_num {S I : Type} `{CharSink S} `{CharSource I} buf num (s : S) (i : I) b rest l :
  is_s32 num -> length buf = 13%nat -> shown s l ->
  isBlank b = true -> stream i (to_string num ++ b :: rest) ->
  (exists s', SysPrintNum buf num s = Ok s' /\ shown s' (l ++ to_string num)) /\
  (exists i', SysReadNum i = Ok (num, i') /\ stream i' rest).
Proof.
  intros Hn Hb Hs Hblank Hi. split; [by apply SysPrintNum_spec|].
  pose proof (to_string_chars num) as Hc. apply Forall_and in Hc as [Hc1 Hc2].
  pose proof (token_app (to_string num) b rest Hc1 Hblank) as Ht.
  destruct (SysReadNum_spec i _ Hi) as (r & i' & E & [Hr _] & Hrest).
  { rewrite Ht. intros Hin. rewrite Forall_forall in Hc2. by apply (Hc2 0 Hin). }
  rewrite Ht in Hr, Hrest. rewrite (Hr num Hn eq_refl) in E. exists i'. split; [done|].
  apply (Hrest b rest); [done|]. by apply length_to_string.
Qed.

Definition keyboard (s : list Z) : Console.SynchConsoleInput :=
  Console.SynchConsoleInput_init (map Some s).

Lemma read_num_exact_witness :
  exists r s', SysReadNum (keyboard [48; 49; 10]) = Ok (r, s') /\ r = 0.
Proof.
  destruct (read_num_exact (keyboard [48; 49; 10]) [48; 49; 10]) as (r & s' & E & _ & _ & _).
  - split; [done|by left].
  - vm_compute. intros Hin. repeat (apply elem_of_cons in Hin as [?|Hin]; [done|]). by apply elem_of_nil in Hin.
  - exists r, s'. split; [exact E|]. vm_compute in E. by injection E as <-.
Defined.

Lemma print_read_num_witness :
  (exists s', SysPrintNum (replicate 13 0) (-305) Console.SynchConsoleOutput_init = Ok s' /\
     Console.writeFile (Console.consoleOutput s') = [45; 51; 48; 53]) /\
  (exists i', SysReadNum (keyboard [45; 51; 48; 53; 32; 55]) = Ok (-305, i')).
Proof.
  destruct (print_read_num (replicate 13 0) (-305) Console.SynchConsoleOutput_init
    (keyboard [45; 51; 48; 53; 32; 55]) 32 [55] []) as [(s' & E & Hs) (i' & E' & _)].
  - by split.
  - done.
  - done.
  - done.
  - split; [done|by left].
  - split; [exists s'; split; [exact E|by apply Hs]|exists i'; exact E'].
Defined.

End SysNum.
