(* ===== verification/UserMem.v ===== *)
(** * User memory seen from the kernel

    userprog/exception.cc: [stringUser2System] and [StringSys2User], which copy
    strings between the address space of the running program and the kernel,
    and the part of [ExceptionHandler] that a fault of theirs comes to.  The
    virtual memory of the program is read off the page table of Machine.v;
    machines that differ in use and dirty bits only are equivalent. *)

From S2P Require Import Prelude Ints CString Machine.

Module UserMem.

Import Machine.

(** [ExceptionHandler] for an exception that is no system call: the machine
    halts, or the end of the function is reached. *)
Definition trap (which : ExceptionType) (m : machine) : res machine :=
  if decide (which = NoException) then Err AssertFailure else Err Halted.

Definition read_char (addr : Z) (m : machine) : res (Z * machine) :=
  let2* (o, m) := ReadMem trap addr 1 m in
  let* c := deref o in
  Ok (c, m).

(** The first loop of [stringUser2System]; [length] characters were read.  A
    program that has [n] pages has [n * PageSize] bytes, so one more turn ends
    with a fault. *)
Fixpoint length_loop (fuel : nat) (addr convert_length length : Z) (m : machine) : res (Z * machine) :=
  match fuel with
  | O => Err Diverges
  | S fuel' =>
      let2* (oneChar, m) := read_char (s32 (addr + length)) m in
      let length := length + 1 in
      if ((oneChar =? 0) && (convert_length =? -1)) || (length =? convert_length)
      then Ok (length, m)
      else length_loop fuel' addr convert_length length m
  end.

Definition string_fuel (m : machine) : nat := S (Z.to_nat (pageTableSize m * PageSize)).

(** [stringUser2System]: the string, of [char]s. *)
Definition stringUser2System (addr convert_length : Z) (m : machine) : res (list Z * machine) :=
  let2* (length, m) := length_loop (string_fuel m) addr convert_length 0 m in
  for_range (Z.to_nat length) 0
    (fun i st =>
       let '(str, m) := st in
       let2* (oneChar, m) := read_char (s32 (addr + i)) m in
       Ok (str ++ [s8 oneChar], m)) ([], m).

(** [StringSys2User] *)
Definition StringSys2User (str : list Z) (addr convert_length : Z) (m : machine) : res machine :=
  let* length := if convert_length =? -1 then strlen str else Ok convert_length in
  let* m := for_range (Z.to_nat length) 0
    (fun i m =>
       let* c := arr_get str i in
       let2* (_, m) := WriteMem trap (s32 (addr + i)) 1 c m in
       Ok m) m in
  let2* (_, m) := WriteMem trap (s32 (addr + length)) 1 0 m in
  Ok m.

(** ** Machines up to use and dirty bits *)

Definition strip (e : TranslationEntry) : TranslationEntry :=
  mkEntry (virtualPage e) (physicalPage e) (valid e) (readOnly e) false false.

Definition erase (m : machine) : machine :=
  set_tables (tlb m) (map strip <$> pageTable m) m.

Definition similar (m m' : machine) : Prop := erase m = erase m'.

#[global] Instance similar_equiv : Equivalence similar.
Proof. unfold similar. split; [done|by intros ? ?|by intros ? ? ? -> ->]. Qed.

Lemma similar_fields m m' : similar m m' ->
  registers m' = registers m /\ mainMemory m' = mainMemory m /\ pageTableSize m' = pageTableSize m /\
  status m' = status m.
Proof. unfold similar, erase, set_tables. intros [= ? ? ? ? ? ?]. done. Qed.

(** ** The virtual memory *)

(** Where the byte of virtual address [va] is. *)
Definition place (m : machine) (va : Z) : option Z :=
  t ← pageTable m;
  e ← t !! Z.to_nat (u32 va / PageSize);
  if valid e && (u32 (physicalPage e) <? NumPhysPages)
  then Some (u32 (physicalPage e) * PageSize + u32 va mod PageSize) else None.

Definition byte_at (m : machine) (va : Z) : option Z :=
  pa ← place m va; mainMemory m !! Z.to_nat pa.

Definition writable (m : machine) (va : Z) : Prop :=
  is_Some (byte_at m va) /\
  forall t e, pageTable m = Some t -> t !! Z.to_nat (u32 va / PageSize) = Some e -> readOnly e = false.

(** No frame is mapped twice. *)
Definition frames_distinct (m : machine) : Prop :=
  forall t i j e e', pageTable m = Some t -> t !! i = Some e -> t !! j = Some e' ->
    valid e = true -> valid e' = true -> u32 (physicalPage e) = u32 (physicalPage e') -> i = j.

(** Entry [i] of the page table, without its bits. *)
Definition entry (m : machine) (i : nat) : option TranslationEntry :=
  t ← pageTable m; strip <$> t !! i.

#[global] Instance entry_proper : Proper (similar ==> eq ==> eq) entry.
Proof.
  intros m m' H i ? <-. unfold entry. unfold similar, erase, set_tables in H. injection H as _ _ _ E _ _.
  destruct (pageTable m) as [t|], (pageTable m') as [t'|]; cbn in *; try done.
  injection E as E. apply (f_equal (.!! i)) in E. by rewrite !list_lookup_fmap in E.
Qed.

Lemma place_entry m va : place m va =
  (e ← entry m (Z.to_nat (u32 va / PageSize));
   if valid e && (u32 (physicalPage e) <? NumPhysPages)
   then Some (u32 (physicalPage e) * PageSize + u32 va mod PageSize) else None).
Proof.
  unfold place, entry. destruct (pageTable m) as [t|]; [|done]. cbn.
  by destruct (t !! _).
Qed.

#[global] Instance place_proper : Proper (similar ==> eq ==> eq) place.
Proof. intros m m' H va ? <-. by rewrite !place_entry, H. Qed.

#[global] Instance byte_at_proper : Proper (similar ==> eq ==> eq) byte_at.
Proof.
  intros m m' H va ? <-. unfold byte_at. rewrite H. destruct (similar_fields _ _ H) as (_ & -> & _). done.
Qed.

Lemma writable_entry m va : writable m va <->
  is_Some (byte_at m va) /\ forall e, entry m (Z.to_nat (u32 va / PageSize)) = Some e -> readOnly e = false.
Proof.
  unfold writable, entry. split; intros [H1 H2]; (split; [done|]).
  - intros e. destruct (pageTable m) as [t|]; [|done]. cbn. intros He.
    apply fmap_Some in He as (e' & He' & ->). exact (H2 t e' eq_refl He').
  - intros t e Ht He. specialize (H2 (strip e)). rewrite Ht in H2. cbn in H2. rewrite He in H2. by apply H2.
Qed.

#[global] Instance writable_proper : Proper (similar ==> eq ==> iff) writable.
Proof. intros m m' H va ? <-. rewrite !writable_entry. by setoid_rewrite H. Qed.

Lemma frames_entry m : frames_distinct m <->
  forall i j e e', entry m i = Some e -> entry m j = Some e' ->
    valid e = true -> valid e' = true -> u32 (physicalPage e) = u32 (physicalPage e') -> i = j.
Proof.
  unfold frames_distinct, entry. split.
  - intros H i j e e'. destruct (pageTable m) as [t|]; [|done]. cbn. intros Hi Hj.
    apply fmap_Some in Hi as (x & Hi & ->). apply fmap_Some in Hj as (y & Hj & ->).
    exact (H t i j x y eq_refl Hi Hj).
  - intros H t i j e e' Ht Hi Hj. rewrite Ht in H. specialize (H i j (strip e) (strip e')). cbn in H.
    rewrite Hi, Hj in H. by apply H.
Qed.

#[global] Instance frames_distinct_proper : Proper (similar ==> iff) frames_distinct.
Proof. intros m m' H. rewrite !frames_entry. by setoid_rewrite H. Qed.

Lemma place_inj m va va' pa : frames_distinct m ->
  place m va = Some pa -> place m va' = Some pa -> u32 va = u32 va'.
Proof.
  rewrite frames_entry, !place_entry. intros Hd H H'.
  destruct (entry m (Z.to_nat (u32 va / PageSize))) as [e|] eqn:E; [|done].
  destruct (entry m (Z.to_nat (u32 va' / PageSize))) as [e'|] eqn:E'; [|done]. cbn in *.
  destruct (valid e) eqn:Hv; [|done]. destruct (valid e') eqn:Hv'; [|done]. cbn in *.
  destruct (u32 (physicalPage e) <? NumPhysPages); [|done].
  destruct (u32 (physicalPage e') <? NumPhysPages); [|done]. injection H as H. injection H' as H'.
  pose proof (u32_range va). pose proof (u32_range va'). unfold is_u32, PageSize in *.
  assert (u32 (physicalPage e) = u32 (physicalPage e')) as Hp by (zify_div; lia).
  pose proof (Hd _ _ _ _ E E' Hv Hv' Hp) as Hi. zify_div. lia.
Qed.

(** ** One byte *)

Lemma mapped_place m t va w e pa : tables_ok m -> pageTable m = Some t ->
  mapped t va 1 w e pa -> place m va = Some pa /\ (w = true -> readOnly e = false).
Proof.
  intros _ Hp (_ & He & Hv & Hw & Hr & ->). split; [|done]. unfold place. rewrite Hp. cbn. rewrite He. cbn.
  rewrite Hv, (proj2 (Z.ltb_lt _ NumPhysPages)) by lia. done.
Qed.

Lemma place_mapped m t va pa : pageTable m = Some t -> place m va = Some pa ->
  exists e, t !! Z.to_nat (u32 va / PageSize) = Some e /\
    forall w, (w = true -> readOnly e = false) -> mapped t va 1 w e pa.
Proof.
  intros Hp. unfold place. rewrite Hp. cbn. destruct (t !! _) as [e|] eqn:He; [|done]. cbn.
  destruct (valid e) eqn:Hv; [|done]. cbn. destruct (Z.ltb_spec (u32 (physicalPage e)) NumPhysPages); [|done].
  intros [= <-]. exists e. split; [done|]. intros w Hw. pose proof (u32_range (physicalPage e)) as [? _].
  split_and!; try done. apply Z.mod_1_r.
Qed.

Lemma place_range m va pa : place m va = Some pa -> 0 <= pa < MemorySize.
Proof.
  rewrite place_entry. destruct (entry m _) as [e|]; [|done]. cbn.
  destruct (valid e); [|done]. cbn. destruct (Z.ltb_spec (u32 (physicalPage e)) NumPhysPages); [|done].
  intros [= <-]. pose proof (u32_range (physicalPage e)) as [? _].
  unfold MemorySize, NumPhysPages, PageSize in *. zify_div. lia.
Qed.

Lemma byte_at_Some m va b : machine_ok m -> byte_at m va = Some b ->
  exists pa, place m va = Some pa /\ 0 <= pa < MemorySize /\ mainMemory m !! Z.to_nat pa = Some b /\ is_u8 b.
Proof.
  intros (_ & [_ Hu] & _) H. unfold byte_at in H. destruct (place m va) as [pa|] eqn:E; [|done]. cbn in H.
  exists pa. split_and!; try done; try (by apply (place_range m va)).
  - rewrite Forall_lookup in Hu. apply (Hu _ _ H).
Qed.

Lemma byte_at_None m va : machine_ok m -> byte_at m va = None -> place m va = None.
Proof.
  intros (_ & [Hl _] & _) H. unfold byte_at in H. destruct (place m va) as [pa|] eqn:E; [|done]. cbn in H.
  apply place_range in E. apply lookup_ge_None in H. lia.
Qed.

Lemma touch_similar t va w e m : tables_ok m -> pageTable m = Some t ->
  t !! Z.to_nat (u32 va / PageSize) = Some e -> similar (touch t va w e m) m.
Proof.
  intros (Ht & _) Hp He. unfold similar, erase, touch, set_tables. cbn. rewrite Hp, Ht. cbn.
  rewrite list_fmap_insert. do 2 f_equal. apply list_insert_id. rewrite list_lookup_fmap, He. done.
Qed.

Lemma fault_halts ex va m : machine_ok m -> ex <> NoException -> RaiseException trap ex va m = Err Halted.
Proof.
  intros Hm Hex. unfold RaiseException. rewrite set_reg_Ok by (apply Hm || regnum). cbn [rbind].
  destruct (DelayedLoad_ok (with_reg BadVAddrReg va m) 0 0) as (m1 & -> & _).
  - apply with_reg_almost; [by apply machine_ok_almost|]. by right; right.
  - lia.
  - cbn [rbind]. unfold trap. by rewrite decide_False.
Qed.

Lemma read_value_byte pa mem b : mem !! Z.to_nat pa = Some b -> read_value 1 pa mem = s8 b.
Proof.
  intros Hb. unfold read_value. cbn [Z.eqb Pos.eqb]. change (Z.to_nat 1) with 1%nat.
  unfold slice. rewrite (drop_S _ _ _ Hb). cbn [take]. by rewrite le_value_1.
Qed.

(** Reading a byte of the program, or a fault. *)
Lemma read_char_cases m va : machine_ok m ->
  match byte_at m va with
  | Some b => exists m', read_char va m = Ok (s8 b, m') /\ similar m' m /\ machine_ok m'
  | None => read_char va m = Err Halted
  end.
Proof.
  intros Hm. pose proof Hm as (Hregs & [Hlen Hu] & Htab). unfold read_char.
  destruct (byte_at m va) as [b|] eqn:Eb.
  - destruct (byte_at_Some m va b Hm Eb) as (pa & Hpl & Hpa & Hb & _).
    pose proof Htab as (_ & t & Hp & _). destruct (place_mapped m t va pa Hp Hpl) as (e & He & Hmap).
    specialize (Hmap false ltac:(done)).
    destruct (ReadMem_ok (fun _ m => Ok m) ltac:(by intros ? x ?; exists x) m va 1 Hm ltac:(by left))
      as (o & m' & E & Hm' & _).
    rewrite (ReadMem_mapped _ m va 1 t e pa) in E by (done || by left). injection E as <- <-.
    rewrite (ReadMem_mapped _ m va 1 t e pa) by (done || by left). cbn [rbind deref].
    eexists. split; [by rewrite (read_value_byte pa _ b)|]. split; [|done]. by apply touch_similar.
  - apply byte_at_None in Eb as Hnone; [|done].
    destruct (Translate_cases m va 1 false Htab ltac:(by left))
      as [(ex & Hex & E & _)|(t & e & pa & Hp & Hmap & _ & _ & _)].
    + unfold ReadMem. rewrite E. cbn [rbind]. rewrite decide_False by done. by rewrite fault_halts.
    + apply (mapped_place m) in Hmap as [Hpl _]; [|done..]. congruence.
Qed.

(** Writing one: other addresses keep their bytes. *)
Lemma write_char_ok m va c : machine_ok m -> frames_distinct m -> writable m va ->
  exists m', WriteMem trap va 1 c m = Ok (true, m') /\ machine_ok m' /\ frames_distinct m' /\
    registers m' = registers m /\ pageTableSize m' = pageTableSize m /\
    (forall va', writable m' va' <-> writable m va') /\
    byte_at m' va = Some (u8 c) /\
    forall va', u32 va' <> u32 va -> byte_at m' va' = byte_at m va'.
Proof.
  intros Hm Hd [[b Hb] Hro]. pose proof Hm as (Hregs & [Hlen Hu] & Htab).
  destruct (byte_at_Some m va b Hm Hb) as (pa & Hpl & Hpa & Hmem & _).
  pose proof Htab as (_ & t & Hp & _). destruct (place_mapped m t va pa Hp Hpl) as (e & He & Hmap).
  specialize (Hmap true (fun _ => Hro t e Hp He)).
  destruct (WriteMem_ok (fun _ m => Ok m) ltac:(by intros ? x ?; exists x) m va 1 c Hm ltac:(by left))
    as (b' & m' & E & Hm' & _).
  rewrite (WriteMem_mapped _ m va 1 c t e pa) in E by (done || by left). injection E as <- <-.
  rewrite (WriteMem_mapped _ m va 1 c t e pa) by (done || by left).
  set (bs := le_bytes (Z.to_nat 1) c) in *. eexists. split; [reflexivity|]. split; [done|].
  pose proof (touch_similar t va true e m Htab Hp He) as Hs.
  assert (length bs = 1%nat) as Hbs by apply length_le_bytes.
  assert (forall v, place (with_mem pa bs (touch t va true e m)) v = place m v) as Hplace
    by (intros v; change (place (touch t va true e m) v = place m v); by rewrite Hs).
  assert (forall v, u32 v <> u32 va -> byte_at (with_mem pa bs (touch t va true e m)) v = byte_at m v) as Hother.
  { intros v Hv. unfold byte_at. rewrite Hplace. destruct (place m v) as [pa'|] eqn:E'; [|done]. cbn.
    pose proof (place_range m v pa' E'). assert (pa' <> pa) by (intros ->; by eapply Hv, place_inj).
    apply lookup_memcpy_out; lia. }
  assert (byte_at (with_mem pa bs (touch t va true e m)) va = Some (u8 c)) as Hself.
  { unfold byte_at. rewrite Hplace, Hpl. cbn. rewrite lookup_memcpy_in by (rewrite ?Hbs, ?Hlen; lia).
    rewrite Nat.sub_diag. done. }
  split_and!; try done.
  - change (frames_distinct (touch t va true e m)). by rewrite Hs.
  - intros v. rewrite !writable_entry.
    assert (forall i, entry (with_mem pa bs (touch t va true e m)) i = entry m i) as Hent
      by (intros i; change (entry (touch t va true e m) i = entry m i); by rewrite Hs).
    setoid_rewrite Hent.
    destruct (decide (u32 v = u32 va)) as [Hv|Hv]; [|by rewrite Hother].
    assert (forall x, byte_at x v = byte_at x va) as Hx by (intros x; unfold byte_at, place; by rewrite Hv).
    rewrite !Hx, Hself, Hb. split; intros [_ ?]; (split; [by eexists|done]).
Qed.

(** ** Strings of the program *)

(** The test that ends the first loop of [stringUser2System] after byte [b], the
    [n]-th. *)
Definition stop (convert_length b n : Z) : bool :=
  ((s8 b =? 0) && (convert_length =? -1)) || (n =? convert_length).

(** Bytes [lo, hi) of the string at [addr] are there and do not end it. *)
Definition goes_on (m : machine) (addr cl lo hi : Z) : Prop :=
  forall k, lo <= k < hi -> exists b, byte_at m (s32 (addr + k)) = Some b /\ stop cl b (k + 1) = false.

Lemma goes_on_cons m addr cl lo hi b : byte_at m (s32 (addr + lo)) = Some b -> stop cl b (lo + 1) = false ->
  goes_on m addr cl (lo + 1) hi -> goes_on m addr cl lo hi.
Proof.
  intros Hb Hs H k Hk. destruct (decide (k = lo)) as [->|]; [by exists b|]. apply H. lia.
Qed.

#[global] Instance goes_on_proper : Proper (similar ==> eq ==> eq ==> eq ==> eq ==> iff) goes_on.
Proof.
  intros m m' H ? addr -> ? cl -> ? lo -> ? hi ->. unfold goes_on. by setoid_rewrite H.
Qed.

Lemma length_loop_spec fuel addr cl : forall length m, machine_ok m ->
  match length_loop fuel addr cl length m with
  | Ok (n, m') =>
      similar m' m /\ machine_ok m' /\ length < n /\ goes_on m addr cl length (n - 1) /\
      exists b, byte_at m (s32 (addr + (n - 1))) = Some b /\ stop cl b n = true
  | Err Halted => exists k, length <= k /\ goes_on m addr cl length k /\ byte_at m (s32 (addr + k)) = None
  | Err Diverges => goes_on m addr cl length (length + Z.of_nat fuel)
  | Err _ => False
  end.
Proof.
  induction fuel as [|fuel IH]; intros length m Hm; cbn [length_loop].
  { intros k Hk. lia. }
  pose proof (read_char_cases m (s32 (addr + length)) Hm) as Hr.
  destruct (byte_at m (s32 (addr + length))) as [b|] eqn:Eb.
  2: { rewrite Hr. cbn [rbind]. exists length. split; [lia|]. split; [|done]. intros k Hk. lia. }
  destruct Hr as (m1 & -> & Hs & Hm1). cbn [rbind]. fold (stop cl b (length + 1)).
  destruct (stop cl b (length + 1)) eqn:Est.
  - do 2 (split; [done|]). split; [lia|]. split; [intros k Hk; lia|]. exists b. by replace (length + 1 - 1) with length by lia.
  - specialize (IH (length + 1) m1 Hm1). destruct (length_loop _ _ _ _ _) as [[n m']|e].
    + destruct IH as (H1 & H2 & H3 & H4 & x & H5 & H6). rewrite Hs in H1, H4, H5. do 2 (split; [done|]). split; [lia|].
      split; [|by exists x]. by apply (goes_on_cons _ _ _ _ _ b).
    + destruct e; try done.
      * rewrite Hs in IH. apply (goes_on_cons _ _ _ _ _ b); [done..|].
        by replace (length + Z.of_nat (S fuel)) with (length + 1 + Z.of_nat fuel) by lia.
      * destruct IH as (k & H1 & H2 & H3). rewrite Hs in H2, H3. exists k. split; [lia|].
        split; [|done]. by apply (goes_on_cons _ _ _ _ _ b).
Qed.

Lemma byte_at_bound m va b : machine_ok m -> byte_at m va = Some b -> u32 va < pageTableSize m * PageSize.
Proof.
  intros (_ & _ & _ & t & Hp & Hl) Hb. unfold byte_at, place in Hb. rewrite Hp in Hb. cbn in Hb.
  destruct (t !! _) as [e|] eqn:E; [|done]. apply lookup_lt_Some in E.
  pose proof (u32_range va) as [? _]. unfold PageSize in *. zify_div. lia.
Qed.

Lemma fuel_enough m addr cl : machine_ok m -> pageTableSize m <= NumPhysPages ->
  ~ goes_on m addr cl 0 (Z.of_nat (string_fuel m)).
Proof.
  intros Hm Hn H. unfold string_fuel in H.
  assert (0 <= pageTableSize m) as H0 by (destruct Hm as (_ & _ & _ & t & _ & Hl); lia).
  destruct (H 0) as (b0 & Hb0 & _); [lia|]. apply byte_at_bound in Hb0; [|done].
  set (n := pageTableSize m * PageSize) in *. pose proof (u32_range addr) as [Ha _].
  rewrite Z.add_0_r, u32_s32 in Hb0.
  destruct (H (n - u32 addr)) as (b1 & Hb1 & _); [lia|]. apply byte_at_bound in Hb1; [|done].
  rewrite u32_s32, <- u32_add_l in Hb1. unfold n, PageSize, NumPhysPages in *.
  replace (u32 addr + (pageTableSize m * 128 - u32 addr)) with (pageTableSize m * 128) in Hb1 by lia.
  rewrite u32_id in Hb1 by (unfold is_u32; lia). lia.
Qed.

Lemma copy_loop_spec bs addr m : machine_ok m ->
  (forall k b, bs !! k = Some b -> byte_at m (s32 (addr + Z.of_nat k)) = Some b) ->
  exists m', for_range (length bs) 0
    (fun i st =>
       let '(str, m) := st in
       let2* (oneChar, m) := read_char (s32 (addr + i)) m in
       Ok (str ++ [s8 oneChar], m)) ([], m) = Ok (map s8 bs, m') /\ similar m' m /\ machine_ok m'.
Proof.
  intros Hm Hbs.
  destruct (for_range_inv (fun i st => similar (snd st) m /\ machine_ok (snd st) /\
      fst st = map s8 (take (Z.to_nat i) bs)) (length bs) 0
    (fun i st =>
       let '(str, m) := st in
       let2* (oneChar, m) := read_char (s32 (addr + i)) m in
       Ok (str ++ [s8 oneChar], m)) ([], m)) as ([str m'] & -> & Hs & Hm' & E).
  - split_and!; done.
  - intros i [str x] Hi (Hs & Hx & E). cbn [fst snd] in *. subst str.
    destruct (lookup_lt_is_Some_2 bs (Z.to_nat i)) as [b Hb]; [lia|].
    pose proof (read_char_cases x (s32 (addr + i)) Hx) as Hr.
    apply Hbs in Hb as Hb'. rewrite Z2Nat.id, <- Hs in Hb' by lia. rewrite Hb' in Hr.
    destruct Hr as (x' & -> & Hs' & Hx'). cbn [rbind]. eexists. split; [reflexivity|]. cbn [fst snd].
    split_and!; [by rewrite Hs'|done|]. replace (Z.to_nat (i + 1)) with (S (Z.to_nat i)) by lia.
    rewrite (take_S_r _ _ _ Hb), map_app. cbn [map]. do 2 f_equal. zlia.
  - cbn [fst snd] in *. exists m'. split; [|done]. rewrite E, take_ge by lia. done.
Qed.

Lemma user_string_bytes addr cl m :
  machine_ok m -> pageTableSize m <= NumPhysPages ->
  (exists bs m', stringUser2System addr cl m = Ok (map s8 bs, m') /\ similar m' m /\ machine_ok m' /\
     (forall k b, bs !! k = Some b -> byte_at m (s32 (addr + Z.of_nat k)) = Some b) /\
     (cl = -1 -> exists s, bs = s ++ [0] /\ 0 ∉ s) /\ (cl <> -1 -> 0 < cl /\ Z.of_nat (length bs) = cl)) \/
  (stringUser2System addr cl m = Err Halted /\
     exists k, 0 <= k /\ byte_at m (s32 (addr + k)) = None /\ (0 < cl -> k < cl) /\
       forall j, 0 <= j < k -> exists b, byte_at m (s32 (addr + j)) = Some b /\ (cl = -1 -> b <> 0)).
Proof.
  intros Hm Hn. unfold stringUser2System. pose proof (length_loop_spec (string_fuel m) addr cl 0 m Hm) as H.
  destruct (length_loop _ _ _ _ _) as [[n m1]|e]; cbn [rbind].
  - left. destruct H as (Hs & Hm1 & Hpos & Hgo & b & Hb & Hst).
    assert (exists bs, length bs = Z.to_nat n /\
      (forall k x, bs !! k = Some x -> byte_at m (s32 (addr + Z.of_nat k)) = Some x)) as (bs & Hl & Hbs).
    { exists (map (fun k => default 0 (byte_at m (s32 (addr + k)))) (seqZ 0 n)).
      split; [by rewrite length_map, length_seqZ|]. intros k x Hk. rewrite list_lookup_fmap in Hk.
      apply fmap_Some in Hk as (j & Hj & ->). apply lookup_seqZ in Hj as [-> Hj]. rewrite Z.add_0_l.
      destruct (decide (Z.of_nat k = n - 1)) as [->|Hne]; [by rewrite Hb|].
      destruct (Hgo (Z.of_nat k)) as (y & -> & _); [lia|done]. }
    rewrite <- Hl. destruct (copy_loop_spec bs addr m1 Hm1) as (m2 & -> & Hs2 & Hm2).
    { intros k x Hk. rewrite Hs. by apply Hbs. }
    eexists bs, m2. split; [reflexivity|]. split; [by rewrite Hs2|]. split; [done|]. split; [done|].
    split.
    + intros ->. destruct (exists_last (l := bs)) as (s & z & ->); [intros ->; cbn in Hl; lia|].
      rewrite length_app in Hl. cbn [length] in Hl. exists s. split.
      * do 2 f_equal. unfold stop in Hst. rewrite (proj2 (Z.eqb_neq n (-1))), Z.eqb_refl in Hst by lia.
        rewrite andb_true_r, orb_false_r in Hst. apply Z.eqb_eq in Hst.
        specialize (Hbs (length s) z (list_lookup_middle _ _ _ _ eq_refl)).
        replace (Z.of_nat (length s)) with (n - 1) in Hbs by lia. assert (b = z) as <- by congruence.
        apply (byte_at_Some m _ b Hm) in Hb as (_ & _ & _ & _ & Hu). clear - Hst Hu. zlia.
      * intros Hin. apply list_elem_of_lookup in Hin as [k Hk]. apply lookup_lt_Some in Hk as Hlt.
        destruct (Hgo (Z.of_nat k)) as (x & Hx & Hst'); [lia|].
        specialize (Hbs k 0 (lookup_app_l_Some _ _ _ _ Hk)). assert (x = 0) as -> by congruence.
        unfold stop in Hst'. cbn in Hst'. done.
    + intros Hcl. unfold stop in Hst. rewrite (proj2 (Z.eqb_neq cl (-1))), andb_false_r in Hst by done.
      apply Z.eqb_eq in Hst. lia.
  - right. destruct e; try done.
    { by apply fuel_enough in H. }
    split; [done|]. destruct H as (k & Hk & Hgo & Hnone). exists k. split_and!; try done.
    + intros Hcl. destruct (decide (k < cl)) as [|Hge]; [done|]. destruct (Hgo (cl - 1)) as (x & _ & Hst); [lia|].
      unfold stop in Hst. replace (cl - 1 + 1) with cl in Hst by lia. rewrite Z.eqb_refl, orb_true_r in Hst. done.
    + intros j Hj. destruct (Hgo j Hj) as (x & Hx & Hst). exists x. split; [done|]. intros -> ->. done.
Qed.

(** C28: Reading a string of the program always ends: with the characters up to
    and including the first zero byte (or the number asked for), each read
    through the page table and the machine otherwise as it was; or the machine
    halts because the program has no byte at the place, as it always does for a
    length of zero or less than -1. *)
Theorem user_string_read addr cl m :
  machine_ok m -> pageTableSize m <= NumPhysPages ->
  (exists bs m', stringUser2System addr cl m = Ok (map s8 bs, m') /\ similar m' m /\ machine_ok m' /\
     (forall k b, bs !! k = Some b -> byte_at m (s32 (addr + Z.of_nat k)) = Some b) /\
     (cl = -1 -> exists s, bs = s ++ [0] /\ 0 ∉ s) /\ (cl <> -1 -> 0 < cl /\ Z.of_nat (length bs) = cl)) \/
  (stringUser2System addr cl m = Err Halted /\
     exists k, 0 <= k /\ byte_at m (s32 (addr + k)) = None /\ (0 < cl -> k < cl) /\
       forall j, 0 <= j < k -> exists b, byte_at m (s32 (addr + j)) = Some b /\ (cl = -1 -> b <> 0)).
Proof. apply user_string_bytes. Qed.

(** Two strings in the same bytes that end at their first zero. *)
Lemma first_zero_unique (s t : list Z) (f : nat -> option Z) :
  (forall k b, (s ++ [0]) !! k = Some b -> f k = Some b) ->
  (forall k b, (t ++ [0]) !! k = Some b -> f k = Some b) -> 0 ∉ s -> 0 ∉ t -> s = t.
Proof.
  revert t f. induction s as [|c s IH]; intros [|d t] f Hs Ht Hns Hnt; [done| | |].
  - specialize (Hs 0%nat 0 eq_refl). specialize (Ht 0%nat d eq_refl). set_solver.
  - specialize (Hs 0%nat c eq_refl). specialize (Ht 0%nat 0 eq_refl). set_solver.
  - pose proof (Hs 0%nat c eq_refl) as E1. pose proof (Ht 0%nat d eq_refl) as E2.
    assert (c = d) as -> by congruence. f_equal.
    apply (IH t (fun k => f (S k))); [intros k; apply (Hs (S k))|intros k; apply (Ht (S k))|set_solver..].
Qed.

(** ** Strings for the program *)

(** [m'] is [m] after the bytes [bs] were stored at [addr]. *)
Record wrote (m m' : machine) (addr : Z) (bs : list Z) : Prop := {
  w_ok : machine_ok m';
  w_frames : frames_distinct m';
  w_registers : registers m' = registers m;
  w_size : pageTableSize m' = pageTableSize m;
  w_writable : forall va, writable m' va <-> writable m va;
  w_bytes : forall k b, bs !! k = Some b -> byte_at m' (addr + Z.of_nat k) = Some b;
  w_other : forall va, is_u32 va -> ~ addr <= va < addr + Z.of_nat (length bs) -> byte_at m' va = byte_at m va
}.

Lemma wrote_nil m addr : machine_ok m -> frames_distinct m -> wrote m m addr [].
Proof. intros Hm Hd. by split. Qed.

Lemma wrote_snoc m m1 addr bs c : wrote m m1 addr bs ->
  0 <= addr -> addr + Z.of_nat (length bs) < 2 ^ 31 -> writable m (addr + Z.of_nat (length bs)) ->
  exists m2, WriteMem trap (s32 (addr + Z.of_nat (length bs))) 1 c m1 = Ok (true, m2) /\
    wrote m m2 addr (bs ++ [u8 c]).
Proof.
  intros [Hm Hd Hreg Hsz Hwr Hb Ho] H0 H1 Hw. set (va := addr + Z.of_nat (length bs)) in *.
  rewrite s32_id by (unfold is_s32; lia). rewrite <- Hwr in Hw.
  destruct (write_char_ok m1 va c Hm Hd Hw) as (m2 & E & Hm2 & Hd2 & Hreg2 & Hsz2 & Hwr2 & Hself & Hother).
  exists m2. split; [done|].
  assert (forall v, is_u32 v -> v <> va -> byte_at m2 v = byte_at m1 v) as Hne.
  { intros v Hv Hne. apply Hother. rewrite !u32_id; [done| |done]. unfold is_u32 in *. lia. }
  split; try done; try congruence.
  - intros v. by rewrite Hwr2.
  - intros k b Hk. apply lookup_app_Some in Hk as [Hk|[Hk Hk']].
    + pose proof (lookup_lt_Some _ _ _ Hk). rewrite Hne by (unfold is_u32; lia). by apply Hb.
    + apply list_lookup_singleton_Some in Hk' as [Ek <-].
      replace (addr + Z.of_nat k) with va by lia. done.
  - intros v Hv Hout. rewrite length_app in Hout. cbn [length] in Hout.
    rewrite Hne by (done || lia). apply Ho; [done|lia].
Qed.

(** [StringSys2User] stores the first characters of [str] and a zero. *)
Lemma StringSys2User_spec str addr cl s m :
  machine_ok m -> frames_distinct m -> 0 <= addr -> addr + Z.of_nat (length s) < 2 ^ 31 ->
  (forall k, 0 <= k <= Z.of_nat (length s) -> writable m (addr + k)) ->
  (if cl =? -1 then c_str str = Ok s else Z.of_nat (length s) = cl /\ s = take (length s) str) ->
  exists m', StringSys2User str addr cl m = Ok m' /\ wrote m m' addr (map u8 s ++ [0]).
Proof.
  intros Hm Hd H0 H1 Hw Hs. unfold StringSys2User.
  assert ((if cl =? -1 then strlen str else Ok cl) = Ok (Z.of_nat (length s)) /\ s = take (length s) str) as [-> Es].
  { destruct (cl =? -1); [|by destruct Hs as [-> ?]]. by apply c_str_strlen. }
  cbn [rbind]. rewrite Nat2Z.id.
  destruct (for_range_inv (fun i m' => wrote m m' addr (map u8 (take (Z.to_nat i) s))) (length s) 0
    (fun i m => let* c := arr_get str i in
       let2* (_, m) := WriteMem trap (s32 (addr + i)) 1 c m in Ok m) m) as (m1 & -> & Hw1).
  - by apply wrote_nil.
  - intros i x Hi Hx. destruct (lookup_lt_is_Some_2 s (Z.to_nat i)) as [c Hc]; [lia|].
    rewrite (arr_get_lookup str i c); [|lia|].
    2: { rewrite Es, lookup_take_lt in Hc by lia. done. }
    cbn [rbind]. assert (length (map u8 (take (Z.to_nat i) s)) = Z.to_nat i) as Hl
      by (rewrite length_map, length_take; lia).
    destruct (wrote_snoc m x addr _ c Hx) as (x' & E & Hx'); [lia|rewrite Hl; lia|rewrite Hl; apply Hw; lia|].
    rewrite Hl, Z2Nat.id in E by lia. rewrite E. cbn [rbind]. exists x'. split; [done|].
    replace (Z.to_nat (i + 1)) with (S (Z.to_nat i)) by lia. rewrite (take_S_r _ _ _ Hc), map_app. done.
  - cbn [rbind]. rewrite Z.add_0_l, Nat2Z.id, take_ge in Hw1 by lia.
    destruct (wrote_snoc m m1 addr _ 0 Hw1) as (m2 & E & Hw2);
      [lia|rewrite length_map; lia|rewrite length_map; apply Hw; lia|].
    rewrite length_map in E. rewrite E. cbn [rbind]. by exists m2.
Qed.

(** The program has the C string [s] at [addr]. *)
Definition string_at (m : machine) (addr : Z) (s : list Z) : Prop :=
  0 ∉ s /\ forall k b, (s ++ [0]) !! k = Some b -> byte_at m (s32 (addr + Z.of_nat k)) = Some b.

Lemma stringUser2System_at m addr s : machine_ok m -> pageTableSize m <= NumPhysPages -> string_at m addr s ->
  exists m', stringUser2System addr (-1) m = Ok (map s8 (s ++ [0]), m') /\ similar m' m /\ machine_ok m'.
Proof.
  intros Hm Hn [Hnz Hb]. destruct (user_string_bytes addr (-1) m Hm Hn) as
    [(bs & m2 & E2 & Hs2 & Hm2 & Hbs & Ht & _)|(_ & k & Hk & Hnone & _ & Hbefore)].
  - exists m2. destruct (Ht eq_refl) as (t & -> & Hnt). split; [|done]. rewrite E2. do 3 f_equal.
    f_equal. by apply (first_zero_unique t s (fun k => byte_at m (s32 (addr + Z.of_nat k)))).
  - exfalso. destruct (decide (k <= Z.of_nat (length s))) as [Hle|Hgt].
    + destruct (lookup_lt_is_Some_2 (s ++ [0]) (Z.to_nat k)) as [b Hk']; [rewrite length_app; cbn; lia|].
      apply Hb in Hk'. rewrite Z2Nat.id in Hk' by lia. congruence.
    + destruct (Hbefore (Z.of_nat (length s))) as (b & Hb' & Hne); [lia|]. apply Hne; [done|].
      specialize (Hb (length s) 0). rewrite lookup_app_r, Nat.sub_diag in Hb by lia.
      specialize (Hb eq_refl). congruence.
Qed.

Lemma string_at_chars m addr s : machine_ok m -> string_at m addr s -> 0 ∉ map s8 s.
Proof.
  intros Hm [Hnz Hb] Hin. apply list_elem_of_fmap in Hin as (c & Ec & Hin). apply Hnz.
  assert (is_u8 c) as Hu.
  { apply list_elem_of_lookup in Hin as [k Hk].
    by destruct (byte_at_Some m _ c Hm (Hb k c (lookup_app_l_Some _ _ _ _ Hk))) as (_ & _ & _ & _ & ?). }
  by assert (c = 0) as <- by (clear - Ec Hu; zlia).
Qed.

(** Characters and the bytes that hold them. *)
Lemma s8_u8_chars s : Forall (fun c => -128 <= c < 128) s -> map s8 (map u8 s) = s.
Proof.
  intros H. rewrite map_map. rewrite <- (map_id s) at 2. apply map_ext_in. intros c Hin.
  rewrite <- list_elem_of_In in Hin. rewrite Forall_forall in H. specialize (H c Hin). zlia.
Qed.

Lemma wrote_string m m' addr s : wrote m m' addr (map u8 s ++ [0]) -> 0 ∉ s ->
  Forall (fun c => -128 <= c < 128) s -> 0 <= addr -> addr + Z.of_nat (length s) < 2 ^ 31 ->
  string_at m' addr (map u8 s).
Proof.
  intros W Hnz Hch H0 H1. split.
  - intros Hin. apply list_elem_of_fmap in Hin as (c & Ec & Hin).
    rewrite Forall_forall in Hch. specialize (Hch c Hin). assert (c = 0) as -> by (clear - Ec Hch; zlia). done.
  - intros k b Hk. pose proof (lookup_lt_Some _ _ _ Hk) as Hl. rewrite length_app, length_map in Hl. cbn in Hl.
    rewrite s32_id by (unfold is_s32; lia). by apply W.
Qed.

(** A string the kernel hands to a program is the string the program's next
    system call hands back: [StringSys2User] stores the characters and a zero
    byte at the address, changes no other byte of the program and no register,
    and [stringUser2System] then returns the same string. *)
Theorem user_string_roundtrip str addr s m :
  machine_ok m -> frames_distinct m -> pageTableSize m <= NumPhysPages ->
  c_str str = Ok s -> Forall (fun c => -128 <= c < 128) s ->
  0 <= addr -> addr + Z.of_nat (length s) < 2 ^ 31 ->
  (forall k, 0 <= k <= Z.of_nat (length s) -> writable m (addr + k)) ->
  exists m1 m2, StringSys2User str addr (-1) m = Ok m1 /\ registers m1 = registers m /\
    (forall va, is_u32 va -> ~ addr <= va <= addr + Z.of_nat (length s) -> byte_at m1 va = byte_at m va) /\
    stringUser2System addr (-1) m1 = Ok (s ++ [0], m2) /\ similar m2 m1.
Proof.
  intros Hm Hd Hn Hc Hch H0 H1 Hw.
  destruct (StringSys2User_spec str addr (-1) s m) as (m1 & E & W); try done.
  assert (0 ∉ s) as Hnz.
  { intros Hin. apply c_str_nonzero in Hc. rewrite Forall_forall in Hc. by apply (Hc 0). }
  destruct (stringUser2System_at m1 addr (map u8 s)) as (m2 & E2 & Hs2 & _);
    [apply W|by rewrite (w_size _ _ _ _ W)|by apply (wrote_string m)|].
  exists m1, m2. split; [done|]. split; [apply W|]. split.
  { intros va Hva Hout. apply W; [done|]. rewrite length_app, length_map. cbn [length]. lia. }
  split; [|done]. rewrite E2, map_app, s8_u8_chars by done. done.
Qed.

(** ** Any string at any address *)

Lemma write_char_total m va c : machine_ok m ->
  (exists m', WriteMem trap va 1 c m = Ok (true, m') /\ machine_ok m' /\ registers m' = registers m) \/
  WriteMem trap va 1 c m = Err Halted.
Proof.
  intros Hm. pose proof Hm as (_ & _ & Htab).
  destruct (Translate_cases m va 1 true Htab ltac:(by left)) as [(ex & Hex & E & _)|(t & e & pa & Hp & Hmap & _)].
  - right. unfold WriteMem. rewrite E. cbn [rbind]. rewrite decide_False by done. by rewrite fault_halts.
  - left. destruct (WriteMem_ok (fun _ m => Ok m) ltac:(by intros ? x ?; exists x) m va 1 c Hm ltac:(by left))
      as (b & m' & E & Hm' & Hreg). pose proof Hm as (_ & [Hlen _] & _).
    rewrite (WriteMem_mapped _ m va 1 c t e pa) in E by (done || by left). injection E as <- <-.
    rewrite (WriteMem_mapped _ m va 1 c t e pa) by (done || by left). eexists. split; [reflexivity|].
    split; [done|]. by apply Hreg.
Qed.

Lemma StringSys2User_total str addr cl m : machine_ok m ->
  (cl = -1 -> exists s, c_str str = Ok s) -> (cl <> -1 -> cl <= Z.of_nat (length str)) ->
  (exists m', StringSys2User str addr cl m = Ok m' /\ machine_ok m' /\ registers m' = registers m) \/
  StringSys2User str addr cl m = Err Halted.
Proof.
  intros Hm Hs Hn. unfold StringSys2User.
  assert (exists n, (if cl =? -1 then strlen str else Ok cl) = Ok n /\ n <= Z.of_nat (length str)) as (n & -> & Hle).
  { destruct (Z.eqb_spec cl (-1)) as [->|Hne]; [|exists cl; split; [done|by apply Hn]].
    destruct (Hs eq_refl) as [s Es]. destruct (c_str_strlen str s Es) as [-> E]. eexists. split; [done|].
    rewrite E, length_take. lia. }
  cbn [rbind].
  destruct (for_range_inv_or (fun _ x => machine_ok x /\ registers x = registers m) Halted (Z.to_nat n) 0
    (fun i m => let* c := arr_get str i in
       let2* (_, m) := WriteMem trap (s32 (addr + i)) 1 c m in Ok m) m) as [(m1 & -> & Hm1 & Hr1)| ->];
    [done| | |by right].
  - intros i x Hi [Hx Hr]. destruct (arr_get_in_range str i) as [c ->]; [lia|]. cbn [rbind].
    destruct (write_char_total x (s32 (addr + i)) c Hx) as [(x' & -> & Hx' & Hr')| ->]; [left|by right].
    exists x'. cbn [rbind]. split; [done|]. split; [done|congruence].
  - cbn [rbind]. destruct (write_char_total m1 (s32 (addr + n)) 0 Hm1) as [(m2 & -> & Hm2 & Hr2)| ->]; [left|by right].
    exists m2. cbn [rbind]. split; [done|]. split; [done|congruence].
Qed.

(** A C string of the program. *)
Lemma stringUser2System_total addr m : machine_ok m -> pageTableSize m <= NumPhysPages ->
  (exists buf s m', stringUser2System addr (-1) m = Ok (buf, m') /\ similar m' m /\ machine_ok m' /\
     c_str buf = Ok s) \/
  stringUser2System addr (-1) m = Err Halted.
Proof.
  intros Hm Hn. destruct (user_string_bytes addr (-1) m Hm Hn) as
    [(bs & m' & E & Hs & Hm' & Hb & Hz & _)|[E _]]; [left|by right].
  destruct (Hz eq_refl) as (s & -> & Hns). exists (map s8 (s ++ [0])), (map s8 s), m'.
  split_and!; try done. rewrite map_app. apply c_str_app. intros Hin.
  apply list_elem_of_fmap in Hin as (c & Ec & Hin). apply Hns.
  assert (is_u8 c) as Hu.
  { apply list_elem_of_lookup in Hin as [k Hk].
    by destruct (byte_at_Some m _ c Hm (Hb k c (lookup_app_l_Some _ _ _ _ Hk))) as (_ & _ & _ & _ & ?). }
  by assert (c = 0) as <- by (clear - Ec Hu; zlia).
Qed.

(** ** Examples on the machine with one page *)

Lemma one_page_byte va : 0 <= va < 128 -> byte_at one_page va = Some 0 /\ writable one_page va.
Proof.
  intros Hva. assert (byte_at one_page va = Some 0) as Hb.
  { unfold byte_at, place, one_page, PageSize. cbn [pageTable mainMemory].
    rewrite u32_id, Z.div_small, Z.mod_small by (unfold is_u32; lia). cbn.
    apply lookup_replicate_2. cbn [physicalPage]. change (u32 3) with 3. unfold MemorySize, NumPhysPages, PageSize. lia. }
  split; [done|]. split; [by eexists|]. intros t e [= <-] He.
  apply list_lookup_singleton_Some in He as [_ <-]. done.
Qed.

Lemma one_page_frames : frames_distinct one_page.
Proof.
  intros t i j e e' [= <-] Hi Hj _ _ _. apply list_lookup_singleton_Some in Hi as [-> _].
  by apply list_lookup_singleton_Some in Hj as [-> _].
Qed.

Lemma user_string_read_witness : stringUser2System 0 0 one_page = Err Halted.
Proof.
  destruct (user_string_read 0 0 one_page one_page_ok) as [(bs & m' & _ & _ & _ & _ & _ & H)|[H _]];
    [done|by destruct H as [? _]|done].
Defined.

Lemma user_string_roundtrip_witness :
  exists m1 m2, StringSys2User [72; 105; 0; 7] 8 (-1) one_page = Ok m1 /\
    stringUser2System 8 (-1) m1 = Ok ([72; 105; 0], m2).
Proof.
  destruct (user_string_roundtrip [72; 105; 0; 7] 8 [72; 105] one_page) as (m1 & m2 & E1 & _ & _ & E2 & _).
  - apply one_page_ok.
  - apply one_page_frames.
  - done.
  - done.
  - repeat constructor; lia.
  - lia.
  - cbn. lia.
  - intros k Hk. cbn in Hk. apply one_page_byte. lia.
  - exists m1, m2. split; [exact E1|exact E2].
Defined.

End UserMem.
