(* ===== verification/AddrSpace.v ===== *)
(** * Address spaces and program loading

    userprog/addrspace.cc: the page table of a program, the loader of NOFF
    files (userprog/noff.h), the registers of a fresh program and
    [AddrSpace::Translate].  The executable is a UNIX file, read through the
    stub [OpenFile] of filesys/openfile.h.  The loader holds the semaphore
    [kernel->addrLock] from the allocation of frames to its end, so it runs
    alone.  The free frames are any allocator (Bitmap.v); memory and
    registers are those of Machine.v. *)

From S2P Require Import Prelude Ints Bitmap FileHdr Machine.

Module AddrSpace.

Import Machine.

Definition UserStackSize : Z := 1024.
Definition NOFFMAGIC : Z := 12246957. (* 0xbadfad *)

Record Segment := mkSegment { virtualAddr : Z; inFileAddr : Z; size : Z }.

(** [NoffHeader], compiled with [RDATA]. *)
Record NoffHeader := mkNoff {
  noffMagic : Z;
  code : Segment;
  initData : Segment;
  readonlyData : Segment;
  uninitData : Segment
}.

Definition noff_size : Z := 52.

(** The bytes of the object as a header. *)
Definition segment_at (bs : list Z) (off : nat) : Segment :=
  mkSegment (FileHdr.int_at bs off) (FileHdr.int_at bs (off + 4)) (FileHdr.int_at bs (off + 8)).

Definition noff_cast (bs : list Z) : NoffHeader :=
  mkNoff (FileHdr.int_at bs 0) (segment_at bs 4) (segment_at bs 16) (segment_at bs 28) (segment_at bs 40).

(** The bytes of a segment. *)
Definition segment_bytes (s : Segment) : list Z :=
  le_bytes 4 (virtualAddr s) ++ le_bytes 4 (inFileAddr s) ++ le_bytes 4 (size s).

Definition swap_segment (s : Segment) : Segment :=
  mkSegment (WordToHost (virtualAddr s)) (WordToHost (inFileAddr s)) (WordToHost (size s)).

Definition SwapHeader (h : NoffHeader) : NoffHeader :=
  mkNoff (WordToHost (noffMagic h)) (swap_segment (code h)) (swap_segment (initData h))
    (swap_segment (readonlyData h)) (swap_segment (uninitData h)).

(** [OpenFile::ReadAt] of the stub: the bytes read into a buffer. *)
Definition ReadAt (f : list Z) (numBytes position : Z) : res (list Z) :=
  ASSERT (0 <=? position) ;;;
  Ok (slice (Z.to_nat position) (Z.to_nat numBytes) f).

(** [ReadAt] into main memory, at address [addr]. *)
Definition read_into (f mem : list Z) (addr numBytes position : Z) : res (list Z) :=
  let* bs := ReadAt f numBytes position in
  match bs with
  | [] => Ok mem
  | _ =>
      if (0 <=? addr) && (addr + Z.of_nat (length bs) <=? Z.of_nat (length mem))
      then Ok (memcpy mem (Z.to_nat addr) bs) else Err OutOfBounds
  end.

(** [bzero(&mainMemory[addr], n)] *)
Definition bzero (mem : list Z) (addr n : Z) : res (list Z) :=
  if (0 <=? addr) && (addr + n <=? Z.of_nat (length mem))
  then Ok (memcpy mem (Z.to_nat addr) (calloc (Z.to_nat n))) else Err OutOfBounds.

(** [AddrSpace] *)
Record AddrSpace := mkAddrSpace {
  pageTable : list TranslationEntry;
  numPages : Z
}.

Section Load.
Context {A : Type} `{Allocator A}.

(** One turn of the loop that sets up the translation. *)
Definition page_step (i : Z) (st : list TranslationEntry * A * list Z)
  : res (list TranslationEntry * A * list Z) :=
  let '(pt, freeMap, mem) := st in
  let2* (frame, freeMap) := al_find freeMap in
  let pt := pt ++ [mkEntry i frame true false false false] in
  let* mem := bzero mem (frame * PageSize) PageSize in
  Ok (pt, freeMap, mem).

(** The loop that reads a segment, for each page. *)
Definition load_segment (f : list Z) (s : Segment) (pt : list TranslationEntry) (n : Z) (mem : list Z)
  : res (list Z) :=
  if 0 <? size s then
    for_range (Z.to_nat n) 0
      (fun i mem =>
         let* e := arr_get pt i in
         read_into f mem (virtualAddr s + physicalPage e * PageSize) PageSize
           (s32 (inFileAddr s + i * PageSize)))
      mem
  else Ok mem.

(** The header in memory after [ReadAt], with [garbage] where the file is too
    short for it. *)
Definition read_header (garbage f : list Z) : res NoffHeader :=
  let* bs := ReadAt f noff_size 0 in
  let h := noff_cast (memcpy garbage 0 bs) in
  let h := if negb (noffMagic h =? NOFFMAGIC) && (WordToHost (noffMagic h) =? NOFFMAGIC)
           then SwapHeader h else h in
  ASSERT (noffMagic h =? NOFFMAGIC) ;;;
  Ok h.

Definition pages_of (h : NoffHeader) : Z :=
  divRoundUp (u32 (size (code h) + size (initData h) + size (uninitData h) + UserStackSize)) PageSize.

(** [AddrSpace(fileName)] for an executable that exists.  Too few free frames
    leave an address space of no pages. *)
Definition AddrSpace_init (garbage f : list Z) (freeMap : A) (mem : list Z)
  : res (AddrSpace * A * list Z) :=
  let* noffH := read_header garbage f in
  let n := pages_of noffH in
  ASSERT (n <=? NumPhysPages) ;;;
  let* clear := al_count freeMap in
  if clear <? n then Ok (mkAddrSpace [] 0, freeMap, mem)
  else
    let3* (pt, freeMap, mem) := for_range (Z.to_nat n) 0 page_step ([], freeMap, mem) in
    let* mem := load_segment f (code noffH) pt n mem in
    let* mem := load_segment f (initData noffH) pt n mem in
    Ok (mkAddrSpace pt n, freeMap, mem).

(** The destructor. *)
Definition AddrSpace_free (s : AddrSpace) (freeMap : A) : res A :=
  for_range (Z.to_nat (numPages s)) 0
    (fun i freeMap => let* e := arr_get (pageTable s) i in al_clear (physicalPage e) freeMap) freeMap.

End Load.

Definition InitRegisters (s : AddrSpace) (m : machine) : res machine :=
  let* m := for_range (Z.to_nat NumTotalRegs) 0 (fun i m => WriteRegister i 0 m) m in
  let* m := WriteRegister PCReg 0 m in
  let* m := WriteRegister NextPCReg 4 m in
  WriteRegister StackReg (numPages s * PageSize - 16) m.

Definition SaveState (s : AddrSpace) (m : machine) : machine := m.

Definition RestoreState (s : AddrSpace) (m : machine) : machine :=
  {| registers := registers m; mainMemory := mainMemory m; tlb := tlb m;
     Machine.pageTable := Some (pageTable s); pageTableSize := numPages s; status := status m |}.

(** [Execute], up to [kernel->machine->Run()]. *)
Definition Execute (s : AddrSpace) (m : machine) : res machine :=
  let* m := InitRegisters s m in
  Ok (RestoreState s m).

Definition Translate (vaddr : Z) (isReadWrite : bool) (s : AddrSpace)
  : res (ExceptionType * Z * AddrSpace) :=
  let vpn := u32 vaddr / PageSize in
  let offset := u32 vaddr mod PageSize in
  if numPages s <=? vpn then Ok (AddressErrorException, 0, s)
  else
    let* pte := arr_get (pageTable s) vpn in
    if isReadWrite && readOnly pte then Ok (ReadOnlyException, 0, s)
    else
      let pfn := physicalPage pte in
      if NumPhysPages <=? pfn then Ok (BusErrorException, 0, s)
      else
        let* pt := arr_set (pageTable s) vpn (mark_entry isReadWrite pte) in
        let paddr := u32 (pfn * PageSize + offset) in
        ASSERT (paddr <? MemorySize) ;;;
        Ok (NoException, paddr, mkAddrSpace pt (numPages s)).

(** ** Frames *)

Definition frames (pt : list TranslationEntry) : list Z := map physicalPage pt.

(** The byte of virtual address [v] in a program whose code begins at [off] of
    its file. *)
Definition image (f : list Z) (off v : Z) : Z := default 0 (f !! Z.to_nat (off + v)).

(** Bytes of [mem] that are not in the frames [fs] are those of [mem0]. *)
Definition outside (fs : list Z) (mem mem0 : list Z) : Prop :=
  length mem = length mem0 /\
  forall j, Z.of_nat j / PageSize ∉ fs -> mem !! j = mem0 !! j.

Lemma same_page j f : f * PageSize <= Z.of_nat j < f * PageSize + PageSize -> Z.of_nat j / PageSize = f.
Proof. unfold PageSize. intros Hj. zify_div. lia. Qed.

Lemma page_range j : 0 <= j -> j / PageSize * PageSize <= j < j / PageSize * PageSize + PageSize.
Proof. unfold PageSize. intros Hj. zify_div. lia. Qed.

Section Proofs.
Context {A : Type} `{Allocator A}.

(** The loop over the pages after [i] turns. *)
Definition pages_ok (m : A) (mem0 : list Z) (i : Z) (st : list TranslationEntry * A * list Z) : Prop :=
  let '(pt, m', mem) := st in
  al_wf m' /\ Z.of_nat (length pt) = i /\ NoDup (frames pt) /\
  Forall (fun f => 0 <= f /\ view m !! Z.to_nat f = Some false) (frames pt) /\
  view m' = FileHdr.mark_all (frames pt) (view m) /\
  num_clear (view m') = num_clear (view m) - i /\
  (forall k e, pt !! k = Some e -> e = mkEntry (Z.of_nat k) (physicalPage e) true false false false) /\
  outside (frames pt) mem mem0 /\
  forall j, (j < length mem)%nat -> Z.of_nat j / PageSize ∈ frames pt -> mem !! j = Some 0.

Lemma bzero_spec mem f : 0 <= f < NumPhysPages -> length mem = Z.to_nat MemorySize ->
  exists mem', bzero mem (f * PageSize) PageSize = Ok mem' /\ outside [f] mem' mem /\
    forall j, (j < length mem)%nat -> Z.of_nat j / PageSize = f -> mem' !! j = Some 0.
Proof.
  unfold NumPhysPages. intros Hf Hl. unfold bzero. change MemorySize with 16384 in Hl.
  assert (f * PageSize + PageSize <= Z.of_nat (length mem)) as Hb by (unfold PageSize; lia).
  rewrite (proj2 (Z.leb_le 0 _)), (proj2 (Z.leb_le _ _)) by (done || unfold PageSize; lia). cbn [andb].
  eexists. split; [reflexivity|].
  assert (length (calloc (Z.to_nat PageSize)) = Z.to_nat PageSize) as Hc by apply length_calloc.
  split; [split|].
  - apply length_memcpy. rewrite Hc. unfold PageSize in *. lia.
  - intros j Hj. rewrite list_elem_of_singleton in Hj. apply lookup_memcpy_out.
    + rewrite Hc. unfold PageSize in *. lia.
    + rewrite Hc. pose proof (same_page j f). unfold PageSize in *. lia.
  - intros j Hj Ef. pose proof (page_range (Z.of_nat j) ltac:(lia)) as Hr. rewrite Ef in Hr.
    rewrite lookup_memcpy_in by (rewrite Hc; unfold PageSize in *; lia).
    unfold calloc. apply lookup_replicate_2. unfold PageSize in *. lia.
Qed.

Lemma page_step_ok m mem0 i pt m1 mem :
  Z.of_nat (length (view m)) = NumPhysPages -> length mem0 = Z.to_nat MemorySize ->
  0 <= i < num_clear (view m) -> pages_ok m mem0 i (pt, m1, mem) ->
  exists st, page_step i (pt, m1, mem) = Ok st /\ pages_ok m mem0 (i + 1) st /\
    frames (fst (fst st)) = frames pt ++ [first_clear (view m1)].
Proof.
  intros Hv Hmem Hi (Hwf & Hl & Hnd & Hfree & Hv1 & Hn & He & [Hlm Hout] & Hzero).
  destruct (FileHdr.first_clear_Some (view m1)) as [Hs Hs']; [lia|].
  destruct (al_find_law m1 Hwf) as (m2 & E & Hwf2 & Hv2).
  unfold page_step. rewrite E. cbn [rbind]. set (f := first_clear (view m1)) in *.
  rewrite (proj2 (Z.eqb_neq f (-1))) in Hv2 by lia.
  assert (length (view m1) = length (view m)) as Hlv by (rewrite Hv1; apply FileHdr.length_mark_all).
  destruct (bzero_spec mem f) as (mem' & -> & [Hlm' Hout'] & Hzero'); [lia|congruence|]. cbn [rbind].
  eexists. split; [reflexivity|]. split; [|cbn [fst]; unfold frames; by rewrite map_app]. unfold pages_ok.
  assert (f ∉ frames pt) as Hnf.
  { intros Hin. rewrite Hv1, FileHdr.lookup_mark_all in Hs'; [done|lia|done]. }
  assert (frames (pt ++ [mkEntry i f true false false false]) = frames pt ++ [f]) as Ef
    by (unfold frames; by rewrite map_app).
  rewrite Ef. split_and!.
  - done.
  - rewrite length_app. cbn [length]. lia.
  - apply NoDup_app. split; [done|]. split; [|apply NoDup_singleton].
    intros x Hx Hx'. apply list_elem_of_singleton in Hx'. by subst.
  - apply Forall_app. split; [done|]. constructor; [|done]. split; [lia|].
    rewrite Hv1, FileHdr.lookup_mark_all_ne in Hs'; [done| |lia|done].
    eapply Forall_impl; [exact Hfree|]. by intros x [? _].
  - by rewrite FileHdr.mark_all_snoc, Hv2, Hv1.
  - rewrite Hv2, FileHdr.num_clear_mark by done. lia.
  - intros k e Hk. destruct (decide (k < length pt)%nat).
    + rewrite lookup_app_l in Hk by done. by apply He.
    + rewrite lookup_app_r in Hk by lia. destruct (k - length pt)%nat as [|?] eqn:Ek; [|done].
      injection Hk as <-. cbn. f_equal. lia.
  - split; [congruence|]. intros j Hj. rewrite not_elem_of_app, list_elem_of_singleton in Hj.
    rewrite Hout' by (rewrite list_elem_of_singleton; tauto). apply Hout. tauto.
  - intros j Hj Hin. rewrite Hlm' in Hj. destruct (decide (Z.of_nat j / PageSize = f)) as [Ej|Ej]; [by apply Hzero'|].
    rewrite Hout' by (by rewrite list_elem_of_singleton). apply Hzero; [done|].
    apply elem_of_app in Hin as [|Hin]; [done|]. by apply list_elem_of_singleton in Hin.
Qed.

Lemma pages_loop m mem0 n :
  al_wf m -> Z.of_nat (length (view m)) = NumPhysPages -> length mem0 = Z.to_nat MemorySize ->
  0 <= n <= num_clear (view m) ->
  exists st, for_range (Z.to_nat n) 0 page_step ([], m, mem0) = Ok st /\ pages_ok m mem0 n st.
Proof.
  intros Hwf Hv Hmem Hn.
  destruct (for_range_inv (pages_ok m mem0) (Z.to_nat n) 0 page_step ([], m, mem0)) as (st & E & Hst).
  - unfold pages_ok. split_and!; try done; [constructor|lia|]. intros j _ Hj. by apply elem_of_nil in Hj.
  - intros i [[pt m1] mem] Hi Hok.
    destruct (page_step_ok m mem0 i pt m1 mem) as (st & E & Hst & _); try done; [lia|]. by exists st.
  - exists st. split; [done|]. by replace n with (0 + Z.of_nat (Z.to_nat n)) by lia.
Qed.

(** The memory holds the first [i] pages of the program, and zeros in the
    others. *)
Definition holds (f : list Z) (off : Z) (pt : list TranslationEntry) (i : Z) (mem : list Z) : Prop :=
  forall k e o, pt !! k = Some e -> 0 <= o < PageSize ->
    mem !! Z.to_nat (physicalPage e * PageSize + o) =
      Some (if Z.of_nat k <? i then image f off (Z.of_nat k * PageSize + o) else 0).

Lemma read_into_page f mem fr position :
  0 <= fr < NumPhysPages -> length mem = Z.to_nat MemorySize -> 0 <= position ->
  exists mem', read_into f mem (fr * PageSize) PageSize position = Ok mem' /\ outside [fr] mem' mem /\
    forall o, 0 <= o < PageSize ->
      mem' !! Z.to_nat (fr * PageSize + o) =
        match f !! Z.to_nat (position + o) with
        | Some b => Some b
        | None => mem !! Z.to_nat (fr * PageSize + o)
        end.
Proof.
  unfold NumPhysPages. intros Hf Hl Hp. change MemorySize with 16384 in Hl.
  unfold read_into, ReadAt. rewrite (proj2 (Z.leb_le 0 position)) by done. cbn [ASSERT rbind].
  set (bs := slice (Z.to_nat position) (Z.to_nat PageSize) f).
  assert (length bs <= 128)%nat as Hb by (unfold bs, slice; rewrite length_take; unfold PageSize; lia).
  assert (forall o, 0 <= o < PageSize -> f !! Z.to_nat (position + o) = bs !! Z.to_nat o) as Hbs.
  { intros o Ho. unfold bs. rewrite lookup_slice by lia. f_equal. lia. }
  assert ((match bs with [] => Ok mem | _ => if (0 <=? fr * PageSize) &&
      (fr * PageSize + Z.of_nat (length bs) <=? Z.of_nat (length mem))
      then Ok (memcpy mem (Z.to_nat (fr * PageSize)) bs) else Err OutOfBounds end) =
    Ok (memcpy mem (Z.to_nat (fr * PageSize)) bs)) as ->.
  { destruct bs as [|b bs']; [by rewrite memcpy_nil|]. unfold PageSize in *.
    rewrite (proj2 (Z.leb_le 0 _)), (proj2 (Z.leb_le _ _)) by lia. done. }
  eexists. split; [reflexivity|]. split; [split|].
  - apply length_memcpy. unfold PageSize in *. lia.
  - intros j Hj. rewrite list_elem_of_singleton in Hj. pose proof (same_page j fr).
    unfold PageSize in *. apply lookup_memcpy_out; lia.
  - intros o Ho. rewrite Hbs by done. destruct (decide (Z.to_nat o < length bs)%nat) as [Hlt|Hge].
    + rewrite lookup_memcpy_in by (unfold PageSize in *; lia).
      replace (Z.to_nat (fr * PageSize + o) - Z.to_nat (fr * PageSize))%nat with (Z.to_nat o)
        by (unfold PageSize in *; lia).
      destruct (lookup_lt_is_Some_2 bs (Z.to_nat o) Hlt) as [b ->]. done.
    + rewrite (lookup_ge_None_2 bs) by lia. unfold PageSize in *. apply lookup_memcpy_out; lia.
Qed.

Lemma page_ne x y o : x <> y -> 0 <= x -> 0 <= y -> 0 <= o < PageSize ->
  Z.of_nat (Z.to_nat (y * PageSize + o)) / PageSize ∉ [x].
Proof.
  unfold PageSize. intros Hne Hx Hy Ho. rewrite list_elem_of_singleton, Z2Nat.id by lia. zify_div. lia.
Qed.

Lemma load_code f s pt mem :
  NoDup (frames pt) -> Forall (fun fr => 0 <= fr < NumPhysPages) (frames pt) ->
  length mem = Z.to_nat MemorySize -> virtualAddr s = 0 -> 0 < size s -> 0 <= inFileAddr s ->
  inFileAddr s + Z.of_nat (length pt) * PageSize < 2 ^ 31 ->
  holds f (inFileAddr s) pt 0 mem ->
  exists mem', load_segment f s pt (Z.of_nat (length pt)) mem = Ok mem' /\
    outside (frames pt) mem' mem /\ holds f (inFileAddr s) pt (Z.of_nat (length pt)) mem'.
Proof.
  intros Hnd Hfr Hl Hva Hsz Hoff Hmax Hz. unfold load_segment. rewrite (proj2 (Z.ltb_lt 0 _)) by done.
  match goal with |- context [for_range ?n 0 ?body mem] =>
    destruct (for_range_inv (fun i mem' => outside (frames pt) mem' mem /\ holds f (inFileAddr s) pt i mem')
      n 0 body mem) as (mem' & E & Hout & Hh) end.
  - by split.
  - intros i mem1 Hi [[Hl1 Hout1] Hh1].
    destruct (lookup_lt_is_Some_2 pt (Z.to_nat i)) as [e He]; [lia|].
    rewrite (arr_get_lookup pt i e) by (done || lia). cbn [rbind]. rewrite Hva, Z.add_0_l.
    assert (frames pt !! Z.to_nat i = Some (physicalPage e)) as Hfe
      by (unfold frames; by rewrite list_lookup_fmap, He).
    assert (0 <= physicalPage e < NumPhysPages) as Hpe by (by eapply Forall_lookup_1 in Hfr).
    unfold PageSize in Hmax. rewrite s32_id by (unfold PageSize; zlia).
    destruct (read_into_page f mem1 (physicalPage e) (inFileAddr s + i * PageSize))
      as (mem2 & -> & [Hl2 Hout2] & Hr2); [done|congruence|unfold PageSize; lia|].
    exists mem2. split; [done|]. split; [split; [congruence|]|].
    + intros j Hj. rewrite Hout2, Hout1; [done|done|]. rewrite list_elem_of_singleton. intros E.
      apply Hj. rewrite E. by eapply list_elem_of_lookup_2.
    + intros k e' o Hk Ho. destruct (decide (k = Z.to_nat i)) as [->|Hne].
      * rewrite He in Hk. injection Hk as <-. rewrite Hr2 by done.
        rewrite (Hh1 _ _ _ He Ho), Z2Nat.id by lia. rewrite (proj2 (Z.ltb_lt i (i + 1))), (proj2 (Z.ltb_ge i i)) by lia.
        unfold image. rewrite Z.add_assoc. by destruct (f !! _).
      * assert (physicalPage e <> physicalPage e') as Hpne.
        { intros E. apply Hne. eapply NoDup_lookup; [exact Hnd| |exact Hfe].
          unfold frames. by rewrite list_lookup_fmap, Hk, E. }
        assert (frames pt !! k = Some (physicalPage e')) as Hfe' by (unfold frames; by rewrite list_lookup_fmap, Hk).
        assert (0 <= physicalPage e' < NumPhysPages) as Hpe' by (by eapply Forall_lookup_1 in Hfr).
        rewrite Hout2, (Hh1 _ _ _ Hk Ho) by (apply page_ne; lia). f_equal.
        destruct (Z.ltb_spec (Z.of_nat k) i), (Z.ltb_spec (Z.of_nat k) (i + 1)); done || lia.
  - exists mem'. rewrite Nat2Z.id in *. split; [exact E|]. split; [done|]. by rewrite Z.add_0_l in Hh.
Qed.

(** The frames from [p0] on are the first free ones. *)
Definition free_from (m : A) (p0 n : Z) : Prop :=
  0 <= p0 /\ p0 + n <= NumPhysPages /\
  (forall j, (j < Z.to_nat p0)%nat -> view m !! j = Some true) /\
  (forall k, 0 <= k < n -> view m !! Z.to_nat (p0 + k) = Some false).

Lemma first_clear_at v x :
  v !! x = Some false -> (forall y, (y < x)%nat -> v !! y = Some true) -> first_clear v = Z.of_nat x.
Proof.
  intros Hx Hlow. unfold first_clear. destruct (list_find _ v) as [[i b]|] eqn:E.
  - apply list_find_Some in E as (Hi & -> & Hmin). f_equal.
    destruct (Nat.lt_trichotomy i x) as [Hlt|[->|Hgt]]; [|done|].
    + rewrite Hlow in Hi by done. done.
    + by destruct (Hmin x false Hx Hgt).
  - apply list_find_None in E. eapply Forall_lookup_1 in E; [|exact Hx]. done.
Qed.

Lemma pages_contiguous m mem0 n p0 st :
  al_wf m -> Z.of_nat (length (view m)) = NumPhysPages -> length mem0 = Z.to_nat MemorySize ->
  0 <= n <= num_clear (view m) -> free_from m p0 n ->
  for_range (Z.to_nat n) 0 page_step ([], m, mem0) = Ok st -> frames (fst (fst st)) = seqZ p0 n.
Proof.
  intros Hwf Hv Hmem Hn (H0 & Hmax & Hlow & Hfree) Est.
  destruct (for_range_inv (fun i st => pages_ok m mem0 i st /\ frames (fst (fst st)) = seqZ p0 i)
    (Z.to_nat n) 0 page_step ([], m, mem0)) as (st' & E & _ & Hst').
  - split; [|done]. unfold pages_ok. split_and!; try done; [constructor|lia|]. intros j _ Hj. by apply elem_of_nil in Hj.
  - intros i [[pt m1] mem] Hi [Hok Hf]. cbn [fst] in Hf.
    destruct (page_step_ok m mem0 i pt m1 mem) as (st1 & E & Hst & Hf1); try done; [lia|].
    exists st1. split; [done|]. split; [done|]. rewrite Hf1, Hf.
    destruct Hok as (_ & _ & _ & _ & Hv1 & _). rewrite Hv1, Hf.
    rewrite (first_clear_at _ (Z.to_nat (p0 + i))).
    + rewrite Z2Nat.id by lia. by rewrite seqZ_app by lia.
    + rewrite FileHdr.lookup_mark_all_ne; [by apply Hfree; lia| |lia|].
      * apply Forall_forall. intros x Hx. apply elem_of_seqZ in Hx. lia.
      * rewrite elem_of_seqZ. lia.
    + intros y Hy. destruct (decide (y < Z.to_nat p0)%nat) as [Hlt|Hge].
      * rewrite <- (Nat2Z.id y), FileHdr.lookup_mark_all_ne; [rewrite Nat2Z.id; by apply Hlow| |lia|].
        -- apply Forall_forall. intros x Hx. apply elem_of_seqZ in Hx. lia.
        -- rewrite elem_of_seqZ. lia.
      * rewrite <- (Nat2Z.id y). apply FileHdr.lookup_mark_all; [lia|]. apply elem_of_seqZ. lia.
  - rewrite E in Est. injection Est as <-. by rewrite Hst', Z.add_0_l, Z2Nat.id by lia.
Qed.

(** Reading again what the memory holds changes nothing: the second segment,
    when the frames are contiguous. *)
Lemma load_again f s pt p0 off mem :
  let n := Z.of_nat (length pt) in
  frames pt = seqZ p0 n -> 0 <= p0 -> p0 + n <= NumPhysPages ->
  length mem = Z.to_nat MemorySize -> holds f off pt n mem ->
  0 <= virtualAddr s -> 0 <= off -> inFileAddr s = off + virtualAddr s ->
  Z.of_nat (length f) <= off + n * PageSize -> inFileAddr s + n * PageSize < 2 ^ 31 ->
  load_segment f s pt n mem = Ok mem.
Proof.
  intros n Hf H0 Hmax Hl Hh Hva Hoff Hin Hfile Hov. unfold load_segment.
  destruct (0 <? size s); [|done].
  match goal with |- context [for_range ?k 0 ?body mem] =>
    destruct (for_range_inv (fun _ mem' => mem' = mem) k 0 body mem) as (mem' & E & ->) end; [done| |done].
  intros i mem1 Hi ->. destruct (lookup_lt_is_Some_2 pt (Z.to_nat i)) as [e He]; [lia|].
  rewrite (arr_get_lookup pt i e) by (done || lia). cbn [rbind]. exists mem. split; [|done].
  assert (forall k x, pt !! k = Some x -> physicalPage x = p0 + Z.of_nat k) as Hpp.
  { intros k x Hk. assert (frames pt !! k = Some (physicalPage x)) as Hx by (unfold frames; by rewrite list_lookup_fmap, Hk).
    rewrite Hf in Hx. apply lookup_seqZ in Hx as [-> _]. done. }
  rewrite (Hpp _ _ He). unfold PageSize, NumPhysPages in *. change (Z.to_nat MemorySize) with (Z.to_nat 16384) in Hl.
  rewrite s32_id by zlia. unfold read_into, ReadAt. rewrite (proj2 (Z.leb_le 0 _)) by lia. cbn [ASSERT rbind].
  set (pos := inFileAddr s + i * 128). set (bs := slice (Z.to_nat pos) (Z.to_nat 128) f).
  assert (Z.of_nat (length bs) <= Z.max 0 (Z.of_nat (length f) - pos)) as Hlb.
  { unfold bs, slice. rewrite length_take, length_drop. lia. }
  assert (pos = off + virtualAddr s + i * 128) as Hpos by (unfold pos; lia).
  assert (forall o b, bs !! o = Some b ->
    mem !! Z.to_nat (p0 * 128 + (pos - off + Z.of_nat o)) = Some b /\
    0 <= pos - off + Z.of_nat o < n * 128) as Hsame.
  { intros o b Hob. apply lookup_lt_Some in Hob as Hlt. set (v := pos - off + Z.of_nat o).
    assert (0 <= v < n * 128) as Hv by (unfold v; lia). split; [|done].
    destruct (lookup_lt_is_Some_2 pt (Z.to_nat (v / 128))) as [x Hx]; [zify_div; lia|].
    pose proof (Hh _ _ (v mod 128) Hx (Z.mod_pos_bound v 128 eq_refl)) as Hm. unfold PageSize in Hm.
    assert (v = pos - off + Z.of_nat o) as Ev by done. clearbody v.
    rewrite (Hpp _ _ Hx) in Hm. rewrite Z2Nat.id in Hm by (zify_div; lia).
    rewrite (proj2 (Z.ltb_lt _ _)) in Hm by (zify_div; lia).
    replace ((p0 + v / 128) * 128 + v mod 128) with (p0 * 128 + v) in Hm by (zify_div; lia).
    rewrite Hm. f_equal. unfold image. replace (off + (v / 128 * 128 + v mod 128)) with (pos + Z.of_nat o) by (zify_div; lia).
    unfold bs in Hob. rewrite lookup_slice in Hob by (unfold bs, slice in Hlt; rewrite length_take in Hlt; lia).
    replace (Z.to_nat (pos + Z.of_nat o)) with (Z.to_nat pos + o)%nat by lia. by rewrite Hob. }
  set (addr := virtualAddr s + (p0 + Z.of_nat (Z.to_nat i)) * 128).
  assert (addr = p0 * 128 + (pos - off)) as Ha by (unfold addr, pos; lia).
  assert (bs <> [] -> 0 <= addr /\ addr + Z.of_nat (length bs) <= 16384 /\ memcpy mem (Z.to_nat addr) bs = mem) as Hb.
  { intros Hne. assert (exists b, bs !! (length bs - 1)%nat = Some b) as [b Hlast].
    { apply lookup_lt_is_Some_2. destruct bs; [done|cbn; lia]. }
    destruct (Hsame _ _ Hlast) as [_ Hb]. assert (0 < length bs)%nat by (destruct bs; [done|cbn; lia]).
    split; [lia|]. split; [lia|]. apply list_eq. intros j.
    destruct (decide (Z.to_nat addr <= j < Z.to_nat addr + length bs)%nat) as [Hin'|Hout].
    - rewrite lookup_memcpy_in by lia. destruct (lookup_lt_is_Some_2 bs (j - Z.to_nat addr)) as [c Hc]; [lia|].
      rewrite Hc. symmetry. destruct (Hsame _ _ Hc) as [<- _]. f_equal. lia.
    - apply lookup_memcpy_out; lia. }
  destruct bs as [|b0 bs']; [done|]. destruct Hb as (Ha0 & Ha1 & ->); [done|].
  rewrite (proj2 (Z.leb_le 0 _)), (proj2 (Z.leb_le _ _)) by lia. done.
Qed.

(** The destructor gives the frames back. *)
Lemma free_spec pt m v :
  al_wf m -> NoDup (frames pt) ->
  Forall (fun f => 0 <= f /\ v !! Z.to_nat f = Some false) (frames pt) ->
  view m = FileHdr.mark_all (frames pt) v ->
  exists m', AddrSpace_free (mkAddrSpace pt (Z.of_nat (length pt))) m = Ok m' /\ al_wf m' /\ view m' = v.
Proof.
  intros Hwf Hnd Hf Hv. unfold AddrSpace_free. cbn [numPages pageTable]. rewrite Nat2Z.id.
  assert (length (frames pt) = length pt) as Hl by apply length_map.
  match goal with |- context [for_range ?n 0 ?body m] =>
    destruct (for_range_inv (fun i m => al_wf m /\ view m = FileHdr.mark_all (drop (Z.to_nat i) (frames pt)) v)
      n 0 body m) as (m' & E & Hwf' & Hv') end.
  - by rewrite drop_0.
  - intros i m1 Hi [Hwf1 Hv1].
    destruct (lookup_lt_is_Some_2 pt (Z.to_nat i)) as [e He]; [lia|].
    rewrite (arr_get_lookup pt i e) by (done || lia). cbn [rbind].
    assert (frames pt !! Z.to_nat i = Some (physicalPage e)) as Hfe
      by (unfold frames; by rewrite list_lookup_fmap, He).
    rewrite (drop_S _ _ _ Hfe) in Hv1. rewrite <- (take_drop_middle _ _ _ Hfe) in Hnd, Hf.
    apply NoDup_app in Hnd as (_ & _ & Hnd). apply NoDup_cons in Hnd as [Hns _].
    apply Forall_app in Hf as [_ Hf]. pose proof Hf as Hf'. apply Forall_cons in Hf' as [[Hpos Hvs] _].
    apply lookup_lt_Some in Hvs.
    destruct (al_clear_law m1 (physicalPage e) Hwf1) as (m2 & -> & Hwf2 & Hv2).
    { rewrite Hv1, FileHdr.length_mark_all. lia. }
    exists m2. split; [done|]. split; [done|]. rewrite Hv2, Hv1, FileHdr.clear_marked by done.
    by replace (Z.to_nat (i + 1)) with (S (Z.to_nat i)) by lia.
  - exists m'. split; [done|]. split; [done|]. rewrite Hv', drop_ge by lia. done.
Qed.

Lemma num_clear_le (v : list bool) : num_clear v <= Z.of_nat (length v).
Proof. unfold num_clear. apply inj_le, length_filter. Qed.

(** The conditions under which the loader puts the initialised data in place. *)
Definition data_in_place (f : list Z) (h : NoffHeader) (freeMap : A) : Prop :=
  let n := pages_of h in
  (exists p0, free_from freeMap p0 n) /\ 0 <= virtualAddr (initData h) /\
  inFileAddr (initData h) = inFileAddr (code h) + virtualAddr (initData h) /\
  inFileAddr (initData h) + n * PageSize < 2 ^ 31 /\
  Z.of_nat (length f) <= inFileAddr (code h) + n * PageSize.

(** The address space [s] and the memory [mem'] after loading a program of [n]
    pages, in which virtual address [v] holds [img v]: its frames are distinct,
    were free and are now taken, no other memory has changed, and the destructor
    gives exactly these frames back. *)
Record loaded_as (freeMap : A) (mem : list Z) (n : Z) (img : Z -> Z) (s : AddrSpace) (m' : A) (mem' : list Z) : Prop := {
  la_pages : numPages s = n;
  la_length : Z.of_nat (length (pageTable s)) = numPages s;
  la_distinct : NoDup (frames (pageTable s));
  la_free : Forall (fun fr => 0 <= fr /\ view freeMap !! Z.to_nat fr = Some false) (frames (pageTable s));
  la_taken : view m' = FileHdr.mark_all (frames (pageTable s)) (view freeMap);
  la_wf : al_wf m';
  la_image : forall v, 0 <= v < numPages s * PageSize ->
    exists fr, pageTable s !! Z.to_nat (v / PageSize) = Some (mkEntry (v / PageSize) fr true false false false) /\
      mem' !! Z.to_nat (fr * PageSize + v mod PageSize) = Some (img v);
  la_outside : outside (frames (pageTable s)) mem' mem;
  la_freed : exists m'', AddrSpace_free s m' = Ok m'' /\ view m'' = view freeMap
}.

Lemma AddrSpace_init_loads garbage f freeMap mem h :
  al_wf freeMap -> Z.of_nat (length (view freeMap)) = NumPhysPages ->
  length mem = Z.to_nat MemorySize -> read_header garbage f = Ok h ->
  pages_of h <= num_clear (view freeMap) ->
  virtualAddr (code h) = 0 -> 0 < size (code h) ->
  0 <= inFileAddr (code h) -> inFileAddr (code h) + pages_of h * PageSize < 2 ^ 31 ->
  size (initData h) <= 0 \/ data_in_place f h freeMap ->
  exists s m' mem', AddrSpace_init garbage f freeMap mem = Ok (s, m', mem') /\
    loaded_as freeMap mem (pages_of h) (image f (inFileAddr (code h))) s m' mem'.
Proof.
  intros Hwf Hv Hmem Eh Hn Hva Hsz Hoff Hov Hdata. unfold AddrSpace_init. rewrite Eh. cbn [rbind].
  set (n := pages_of h) in *. assert (0 <= n) as Hn0.
  { unfold n, pages_of. set (z := u32 _). assert (0 <= z) as Hz by (unfold z; zlia).
    pose proof (divRoundUp_spec z PageSize Hz ltac:(done)) as Hd. unfold PageSize in *. lia. }
  pose proof (num_clear_le (view freeMap)) as Hle.
  rewrite (proj2 (Z.leb_le n _)) by lia. cbn [ASSERT rbind]. rewrite al_count_law by done. cbn [rbind].
  rewrite (proj2 (Z.ltb_ge _ n)) by done.
  destruct (pages_loop freeMap mem n) as ([[pt m1] mem1] & Ep & Hok); [done..|]. rewrite Ep. cbn [rbind].
  destruct Hok as (Hwf1 & Hlp & Hnd & Hfree & Hv1 & _ & Hent & Hout & Hzero).
  assert (Forall (fun fr => 0 <= fr < NumPhysPages) (frames pt)) as Hrange.
  { eapply Forall_impl; [exact Hfree|]. intros fr [H0 Hfr]. apply lookup_lt_Some in Hfr. lia. }
  assert (holds f (inFileAddr (code h)) pt 0 mem1) as Hz.
  { intros k e o Hk Ho. rewrite (proj2 (Z.ltb_ge _ 0)) by lia.
    assert (frames pt !! k = Some (physicalPage e)) as Hfe by (unfold frames; by rewrite list_lookup_fmap, Hk).
    assert (0 <= physicalPage e < NumPhysPages) as Hpe by (by eapply Forall_lookup_1 in Hrange).
    apply Hzero.
    - destruct Hout as [-> _]. rewrite Hmem. unfold PageSize, NumPhysPages in *. change MemorySize with 16384. lia.
    - rewrite Z2Nat.id by (unfold PageSize in *; lia).
      replace ((physicalPage e * PageSize + o) / PageSize) with (physicalPage e) by (unfold PageSize in *; zify_div; lia).
      by eapply list_elem_of_lookup_2. }
  assert (length mem1 = Z.to_nat MemorySize) as Hl1 by (destruct Hout as [-> _]; done).
  destruct (load_code f (code h) pt mem1) as (mem2 & E2 & [Hl2 Hout2] & Hh2); try done; [by rewrite Hlp|].
  rewrite Hlp in E2, Hh2. rewrite E2. cbn [rbind].
  assert (load_segment f (initData h) pt n mem2 = Ok mem2) as ->.
  { destruct Hdata as [Hno|((p0 & Hp0) & Hva' & Hin & Hov' & Hfile)].
    - unfold load_segment. by rewrite (proj2 (Z.ltb_ge 0 _)).
    - pose proof (pages_contiguous freeMap mem n p0 _ Hwf Hv Hmem (conj Hn0 Hn) Hp0 Ep) as Hfr. cbn [fst] in Hfr.
      destruct Hp0 as (H0 & Hmax & _). rewrite <- Hlp.
      apply (load_again f (initData h) pt p0 (inFileAddr (code h))); rewrite ?Hlp; try done. congruence. }
  cbn [rbind]. destruct (free_spec pt m1 (view freeMap)) as (m'' & Ef & _ & Hv''); [done..|].
  rewrite Hlp in Ef. eexists _, m1, mem2. split; [reflexivity|]. split; cbn [numPages pageTable]; [done..| | |].
  - intros v Hvr. destruct (lookup_lt_is_Some_2 pt (Z.to_nat (v / PageSize))) as [e He].
    { unfold PageSize in *. zify_div. lia. }
    exists (physicalPage e). pose proof (Hent _ _ He) as Ee. rewrite Z2Nat.id in Ee by (unfold PageSize in *; zify_div; lia).
    split; [rewrite He; f_equal; exact Ee|].
    rewrite (Hh2 _ _ _ He) by (unfold PageSize; zify_div; lia).
    rewrite Z2Nat.id by (unfold PageSize in *; zify_div; lia).
    rewrite (proj2 (Z.ltb_lt _ _)) by (unfold PageSize in *; zify_div; lia).
    do 2 f_equal. unfold PageSize. zify_div. lia.
  - destruct Hout as [Hlo Hout]. split; [congruence|]. intros j Hj. rewrite Hout2, Hout; done.
  - exists m''. done.
Qed.


End Proofs.

(** ** Running a loaded program *)

Lemma WriteRegister_Ok m n v : length (registers m) = 40%nat -> 0 <= n < 40 ->
  WriteRegister n v m = Ok (with_reg n v m).
Proof.
  intros Hl Hn. unfold WriteRegister. rewrite ASSERT_true by (apply andb_true_iff; rewrite Z.leb_le, Z.ltb_lt; done).
  cbn [rbind]. by apply set_reg_Ok.
Qed.

Lemma InitRegisters_spec s m : length (registers m) = 40%nat ->
  InitRegisters s m = Ok
    {| registers := <[29%nat := s32 (numPages s * PageSize - 16)]> (<[35%nat := 4]> (replicate 40 0));
       mainMemory := mainMemory m; tlb := tlb m; Machine.pageTable := Machine.pageTable m;
       pageTableSize := pageTableSize m; status := status m |}.
Proof.
  intros Hl. unfold InitRegisters.
  destruct (for_range_inv (fun i m' => length (registers m') = 40%nat /\
      m' = {| registers := registers m'; mainMemory := mainMemory m; tlb := tlb m;
              Machine.pageTable := Machine.pageTable m; pageTableSize := pageTableSize m; status := status m |} /\
      forall k, (k < Z.to_nat i)%nat -> registers m' !! k = Some 0)
    (Z.to_nat NumTotalRegs) 0 (fun i m => WriteRegister i 0 m) m) as (m1 & -> & Hl1 & E1 & Hr1).
  - split; [done|]. split; [by destruct m|]. intros k Hk. lia.
  - intros i m' Hi (Hl' & E & Hr). change (Z.of_nat (Z.to_nat NumTotalRegs)) with 40 in Hi.
    rewrite WriteRegister_Ok by (done || lia). eexists. split; [reflexivity|]. unfold with_reg. cbn [registers].
    split; [by rewrite length_insert|]. split; [by rewrite E|]. intros k Hk.
    destruct (decide (k = Z.to_nat i)) as [->|Hne]; [apply list_lookup_insert_eq; lia|].
    rewrite list_lookup_insert_ne by done. apply Hr. lia.
  - assert (registers m1 = replicate 40 0) as Er.
    { apply list_eq_same_length with 40%nat; [by rewrite length_replicate|done|].
      intros k x y Hk Hx Hy. rewrite Hr1 in Hx by (change (Z.to_nat (0 + _)) with 40%nat; done).
      apply lookup_replicate in Hy as [-> _]. congruence. }
    cbn [rbind]. rewrite WriteRegister_Ok by done. cbn [rbind].
    rewrite WriteRegister_Ok by (unfold with_reg; cbn [registers]; rewrite ?length_insert; done). cbn [rbind].
    rewrite WriteRegister_Ok by (unfold with_reg; cbn [registers]; rewrite ?length_insert; done).
    unfold with_reg. cbn [registers mainMemory tlb Machine.pageTable pageTableSize status]. rewrite Er.
    rewrite E1. reflexivity.
Qed.

(** C27: A loaded program starts in a well-formed machine: [Execute] makes the
    page table of the address space current and sets all registers to zero,
    except for the program counters, at 0 and 4, and the stack pointer, 16 bytes
    below the end of the address space; so every instruction it executes is
    safe. *)
Theorem execute_starts s m :
  length (registers m) = 40%nat -> memory_ok (mainMemory m) -> tlb m = None ->
  Z.of_nat (length (pageTable s)) = numPages s -> 0 <= numPages s <= NumPhysPages ->
  exists m', Execute s m = Ok m' /\ machine_ok m' /\ mainMemory m' = mainMemory m /\
    Machine.pageTable m' = Some (pageTable s) /\
    reg PCReg m' = Ok 0 /\ reg NextPCReg m' = Ok 4 /\
    reg StackReg m' = Ok (numPages s * PageSize - 16).
Proof.
  intros Hl Hmem Htlb Hp Hn. unfold Execute. rewrite InitRegisters_spec by done. cbn [rbind].
  eexists. split; [reflexivity|]. unfold RestoreState. cbn [registers mainMemory tlb Machine.pageTable].
  unfold NumPhysPages, PageSize in *. rewrite s32_id by zlia. split; [|done].
  split; [|split; [done|]].
  - split; [done|]. split; [|split; [done|by exists 0]].
    apply Forall_insert; [apply Forall_insert; [by apply Forall_replicate|done]|zlia].
  - split; [done|]. by exists (pageTable s).
Qed.


(** ** Two programs *)

(** A file with a page of code (all ones) and a page of data (all twos). *)
Definition sample_file (data : Segment) : list Z :=
  le_bytes 4 NOFFMAGIC ++ segment_bytes (mkSegment 0 52 128) ++ segment_bytes data ++
  segment_bytes (mkSegment 0 0 0) ++ segment_bytes (mkSegment 0 0 0) ++
  replicate 128 1 ++ replicate 128 2.

(** All frames are free but frame 1. *)
Definition one_taken : Bitmap.bitmap := Bitmap.mkBitmap 128 4 [2; 0; 0; 0].

Lemma one_taken_wf : Bitmap.wf one_taken.
Proof. split; [done|]. split; [done|]. split; [done|]. by repeat constructor. Qed.

Definition empty_memory : list Z := calloc (Z.to_nat MemorySize).

Lemma sample_run :
  match AddrSpace_init (calloc 52) (sample_file (mkSegment 0 0 0)) one_taken empty_memory with
  | Ok (s, _, mem') => frames (pageTable s) = [0; 2; 3; 4; 5; 6; 7; 8; 9] /\ mem' !! 256%nat = Some 2
  | Err _ => False
  end.
Proof. vm_compute. split; reflexivity. Qed.

Lemma sample_data_run :
  match AddrSpace_init (calloc 52) (sample_file (mkSegment 128 180 128)) one_taken empty_memory with
  | Ok (s, _, mem') => bool_decide (1 ∉ frames (pageTable s)) = true /\ slice 128 128 mem' = replicate 128 2
  | Err _ => False
  end.
Proof. vm_compute. split; reflexivity. Qed.



Lemma execute_starts_witness :
  exists m', Execute (mkAddrSpace [mkEntry 0 5 true false false false] 1) Machine.Machine = Ok m' /\
    machine_ok m' /\ reg StackReg m' = Ok 112.
Proof.
  destruct (execute_starts (mkAddrSpace [mkEntry 0 5 true false false false] 1) Machine.Machine)
    as (m' & E & Hok & _ & _ & _ & _ & Hs).
  - done.
  - split; [apply length_replicate|]. by apply Forall_replicate.
  - done.
  - done.
  - done.
  - exists m'. exact (conj E (conj Hok Hs)).
Defined.


End AddrSpace.
