(* ===== verification/STable.v ===== *)
(** * Named semaphores of user programs

    threads/stable.cc and threads/sem.cc: the table behind the system calls
    CreateSemaphore, Wait and Signal.  The semaphores are those of Threads.v;
    the one in slot [i] is [Named i].  [Wait] and [Signal] end in a call of
    [Semaphore::P] or [V] by the current thread, which is their result here. *)

From S2P Require Import Prelude Ints CString Bitmap Threads.

Module STable.

Definition MAX_SEMAPHORE : Z := 10.

(** [Sem]: the name, in a buffer of 50 bytes, and the semaphore. *)
Record Sem := mkSem { name : list Z; sem : Threads.sid }.

Definition name_size : nat := 50.

Record STable := mkSTable {
  bm : Bitmap.bitmap;
  semTab : list (option Sem)
}.

(** [strcpy(dst, src)]: the characters of [src] and the zero replace the
    beginning of the buffer. *)
Definition strcpy (dst src : list Z) : res (list Z) :=
  let* s := c_str src in
  if (length s <? length dst)%nat then Ok (memcpy dst 0 (s ++ [0])) else Err OutOfBounds.

(** [new Sem(na, i)], where the new semaphore is [Named id]; [garbage] is the
    memory of the buffer. *)
Definition Sem_init (garbage na : list Z) (i : Z) (id : Z) (st : Threads.state)
  : res (Sem * Threads.state) :=
  let* nm := strcpy garbage na in
  let s := Threads.Named (Z.to_nat id) in
  Ok (mkSem nm s,
      Threads.set_sems (<[s := Threads.mkSemaphore i []]> (Threads.sems st)) st).

(** The constructor. *)
Definition STable_init (garbage : list Z) : res STable :=
  let* b := Bitmap.Bitmap garbage MAX_SEMAPHORE in
  Ok (mkSTable b (replicate (Z.to_nat MAX_SEMAPHORE) None)).

Definition FindFreeSlot (t : STable) : res (Z * STable) :=
  let2* (id, b) := Bitmap.FindAndSet (bm t) in
  Ok (id, mkSTable b (semTab t)).

(** The search for a name that [Create], [Wait] and [Signal] share: the slots in
    use, in order, up to the first whose name is equal. *)
Definition find_name (nm : list Z) (t : STable) : res (option Z) :=
  let* r := for_break (Z.to_nat MAX_SEMAPHORE) 0
    (fun i (_ : unit) =>
       let* used := Bitmap.Test i (bm t) in
       if used : bool then
         let* o := arr_get (semTab t) i in
         let* s := deref o in
         let* c := strcmp nm (name s) in
         Ok (if c =? 0 then inr i else inl tt)
       else Ok (inl tt)) tt in
  Ok (match r with inr i => Some i | inl _ => None end).

Definition Create (garbage nm : list Z) (init : Z) (t : STable) (st : Threads.state)
  : res (Z * STable * Threads.state) :=
  let* found := find_name nm t in
  match found with
  | Some _ => Ok (-1, t, st)
  | None =>
      let2* (id, t) := FindFreeSlot t in
      if id <? 0 then Ok (-1, t, st)
      else
        let2* (s, st) := Sem_init garbage nm init id st in
        let* tab := arr_set (semTab t) id (Some s) in
        Ok (0, mkSTable (bm t) tab, st)
  end.

(** [Sem::wait] and [Sem::signal] *)
Definition wait (s : Sem) : Threads.call := Threads.CallP (sem s).
Definition signal (s : Sem) : Threads.call := Threads.CallV (sem s).

Definition Wait (nm : list Z) (t : STable) : res (Z * option Threads.call) :=
  let* found := find_name nm t in
  match found with
  | Some i =>
      let* o := arr_get (semTab t) i in
      let* s := deref o in
      Ok (0, Some (wait s))
  | None => Ok (-1, None)
  end.

Definition Signal (nm : list Z) (t : STable) : res (Z * option Threads.call) :=
  let* found := find_name nm t in
  match found with
  | Some i =>
      let* o := arr_get (semTab t) i in
      let* s := deref o in
      Ok (0, Some (signal s))
  | None => Ok (-1, None)
  end.

(** ** The table as a map from names to semaphores *)

(** What slot [i] holds. *)
Definition slot (t : STable) (i : nat) : option (list Z * Threads.sid) :=
  s ← mjoin (semTab t !! i);
  match c_str (name s) with Ok n => Some (n, sem s) | Err _ => None end.

Definition slots (t : STable) : list (list Z * Threads.sid) := omap (slot t) (seq 0 10).

Definition names (t : STable) : gmap (list Z) Threads.sid := list_to_map (slots t).

(** Slot [i] is marked exactly if it holds a semaphore, with a proper name; the
    names are distinct. *)
Definition wf (t : STable) : Prop :=
  Bitmap.wf (bm t) /\ Bitmap.numBits (bm t) = MAX_SEMAPHORE /\
  length (semTab t) = 10%nat /\
  (forall i, (i < 10)%nat -> Bitmap.bits (bm t) !! i = Some (bool_decide (is_Some (slot t i)))) /\
  (forall i s, semTab t !! i = Some (Some s) ->
     sem s = Threads.Named i /\ exists n, c_str (name s) = Ok n) /\
  NoDup (slots t).*1.

Lemma slot_Some t i n s : wf t -> (i < 10)%nat ->
  slot t i = Some (n, s) <->
    exists x, semTab t !! i = Some (Some x) /\ c_str (name x) = Ok n /\ sem x = s.
Proof.
  intros (_ & _ & Hl & _ & Hx & _) Hi. unfold slot.
  destruct (lookup_lt_is_Some_2 (semTab t) i) as [o Ho]; [lia|]. rewrite Ho. cbn.
  destruct o as [x|]; cbn.
  - destruct (Hx i x Ho) as [_ [m Hm]]. rewrite Hm. split.
    + intros [= <- <-]. by exists x.
    + intros (y & [= <-] & E & <-). congruence.
  - split; [done|]. by intros (x & [=] & _).
Qed.

(** The search finds the slot of the name. *)
Lemma find_name_spec nm k t : wf t -> c_str nm = Ok k ->
  (exists i x, find_name nm t = Ok (Some (Z.of_nat i)) /\ (i < 10)%nat /\
     semTab t !! i = Some (Some x) /\ slot t i = Some (k, sem x)) \/
  (find_name nm t = Ok None /\ forall i s, (i < 10)%nat -> slot t i <> Some (k, s)).
Proof.
  intros Hwf Hk. pose proof Hwf as (Hb & Hn & Hl & Hbits & Hx & _). unfold find_name.
  rewrite (for_break_first (fun i => match slot t (Z.to_nat i) with
    | Some (n, _) => if decide (n = k) then Some i else None | None => None end)).
  2: { intros i Hi. change (Z.of_nat (Z.to_nat MAX_SEMAPHORE)) with 10 in Hi.
    rewrite Bitmap.Test_bit by (done || rewrite Hn; unfold MAX_SEMAPHORE; lia). cbn [rbind].
    assert (Bitmap.bit (bm t) i = bool_decide (is_Some (slot t (Z.to_nat i)))) as ->.
    { specialize (Hbits (Z.to_nat i) ltac:(lia)). rewrite Bitmap.bits_lookup in Hbits by (rewrite Hn; unfold MAX_SEMAPHORE; lia).
      congruence. }
    destruct (slot t (Z.to_nat i)) as [[n s]|] eqn:Es; [|done].
    rewrite bool_decide_true by done. apply slot_Some in Es as (x & Hxi & En & _); [|done|lia].
    rewrite (arr_get_lookup _ _ (Some x)) by (done || lia). cbn [rbind deref].
    destruct (strcmp_spec nm (name x) k n Hk En) as (c & -> & Hc). cbn [rbind].
    destruct (Z.eqb_spec c 0) as [E|E].
    - by rewrite decide_True by (symmetry; by apply Hc).
    - rewrite decide_False; [done|]. intros ->. by apply E, Hc. }
  destruct (first_in _ _ _) as [i|] eqn:E; cbn [rbind].
  - left. apply first_in_Some in E as (j & Hj & Hp & _).
    change (Z.of_nat (Z.to_nat MAX_SEMAPHORE)) with 10 in Hj.
    destruct (slot t (Z.to_nat j)) as [[n s]|] eqn:Es; [|done]. case_decide as En; [|done].
    injection Hp as <-. subst n. pose proof Es as Es'. apply slot_Some in Es as (x & Hxi & Ex & <-); [|done|lia].
    exists (Z.to_nat j), x. rewrite Z2Nat.id by lia. split; [done|]. split; [lia|]. done.
  - right. split; [done|]. rewrite first_in_None in E. intros i s Hi Es.
    specialize (E (Z.of_nat i) ltac:(change (Z.of_nat (Z.to_nat MAX_SEMAPHORE)) with 10; lia)).
    rewrite Nat2Z.id, Es, decide_True in E by done. done.
Qed.

Lemma names_Some t k s : wf t ->
  names t !! k = Some s <-> exists i, (i < 10)%nat /\ slot t i = Some (k, s).
Proof.
  intros (_ & _ & _ & _ & _ & Hnd). unfold names. rewrite <- elem_of_list_to_map by done.
  unfold slots. rewrite list_elem_of_omap. split.
  - intros (i & Hi & E). apply elem_of_seq in Hi. exists i. split; [lia|done].
  - intros (i & Hi & E). exists i. split; [apply elem_of_seq; lia|done].
Qed.

Lemma names_None t k : wf t -> (forall i s, (i < 10)%nat -> slot t i <> Some (k, s)) -> names t !! k = None.
Proof.
  intros Hwf Hno. destruct (names t !! k) as [s|] eqn:E; [|done].
  apply names_Some in E as (i & Hi & E); [|done]. by destruct (Hno i s Hi).
Qed.

Lemma slots_split f (id : nat) : (id < 10)%nat ->
  omap f (seq 0 10) = omap f (seq 0 id) ++ option_list (f id) ++ omap f (seq (S id) (9 - id)) :> list (list Z * Threads.sid).
Proof.
  intros Hid. replace 10%nat with (id + S (9 - id))%nat by lia. rewrite seq_app, omap_app. f_equal.
  cbn [seq omap list_omap Nat.add]. by destruct (f id).
Qed.

Lemma omap_ext_seq (f g : nat -> option (list Z * Threads.sid)) (l : list nat) :
  (forall i, i ∈ l -> f i = g i) -> omap f l = omap g l.
Proof.
  induction l as [|i l IH]; intros H; [done|]. cbn. rewrite (H i) by (by left).
  rewrite IH; [done|]. intros j Hj. apply H. by right.
Qed.

Lemma size_names t : wf t -> size (names t) = length (slots t).
Proof. intros (_ & _ & _ & _ & _ & Hnd). unfold names. by rewrite map_size_list_to_map. Qed.

Lemma slots_full t : wf t ->
  (first_clear (Bitmap.bits (bm t)) = -1 <-> size (names t) = 10%nat) /\
  (first_clear (Bitmap.bits (bm t)) <> -1 ->
     exists i, first_clear (Bitmap.bits (bm t)) = Z.of_nat i /\ (i < 10)%nat /\ slot t i = None).
Proof.
  intros Hwf. rewrite size_names by done. pose proof Hwf as (Hb & Hn & Hl & Hbits & _).
  pose proof (Bitmap.length_bits _ Hb) as Hlb. rewrite Hn in Hlb. unfold MAX_SEMAPHORE in Hlb.
  unfold first_clear. destruct (list_find _ (Bitmap.bits (bm t))) as [[i b]|] eqn:E.
  - apply list_find_Some in E as (Hi & -> & _). assert (i < 10)%nat as Hlt by (apply lookup_lt_Some in Hi; lia).
    rewrite Hbits in Hi by done. injection Hi as Hi. apply bool_decide_eq_false in Hi.
    assert (slot t i = None) as Hs by (by apply eq_None_not_Some). split; [|intros _; by exists i].
    split; [lia|]. unfold slots. rewrite (slots_split _ i Hlt), Hs. cbn [option_list app].
    rewrite length_app. intros Hfull. exfalso. change (option_list None ++ ?x) with x in Hfull.
    assert (forall l : list nat, length (omap (slot t) l) <= length l)%nat as Hle.
    { induction l as [|x l IH]; [done|]. cbn. destruct (slot t x); cbn; lia. }
    pose proof (Hle (seq 0 i)) as H1. pose proof (Hle (seq (S i) (9 - i))) as H2.
    rewrite length_seq in H1, H2. lia.
  - split; [|done]. split; [|done]. intros _. apply list_find_None in E.
    assert (forall i, (i < 10)%nat -> is_Some (slot t i)) as Hall.
    { intros i Hi. specialize (Hbits i Hi). eapply Forall_lookup_1 in E; [|exact Hbits].
      case_bool_decide; [done|]. by destruct E. }
    unfold slots. assert (forall l : list nat, (forall i, i ∈ l -> is_Some (slot t i)) -> length (omap (slot t) l) = length l) as Hlen.
    { induction l as [|x l IH]; intros H; [done|]. cbn. destruct (H x) as [y ->]; [by left|]. cbn. f_equal.
      apply IH. intros i Hi. apply H. by right. }
    rewrite Hlen; [done|]. intros i Hi. apply Hall. apply elem_of_seq in Hi. lia.
Qed.

Lemma strcpy_spec dst src k : c_str src = Ok k -> (length k < length dst)%nat ->
  exists buf, strcpy dst src = Ok buf /\ c_str buf = Ok k.
Proof.
  intros Hk Hl. unfold strcpy. rewrite Hk. cbn [rbind]. rewrite (proj2 (Nat.ltb_lt _ _)) by done.
  eexists. split; [reflexivity|]. rewrite memcpy_prefix, <- app_assoc.
  assert (forall src k r, c_str src = Ok k -> c_str (k ++ 0 :: r) = Ok k) as H; [|by apply (H src)].
  clear. induction src as [|c src IH]; intros k r Hk; [done|]. cbn in Hk.
  destruct (Z.eqb_spec c 0); [by injection Hk as <-|].
  apply bind_Ok_inv in Hk as (k' & Hk & [= <-]). cbn. rewrite (proj2 (Z.eqb_neq c 0)), (IH _ _ Hk) by done. done.
Qed.

(** Filling a free slot. *)
Lemma fill_slot t b id x k :
  wf t -> (id < 10)%nat -> slot t id = None -> c_str (name x) = Ok k -> sem x = Threads.Named id ->
  (forall i s, (i < 10)%nat -> slot t i <> Some (k, s)) ->
  Bitmap.wf b -> Bitmap.numBits b = MAX_SEMAPHORE -> Bitmap.bits b = <[id := true]> (Bitmap.bits (bm t)) ->
  let t' := mkSTable b (<[id := Some x]> (semTab t)) in
  wf t' /\ names t' = <[k := Threads.Named id]> (names t).
Proof.
  intros Hwf Hid Hs Hk Hsem Hno Hb Hn Hbits t'. pose proof Hwf as (_ & _ & Hl & Hbits0 & Hx & Hnd).
  assert (length (Bitmap.bits (bm t)) = 10%nat) as Hlb.
  { destruct Hwf as (Hb0 & Hn0 & _). pose proof (Bitmap.length_bits _ Hb0) as E. rewrite Hn0 in E. unfold MAX_SEMAPHORE in E. lia. }
  assert (forall i, i <> id -> slot t' i = slot t i) as Hsame.
  { intros i Hi. unfold slot, t'. cbn [semTab]. by rewrite list_lookup_insert_ne. }
  assert (slot t' id = Some (k, Threads.Named id)) as Hnew.
  { unfold slot, t'. cbn [semTab]. rewrite list_lookup_insert_eq by lia. cbn. by rewrite Hk, Hsem. }
  assert (slots t' ≡ₚ (k, Threads.Named id) :: slots t) as HP.
  { unfold slots. rewrite (slots_split (slot t') id Hid), (slots_split (slot t) id Hid), Hnew, Hs. cbn [option_list app].
    rewrite (omap_ext_seq (slot t') (slot t) (seq 0 id)) by (intros i Hi; apply elem_of_seq in Hi; apply Hsame; lia).
    rewrite (omap_ext_seq (slot t') (slot t) (seq (S id) _)) by (intros i Hi; apply elem_of_seq in Hi; apply Hsame; lia).
    symmetry. apply Permutation_middle. }
  assert (k ∉ (slots t).*1) as Hkn.
  { intros Hin. apply list_elem_of_fmap in Hin as ([k' s'] & -> & Hin). unfold slots in Hin.
    apply list_elem_of_omap in Hin as (i & Hi & E). apply elem_of_seq in Hi. by destruct (Hno i s' ltac:(lia)). }
  assert (NoDup (slots t').*1) as Hnd' by (rewrite HP; by apply NoDup_cons).
  split.
  - split; [done|]. split; [done|]. split; [unfold t'; cbn; by rewrite length_insert|]. split; [|split; [|done]].
    + intros i Hi. unfold t' at 1. cbn [bm]. rewrite Hbits. destruct (decide (i = id)) as [->|Hne].
      * rewrite list_lookup_insert_eq by lia. by rewrite Hnew.
      * rewrite list_lookup_insert_ne by done. rewrite Hsame by done. by apply Hbits0.
    + intros i y Hi. unfold t' in Hi. cbn [semTab] in Hi. destruct (decide (i = id)) as [->|Hne].
      * rewrite list_lookup_insert_eq in Hi by lia. injection Hi as <-. by eauto.
      * rewrite list_lookup_insert_ne in Hi by done. by apply Hx.
  - unfold names. by rewrite (list_to_map_proper _ _ Hnd' HP).
Qed.


(** A new table is empty. *)
Lemma STable_init_spec garbage : (0 < length garbage)%nat ->
  exists t, STable_init garbage = Ok t /\ wf t /\ names t = ∅.
Proof.
  intros Hg. unfold STable_init.
  destruct (Bitmap.Bitmap_fresh garbage MAX_SEMAPHORE) as (b & -> & Hb & Hn & Hv); [done| |].
  { change (divRoundUp MAX_SEMAPHORE 32) with 1. lia. }
  cbn [rbind]. eexists. split; [reflexivity|].
  assert (forall i, slot (mkSTable b (replicate (Z.to_nat MAX_SEMAPHORE) None)) i = None) as Hs.
  { intros i. unfold slot. cbn [semTab]. destruct (replicate _ _ !! i) as [o|] eqn:E; [|done].
    apply lookup_replicate in E as [-> _]. done. }
  assert (slots (mkSTable b (replicate (Z.to_nat MAX_SEMAPHORE) None)) = []) as Hnil.
  { unfold slots. rewrite (omap_ext_seq _ (fun _ => None)) by (intros i _; apply Hs). done. }
  split; [|unfold names; by rewrite Hnil]. split; [done|]. split; [done|]. split; [done|].
  split; [|split].
  - intros i Hi. rewrite Hs, bool_decide_false by (by intros []). cbn [bm]. rewrite Hv.
    by apply lookup_replicate_2.
  - intros i x E. cbn [semTab] in E. apply lookup_replicate in E as [? _]. done.
  - rewrite Hnil. constructor.
Qed.

Definition no_threads : Threads.state :=
  Threads.mkState 0%nat None [] None ∅ ∅ ∅ ∅ 0%nat 1%nat.


End STable.
