(* ===== verification/FileTable.v ===== *)
(** * File descriptors of processes

    filesys/filetable.h and the FILESYS_STUB versions of [OpenFile]
    (filesys/openfile.h) and [FileSystem] (filesys/filesys.h, filesys.cc), on
    which the system calls for files run.  The files themselves are those of
    the UNIX host: the class [Unix] has the host's calls, [UnixLaws] what is
    documented of them. *)

From S2P Require Import Prelude Ints.

(** ** The host *)

Inductive open_flag := O_RDWR | O_RDONLY | O_CREAT.

Class Unix (H : Type) := {
  unix_open : open_flag -> list Z -> H -> Z * H;   (* a descriptor, negative on error *)
  unix_close : Z -> H -> H;
  unix_unlink : list Z -> H -> Z * H;
  unix_pread : Z -> Z -> Z -> H -> list Z;          (* descriptor, offset, number *)
  unix_pwrite : Z -> Z -> list Z -> H -> H;         (* descriptor, offset, bytes *)
  unix_end : Z -> H -> Z                            (* lseek(fd, 0, SEEK_END) *)
}.

(** A file after writing [bs] at offset [off]: a gap is filled with zeros. *)
Definition overwrite (c : list Z) (off : Z) (bs : list Z) : list Z :=
  let n := Z.to_nat off in
  take n (c ++ replicate (n - length c) 0) ++ bs ++ drop (n + length bs) c.

(** [data h fd] are the contents of the file open as [fd]. *)
Class UnixLaws (H : Type) `{Unix H} := {
  data : H -> Z -> option (list Z);
  unix_pread_law : forall h fd c off n, data h fd = Some c -> 0 <= off -> 0 <= n ->
    unix_pread fd off n h = slice (Z.to_nat off) (Z.to_nat n) c;
  unix_pwrite_law : forall h fd c off bs, data h fd = Some c -> 0 <= off ->
    data (unix_pwrite fd off bs h) fd = Some (overwrite c off bs);
  unix_end_law : forall h fd c, data h fd = Some c -> unix_end fd h = Z.of_nat (length c)
}.

Module FileTable.

Definition FILE_MAX : Z := 10.
Definition CONSOLE_IN : Z := 0.
Definition CONSOLE_OUT : Z := 1.
Definition MODE_READWRITE : Z := 0.
Definition MODE_READ : Z := 1.
Definition MODE_WRITE : Z := 2.
Definition MAX_PROCESS : Z := 10.

(** [OpenFile] of the stub *)
Record OpenFile := mkOpen { file : Z; currentOffset : Z }.

Record FileTable := mkTable {
  openFile : list (option OpenFile);
  fileOpenMode : list Z
}.

(** The constructor; the arrays are as the heap leaves them. *)
Definition FileTable_init (ptrs : list (option OpenFile)) (modes : list Z) : res FileTable :=
  let* modes := arr_set modes CONSOLE_IN MODE_READ in
  let* modes := arr_set modes CONSOLE_OUT MODE_WRITE in
  Ok (mkTable ptrs modes).

Section FileTable.
Context {H : Type} `{Unix H}.

(** [OpenFile::ReadAt] and [WriteAt], with [Lseek] and [ReadPartial], [WriteFile]
    of lib/sysdep.cc. *)
Definition ReadAt (numBytes position : Z) (o : OpenFile) (h : H) : res (list Z) :=
  ASSERT (0 <=? position) ;;;
  Ok (unix_pread (file o) position numBytes h).

Definition WriteAt (from : list Z) (position : Z) (o : OpenFile) (h : H) : res H :=
  ASSERT (0 <=? position) ;;;
  Ok (unix_pwrite (file o) position from h).

Definition OpenFile_Read (numBytes : Z) (o : OpenFile) (h : H) : res (list Z * OpenFile) :=
  let* bs := ReadAt numBytes (currentOffset o) o h in
  Ok (bs, mkOpen (file o) (s32 (currentOffset o + Z.of_nat (length bs)))).

Definition OpenFile_Write (from : list Z) (o : OpenFile) (h : H) : res (Z * OpenFile * H) :=
  let* h := WriteAt from (currentOffset o) o h in
  let n := Z.of_nat (length from) in
  Ok (n, mkOpen (file o) (s32 (currentOffset o + n)), h).

Definition Length (o : OpenFile) (h : H) : Z := unix_end (file o) h.

Definition OpenFile_Seek (position : Z) (o : OpenFile) : Z * OpenFile :=
  (position, mkOpen (file o) position).

(** [Insert] *)
Definition free_index (t : FileTable) : res Z :=
  let* r := for_break (Z.to_nat (FILE_MAX - 2)) 2
    (fun i (_ : unit) =>
       let* p := arr_get (openFile t) i in
       Ok (match p with None => inr i | Some _ => inl tt end)) tt in
  Ok (match r with inr i => i | inl _ => -1 end).

Definition Insert (fileName : list Z) (openMode : Z) (t : FileTable) (h : H)
  : res (Z * FileTable * H) :=
  let* freeIndex := free_index t in
  if freeIndex =? -1 then Ok (-1, t, h)
  else
    let '(fileDescriptor, h) :=
      if openMode =? MODE_READWRITE then unix_open O_RDWR fileName h else (-1, h) in
    let '(fileDescriptor, h) :=
      if openMode =? MODE_READ then unix_open O_RDONLY fileName h else (fileDescriptor, h) in
    if fileDescriptor =? -1 then Ok (-1, t, h)
    else
      let* fs := arr_set (openFile t) freeIndex (Some (mkOpen fileDescriptor 0)) in
      let* ms := arr_set (fileOpenMode t) freeIndex openMode in
      Ok (freeIndex, mkTable fs ms, h).

Definition Remove (index : Z) (t : FileTable) (h : H) : res (Z * FileTable * H) :=
  if (index <? 2) || (FILE_MAX <=? index) then Ok (-1, t, h)
  else
    let* p := arr_get (openFile t) index in
    match p with
    | Some o =>
        let h := unix_close (file o) h in
        let* fs := arr_set (openFile t) index None in
        Ok (0, mkTable fs (fileOpenMode t), h)
    | None => Ok (-1, t, h)
    end.

(** [Read]: the bytes stored in the buffer, and the result. *)
Definition Read (charCount index : Z) (t : FileTable) (h : H) : res (list Z * Z * FileTable) :=
  if FILE_MAX <=? index then Ok ([], -1, t)
  else
    let* p := arr_get (openFile t) index in
    match p with
    | None => Ok ([], -1, t)
    | Some o =>
        let2* (bs, o) := OpenFile_Read charCount o h in
        let* fs := arr_set (openFile t) index (Some o) in
        let result := Z.of_nat (length bs) in
        Ok (bs, if negb (result =? charCount) then -2 else result, mkTable fs (fileOpenMode t))
    end.

Definition Write (buffer : list Z) (index : Z) (t : FileTable) (h : H) : res (Z * FileTable * H) :=
  if FILE_MAX <=? index then Ok (-1, t, h)
  else
    let* p := arr_get (openFile t) index in
    match p with
    | None => Ok (-1, t, h)
    | Some o =>
        let* mode := arr_get (fileOpenMode t) index in
        if mode =? MODE_READ then Ok (-1, t, h)
        else
          let3* (n, o, h) := OpenFile_Write buffer o h in
          let* fs := arr_set (openFile t) index (Some o) in
          Ok (n, mkTable fs (fileOpenMode t), h)
    end.

Definition Seek (pos index : Z) (t : FileTable) (h : H) : res (Z * FileTable) :=
  if (index <=? 1) || (FILE_MAX <=? index) then Ok (-1, t)
  else
    let* p := arr_get (openFile t) index in
    match p with
    | None => Ok (-1, t)
    | Some o =>
        let pos := if pos =? -1 then Length o h else pos in
        if (pos <? 0) || (Length o h <? pos) then Ok (-1, t)
        else
          let '(r, o) := OpenFile_Seek pos o in
          let* fs := arr_set (openFile t) index (Some o) in
          Ok (r, mkTable fs (fileOpenMode t))
    end.

(** ** The file system of the stub: a table for each process *)

Definition FileSystem : Type := list FileTable.

(** [fileTable[FileTableIndex()]->op(...)] for the process [pid]. *)
Definition with_table {R} (pid : Z) (op : FileTable -> H -> res (R * FileTable * H))
    (fs : FileSystem) (h : H) : res (R * FileSystem * H) :=
  let* t := arr_get fs pid in
  let3* (r, t, h) := op t h in
  let* fs := arr_set fs pid t in
  Ok (r, fs, h).

Definition fs_Open (pid : Z) (name : list Z) (openMode : Z) :=
  with_table pid (Insert name openMode).

Definition fs_Close (pid id : Z) := with_table pid (Remove id).

Definition fs_Write (pid : Z) (buffer : list Z) (id : Z) := with_table pid (Write buffer id).

Definition fs_Read (pid charCount id : Z) :=
  with_table pid (fun t h => let3* (bs, r, t) := Read charCount id t h in Ok ((bs, r), t, h)).

Definition fs_Seek (pid position id : Z) :=
  with_table pid (fun t h => let2* (r, t) := Seek position id t h in Ok (r, t, h)).

(** [Create]: inside the class, [Close] is the member function, which takes an
    index of the file table. *)
Definition fs_Create (pid : Z) (name : list Z) (fs : FileSystem) (h : H) : res (bool * FileSystem * H) :=
  let '(fileDescriptor, h) := unix_open O_CREAT name h in
  ASSERT (0 <=? fileDescriptor) ;;;
  if fileDescriptor =? -1 then Ok (false, fs, h)
  else
    let3* (_, fs, h) := fs_Close pid fileDescriptor fs h in
    Ok (true, fs, h).

(** [Renew] closes the files of a process. *)
Definition Renew (id : Z) (fs : FileSystem) (h : H) : res (FileSystem * H) :=
  for_range (Z.to_nat FILE_MAX) 0
    (fun i st => let '(fs, h) := st in let3* (_, fs, h) := fs_Close id i fs h in Ok (fs, h)) (fs, h).

(** [Remove], by name *)
Definition fs_Remove (name : list Z) (h : H) : bool * H :=
  let '(r, h) := unix_unlink name h in
  (r =? 0, h).

End FileTable.

(** ** Descriptors *)

Definition wf (t : FileTable) : Prop := length (openFile t) = 10%nat /\ length (fileOpenMode t) = 10%nat.

(** The table with slot [i] replaced. *)
Definition put_slot (i : Z) (o : option OpenFile) (mode : Z) (t : FileTable) : FileTable :=
  mkTable (<[Z.to_nat i := o]> (openFile t)) (<[Z.to_nat i := mode]> (fileOpenMode t)).

Section Proofs.
Context {H : Type} `{Unix H}.

Lemma get_slot t i : wf t -> 0 <= i < 10 -> exists p, arr_get (openFile t) i = Ok p /\ openFile t !! Z.to_nat i = Some p.
Proof.
  intros [Hl _] Hi. destruct (lookup_lt_is_Some_2 (openFile t) (Z.to_nat i)) as [p Hp]; [lia|].
  exists p. split; [apply arr_get_lookup; [lia|done]|done].
Qed.

Lemma free_index_spec t : wf t ->
  (exists i, free_index t = Ok i /\ 2 <= i < 10 /\ openFile t !! Z.to_nat i = Some None /\
     forall j, 2 <= j < i -> exists o, openFile t !! Z.to_nat j = Some (Some o)) \/
  (free_index t = Ok (-1) /\ forall j, 2 <= j < 10 -> exists o, openFile t !! Z.to_nat j = Some (Some o)).
Proof.
  intros Hwf. unfold free_index. change (Z.to_nat (FILE_MAX - 2)) with 8%nat.
  rewrite (for_break_first (fun i => match openFile t !! Z.to_nat i with Some None => Some i | _ => None end)).
  2: { intros i Hi. destruct (get_slot t i Hwf) as (p & -> & ->); [lia|]. cbn [rbind]. by destruct p. }
  destruct (first_in _ _ _) as [i|] eqn:E; cbn [rbind].
  - left. apply first_in_Some in E as (j & Hj & Hp & Hmin). exists i. split; [done|].
    destruct (openFile t !! Z.to_nat j) as [[o|]|] eqn:Ej; try done. injection Hp as <-.
    split; [lia|]. split; [done|]. intros k Hk. specialize (Hmin k ltac:(lia)).
    destruct (get_slot t k Hwf) as (p & _ & Ep); [lia|]. rewrite Ep in *. destruct p as [o|]; [by exists o|done].
  - right. split; [done|]. rewrite first_in_None in E. intros j Hj. specialize (E j ltac:(lia)).
    destruct (get_slot t j Hwf) as (p & _ & Ep); [lia|]. rewrite Ep in *. destruct p as [o|]; [by exists o|done].
Qed.

(** File descriptors.  [Open] takes the least free descriptor from 2 to 9,
    opens the UNIX file for the given mode and enters it at offset 0; it
    returns -1 and leaves the table as it is if no descriptor is free (then
    without opening the file) or the file cannot be opened.  [Close] closes the
    file and frees exactly the given descriptor, and returns -1 for the console
    and for descriptors that are not open. *)
Theorem descriptors_allocated name mode t (h : H) id :
  wf t -> mode = MODE_READWRITE \/ mode = MODE_READ ->
  let '(fd, h') := unix_open (if mode =? MODE_READ then O_RDONLY else O_RDWR) name h in
  ((forall j, 2 <= j < 10 -> exists o, openFile t !! Z.to_nat j = Some (Some o)) ->
     Insert name mode t h = Ok (-1, t, h)) /\
  (forall i, 2 <= i < 10 -> openFile t !! Z.to_nat i = Some None ->
     (forall j, 2 <= j < i -> exists o, openFile t !! Z.to_nat j = Some (Some o)) ->
     Insert name mode t h =
       Ok (if fd =? -1 then (-1, t, h') else (i, put_slot i (Some (mkOpen fd 0)) mode t, h'))) /\
  (forall o, 2 <= id < 10 -> openFile t !! Z.to_nat id = Some (Some o) ->
     Remove id t h = Ok (0, mkTable (<[Z.to_nat id := None]> (openFile t)) (fileOpenMode t),
                         unix_close (file o) h)) /\
  (id < 2 \/ 10 <= id \/ openFile t !! Z.to_nat id = Some None -> Remove id t h = Ok (-1, t, h)).
Proof.
  intros Hwf Hmode. destruct (unix_open (if mode =? MODE_READ then O_RDONLY else O_RDWR) name h) as [fd h'] eqn:Eopen.
  pose proof Hwf as [Hl1 Hl2]. unfold Insert, Remove, FILE_MAX. split_and!.
  - intros Hfull. destruct (free_index_spec t Hwf) as [(i & _ & Hi & Hnone & _)|[-> _]]; [|done].
    destruct (Hfull i Hi) as [o Ho]. congruence.
  - intros i Hi Hnone Hlow. destruct (free_index_spec t Hwf) as [(i' & -> & Hi' & Hnone' & Hlow')|[_ Hfull]].
    2: { destruct (Hfull i Hi) as [o Ho]. congruence. }
    assert (i' = i) as ->.
    { destruct (Z.lt_trichotomy i i') as [Hlt|[->|Hgt]]; [|done|].
      - destruct (Hlow' i) as [o Ho]; [lia|]. congruence.
      - destruct (Hlow i') as [o Ho]; [lia|]. congruence. }
    cbn [rbind]. rewrite (proj2 (Z.eqb_neq i (-1))) by lia.
    assert ((let '(fileDescriptor, h0) := if mode =? MODE_READWRITE then unix_open O_RDWR name h else (-1, h) in
      if mode =? MODE_READ then unix_open O_RDONLY name h0 else (fileDescriptor, h0)) = (fd, h')) as Eboth.
    { destruct Hmode as [-> | ->]; cbn in *; [|done]. by rewrite Eopen. }
    destruct (if mode =? MODE_READWRITE then _ else _) as [f0 h0]. rewrite Eboth.
    destruct (fd =? -1); [done|]. rewrite !arr_set_in_range by lia. done.
  - intros o Hid Ho. rewrite (proj2 (Z.ltb_ge id 2)), (proj2 (Z.leb_gt 10 id)) by lia. cbn [orb].
    rewrite (arr_get_lookup _ _ (Some o)) by (done || lia). cbn [rbind].
    rewrite arr_set_in_range by lia. done.
  - intros Hcase. destruct (Z.ltb_spec id 2); [done|]. destruct (Z.leb_spec 10 id); [done|]. cbn [orb].
    destruct Hcase as [|[|Hnone]]; [lia..|]. rewrite (arr_get_lookup _ _ None) by (done || lia). done.
Qed.

(** A read-only file is not written. *)
Lemma Write_readonly buffer index t (h : H) o :
  wf t -> 0 <= index < 10 -> openFile t !! Z.to_nat index = Some (Some o) ->
  fileOpenMode t !! Z.to_nat index = Some MODE_READ -> Write buffer index t h = Ok (-1, t, h).
Proof.
  intros [Hl _] Hi Ho Hm. unfold Write, FILE_MAX. rewrite (proj2 (Z.leb_gt 10 index)) by lia.
  rewrite (arr_get_lookup _ _ (Some o)) by (done || lia). cbn [rbind].
  rewrite (arr_get_lookup _ _ MODE_READ) by (done || lia). done.
Qed.

Lemma length_overwrite c off bs : 0 <= off ->
  Z.of_nat (length (overwrite c off bs)) = Z.max (Z.of_nat (length c)) (off + Z.of_nat (length bs)).
Proof.
  intros Hoff. unfold overwrite. rewrite !length_app, length_take, length_app, length_replicate, length_drop. lia.
Qed.

Lemma slice_overwrite c off bs : 0 <= off ->
  slice (Z.to_nat off) (length bs) (overwrite c off bs) = bs.
Proof.
  intros Hoff. unfold overwrite. rewrite (slice_app_skip (Z.to_nat off)).
  - rewrite Nat.sub_diag. by apply slice_app_here.
  - rewrite length_take, length_app, length_replicate. lia.
  - lia.
Qed.

(** What a process writes to a file it reads back: writing at the current
    position, seeking back and reading returns the bytes written, and the file
    has them at that position, its other bytes unchanged.  A descriptor opened
    for reading refuses the write and leaves the host alone. *)
Theorem write_seek_read `{!UnixLaws H} t (h : H) id o c bs mode :
  wf t -> 2 <= id < 10 -> openFile t !! Z.to_nat id = Some (Some o) ->
  fileOpenMode t !! Z.to_nat id = Some mode ->
  data h (file o) = Some c -> 0 <= currentOffset o ->
  currentOffset o + Z.of_nat (length bs) < 2 ^ 31 ->
  (mode = MODE_READ -> Write bs id t h = Ok (-1, t, h)) /\
  (mode <> MODE_READ ->
     let n := Z.of_nat (length bs) in
     exists t1 h1 t2 t3, Write bs id t h = Ok (n, t1, h1) /\
       data h1 (file o) = Some (overwrite c (currentOffset o) bs) /\
       Seek (currentOffset o) id t1 h1 = Ok (currentOffset o, t2) /\
       Read n id t2 h1 = Ok (bs, n, t3)).
Proof.
  intros Hwf Hid Ho Hm Hd Hpos Hov. pose proof Hwf as [Hl1 Hl2]. split.
  { intros ->. by apply (Write_readonly bs id t h o); [|lia|..]. }
  intros Hne n. unfold Write, FILE_MAX. rewrite (proj2 (Z.leb_gt 10 id)) by lia.
  rewrite (arr_get_lookup _ _ (Some o)) by (done || lia). cbn [rbind].
  rewrite (arr_get_lookup _ _ mode) by (done || lia). cbn [rbind].
  rewrite (proj2 (Z.eqb_neq mode MODE_READ)) by done.
  unfold OpenFile_Write, WriteAt. rewrite (proj2 (Z.leb_le 0 _)) by done. cbn [ASSERT rbind].
  rewrite arr_set_in_range by lia. cbn [rbind].
  pose proof (unix_pwrite_law h (file o) c (currentOffset o) bs Hd Hpos) as Hd1.
  set (h1 := unix_pwrite (file o) (currentOffset o) bs h) in *.
  pose proof (unix_end_law _ _ _ Hd1) as Hend. rewrite length_overwrite in Hend by done.
  eexists _, h1, _, _. split; [reflexivity|]. split; [done|].
  unfold Seek, FILE_MAX. rewrite (proj2 (Z.leb_gt id 1)), (proj2 (Z.leb_gt 10 id)) by lia. cbn [orb openFile fileOpenMode].
  rewrite (arr_get_lookup _ id (Some (mkOpen (file o) (s32 (currentOffset o + Z.of_nat (length bs))))))
    by (lia || apply list_lookup_insert_eq; lia). cbn [rbind].
  rewrite (proj2 (Z.eqb_neq (currentOffset o) (-1))) by lia. unfold Length. cbn [file]. rewrite Hend.
  rewrite (proj2 (Z.ltb_ge (currentOffset o) 0)), (proj2 (Z.ltb_ge _ (currentOffset o))) by lia. cbn [orb OpenFile_Seek file].
  rewrite arr_set_in_range by (rewrite length_insert; lia). cbn [rbind]. split; [reflexivity|].
  unfold Read, FILE_MAX. rewrite (proj2 (Z.leb_gt 10 id)) by lia. cbn [openFile fileOpenMode].
  rewrite (arr_get_lookup _ id (Some (mkOpen (file o) (currentOffset o))))
    by (lia || apply list_lookup_insert_eq; rewrite length_insert; lia). cbn [rbind].
  unfold OpenFile_Read, ReadAt. cbn [currentOffset file]. rewrite (proj2 (Z.leb_le 0 _)) by done. cbn [ASSERT rbind].
  rewrite (unix_pread_law h1 (file o) _ _ n Hd1) by lia. unfold n. rewrite Nat2Z.id, slice_overwrite by done.
  rewrite arr_set_in_range by (rewrite !length_insert; lia). cbn [rbind]. by rewrite Z.eqb_refl.
Qed.

(** Creating a file may close another one.  [FileSystem::Create] calls its
    own [Close], which takes an index of the file table, with the UNIX
    descriptor of the new file: the descriptor stays open, and if its number is
    that of an open file of the process, that file is closed. *)
Theorem create_closes_open_file pid name (fs : FileSystem) (h h' : H) t id o :
  fs !! Z.to_nat pid = Some t -> 0 <= pid -> wf t ->
  2 <= id < 10 -> openFile t !! Z.to_nat id = Some (Some o) ->
  unix_open O_CREAT name h = (id, h') ->
  exists fs' t', fs_Create pid name fs h = Ok (true, fs', unix_close (file o) h') /\
    fs' !! Z.to_nat pid = Some t' /\ openFile t' !! Z.to_nat id = Some None.
Proof.
  intros Ht Hp [Hl _] Hid Ho Eopen. unfold fs_Create. rewrite Eopen.
  rewrite (proj2 (Z.leb_le 0 id)), (proj2 (Z.eqb_neq id (-1))) by lia. cbn [ASSERT rbind].
  unfold fs_Close, with_table. rewrite (arr_get_lookup fs pid t) by done. cbn [rbind].
  unfold Remove, FILE_MAX. rewrite (proj2 (Z.ltb_ge id 2)), (proj2 (Z.leb_gt 10 id)) by lia. cbn [orb].
  rewrite (arr_get_lookup _ _ (Some o)) by (done || lia). cbn [rbind].
  rewrite arr_set_in_range by lia. cbn [rbind]. apply lookup_lt_Some in Ht as Hlt.
  rewrite arr_set_in_range by lia. cbn [rbind]. eexists _, _. split; [reflexivity|].
  split; [apply list_lookup_insert_eq; lia|]. cbn [openFile]. apply list_lookup_insert_eq. lia.
Qed.

End Proofs.

(** ** A host on which files are private to their descriptors *)

#[global] Instance toy_unix : Unix (gmap Z (list Z)) := {
  unix_open _ _ h := let fd := Z.of_nat (size h) + 3 in (fd, <[fd := []]> h);
  unix_close fd h := delete fd h;
  unix_unlink _ h := (-1, h);
  unix_pread fd off n h := slice (Z.to_nat off) (Z.to_nat n) (default [] (h !! fd));
  unix_pwrite fd off bs h := <[fd := overwrite (default [] (h !! fd)) off bs]> h;
  unix_end fd h := Z.of_nat (length (default [] (h !! fd)))
}.

#[global] Instance toy_laws : UnixLaws (gmap Z (list Z)).
Proof.
  refine {| data h fd := h !! fd |}.
  - intros h fd c off n Hc _ _. cbn. by rewrite Hc.
  - intros h fd c off bs Hc _. cbn. by rewrite lookup_insert_eq, Hc.
  - intros h fd c Hc. cbn. by rewrite Hc.
Defined.

(** Descriptor 3 is open, for the UNIX file 5. *)
Definition one_open : FileTable :=
  mkTable (replicate 3 None ++ [Some (mkOpen 5 2)] ++ replicate 6 None) [1; 2; 0; 0; 0; 0; 0; 0; 0; 0].

Lemma descriptors_allocated_witness :
  Insert [97; 0] 0 one_open (∅ : gmap Z (list Z)) = Ok (2, put_slot 2 (Some (mkOpen 3 0)) 0 one_open, {[ 3 := [] ]}).
Proof.
  pose proof (descriptors_allocated [97; 0] 0 one_open (∅ : gmap Z (list Z)) 3) as H.
  destruct H as (_ & H & _); [done|by left|].
  apply (H 2); [lia|done|]. intros j Hj. lia.
Defined.

Lemma write_seek_read_witness :
  let h : gmap Z (list Z) := {[ 5 := [1; 2; 3] ]} in
  exists t1 h1 t2 t3, Write [7; 8] 3 one_open h = Ok (2, t1, h1) /\
    Seek 2 3 t1 h1 = Ok (2, t2) /\ Read 2 3 t2 h1 = Ok ([7; 8], 2, t3).
Proof.
  intros h. destruct (write_seek_read one_open h 3 (mkOpen 5 2) [1; 2; 3] [7; 8] 0) as [_ H].
  - done.
  - lia.
  - done.
  - done.
  - done.
  - done.
  - cbn. lia.
  - destruct H as (t1 & h1 & t2 & t3 & E1 & _ & E2 & E3); [done|]. exists t1, h1, t2, t3.
    exact (conj E1 (conj E2 E3)).
Defined.

Lemma create_closes_open_file_witness :
  exists fs' t', fs_Create 0 [98; 0] [one_open] (∅ : gmap Z (list Z)) = Ok (true, fs', delete 5 {[ 3 := [] ]}) /\
    fs' !! 0%nat = Some t' /\ openFile t' !! 3%nat = Some None.
Proof.
  destruct (create_closes_open_file 0 [98; 0] [one_open] (∅ : gmap Z (list Z)) {[ 3 := [] ]} one_open 3 (mkOpen 5 2))
    as (fs' & t' & E & Ht & Ho).
  - done.
  - lia.
  - done.
  - lia.
  - done.
  - done.
  - exists fs', t'. exact (conj E (conj Ht Ho)).
Defined.

End FileTable.
