(* ===== verification/Coff2noff.v ===== *)
(** * The converter of object files (coff2noff/coff2noff.c)

    User programs are compiled to COFF files (coff2noff/coff.h) and converted to
    the NOFF files (coff2noff/noff.h) that the loader of AddrSpace.v reads.  The
    program is compiled for 32 bits, with [RDATA].  It maps the bytes of the
    input file to those of the output file, or ends with exit code 1, after it
    has removed the output file.  Opening the files is left out, and writing to
    the output file succeeds. *)

From S2P Require Import Prelude Ints Bitmap FileHdr Machine AddrSpace FileTable.

Module Coff2noff.

Import Machine AddrSpace.

(** ** The formats *)

Definition MIPSELMAGIC : Z := 354. (* 0x0162 *)
Definition OMAGIC : Z := 263.      (* 0407 *)

Record filehdr := mkFilehdr {
  f_magic : Z; f_nscns : Z; f_timdat : Z; f_symptr : Z; f_nsyms : Z; f_opthdr : Z; f_flags : Z
}.

(** [magic] and [vstamp]; the thirteen words behind them are not looked at. *)
Record aouthdr := mkAouthdr { magic : Z; vstamp : Z }.

Record scnhdr := mkScnhdr {
  s_name : list Z; s_paddr : Z; s_vaddr : Z; s_size : Z; s_scnptr : Z;
  s_relptr : Z; s_lnnoptr : Z; s_nreloc : Z; s_nlnno : Z; s_flags : Z
}.

Definition filehdr_size : Z := 20.
Definition aouthdr_size : Z := 56.
Definition scnhdr_size : Z := 40.

Definition short_at (bs : list Z) (off : nat) : Z := le_value (slice off 2 bs).

Definition filehdr_cast (bs : list Z) : filehdr :=
  mkFilehdr (short_at bs 0) (short_at bs 2) (FileHdr.int_at bs 4) (FileHdr.int_at bs 8) (FileHdr.int_at bs 12)
    (short_at bs 16) (short_at bs 18).

Definition aouthdr_cast (bs : list Z) : aouthdr := mkAouthdr (s16 (short_at bs 0)) (s16 (short_at bs 2)).

Definition scnhdr_cast (bs : list Z) : scnhdr :=
  mkScnhdr (slice 0 8 bs) (FileHdr.int_at bs 8) (FileHdr.int_at bs 12) (FileHdr.int_at bs 16) (FileHdr.int_at bs 20)
    (FileHdr.int_at bs 24) (FileHdr.int_at bs 28) (short_at bs 32) (short_at bs 34) (FileHdr.int_at bs 36).

(** The array [sections] after it was read. *)
Fixpoint sections_cast (n : nat) (bs : list Z) : list scnhdr :=
  match n with
  | O => []
  | S n' => scnhdr_cast (take (Z.to_nat scnhdr_size) bs) :: sections_cast n' (drop (Z.to_nat scnhdr_size) bs)
  end.

(** The bytes of a [NoffHeader]. *)
Definition noff_bytes (h : NoffHeader) : list Z :=
  le_bytes 4 (noffMagic h) ++ segment_bytes (code h) ++ segment_bytes (initData h) ++
  segment_bytes (readonlyData h) ++ segment_bytes (uninitData h).

(** ** The program *)

(** Why it ends with exit code 1. *)
Inductive failure := TooShort | NotMipsel | NotOmagic | BothBss | UnknownSegment.

Inductive exit (A : Type) := Done (a : A) | Exit1 (f : failure).
Arguments Done {A} a. Arguments Exit1 {A} f.

Definition ebind {A B} (m : exit A) (k : A -> exit B) : exit B :=
  match m with
  | Done a => k a
  | Exit1 f => Exit1 f
  end.

Notation "'do' x ':=' m 'in' k" := (ebind m (fun x => k))
  (at level 10, x pattern, m at level 200, k at level 200) : nachos_scope.

(** [Read] at the position [pos] of the input.  A negative number, as an
    unsigned one, makes the call of the host return -1. *)
Definition Read (inp : list Z) (nBytes pos : Z) : exit (list Z * Z) :=
  if nBytes <? 0 then
    if nBytes =? -1 then Done ([], pos) else Exit1 TooShort
  else
    let bs := slice (Z.to_nat pos) (Z.to_nat nBytes) inp in
    if Z.of_nat (length bs) =? nBytes then Done (bs, pos + nBytes) else Exit1 TooShort.

(** [lseek(fd, off, 0)]: a negative offset is refused. *)
Definition seek (off pos : Z) : Z := if off <? 0 then pos else off.

(** The files and the variables of the loop over the sections. *)
Record conv := mkConv {
  posIn : Z;
  out : list Z;
  posOut : Z;
  inNoffFile : Z;
  noffH : NoffHeader
}.

Definition set_noff (h : NoffHeader) (st : conv) : conv :=
  mkConv (posIn st) (out st) (posOut st) (inNoffFile st) h.

Definition set_code (s : Segment) (h : NoffHeader) : NoffHeader :=
  mkNoff (noffMagic h) s (initData h) (readonlyData h) (uninitData h).
Definition set_initData (s : Segment) (h : NoffHeader) : NoffHeader :=
  mkNoff (noffMagic h) (code h) s (readonlyData h) (uninitData h).
Definition set_readonlyData (s : Segment) (h : NoffHeader) : NoffHeader :=
  mkNoff (noffMagic h) (code h) (initData h) s (uninitData h).
Definition set_uninitData (s : Segment) (h : NoffHeader) : NoffHeader :=
  mkNoff (noffMagic h) (code h) (initData h) (readonlyData h) s.

(** A section that is copied; [set] enters the segment in the header. *)
Definition copy_section (inp : list Z) (set : Segment -> NoffHeader -> NoffHeader) (sc : scnhdr) (st : conv)
  : exit conv :=
  let h := set (mkSegment (s_paddr sc) (inNoffFile st) (s_size sc)) (noffH st) in
  let pos := seek (s_scnptr sc) (posIn st) in
  do (buffer, pos) := Read inp (s_size sc) pos in
  Done (mkConv pos (overwrite (out st) (posOut st) buffer) (posOut st + Z.of_nat (length buffer))
          (s32 (inNoffFile st + s_size sc)) h).

(** [!strcmp(sections[i].s_name, name)] for a name of at most seven
    characters. *)
Definition name_is (name : list Z) (sc : scnhdr) : bool :=
  bool_decide (take (length name + 1) (s_name sc) = name ++ [0]).

Definition text_name : list Z := [46; 116; 101; 120; 116].
Definition data_name : list Z := [46; 100; 97; 116; 97].
Definition rdata_name : list Z := [46; 114; 100; 97; 116; 97].
Definition bss_name : list Z := [46; 98; 115; 115].

(** A section of uninitialised data. *)
Definition bss_section (sc : scnhdr) (st : conv) : exit conv :=
  let u := uninitData (noffH st) in
  if negb (size u =? 0) then
    if s_paddr sc =? s32 (virtualAddr u + size u) then Exit1 BothBss
    else Done (set_noff (set_uninitData
                 (mkSegment (virtualAddr u) (inFileAddr u) (s32 (size u + s_size sc))) (noffH st)) st)
  else Done (set_noff (set_uninitData (mkSegment (s_paddr sc) (inFileAddr u) (s_size sc)) (noffH st)) st).

(** One turn of the loop that copies the segments. *)
Definition section_step (inp : list Z) (sc : scnhdr) (st : conv) : exit conv :=
  if s_size sc =? 0 then Done st
  else if name_is text_name sc then copy_section inp set_code sc st
  else if name_is data_name sc then copy_section inp set_initData sc st
  else if name_is rdata_name sc then copy_section inp set_readonlyData sc st
  else if name_is bss_name sc then bss_section sc st
  else Exit1 UnknownSegment.

Fixpoint copy_sections (inp : list Z) (scs : list scnhdr) (st : conv) : exit conv :=
  match scs with
  | [] => Done st
  | sc :: scs' => do st := section_step inp sc st in copy_sections inp scs' st
  end.

Definition clear_size (s : Segment) : Segment := mkSegment (virtualAddr s) (inFileAddr s) 0.

(** The header before the loop; [garbage] is what the variable held. *)
Definition init_header (garbage : NoffHeader) : NoffHeader :=
  mkNoff NOFFMAGIC (clear_size (code garbage)) (clear_size (initData garbage))
    (clear_size (readonlyData garbage)) (clear_size (uninitData garbage)).

(** [main]: the bytes of the output file. *)
Definition main (garbage : NoffHeader) (inp : list Z) : exit (list Z) :=
  do (bs, pos) := Read inp filehdr_size 0 in
  let fileh := filehdr_cast bs in
  if negb (f_magic fileh =? MIPSELMAGIC) then Exit1 NotMipsel
  else
    do (bs, pos) := Read inp aouthdr_size pos in
    let systemh := aouthdr_cast bs in
    if negb (magic systemh =? OMAGIC) then Exit1 NotOmagic
    else
      let numsections := f_nscns fileh in
      do (bs, pos) := Read inp (numsections * scnhdr_size) pos in
      let sections := sections_cast (Z.to_nat numsections) bs in
      do st := copy_sections inp sections (mkConv pos [] noff_size noff_size (init_header garbage)) in
      Done (overwrite (out st) 0 (noff_bytes (SwapHeader (noffH st)))).

(** ** The sections of a program *)

Inductive kind := Text | Data | Rdata | Bss.

#[global] Instance kind_eq_dec : EqDecision kind.
Proof. solve_decision. Defined.

(** The kind of a section that is not empty. *)
Definition kind_of (sc : scnhdr) : option kind :=
  if s_size sc =? 0 then None
  else if name_is text_name sc then Some Text
  else if name_is data_name sc then Some Data
  else if name_is rdata_name sc then Some Rdata
  else if name_is bss_name sc then Some Bss
  else None.

Definition contents (inp : list Z) (sc : scnhdr) : list Z :=
  slice (Z.to_nat (s_scnptr sc)) (Z.to_nat (s_size sc)) inp.

(** What a section adds to the file. *)
Definition loaded (inp : list Z) (sc : scnhdr) : list Z :=
  match kind_of sc with
  | Some Text | Some Data | Some Rdata => contents inp sc
  | _ => []
  end.

Definition body (inp : list Z) (scs : list scnhdr) : list Z := concat (map (loaded inp) scs).

(** A section the converter can handle. *)
Definition section_ok (inp : list Z) (sc : scnhdr) : Prop :=
  s_size sc = 0 \/
  (is_Some (kind_of sc) /\ 0 < s_size sc < 2 ^ 31 /\ is_s32 (s_paddr sc) /\
   (kind_of sc <> Some Bss -> 0 <= s_scnptr sc /\ s_scnptr sc + s_size sc <= Z.of_nat (length inp))).

(** The input is a COFF file with the sections [scs], at most one of each
    kind. *)
Record coff_file (inp : list Z) (scs : list scnhdr) : Prop := {
  cf_magic : f_magic (filehdr_cast (slice 0 20 inp)) = MIPSELMAGIC;
  cf_omagic : magic (aouthdr_cast (slice 20 56 inp)) = OMAGIC;
  cf_count : f_nscns (filehdr_cast (slice 0 20 inp)) = Z.of_nat (length scs);
  cf_length : (76 + 40 * length scs <= length inp)%nat;
  cf_sections : sections_cast (length scs) (slice 76 (40 * length scs) inp) = scs;
  cf_ok : Forall (section_ok inp) scs;
  cf_kinds : NoDup (omap kind_of scs);
  cf_size : noff_size + Z.of_nat (length (body inp scs)) < 2 ^ 31
}.

(** The section of a kind, and where its bytes are in the body. *)
Fixpoint locate (inp : list Z) (k : kind) (scs : list scnhdr) (off : Z) : option (scnhdr * Z) :=
  match scs with
  | [] => None
  | sc :: scs' =>
      if decide (kind_of sc = Some k) then Some (sc, off)
      else locate inp k scs' (off + Z.of_nat (length (loaded inp sc)))
  end.

Definition size_of (inp : list Z) (k : kind) (scs : list scnhdr) : Z :=
  match locate inp k scs 0 with Some (sc, _) => s_size sc | None => 0 end.

Definition segment_of (k : kind) (h : NoffHeader) : Segment :=
  match k with
  | Text => code h
  | Data => initData h
  | Rdata => readonlyData h
  | Bss => uninitData h
  end.

(** ** The header and the file *)

Definition header_s32 (h : NoffHeader) : Prop :=
  is_s32 (noffMagic h) /\ forall k, let s := segment_of k h in
    is_s32 (virtualAddr s) /\ is_s32 (inFileAddr s) /\ is_s32 (size s).

Lemma length_segment_bytes s : length (segment_bytes s) = 12%nat.
Proof. unfold segment_bytes. by rewrite !length_app, !length_le_bytes. Qed.

Lemma length_noff_bytes h : length (noff_bytes h) = 52%nat.
Proof. unfold noff_bytes. by rewrite !length_app, length_le_bytes, !length_segment_bytes. Qed.

(** What the converter writes, the loader reads. *)
Lemma noff_roundtrip h rest : header_s32 h -> noff_cast (slice 0 52 (noff_bytes h ++ rest)) = h.
Proof.
  intros [Hm Hs]. rewrite slice_app_here by apply length_noff_bytes.
  pose proof (Hs Text) as (? & ? & ?). pose proof (Hs Data) as (? & ? & ?).
  pose proof (Hs Rdata) as (? & ? & ?). pose proof (Hs Bss) as (? & ? & ?).
  destruct h as [mg [] [] [] []]. cbn [segment_of virtualAddr inFileAddr size code initData readonlyData uninitData] in *.
  unfold noff_bytes, segment_bytes, noff_cast, segment_at, FileHdr.int_at. cbn [Nat.add virtualAddr inFileAddr size noffMagic code initData readonlyData uninitData].
  rewrite <- !app_assoc.
  repeat f_equal; slice_fields; by apply FileHdr.s32_le_bytes.
Qed.

Lemma read_header_noff garbage h rest : length garbage = 52%nat -> header_s32 h -> noffMagic h = NOFFMAGIC ->
  read_header garbage (noff_bytes h ++ rest) = Ok h.
Proof.
  intros Hg Hh Hm. unfold read_header, ReadAt. cbn [ASSERT Z.leb Z.compare rbind].
  change (Z.to_nat noff_size) with 52%nat. change (Z.to_nat 0) with 0%nat.
  rewrite memcpy_full; [|rewrite Hg; symmetry; rewrite slice_app_here by apply length_noff_bytes; apply length_noff_bytes].
  rewrite noff_roundtrip by done. rewrite Hm, Z.eqb_refl. cbn [negb andb]. by rewrite Hm, Z.eqb_refl.
Qed.

(** The output before the header is written. *)
Definition written (b : list Z) : list Z := match b with [] => [] | _ => replicate 52 0 ++ b end.

Lemma length_written b : length (written b) = match b with [] => 0%nat | _ => (52 + length b)%nat end.
Proof. destruct b; [done|]. unfold written. by rewrite length_app, length_replicate. Qed.

Lemma overwrite_written b bs : bs <> [] ->
  overwrite (written b) (noff_size + Z.of_nat (length b)) bs = written (b ++ bs).
Proof.
  intros Hbs. unfold overwrite. replace (Z.to_nat (noff_size + Z.of_nat (length b))) with (52 + length b)%nat
    by (unfold noff_size; lia).
  rewrite length_written. destruct b as [|x b].
  - rewrite drop_ge by (cbn; lia). cbn [written length app]. rewrite take_ge by (by rewrite length_replicate).
    rewrite app_nil_r. destruct bs; [done|]. done.
  - replace (52 + length (x :: b) - (52 + length (x :: b)))%nat with 0%nat by lia. cbn [replicate].
    rewrite app_nil_r, take_ge by (by rewrite length_written).
    rewrite drop_ge by (rewrite length_written; lia). rewrite app_nil_r.
    unfold written. cbn [app]. by rewrite <- app_assoc.
Qed.

Lemma overwrite_header b h : overwrite (written b) 0 (noff_bytes h) = noff_bytes h ++ b.
Proof.
  unfold overwrite. change (Z.to_nat 0) with 0%nat. rewrite take_0. cbn [app]. f_equal.
  rewrite length_noff_bytes. destruct b as [|x b]; [done|]. unfold written.
  rewrite drop_app_ge by (by rewrite length_replicate). by rewrite length_replicate.
Qed.

(** ** The loop *)

Section Loop.
Context (inp : list Z).

(** The effect of a section on the header. *)
Definition header_step (sc : scnhdr) (off : Z) (h : NoffHeader) : NoffHeader :=
  match kind_of sc with
  | Some Text => set_code (mkSegment (s_paddr sc) off (s_size sc)) h
  | Some Data => set_initData (mkSegment (s_paddr sc) off (s_size sc)) h
  | Some Rdata => set_readonlyData (mkSegment (s_paddr sc) off (s_size sc)) h
  | Some Bss => set_uninitData (mkSegment (s_paddr sc) (inFileAddr (uninitData h)) (s_size sc)) h
  | None => h
  end.

Fixpoint header_of (scs : list scnhdr) (off : Z) (h : NoffHeader) : NoffHeader :=
  match scs with
  | [] => h
  | sc :: scs' => header_of scs' (off + Z.of_nat (length (loaded inp sc))) (header_step sc off h)
  end.

(** The state of the loop when the bytes [b] are in the file. *)
Definition at_point (b : list Z) (h : NoffHeader) (st : conv) : Prop :=
  out st = written b /\ posOut st = noff_size + Z.of_nat (length b) /\ inNoffFile st = posOut st /\ noffH st = h.

Lemma length_contents sc : 0 <= s_size sc -> 0 <= s_scnptr sc -> s_scnptr sc + s_size sc <= Z.of_nat (length inp) ->
  Z.of_nat (length (contents inp sc)) = s_size sc.
Proof. intros. unfold contents. rewrite length_slice; lia. Qed.

Lemma copy_section_spec set sc st b h :
  at_point b h st -> 0 < s_size sc < 2 ^ 31 -> 0 <= s_scnptr sc -> s_scnptr sc + s_size sc <= Z.of_nat (length inp) ->
  noff_size + Z.of_nat (length b) + s_size sc < 2 ^ 31 ->
  exists st', copy_section inp set sc st = Done st' /\
    at_point (b ++ contents inp sc) (set (mkSegment (s_paddr sc) (noff_size + Z.of_nat (length b)) (s_size sc)) h) st'.
Proof.
  intros (Ho & Hp & Hi & Hh) Hs Hptr Hin Hb. unfold copy_section, Read, seek.
  rewrite (proj2 (Z.ltb_ge (s_scnptr sc) 0)), (proj2 (Z.ltb_ge (s_size sc) 0)) by lia.
  change (slice (Z.to_nat (s_scnptr sc)) (Z.to_nat (s_size sc)) inp) with (contents inp sc). cbv zeta.
  pose proof (length_contents sc ltac:(lia) Hptr Hin) as Hl. rewrite Hl, Z.eqb_refl. cbn [ebind].
  eexists. split; [done|]. unfold at_point. cbn [out posOut inNoffFile noffH]. rewrite Ho, Hi, Hp, Hl, Hh, length_app.
  rewrite overwrite_written by (intros E; rewrite E in Hl; cbn in Hl; lia).
  rewrite s32_id by (unfold is_s32, noff_size in *; lia). split_and!; [done|lia|lia|done].
Qed.

Lemma section_step_spec sc st b h :
  at_point b h st -> section_ok inp sc -> (kind_of sc = Some Bss -> size (uninitData h) = 0) ->
  noff_size + Z.of_nat (length (b ++ loaded inp sc)) < 2 ^ 31 ->
  exists st', section_step inp sc st = Done st' /\
    at_point (b ++ loaded inp sc) (header_step sc (noff_size + Z.of_nat (length b)) h) st'.
Proof.
  intros Hst Hok Hbss Hb. unfold section_step, loaded, header_step in *. rewrite length_app in Hb.
  destruct Hok as [Hz|(Hk & Hs & _ & Hin)].
  { unfold kind_of. rewrite Hz. cbn [Z.eqb]. exists st. by rewrite app_nil_r. }
  unfold kind_of in *. rewrite (proj2 (Z.eqb_neq (s_size sc) 0)) in * by lia.
  assert (forall set k, k <> Bss -> (Some k <> Some Bss -> 0 <= s_scnptr sc /\ s_scnptr sc + s_size sc <= Z.of_nat (length inp)) ->
    noff_size + Z.of_nat (length b + length (contents inp sc)) < 2 ^ 31 ->
    exists st', copy_section inp set sc st = Done st' /\
      at_point (b ++ contents inp sc) (set (mkSegment (s_paddr sc) (noff_size + Z.of_nat (length b)) (s_size sc)) h) st') as copy_kind.
  { intros set k Hne Hr Hlen. destruct Hr as [Hptr Hend]; [congruence|].
    pose proof (length_contents sc ltac:(lia) Hptr Hend). apply copy_section_spec; done || lia. }
  destruct (name_is text_name sc) in *; [by apply (copy_kind _ Text)|].
  destruct (name_is data_name sc) in *; [by apply (copy_kind _ Data)|].
  destruct (name_is rdata_name sc) in *; [by apply (copy_kind _ Rdata)|].
  destruct (name_is bss_name sc) in *; [|by destruct Hk]. unfold bss_section. destruct Hst as (Ho & Hp & Hi & Hh). rewrite Hh, Hbss by done.
  cbn [Z.eqb negb]. eexists. split; [done|]. rewrite app_nil_r. done.
Qed.

Lemma header_step_other sc off h k : kind_of sc <> Some k -> segment_of k (header_step sc off h) = segment_of k h.
Proof. unfold header_step. destruct (kind_of sc) as [[]|], k; intros Hk; try done. Qed.

Lemma header_step_magic sc off h : noffMagic (header_step sc off h) = noffMagic h.
Proof. unfold header_step. by destruct (kind_of sc) as [[]|]. Qed.

Lemma no_kind k sc scs : kind_of sc = Some k -> NoDup (omap kind_of (sc :: scs)) -> Forall (fun sc => kind_of sc <> Some k) scs.
Proof.
  intros Hk Hnd. cbn in Hnd. rewrite Hk in Hnd. apply NoDup_cons in Hnd as [Hnin _].
  rewrite Forall_forall. intros sc' Hin Hk'. apply Hnin. apply list_elem_of_omap. eauto.
Qed.

Lemma kinds_tail sc scs : NoDup (omap kind_of (sc :: scs)) -> NoDup (omap kind_of scs).
Proof. cbn. destruct (kind_of sc); [|done]. by intros [_ ?]%NoDup_cons. Qed.

Lemma copy_sections_spec scs : forall st b h,
  at_point b h st -> Forall (section_ok inp) scs -> NoDup (omap kind_of scs) ->
  (size (uninitData h) = 0 \/ Forall (fun sc => kind_of sc <> Some Bss) scs) ->
  noff_size + Z.of_nat (length (b ++ body inp scs)) < 2 ^ 31 ->
  exists st', copy_sections inp scs st = Done st' /\
    at_point (b ++ body inp scs) (header_of scs (noff_size + Z.of_nat (length b)) h) st'.
Proof.
  induction scs as [|sc scs IH]; intros st b h Hst Hok Hnd Hbss Hb; cbn [copy_sections header_of].
  - exists st. unfold body. cbn. by rewrite app_nil_r.
  - apply Forall_cons in Hok as [Hsc Hok].
    assert (body inp (sc :: scs) = loaded inp sc ++ body inp scs) as Eb by done. rewrite Eb, app_assoc in *.
    destruct (section_step_spec sc st b h Hst Hsc) as (st1 & -> & Hst1).
    + intros Hk. destruct Hbss as [?|Hno]; [done|]. by apply Forall_cons in Hno as [? _].
    + rewrite !length_app in *. lia.
    + cbn [ebind]. destruct (IH st1 _ _ Hst1 Hok (kinds_tail _ _ Hnd)) as (st' & -> & Hst'); [|done|].
      * destruct (decide (kind_of sc = Some Bss)) as [Hk|Hk]; [right; by apply (no_kind _ sc)|].
        change (uninitData (header_step sc (noff_size + Z.of_nat (length b)) h))
          with (segment_of Bss (header_step sc (noff_size + Z.of_nat (length b)) h)).
        rewrite header_step_other by done. destruct Hbss as [?|Hno]; [by left|]. apply Forall_cons in Hno as [_ ?]. by right.
      * exists st'. split; [done|]. by rewrite length_app, Nat2Z.inj_add, Z.add_assoc in Hst'.
Qed.

(** The segments of the header are the sections. *)
Lemma header_of_none k scs : forall off h,
  Forall (fun sc => kind_of sc <> Some k) scs -> segment_of k (header_of scs off h) = segment_of k h.
Proof.
  induction scs as [|sc scs IH]; intros off h Hk; [done|]. apply Forall_cons in Hk as [Hsc Hk]. cbn [header_of].
  rewrite IH by done. by apply header_step_other.
Qed.

Lemma header_of_magic scs : forall off h, noffMagic (header_of scs off h) = noffMagic h.
Proof.
  induction scs as [|sc scs IH]; intros off h; [done|]. cbn [header_of]. by rewrite IH, header_step_magic.
Qed.

Lemma header_of_segment k scs : forall off h, NoDup (omap kind_of scs) ->
  match locate inp k scs off with
  | Some (sc, o) => segment_of k (header_of scs off h) =
      mkSegment (s_paddr sc) (if decide (k = Bss) then inFileAddr (uninitData h) else o) (s_size sc)
  | None => segment_of k (header_of scs off h) = segment_of k h
  end.
Proof.
  induction scs as [|sc scs IH]; intros off h Hnd; [done|]. cbn [locate header_of].
  destruct (decide (kind_of sc = Some k)) as [Hk|Hk].
  - rewrite header_of_none by (by apply (no_kind k sc)). unfold header_step. rewrite Hk. by destruct k.
  - specialize (IH (off + Z.of_nat (length (loaded inp sc))) (header_step sc off h) (kinds_tail _ _ Hnd)).
    destruct (locate _ _ _ _) as [[sc' o]|].
    + rewrite IH. f_equal. case_decide as Hkb; [|done]. subst k.
      by apply (f_equal inFileAddr), (header_step_other sc off h Bss).
    + rewrite IH. by apply header_step_other.
Qed.

(** The bytes of a section in the body. *)
Lemma locate_spec k scs : forall off sc o, locate inp k scs off = Some (sc, o) ->
  sc ∈ scs /\ kind_of sc = Some k /\ off <= o /\
  exists a b, body inp scs = a ++ loaded inp sc ++ b /\ o = off + Z.of_nat (length a).
Proof.
  induction scs as [|sc0 scs IH]; intros off sc o E; [done|]. cbn [locate] in E.
  destruct (decide (kind_of sc0 = Some k)) as [Hk|Hk].
  - injection E as -> ->. split; [left|]. split; [done|]. split; [lia|]. exists [], (body inp scs). split; [done|cbn; lia].
  - destruct (IH _ _ _ E) as (Hin & Hk' & Ho & a & b & Eb & Eo). split; [by right|]. split; [done|]. split; [lia|].
    exists (loaded inp sc0 ++ a), b. split.
    + change (body inp (sc0 :: scs)) with (loaded inp sc0 ++ body inp scs). rewrite Eb. by rewrite <- app_assoc.
    + rewrite length_app. lia.
Qed.

End Loop.

(** ** The whole program *)

Lemma Read_Ok inp n pos : 0 <= n -> 0 <= pos -> pos + n <= Z.of_nat (length inp) ->
  Read inp n pos = Done (slice (Z.to_nat pos) (Z.to_nat n) inp, pos + n).
Proof.
  intros Hn Hp Hl. unfold Read. rewrite (proj2 (Z.ltb_ge n 0)) by lia. cbv zeta. rewrite length_slice by lia.
  by rewrite (proj2 (Z.eqb_eq _ n)) by lia.
Qed.

(** The output: the header with the segments, and the sections behind it. *)
Lemma main_spec garbage inp scs : coff_file inp scs ->
  main garbage inp = Done (noff_bytes (header_of inp scs noff_size (init_header garbage)) ++ body inp scs).
Proof.
  intros [Hm Ho Hc Hl Hs Hok Hk Hsz]. unfold main, filehdr_size, aouthdr_size, scnhdr_size.
  rewrite Read_Ok by lia. cbn [ebind]. change (Z.to_nat 0) with 0%nat. change (Z.to_nat 20) with 20%nat. cbv zeta.
  rewrite Hm, Z.eqb_refl. cbn [negb]. rewrite Read_Ok by lia. cbn [ebind]. change (Z.to_nat (0 + 20)) with 20%nat.
  change (Z.to_nat 56) with 56%nat. rewrite Ho, Z.eqb_refl. cbn [negb]. rewrite Hc, Read_Ok by lia. cbn [ebind].
  change (Z.to_nat (0 + 20 + 56)) with 76%nat. replace (Z.to_nat (Z.of_nat (length scs) * 40)) with (40 * length scs)%nat by lia.
  rewrite Nat2Z.id, Hs.
  destruct (copy_sections_spec inp scs (mkConv (0 + 20 + 56 + Z.of_nat (length scs) * 40) [] noff_size noff_size (init_header garbage))
    [] (init_header garbage)) as (st & -> & (Eo & _ & _ & Eh)); [done|done|done|by left|done|].
  cbn [ebind]. cbn [app length] in *. rewrite Eo, Eh. change (Z.of_nat 0) with 0. rewrite Z.add_0_r.
  assert (forall h, SwapHeader h = h) as -> by (by intros [? [] [] [] []]). by rewrite overwrite_header.
Qed.

(** ** Loading a converted program *)

Lemma header_step_s32 inp sc off h : section_ok inp sc -> is_s32 off -> header_s32 h -> header_s32 (header_step sc off h).
Proof.
  intros Hok Hoff [Hm Hs]. split; [by rewrite header_step_magic|]. intros k. cbv zeta.
  destruct (decide (kind_of sc = Some k)) as [Hk|Hk]; [|rewrite header_step_other by done; apply Hs].
  destruct Hok as [Hz|(_ & Hsz & Hp & _)]; [unfold kind_of in Hk; by rewrite Hz in Hk|].
  assert (is_s32 (s_size sc)) by (unfold is_s32; lia). unfold header_step. rewrite Hk.
  destruct (Hs k) as (_ & Hin & _). by destruct k.
Qed.

Lemma header_of_s32 inp scs : forall off h,
  Forall (section_ok inp) scs -> 0 <= off -> off + Z.of_nat (length (body inp scs)) < 2 ^ 31 ->
  header_s32 h -> header_s32 (header_of inp scs off h).
Proof.
  induction scs as [|sc scs IH]; intros off h Hok H0 Hb Hh; [done|]. apply Forall_cons in Hok as [Hsc Hok].
  assert (body inp (sc :: scs) = loaded inp sc ++ body inp scs) as Eb by done. rewrite Eb, length_app in Hb. cbn [header_of].
  apply IH; [done|lia|lia|]. apply (header_step_s32 inp); [done|unfold is_s32; lia|done].
Qed.

Lemma init_header_s32 garbage : header_s32 garbage -> header_s32 (init_header garbage).
Proof.
  intros [_ Hs]. split; [unfold is_s32; cbn; unfold NOFFMAGIC; lia|]. intros k. destruct (Hs k) as (? & ? & _).
  by destruct k.
Qed.

Lemma size_of_spec inp k scs : Forall (section_ok inp) scs -> 0 <= size_of inp k scs < 2 ^ 31.
Proof.
  intros Hok. unfold size_of. destruct (locate inp k scs 0) as [[sc o]|] eqn:E; [|lia].
  apply locate_spec in E as (Hin & Hk & _). rewrite Forall_forall in Hok. destruct (Hok sc Hin) as [->|(_ & ? & _)]; lia.
Qed.

Lemma locate_shift inp k scs : forall off d,
  locate inp k scs (off + d) = (fun p : scnhdr * Z => (p.1, p.2 + d)) <$> locate inp k scs off.
Proof.
  induction scs as [|sc scs IH]; intros off d; [done|]. cbn [locate]. case_decide; [done|].
  rewrite <- IH. f_equal. lia.
Qed.

Lemma segment_size inp scs garbage k : NoDup (omap kind_of scs) ->
  size (segment_of k (header_of inp scs noff_size (init_header garbage))) = size_of inp k scs.
Proof.
  intros Hk. pose proof (header_of_segment inp k scs noff_size (init_header garbage) Hk) as Hseg.
  pose proof (locate_shift inp k scs 0 noff_size) as Hsh. rewrite Z.add_0_l in Hsh. rewrite Hsh in Hseg. unfold size_of.
  destruct (locate inp k scs 0) as [[sc o]|]; cbn in Hseg; rewrite Hseg; [done|by destruct k].
Qed.

Lemma loaded_kind inp sc k : kind_of sc = Some k -> k <> Bss -> loaded inp sc = contents inp sc.
Proof. intros Hk Hne. unfold loaded. rewrite Hk. by destruct k. Qed.

(** The sections, put together, are as long as the segments say. *)
Lemma body_length inp scs : Forall (section_ok inp) scs -> NoDup (omap kind_of scs) ->
  Z.of_nat (length (body inp scs)) = size_of inp Text scs + size_of inp Data scs + size_of inp Rdata scs.
Proof.
  induction scs as [|sc scs IH]; intros Hok Hnd; [done|]. apply Forall_cons in Hok as [Hsc Hok].
  assert (body inp (sc :: scs) = loaded inp sc ++ body inp scs) as -> by done. rewrite length_app, Nat2Z.inj_add.
  rewrite IH by (done || by apply (kinds_tail sc)).
  assert (forall k, size_of inp k (sc :: scs) =
    if decide (kind_of sc = Some k) then s_size sc else size_of inp k scs) as Hsz.
  { intros k. unfold size_of. cbn [locate]. case_decide; [done|]. rewrite locate_shift.
    by destruct (locate inp k scs 0) as [[? ?]|]. }
  assert (forall k, kind_of sc = Some k -> size_of inp k scs = 0) as Hno.
  { intros k Hk. pose proof (no_kind k sc scs Hk Hnd) as Hall. unfold size_of.
    destruct (locate inp k scs 0) as [[sc' o]|] eqn:E; [|done]. apply locate_spec in E as (Hin & Hk' & _).
    rewrite Forall_forall in Hall. by destruct (Hall sc' Hin). }
  assert (forall k, kind_of sc = Some k -> k <> Bss -> Z.of_nat (length (loaded inp sc)) = s_size sc) as Hlen.
  { intros k Hk Hne. rewrite (loaded_kind inp sc k) by done.
    destruct Hsc as [Hz|(_ & ? & _ & Hin)]; [unfold kind_of in Hk; by rewrite Hz in Hk|].
    destruct Hin; [congruence|]. apply length_contents; lia. }
  rewrite !Hsz. destruct (kind_of sc) as [k|] eqn:Hk.
  - destruct k; repeat (case_decide; [try done|]); try done; rewrite ?(Hno _ eq_refl), ?(Hlen _ eq_refl) by done; try lia.
    unfold loaded. rewrite Hk. cbn. lia.
  - repeat (case_decide; [done|]). unfold loaded. rewrite Hk. cbn. lia.
Qed.

Lemma num_clear_run {A} `{Allocator A} (m : A) p0 n : 0 <= n -> free_from m p0 n -> n <= num_clear (view m).
Proof.
  intros Hn (H0 & _ & _ & Hfree). set (v := view m) in *.
  assert (take (Z.to_nat n) (drop (Z.to_nat p0) v) = replicate (Z.to_nat n) false) as E.
  { apply list_eq. intros i. destruct (decide (i < Z.to_nat n)%nat).
    - rewrite lookup_take_lt, lookup_drop, lookup_replicate_2 by lia.
      specialize (Hfree (Z.of_nat i) ltac:(lia)). by replace (Z.to_nat (p0 + Z.of_nat i)) with (Z.to_nat p0 + i)%nat in Hfree by lia.
    - rewrite lookup_take_ge by lia. symmetry. apply lookup_ge_None. rewrite length_replicate. lia. }
  unfold num_clear. rewrite <- (take_drop (Z.to_nat p0) v), <- (take_drop (Z.to_nat n) (drop (Z.to_nat p0) v)), E.
  rewrite !filter_app, !length_app.
  assert (forall k, length (filter (fun b => b = false) (replicate k false)) = k) as ->; [|lia].
  induction k as [|k IH]; [done|]. cbn [replicate]. rewrite filter_cons_True by done. cbn [length]. by rewrite IH.
Qed.

(** The program has its sections in memory in the order of the file, without
    gaps, from address 0; read-only data do not need more room than the
    uninitialised data and the stack. *)
Record laid_out (inp : list Z) (scs : list scnhdr) : Prop := {
  lo_place : forall k sc o, k <> Bss -> locate inp k scs 0 = Some (sc, o) -> s_paddr sc = o;
  lo_text : exists sc, locate inp Text scs 0 = Some (sc, 0);
  lo_rdata : size_of inp Rdata scs <= size_of inp Bss scs + UserStackSize
}.

(** The pages of the program. *)
Definition pages inp scs : Z :=
  divRoundUp (size_of inp Text scs + size_of inp Data scs + size_of inp Bss scs + UserStackSize) PageSize.

Section Laid_out.
Context (garbage : NoffHeader) (inp : list Z) (scs : list scnhdr).
Hypothesis Hc : coff_file inp scs.
Hypothesis Hlo : laid_out inp scs.

Let h := header_of inp scs noff_size (init_header garbage).

(** Every section is in the file where it is in memory, behind the header. *)
Lemma segment_place k sc o : k <> Bss -> locate inp k scs 0 = Some (sc, o) ->
  segment_of k h = mkSegment o (noff_size + o) (s_size sc).
Proof.
  intros Hk E. pose proof (header_of_segment inp k scs noff_size (init_header garbage) (cf_kinds _ _ Hc)) as Hs.
  pose proof (locate_shift inp k scs 0 noff_size) as Hsh. rewrite Z.add_0_l, E in Hsh. cbn in Hsh. rewrite Hsh in Hs.
  fold h in Hs. rewrite Hs, (lo_place _ _ Hlo k sc o Hk E). case_decide; [done|]. f_equal. lia.
Qed.

Lemma section_in_body k sc o : k <> Bss -> locate inp k scs 0 = Some (sc, o) ->
  slice (Z.to_nat (s_paddr sc)) (Z.to_nat (s_size sc)) (body inp scs) = contents inp sc.
Proof.
  intros Hk E. rewrite (lo_place _ _ Hlo k sc o Hk E). apply locate_spec in E as (Hin & Hks & _ & a & b & -> & ->).
  rewrite (loaded_kind inp sc k) by done. rewrite (slice_app_skip (length a)) by lia.
  replace (Z.to_nat (0 + Z.of_nat (length a)) - length a)%nat with 0%nat by lia.
  pose proof (proj1 (Forall_forall _ _) (cf_ok _ _ Hc) sc Hin) as [Hz|(_ & Hs & _ & Hr)];
    [unfold kind_of in Hks; by rewrite Hz in Hks|]. destruct Hr; [congruence|].
  apply slice_app_here. pose proof (length_contents inp sc). lia.
Qed.

(** The pages of the program hold all sections. *)
Lemma pages_bounds : 0 < pages inp scs /\ Z.of_nat (length (body inp scs)) <= pages inp scs * PageSize /\
  (pages inp scs <= NumPhysPages -> pages_of h = pages inp scs).
Proof.
  pose proof (cf_ok _ _ Hc) as Hok. rewrite (body_length inp scs Hok (cf_kinds _ _ Hc)).
  pose proof (size_of_spec inp Text scs Hok). pose proof (size_of_spec inp Data scs Hok).
  pose proof (size_of_spec inp Rdata scs Hok). pose proof (size_of_spec inp Bss scs Hok).
  pose proof (lo_rdata _ _ Hlo) as Hrd.
  pose proof (divRoundUp_spec (size_of inp Text scs + size_of inp Data scs + size_of inp Bss scs + UserStackSize) PageSize
    ltac:(unfold UserStackSize; lia) ltac:(done)) as Hpg. fold (pages inp scs) in Hpg.
  unfold UserStackSize in *. change PageSize with 128 in *. split; [lia|]. split; [lia|]. intros Hmax.
  unfold NumPhysPages in Hmax. unfold pages_of, pages. change (code h) with (segment_of Text h).
  change (initData h) with (segment_of Data h). change (uninitData h) with (segment_of Bss h).
  unfold h. rewrite !segment_size by apply (cf_kinds _ _ Hc). rewrite u32_id; [done|]. unfold is_u32, UserStackSize. lia.
Qed.

Lemma text_segment : exists sc, code h = mkSegment 0 noff_size (s_size sc) /\ 0 < s_size sc.
Proof.
  destruct (lo_text _ _ Hlo) as [sc E]. exists sc. split; [by apply (segment_place Text sc 0)|].
  apply locate_spec in E as (Hin & Hk & _). pose proof (proj1 (Forall_forall _ _) (cf_ok _ _ Hc) sc Hin) as [Hz|(_ & ? & _)];
    [unfold kind_of in Hk; by rewrite Hz in Hk|lia].
Qed.

Lemma data_segment : size (initData h) <= 0 \/
  exists o, 0 <= o /\ virtualAddr (initData h) = o /\ inFileAddr (initData h) = noff_size + o /\
    o < Z.of_nat (length (body inp scs)).
Proof.
  destruct (locate inp Data scs 0) as [[sc o]|] eqn:E.
  - right. exists o. change (initData h) with (segment_of Data h). rewrite (segment_place Data sc o) by done.
    pose proof (section_in_body Data sc o ltac:(done) E) as Hs. rewrite (lo_place _ _ Hlo Data sc o) in Hs by done.
    apply locate_spec in E as (Hin & Hk & Ho & _). split; [done|]. split; [done|]. split; [done|].
    pose proof (proj1 (Forall_forall _ _) (cf_ok _ _ Hc) sc Hin) as [Hz|(_ & Hsz & _ & Hr)];
      [unfold kind_of in Hk; by rewrite Hz in Hk|]. destruct Hr; [congruence|].
    pose proof (length_contents inp sc ltac:(lia)) as Hl. rewrite <- Hs in Hl. unfold slice in Hl.
    rewrite length_take, length_drop in Hl. lia.
  - left. change (initData h) with (segment_of Data h). unfold h. rewrite segment_size by apply (cf_kinds _ _ Hc).
    unfold size_of. by rewrite E.
Qed.

End Laid_out.


(** ** A program: a page of code, half a page of data, some uninitialised data *)

Definition sample_section (name : list Z) (paddr sz ptr : Z) : list Z :=
  name ++ replicate (8 - length name) 0 ++ le_bytes 4 paddr ++ le_bytes 4 paddr ++ le_bytes 4 sz ++ le_bytes 4 ptr ++
  calloc 16.

Definition sample_coff : list Z :=
  le_bytes 2 MIPSELMAGIC ++ le_bytes 2 3 ++ calloc 16 ++
  le_bytes 2 OMAGIC ++ calloc 54 ++
  sample_section text_name 0 128 196 ++ sample_section data_name 128 64 324 ++ sample_section bss_name 192 32 0 ++
  replicate 128 1 ++ replicate 64 2.

Definition sample_sections : list scnhdr := sections_cast 3 (slice 76 120 sample_coff).

Definition zero_header : NoffHeader :=
  mkNoff 0 (mkSegment 0 0 0) (mkSegment 0 0 0) (mkSegment 0 0 0) (mkSegment 0 0 0).

Definition all_free : Bitmap.bitmap := Bitmap.mkBitmap 128 4 [0; 0; 0; 0].

Lemma sample_coff_file : coff_file sample_coff sample_sections.
Proof.
  split.
  - vm_compute. reflexivity.
  - vm_compute. reflexivity.
  - vm_compute. reflexivity.
  - apply (bool_decide_unpack _). vm_compute. exact I.
  - vm_compute. reflexivity.
  - unfold sample_sections. cbn [sections_cast]. rewrite !Forall_cons, Forall_nil. split_and!; [right..|done].
    + split; [vm_compute; by eexists|]. split; [by vm_compute|]. split; [by vm_compute|]. intros _. by vm_compute.
    + split; [vm_compute; by eexists|]. split; [by vm_compute|]. split; [by vm_compute|]. intros _. by vm_compute.
    + split; [vm_compute; by eexists|]. split; [by vm_compute|]. split; [by vm_compute|]. intros E. destruct E. by vm_compute.
  - apply (bool_decide_unpack _). vm_compute. exact I.
  - vm_compute. reflexivity.
Qed.

Lemma sample_laid_out : laid_out sample_coff sample_sections.
Proof.
  split.
  - intros k sc o Hk E. destruct k; [| | |done]; vm_compute in E; first [discriminate E|by injection E as <- <-].
  - eexists. vm_compute. reflexivity.
  - by vm_compute.
Qed.


End Coff2noff.
