(* ===== verification/Syscalls.v ===== *)
(** * System calls

    userprog/exception.cc, userprog/ksyscall.h and the numbers of
    userprog/syscall.h.  A handler works on the machine and asks the rest of
    the kernel for services (the [Sys...] functions), during which the thread
    may wait and other programs run.  So a handler is a tree ([run]): the
    machine when it is done, or a request with what follows its reply, given
    the machine at that time.  [serve] carries the requests out on the parts of
    the kernel that are modelled elsewhere; a request that makes the thread
    wait is left to the thread system. *)

From S2P Require Import Prelude Ints CString Ethernet Sockets Machine Threads Console SysNum UserMem STable FileTable.

Module Syscalls.

Import Machine UserMem.

(** ** Requests and handlers *)

(** The calls of ksyscall.h and of the socket functions of the kernel. *)
Inductive request :=
| ReadNum | PrintNum (num : Z) | ReadChar | PrintChar (character : Z) | RandomNum
| ReadString (length : Z) | PrintString (buffer : list Z) (length : Z)
| CreateFile (name : list Z) | Open (name : list Z) (type : Z) | Close (id : Z)
| Read (buffer : list Z) (charCount id : Z) | Write (buffer : list Z) (charCount id : Z) | Seek (pos id : Z)
| Exec (name : list Z) | Join (id : Z) | Exit (code : Z)
| CreateSemaphore (name : list Z) (semval : Z) | Wait (name : list Z) | Signal (name : list Z) | GetPid
| CreateSocket | CloseSocket (sockID : Z) | Bind (sockID port : Z)
| Connect (sockID : Z) (ip : list Z) (srcPort destPort : Z)
| SendMsg (sockID : Z) (msg : list Z) | RecvMsg (msg : list Z) (size sockID : Z).

(** The result, the contents of the buffer a call fills or returns, and whether
    the call deleted the string it was given. *)
Record reply := mkReply { value : Z; bytes : list Z; freed : bool }.

Definition int_reply (v : Z) : reply := mkReply v [] false.

Inductive run :=
| Done (m : machine)
| Fail (e : err)
| Call (r : request) (m : machine) (k : reply -> machine -> run).

Definition to_run (x : res run) : run :=
  match x with
  | Ok r => r
  | Err e => Fail e
  end.

Definition move_program_counter (m : machine) : res machine :=
  let* pc := ReadRegister PCReg m in
  let* m := WriteRegister PrevPCReg pc m in
  let* next := ReadRegister NextPCReg m in
  let* m := WriteRegister PCReg next m in
  let* next := ReadRegister NextPCReg m in
  WriteRegister NextPCReg (next + 4) m.

(** The ends of the handlers: with a result in r2, or without. *)
Definition return_void (m : machine) : run :=
  to_run (let* m := move_program_counter m in Ok (Done m)).

Definition return_value (v : Z) (m : machine) : run :=
  to_run (let* m := WriteRegister 2 v m in Ok (return_void m)).

Definition handle_not_implemented_SC (m : machine) : run := return_void m.

Definition handle_SC_Halt (m : machine) : run := Fail Halted.

Definition SysAdd (op1 op2 : Z) : Z := s32 (op1 + op2).

Definition handle_SC_Add (m : machine) : run :=
  to_run (let* a := ReadRegister 4 m in
          let* b := ReadRegister 5 m in
          Ok (return_value (SysAdd a b) m)).

Definition handle_SC_ReadNum (m : machine) : run :=
  Call ReadNum m (fun v m => return_value (value v) m).

Definition handle_SC_PrintNum (m : machine) : run :=
  to_run (let* num := ReadRegister 4 m in
          Ok (Call (PrintNum num) m (fun _ m => return_void m))).

Definition handle_SC_ReadChar (m : machine) : run :=
  Call ReadChar m (fun v m => return_value (value v) m).

Definition handle_SC_PrintChar (m : machine) : run :=
  to_run (let* c := ReadRegister 4 m in
          Ok (Call (PrintChar (s8 c)) m (fun _ m => return_void m))).

Definition handle_SC_RandomNum (m : machine) : run :=
  Call RandomNum m (fun v m => return_value (value v) m).

Definition MAX_READ_STRING_LENGTH : Z := 255.

Definition handle_SC_ReadString (m : machine) : run :=
  to_run (let* memPtr := ReadRegister 4 m in
          let* length := ReadRegister 5 m in
          if MAX_READ_STRING_LENGTH <? length then Err Halted
          else Ok (Call (ReadString length) m (fun v m =>
            to_run (let* m := StringSys2User (bytes v) memPtr (-1) m in Ok (return_void m))))).

Definition handle_SC_PrintString (m : machine) : run :=
  to_run (let* memPtr := ReadRegister 4 m in
          let2* (buffer, m) := stringUser2System memPtr (-1) m in
          let* n := strlen buffer in
          Ok (Call (PrintString buffer n) m (fun _ m => return_void m))).

Definition handle_SC_CreateFile (m : machine) : run :=
  to_run (let* virtAddr := ReadRegister 4 m in
          let2* (fileName, m) := stringUser2System virtAddr (-1) m in
          Ok (Call (CreateFile fileName) m (fun v m => return_value (if value v =? 0 then -1 else 0) m))).

Definition handle_SC_Open (m : machine) : run :=
  to_run (let* virtAddr := ReadRegister 4 m in
          let2* (fileName, m) := stringUser2System virtAddr (-1) m in
          let* type := ReadRegister 5 m in
          Ok (Call (Open fileName type) m (fun v m => return_value (value v) m))).

Definition handle_SC_Close (m : machine) : run :=
  to_run (let* id := ReadRegister 4 m in
          Ok (Call (Close id) m (fun v m => return_value (value v) m))).

(** The buffer of [n] characters after a call stored [bs] at its beginning. *)
Definition fill (buffer bs : list Z) : res (list Z) :=
  if (length bs <=? length buffer)%nat then Ok (memcpy buffer 0 bs) else Err OutOfBounds.

Definition handle_SC_Read (m : machine) : run :=
  to_run (let* virtAddr := ReadRegister 4 m in
          let* charCount := ReadRegister 5 m in
          let2* (buffer, m) := stringUser2System virtAddr charCount m in
          let* fileId := ReadRegister 6 m in
          Ok (Call (Read buffer charCount fileId) m (fun v m =>
            to_run (let* buffer := fill buffer (bytes v) in
                    let* m := WriteRegister 2 (value v) m in
                    let* m := StringSys2User buffer virtAddr charCount m in
                    Ok (return_void m))))).

Definition handle_SC_Write (m : machine) : run :=
  to_run (let* virtAddr := ReadRegister 4 m in
          let* charCount := ReadRegister 5 m in
          let2* (buffer, m) := stringUser2System virtAddr charCount m in
          let* fileId := ReadRegister 6 m in
          Ok (Call (Write buffer charCount fileId) m (fun v m =>
            to_run (let* m := WriteRegister 2 (value v) m in
                    let* m := StringSys2User buffer virtAddr charCount m in
                    Ok (return_void m))))).

Definition handle_SC_Seek (m : machine) : run :=
  to_run (let* seekPos := ReadRegister 4 m in
          let* fileId := ReadRegister 5 m in
          Ok (Call (Seek seekPos fileId) m (fun v m => return_value (value v) m))).

Definition handle_SC_Exec (m : machine) : run :=
  to_run (let* virtAddr := ReadRegister 4 m in
          let2* (name, m) := stringUser2System virtAddr (-1) m in
          Ok (Call (Exec name) m (fun v m => return_value (value v) m))).

Definition handle_SC_Join (m : machine) : run :=
  to_run (let* id := ReadRegister 4 m in
          Ok (Call (Join id) m (fun v m => return_value (value v) m))).

Definition handle_SC_Exit (m : machine) : run :=
  to_run (let* id := ReadRegister 4 m in
          Ok (Call (Exit id) m (fun v m => return_value (value v) m))).

(** [delete[] name] after the result is stored: an error if the call deleted
    the string already. *)
Definition return_named (v : reply) (m : machine) : run :=
  to_run (let* m := WriteRegister 2 (value v) m in
          if freed v then Err NullPointer else Ok (return_void m)).

Definition handle_SC_CreateSemaphore (m : machine) : run :=
  to_run (let* virtAddr := ReadRegister 4 m in
          let* semval := ReadRegister 5 m in
          let2* (name, m) := stringUser2System virtAddr (-1) m in
          Ok (Call (CreateSemaphore name semval) m return_named)).

Definition handle_SC_Wait (m : machine) : run :=
  to_run (let* virtAddr := ReadRegister 4 m in
          let2* (name, m) := stringUser2System virtAddr (-1) m in
          Ok (Call (Wait name) m return_named)).

Definition handle_SC_Signal (m : machine) : run :=
  to_run (let* virtAddr := ReadRegister 4 m in
          let2* (name, m) := stringUser2System virtAddr (-1) m in
          Ok (Call (Signal name) m return_named)).

Definition handle_SC_GetPid (m : machine) : run :=
  Call GetPid m (fun v m => return_value (value v) m).

Definition handle_SC_Create_Socket (m : machine) : run :=
  Call CreateSocket m (fun v m => return_value (value v) m).

Definition handle_SC_Close_Socket (m : machine) : run :=
  to_run (let* sockID := ReadRegister 4 m in
          Ok (Call (CloseSocket sockID) m (fun _ m => return_value 1 m))).

Definition handle_SC_Bind (m : machine) : run :=
  to_run (let* sockID := ReadRegister 4 m in
          let* port := ReadRegister 5 m in
          Ok (Call (Bind sockID port) m (fun v m => return_value (value v) m))).

Definition handle_SC_Connect (m : machine) : run :=
  to_run (let* sockID := ReadRegister 4 m in
          let* virtAddr := ReadRegister 5 m in
          let2* (ipAdr, m) := stringUser2System virtAddr (-1) m in
          let* srcPort := ReadRegister 6 m in
          let* destPort := ReadRegister 7 m in
          let* ip := c_str ipAdr in
          Ok (Call (Connect sockID ip srcPort destPort) m (fun v m => return_value (value v) m))).

Definition handle_SC_Send_Msg (m : machine) : run :=
  to_run (let* sockID := ReadRegister 4 m in
          let* virtAddr := ReadRegister 5 m in
          let2* (msg, m) := stringUser2System virtAddr (-1) m in
          Ok (Call (SendMsg sockID msg) m (fun v m => return_value (value v) m))).

(** [msg] is the zeroed buffer of [size + 1] bytes; a negative number makes
    [calloc] fail. *)
Definition handle_SC_Recv_Msg (m : machine) : run :=
  to_run (let* sockID := ReadRegister 4 m in
          let* virtAddr := ReadRegister 5 m in
          let* size := ReadRegister 6 m in
          let msg := calloc (Z.to_nat (size + 1)) in
          Ok (Call (RecvMsg msg size sockID) m (fun v m =>
            to_run (let* m := StringSys2User (bytes v) virtAddr (-1) m in
                    Ok (return_value (value v) m))))).

(** ** Dispatch *)

Definition SC_Halt : Z := 0.
Definition SC_Exit : Z := 1.
Definition SC_Exec : Z := 2.
Definition SC_Join : Z := 3.
Definition SC_Create : Z := 4.
Definition SC_Remove : Z := 5.
Definition SC_Open : Z := 6.
Definition SC_Read : Z := 7.
Definition SC_Write : Z := 8.
Definition SC_Seek : Z := 9.
Definition SC_Close : Z := 10.
Definition SC_ThreadFork : Z := 11.
Definition SC_ThreadYield : Z := 12.
Definition SC_ExecV : Z := 13.
Definition SC_ThreadExit : Z := 14.
Definition SC_ThreadJoin : Z := 15.
Definition SC_Add : Z := 42.
Definition SC_ReadNum : Z := 43.
Definition SC_PrintNum : Z := 44.
Definition SC_ReadChar : Z := 45.
Definition SC_PrintChar : Z := 46.
Definition SC_RandomNum : Z := 47.
Definition SC_ReadString : Z := 48.
Definition SC_PrintString : Z := 49.
Definition SC_CreateFile : Z := 50.
Definition SC_CreateSemaphore : Z := 51.
Definition SC_Wait : Z := 52.
Definition SC_Signal : Z := 53.
Definition SC_GetPid : Z := 54.
Definition SC_Create_Socket : Z := 55.
Definition SC_Close_Socket : Z := 56.
Definition SC_Bind : Z := 57.
Definition SC_Connect : Z := 58.
Definition SC_Send_Msg : Z := 59.
Definition SC_Recv_Msg : Z := 60.

(** The cases of the inner [switch]. *)
Definition handlers : list (Z * (machine -> run)) :=
  [(SC_Halt, handle_SC_Halt); (SC_Add, handle_SC_Add); (SC_ReadNum, handle_SC_ReadNum);
   (SC_PrintNum, handle_SC_PrintNum); (SC_ReadChar, handle_SC_ReadChar); (SC_PrintChar, handle_SC_PrintChar);
   (SC_RandomNum, handle_SC_RandomNum); (SC_ReadString, handle_SC_ReadString);
   (SC_PrintString, handle_SC_PrintString); (SC_CreateFile, handle_SC_CreateFile); (SC_Open, handle_SC_Open);
   (SC_Close, handle_SC_Close); (SC_Read, handle_SC_Read); (SC_Write, handle_SC_Write); (SC_Seek, handle_SC_Seek);
   (SC_Exec, handle_SC_Exec); (SC_Join, handle_SC_Join); (SC_Exit, handle_SC_Exit);
   (SC_CreateSemaphore, handle_SC_CreateSemaphore); (SC_Wait, handle_SC_Wait); (SC_Signal, handle_SC_Signal);
   (SC_GetPid, handle_SC_GetPid); (SC_Create_Socket, handle_SC_Create_Socket);
   (SC_Close_Socket, handle_SC_Close_Socket); (SC_Bind, handle_SC_Bind); (SC_Connect, handle_SC_Connect);
   (SC_Send_Msg, handle_SC_Send_Msg); (SC_Recv_Msg, handle_SC_Recv_Msg);
   (SC_Create, handle_not_implemented_SC); (SC_Remove, handle_not_implemented_SC);
   (SC_ThreadFork, handle_not_implemented_SC); (SC_ThreadYield, handle_not_implemented_SC);
   (SC_ExecV, handle_not_implemented_SC); (SC_ThreadExit, handle_not_implemented_SC);
   (SC_ThreadJoin, handle_not_implemented_SC)].

Fixpoint switch (type : Z) (cases : list (Z * (machine -> run))) (m : machine) : run :=
  match cases with
  | [] => Fail AssertFailure
  | (n, h) :: cases' => if type =? n then h m else switch type cases' m
  end.

(** [ExceptionHandler]: the calls that come to the end of the function fail its
    [ASSERTNOTREACHED]. *)
Definition ExceptionHandler (which : ExceptionType) (m : machine) : run :=
  to_run (let* type := ReadRegister 2 m in
          match which with
          | SyscallException => Ok (switch type handlers m)
          | _ => let* m := trap which m in Ok (Done m)
          end).

(** ** Services *)

(** The parts of the kernel that serve the calls of the current process; [seed]
    is the state of the host's random numbers, [wire] what was sent. *)
Record devices (H : Type) := mkDevices {
  consoleIn : Console.SynchConsoleInput;
  consoleOut : Console.SynchConsoleOutput;
  fileSystem : FileTable.FileSystem;
  host : H;
  sockets : Kernel.kernel;
  wire : list Ethernet.net_event;
  semTab : STable.STable;
  threads : Threads.state;
  processID : Z;
  seed : Z
}.

Arguments consoleIn {H}. Arguments consoleOut {H}. Arguments fileSystem {H}. Arguments host {H}.
Arguments sockets {H}. Arguments wire {H}. Arguments semTab {H}. Arguments threads {H}.
Arguments processID {H}. Arguments seed {H}.

Section Services.
Context {H : Type} `{Unix H}.

(** [random()] and [rand()]; the number of the machine; the memory that a new
    semaphore, the checksum of a datagram and [_numberBuffer] have before they
    are written. *)
Variable random : Z -> Z * Z.
Variable hostName : Z.
Variables name_garbage number_garbage : list Z.
Variable checksum_garbage : Z.

Definition set_consoleIn c (d : devices H) : devices H :=
  mkDevices H c (consoleOut d) (fileSystem d) (host d) (sockets d) (wire d) (semTab d) (threads d) (processID d) (seed d).
Definition set_consoleOut c (d : devices H) : devices H :=
  mkDevices H (consoleIn d) c (fileSystem d) (host d) (sockets d) (wire d) (semTab d) (threads d) (processID d) (seed d).
Definition set_files fs h (d : devices H) : devices H :=
  mkDevices H (consoleIn d) (consoleOut d) fs h (sockets d) (wire d) (semTab d) (threads d) (processID d) (seed d).
Definition set_sockets k w (d : devices H) : devices H :=
  mkDevices H (consoleIn d) (consoleOut d) (fileSystem d) (host d) k w (semTab d) (threads d) (processID d) (seed d).
Definition set_semTab t st (d : devices H) : devices H :=
  mkDevices H (consoleIn d) (consoleOut d) (fileSystem d) (host d) (sockets d) (wire d) t st (processID d) (seed d).
Definition set_seed x (d : devices H) : devices H :=
  mkDevices H (consoleIn d) (consoleOut d) (fileSystem d) (host d) (sockets d) (wire d) (semTab d) (threads d) (processID d) x.

Definition SysRandomNum (d : devices H) : Z * devices H :=
  let '(r, x) := random (seed d) in (r, set_seed x d).

Definition SysCreateFile (fileName : list Z) (d : devices H) : res (bool * devices H) :=
  let* fileNameLength := strlen fileName in
  if fileNameLength =? 0 then Ok (false, d)
  else
    let3* (ok, fs, h) := FileTable.fs_Create (processID d) fileName (fileSystem d) (host d) in
    Ok (ok, set_files fs h d).

Definition SysOpen (fileName : list Z) (type : Z) (d : devices H) : res (Z * devices H) :=
  if negb (type =? 0) && negb (type =? 1) then Ok (-1, d)
  else
    let3* (id, fs, h) := FileTable.fs_Open (processID d) fileName type (fileSystem d) (host d) in
    Ok (if id =? -1 then -1 else id, set_files fs h d).

Definition SysClose (id : Z) (d : devices H) : res (Z * devices H) :=
  let3* (r, fs, h) := FileTable.fs_Close (processID d) id (fileSystem d) (host d) in
  Ok (r, set_files fs h d).

(** [SysRead]: what it stores in the buffer, and its result. *)
Definition SysRead (charCount fileId : Z) (d : devices H) : res (list Z * Z * devices H) :=
  if fileId =? 0 then
    let3* (l, r, c) := Console.GetString charCount (consoleIn d) in
    Ok (l, r, set_consoleIn c d)
  else
    let3* (br, fs, h) := FileTable.fs_Read (processID d) charCount fileId (fileSystem d) (host d) in
    Ok (br.1, br.2, set_files fs h d).

Definition SysWrite (buffer : list Z) (charCount fileId : Z) (d : devices H) : res (Z * devices H) :=
  if fileId =? 1 then
    let2* (r, c) := Console.PutString buffer charCount (consoleOut d) in
    Ok (r, set_consoleOut c d)
  else
    let* bs := read_bytes buffer (Z.to_nat charCount) in
    let3* (r, fs, h) := FileTable.fs_Write (processID d) bs fileId (fileSystem d) (host d) in
    Ok (r, set_files fs h d).

Definition SysSeek (seekPos fileId : Z) (d : devices H) : res (Z * devices H) :=
  if fileId <=? 1 then Ok (-1, d)
  else
    let3* (r, fs, h) := FileTable.fs_Seek (processID d) seekPos fileId (fileSystem d) (host d) in
    Ok (r, set_files fs h d).

(** The result of a semaphore call: on an error the name is deleted. *)
Definition sem_reply (r : Z) : reply :=
  if r =? -1 then mkReply (-1) [] true else int_reply 0.

Definition SysCreateSemaphore (name : list Z) (initialValue : Z) (d : devices H) : res (reply * devices H) :=
  let3* (r, t, st) := STable.Create name_garbage name initialValue (semTab d) (threads d) in
  Ok (sem_reply r, set_semTab t st d).

(** [SysWait] up to [Semaphore::P], if the name is found. *)
Definition SysWait (name : list Z) (d : devices H) : res (reply * option Threads.call) :=
  let2* (r, c) := STable.Wait name (semTab d) in
  Ok (sem_reply r, c).

Definition SysSignal (name : list Z) (d : devices H) : res (reply * devices H) :=
  let2* (r, c) := STable.Signal name (semTab d) in
  match c with
  | Some (Threads.CallV s) =>
      let* st := Threads.V s (threads d) in
      Ok (sem_reply r, set_semTab (semTab d) st d)
  | _ => Ok (sem_reply r, d)
  end.

Definition SysGetPid (d : devices H) : Z := processID d.

Definition with_value {A} (f : A -> reply) (x : res (A * devices H)) : option (res (reply * devices H)) :=
  Some (let2* (v, d) := x in Ok (f v, d)).

(** The requests that are served at once.  [None] if the thread has to wait; for
    Exec, Join and Exit, which PTable.v carries out; and for a negative number
    of characters, which the host would take as a size of almost 4 GB. *)
Definition serve (r : request) (d : devices H) : option (res (reply * devices H)) :=
  match r with
  | ReadNum => Some (let2* (v, c) := SysNum.SysReadNum (consoleIn d) in Ok (int_reply v, set_consoleIn c d))
  | PrintNum num =>
      Some (let* c := SysNum.SysPrintNum number_garbage num (consoleOut d) in Ok (int_reply 0, set_consoleOut c d))
  | ReadChar => Some (let2* (v, c) := SysNum.SysReadChar (consoleIn d) in Ok (int_reply v, set_consoleIn c d))
  | PrintChar ch => Some (let* c := SysNum.SysPrintChar ch (consoleOut d) in Ok (int_reply 0, set_consoleOut c d))
  | RandomNum => with_value int_reply (Ok (SysRandomNum d))
  | ReadString n =>
      Some (let2* (b, c) := SysNum.SysReadString n (consoleIn d) in Ok (mkReply 0 b false, set_consoleIn c d))
  | PrintString b n =>
      Some (let* c := SysNum.SysPrintString b n (consoleOut d) in Ok (int_reply 0, set_consoleOut c d))
  | CreateFile name => with_value (fun ok : bool => int_reply (if ok then 1 else 0)) (SysCreateFile name d)
  | Open name type => with_value int_reply (SysOpen name type d)
  | Close id => with_value int_reply (SysClose id d)
  | Read _ n id =>
      if n <? 0 then None
      else Some (let3* (l, v, d) := SysRead n id d in Ok (mkReply v l false, d))
  | Write b n id => if n <? 0 then None else with_value int_reply (SysWrite b n id d)
  | Seek pos id => with_value int_reply (SysSeek pos id d)
  | CreateSemaphore name v => Some (SysCreateSemaphore name v d)
  | Wait name =>
      match SysWait name d with
      | Ok (v, None) => Some (Ok (v, d))
      | Ok (_, Some _) => None
      | Err e => Some (Err e)
      end
  | Signal name => Some (SysSignal name d)
  | GetPid => Some (Ok (int_reply (SysGetPid d), d))
  | CreateSocket => let '(v, k) := Kernel.get_socket (sockets d) in Some (Ok (int_reply v, set_sockets k (wire d) d))
  | CloseSocket s => Some (Ok (int_reply 0, set_sockets (Kernel.deleteSocket s (sockets d)) (wire d) d))
  | Bind s port =>
      let '(v, k) := Kernel.insert_bind_socket s port (sockets d) in
      Some (Ok (int_reply v, set_sockets k (wire d) d))
  | Connect s ip src dst =>
      Some (let2* (v, k) := Kernel.insert_connect_socket s ip src dst (sockets d) in
            Ok (int_reply v, set_sockets k (wire d) d))
  | SendMsg s msg =>
      let '(x, sd) := random (seed d) in
      Some (let2* (v, ev) := Kernel.send_message hostName x checksum_garbage s msg (sockets d) in
            Ok (int_reply v, set_sockets (sockets d) (wire d ++ ev) (set_seed sd d)))
  | RecvMsg msg size s =>
      match Kernel.getData msg size s (sockets d) with
      | Ok (Kernel.RecvReturns v b k) => Some (Ok (mkReply v b false, set_sockets k (wire d) d))
      | Ok (Kernel.RecvWaits _) => None
      | Err e => Some (Err e)
      end
  | Exec _ | Join _ | Exit _ => None
  end.

(** A handler run on the services, until it is done or its thread waits. *)
Inductive outcome :=
| Finished (m : machine) (d : devices H)
| Failed (e : err)
| Waits (r : request) (m : machine) (d : devices H).

Fixpoint interp (x : run) (d : devices H) : outcome :=
  match x with
  | Done m => Finished m d
  | Fail e => Failed e
  | Call r m k =>
      match serve r d with
      | Some (Ok (v, d')) => interp (k v m) d'
      | Some (Err e) => Failed e
      | None => Waits r m d
      end
  end.

End Services.

(** ** What a handler does to the program *)

Definition with_regs (rs : list Z) (m : machine) : machine :=
  {| registers := rs; mainMemory := mainMemory m; tlb := tlb m; pageTable := pageTable m;
     pageTableSize := pageTableSize m; status := status m |}.

(** The registers after [move_program_counter]. *)
Definition next (rs : list Z) : list Z :=
  let pc := default 0 (rs !! Z.to_nat PCReg) in
  let n := default 0 (rs !! Z.to_nat NextPCReg) in
  <[Z.to_nat NextPCReg := s32 (n + 4)]> (<[Z.to_nat PCReg := n]> (<[Z.to_nat PrevPCReg := pc]> rs)).

Lemma ReadRegister_reg m n : 0 <= n < 40 -> ReadRegister n m = reg n m.
Proof.
  intros Hn. unfold ReadRegister. rewrite (proj2 (Z.leb_le 0 n)), (proj2 (Z.ltb_lt n NumTotalRegs)) by regnum. done.
Qed.

Lemma ReadRegister_ok m n : machine_ok m -> 0 <= n < 40 ->
  exists v, ReadRegister n m = Ok v /\ registers m !! Z.to_nat n = Some v /\ is_s32 v.
Proof.
  intros Hm Hn. rewrite ReadRegister_reg by done. destruct (reg_Ok m n Hm Hn) as (v & E & Hv). exists v.
  split; [done|]. split; [|done]. by apply arr_get_Ok in E as [_ E].
Qed.

Lemma WriteRegister_ok m n v : machine_ok m -> 0 <= n < 40 -> WriteRegister n v m = Ok (with_reg n v m).
Proof.
  intros Hm Hn. unfold WriteRegister.
  rewrite (proj2 (Z.leb_le 0 n)), (proj2 (Z.ltb_lt n NumTotalRegs)) by regnum. cbn [andb ASSERT rbind].
  apply set_reg_Ok; [apply Hm|done].
Qed.

Lemma move_program_counter_ok m : machine_ok m ->
  move_program_counter m = Ok (with_regs (next (registers m)) m) /\
  machine_ok (with_regs (next (registers m)) m).
Proof.
  intros Hm. destruct (ReadRegister_ok m PCReg Hm) as (pc & E1 & L1 & S1); [regnum|].
  destruct (ReadRegister_ok m NextPCReg Hm) as (n & E2 & L2 & S2); [regnum|].
  unfold move_program_counter. rewrite E1. cbn [rbind]. rewrite WriteRegister_ok by (done || regnum). cbn [rbind].
  assert (machine_ok (with_reg PrevPCReg pc m)) as Hm1 by (apply with_reg_ok; [done|regnum|regnum]).
  rewrite ReadRegister_reg, reg_with_reg, decide_False, <- ReadRegister_reg, E2 by (done || regnum || apply Hm). cbn [rbind].
  rewrite WriteRegister_ok by (done || regnum). cbn [rbind].
  assert (machine_ok (with_reg PCReg n (with_reg PrevPCReg pc m))) as Hm2 by (apply with_reg_ok; [done|regnum|regnum]).
  rewrite ReadRegister_reg, !reg_with_reg, !decide_False, <- ReadRegister_reg, E2
    by (done || regnum || apply Hm || apply Hm1). cbn [rbind].
  rewrite WriteRegister_ok by (done || regnum).
  assert (with_reg NextPCReg (n + 4) (with_reg PCReg n (with_reg PrevPCReg pc m)) =
    with_regs (next (registers m)) m) as E.
  { unfold with_reg, with_regs, next. cbn [registers mainMemory tlb pageTable pageTableSize status].
    rewrite L1, L2. cbn [default]. by rewrite !(s32_id pc), !(s32_id n) by done. }
  rewrite <- E. split; [done|]. apply with_reg_ok; [done|regnum|regnum].
Qed.

Lemma return_void_ok m : machine_ok m ->
  return_void m = Done (with_regs (next (registers m)) m) /\ machine_ok (with_regs (next (registers m)) m).
Proof. intros Hm. unfold return_void. by destruct (move_program_counter_ok m Hm) as [-> ?]. Qed.

Lemma return_value_ok v m : machine_ok m ->
  return_value v m = Done (with_regs (next (<[2%nat := s32 v]> (registers m))) m) /\
  machine_ok (with_regs (next (<[2%nat := s32 v]> (registers m))) m).
Proof.
  intros Hm. unfold return_value. rewrite WriteRegister_ok by (done || lia). cbn [rbind to_run].
  assert (machine_ok (with_reg 2 v m)) as Hm1 by (apply with_reg_ok; [done|lia|regnum]).
  destruct (return_void_ok _ Hm1) as [-> ?]. done.
Qed.

(** The program while its handler waits for a service: its registers and its
    memory stay as they are (the machine itself may have run others). *)
Definition kept (m m' : machine) : Prop :=
  registers m' = registers m /\ pageTableSize m' = pageTableSize m /\ machine_ok m' /\
  forall va, byte_at m' va = byte_at m va.

(** What the services promise: strings in buffers end, reads fit, and the
    semaphore is found. *)
Definition replies (r : request) (v : reply) : Prop :=
  match r with
  | ReadString _ | RecvMsg _ _ _ => exists s, c_str (bytes v) = Ok s
  | Read buffer _ _ => (length (bytes v) <= length buffer)%nat
  | CreateSemaphore _ _ | Wait _ | Signal _ => freed v = false
  | _ => True
  end.

(** All the ways a handler can go: it may halt only if [halts]. *)
Fixpoint outcomes (halts : Prop) (Q : list (request * reply) -> machine -> Prop)
    (log : list (request * reply)) (x : run) : Prop :=
  match x with
  | Done m => Q log m
  | Fail e => e = Halted /\ halts
  | Call r m k => forall v m', kept m m' -> replies r v -> outcomes halts Q (log ++ [(r, v)]) (k v m')
  end.

(** The system calls that pass strings. *)
Definition string_calls : list Z :=
  [SC_ReadString; SC_PrintString; SC_CreateFile; SC_Open; SC_Read; SC_Write; SC_Exec; SC_CreateSemaphore;
   SC_Wait; SC_Signal; SC_Connect; SC_Send_Msg; SC_Recv_Msg].

(** Those that store into the memory of the program. *)
Definition storing_calls : list Z := [SC_ReadString; SC_Read; SC_Write; SC_Recv_Msg].

(** r2 after the call: the reply, or what it was. *)
Definition result (type : Z) (rs : list Z) (log : list (request * reply)) : Z :=
  let old := default 0 (rs !! 2%nat) in
  match log with
  | [] => if type =? SC_Add then SysAdd (default 0 (rs !! 4%nat)) (default 0 (rs !! 5%nat)) else old
  | (r, v) :: _ =>
      match r with
      | PrintNum _ | PrintChar _ | PrintString _ _ | ReadString _ => old
      | CreateFile _ => if value v =? 0 then -1 else 0
      | CloseSocket _ => 1
      | _ => s32 (value v)
      end
  end.

Definition effect (type : Z) (m : machine) (log : list (request * reply)) (m' : machine) : Prop :=
  machine_ok m' /\ registers m' = next (<[2%nat := result type (registers m) log]> (registers m)) /\
  (type ∉ storing_calls -> forall va, byte_at m' va = byte_at m va).

Definition good (type : Z) (h : machine -> run) : Prop :=
  forall m, machine_ok m -> pageTableSize m <= NumPhysPages ->
    (type = SC_Read -> registers m !! 5%nat <> Some (-1)) ->
    outcomes (type ∈ string_calls) (effect type m) [] (h m).

(** The ends of handlers. *)
Lemma end_value type m log v m' : machine_ok m' -> registers m' = registers m ->
  (type ∉ storing_calls -> forall va, byte_at m' va = byte_at m va) ->
  s32 v = result type (registers m) log -> outcomes (type ∈ string_calls) (effect type m) log (return_value v m').
Proof.
  intros Hm' Hr Hb Hv. destruct (return_value_ok v m' Hm') as [-> Hok]. cbn [outcomes].
  split; [done|]. split; [|done]. cbn [with_regs registers]. by rewrite Hr, Hv.
Qed.

Lemma end_void type m log m' : machine_ok m' -> registers m' = registers m ->
  (type ∉ storing_calls -> forall va, byte_at m' va = byte_at m va) ->
  result type (registers m) log = default 0 (registers m !! 2%nat) ->
  outcomes (type ∈ string_calls) (effect type m) log (return_void m').
Proof.
  intros Hm' Hr Hb Hv. destruct (return_void_ok m' Hm') as [-> Hok]. cbn [outcomes].
  split; [done|]. split; [|done]. cbn [with_regs registers]. rewrite Hr, Hv.
  destruct (lookup_lt_is_Some_2 (registers m) 2) as [x Hx]; [rewrite <- Hr; destruct Hm' as ((-> & _) & _); lia|].
  rewrite Hx. cbn [default]. by rewrite list_insert_id.
Qed.

(** Reading the arguments of a call. *)
Ltac read_args :=
  repeat match goal with
  | Hm : machine_ok ?m |- context [ReadRegister ?n ?m] =>
      let v := fresh "arg" in let E := fresh "Earg" in let L := fresh "Larg" in
      destruct (ReadRegister_ok m n Hm) as (v & E & L & _); [lia|]; rewrite E; cbn [rbind to_run];
      let k := eval vm_compute in (Z.to_nat n) in change (Z.to_nat n) with k in L
  end.

(** Reading a string argument: the machine halts, or goes on as [m1]. *)
Ltac read_string Hn :=
  match goal with
  | Hm : machine_ok ?m |- context [stringUser2System ?a (-1) ?m] =>
      let buf := fresh "buf" in let s := fresh "s" in let m1 := fresh "m1" in
      let E := fresh "E" in let Hs := fresh "Hsim" in let Hm1 := fresh "Hm1" in let Ec := fresh "Ec" in
      destruct (stringUser2System_total a m Hm Hn) as [(buf & s & m1 & E & Hs & Hm1 & Ec)|E]; rewrite E;
      cbn [rbind to_run outcomes]; [|split; [done|set_solver]];
      destruct (similar_fields _ _ Hs) as (? & ? & ? & ?)
  end.

Ltac call_value :=
  cbn [outcomes app]; intros v m' (Hkr & Hks & Hkm & Hkb) Hreply;
  apply end_value; [done|congruence|intros _ va; rewrite ?Hkb; first [done|by match goal with H : similar _ _ |- _ => rewrite H end]|].

Ltac call_void :=
  cbn [outcomes app]; intros v m' (Hkr & Hks & Hkm & Hkb) Hreply;
  apply end_void; [done|congruence|intros _ va; rewrite ?Hkb; first [done|by match goal with H : similar _ _ |- _ => rewrite H end]|].

Ltac open_handler := match goal with |- outcomes _ _ _ (?h _) => unfold h end; read_args.

Lemma good_add : good SC_Add handle_SC_Add.
Proof.
  intros m Hm Hn _. open_handler. apply end_value; try done.
  cbn [result]. change (SC_Add =? SC_Add) with true. cbv iota. rewrite Larg, Larg0. cbn [default].
  apply s32_id, s32_range.
Qed.

Lemma good_not_implemented type : type <> SC_Add -> good type handle_not_implemented_SC.
Proof.
  intros Ht m Hm Hn _. unfold handle_not_implemented_SC. apply end_void; try done.
  cbn [result]. by rewrite (proj2 (Z.eqb_neq type SC_Add)).
Qed.

Lemma good_create_file : good SC_CreateFile handle_SC_CreateFile.
Proof.
  intros m Hm Hn _. open_handler. read_string Hn. call_value. cbn [result]. by destruct (value v =? 0).
Qed.

Lemma good_print_string : good SC_PrintString handle_SC_PrintString.
Proof.
  intros m Hm Hn _. open_handler. read_string Hn.
  destruct (c_str_strlen _ _ Ec) as [-> _]. cbn [rbind to_run]. call_void. done.
Qed.

Lemma good_connect : good SC_Connect handle_SC_Connect.
Proof. intros m Hm Hn _. open_handler. read_string Hn. read_args. rewrite Ec. cbn [rbind to_run]. call_value. done. Qed.

(** The end of the semaphore calls. *)
Lemma end_named type m log v m' : machine_ok m' -> registers m' = registers m -> freed v = false ->
  (type ∉ storing_calls -> forall va, byte_at m' va = byte_at m va) ->
  s32 (value v) = result type (registers m) log ->
  outcomes (type ∈ string_calls) (effect type m) log (return_named v m').
Proof.
  intros Hm' Hr Hf Hb Hv. unfold return_named. rewrite Hf.
  exact (end_value type m log (value v) m' Hm' Hr Hb Hv).
Qed.

Ltac call_named :=
  cbn [outcomes app]; intros v m' (Hkr & Hks & Hkm & Hkb) Hreply;
  apply end_named; [done|congruence|done|intros _ va; rewrite Hkb; by match goal with H : similar _ _ |- _ => rewrite H end|done].

Lemma good_semaphores : good SC_CreateSemaphore handle_SC_CreateSemaphore /\
  good SC_Wait handle_SC_Wait /\ good SC_Signal handle_SC_Signal.
Proof. split_and!; intros m Hm Hn _; open_handler; read_string Hn; call_named. Qed.

(** Storing a string, at the end of a call. *)
Lemma store_then type m log m' str addr cl k :
  machine_ok m' -> type ∈ string_calls ->
  (cl = -1 -> exists s, c_str str = Ok s) -> (cl <> -1 -> cl <= Z.of_nat (length str)) ->
  (forall m2, machine_ok m2 -> registers m2 = registers m' ->
     outcomes (type ∈ string_calls) (effect type m) log (k m2)) ->
  outcomes (type ∈ string_calls) (effect type m) log
    (to_run (let* m2 := StringSys2User str addr cl m' in Ok (k m2))).
Proof.
  intros Hm' Ht Hs Hn Hk. destruct (StringSys2User_total str addr cl m' Hm' Hs Hn) as [(m2 & -> & Hm2 & Hr2)| ->].
  - cbn [rbind to_run]. by apply Hk.
  - cbn. done.
Qed.

Lemma good_read_string : good SC_ReadString handle_SC_ReadString.
Proof.
  intros m Hm Hn _. open_handler. destruct (MAX_READ_STRING_LENGTH <? arg0); [cbn; split; [done|set_solver]|].
  cbn [to_run outcomes app]. intros v m' (Hkr & Hks & Hkm & Hkb) [s Hs].
  apply store_then; try done; [set_solver|by exists s|]. intros m2 Hm2 Hr2.
  apply end_void; [done|congruence| |done]. intros Hnot. set_solver.
Qed.

Lemma good_recv : good SC_Recv_Msg handle_SC_Recv_Msg.
Proof.
  intros m Hm Hn _. open_handler. cbn [outcomes app]. intros v m' (Hkr & Hks & Hkm & Hkb) [s Hs].
  apply store_then; try done; [set_solver|by exists s|]. intros m2 Hm2 Hr2.
  apply end_value; [done|congruence| |done]. intros Hnot. set_solver.
Qed.

(** The result is stored before the buffer is copied. *)
Lemma end_stored type m log v m1 : type ∈ storing_calls -> machine_ok m1 ->
  registers m1 = <[2%nat := s32 v]> (registers m) -> s32 v = result type (registers m) log ->
  outcomes (type ∈ string_calls) (effect type m) log (return_void m1).
Proof.
  intros Ht Hm1 Hr Hv. destruct (return_void_ok m1 Hm1) as [-> Hok]. cbn [outcomes].
  split; [done|]. split; [|done]. cbn [with_regs registers]. by rewrite Hr, Hv.
Qed.

Lemma good_write : good SC_Write handle_SC_Write.
Proof.
  intros m Hm Hn _. open_handler.
  destruct (user_string_bytes arg arg0 m Hm Hn) as [(bs & m1 & -> & Hs & Hm1 & _ & Hz & Hl)|[-> _]];
    cbn [rbind to_run outcomes]; [|split; [done|set_solver]]. read_args.
  destruct (similar_fields _ _ Hs) as (Hreg & _). cbn [outcomes app].
  intros v m' (Hkr & Hks & Hkm & Hkb) _. rewrite WriteRegister_ok by (done || lia). cbn [rbind].
  apply store_then; try done.
  - apply with_reg_ok; [done|lia|regnum].
  - set_solver.
  - intros ->. destruct (Hz eq_refl) as (s & -> & _). rewrite map_app. cbn [map]. change (s8 0) with 0.
    apply (c_str_ends (map s8 s)).
  - intros Hne. rewrite length_map. destruct (Hl Hne). lia.
  - intros m2 Hm2 Hr2. apply (end_stored _ _ _ (value v)); [set_solver|done| |done].
    rewrite Hr2, Hreg, <- Hkr. done.
Qed.

Lemma good_read : good SC_Read handle_SC_Read.
Proof.
  intros m Hm Hn Hr5. open_handler.
  destruct (user_string_bytes arg arg0 m Hm Hn) as [(bs & m1 & -> & Hs & Hm1 & _ & Hz & Hl)|[-> _]];
    cbn [rbind to_run outcomes]; [|split; [done|set_solver]]. read_args.
  destruct (similar_fields _ _ Hs) as (Hreg & _). cbn [outcomes app].
  intros v m' (Hkr & Hks & Hkm & Hkb) Hlen. cbn [replies] in Hlen. unfold fill.
  rewrite (proj2 (Nat.leb_le _ _) Hlen). cbn [rbind]. rewrite WriteRegister_ok by (done || lia). cbn [rbind].
  assert (arg0 <> -1) as Hne by (intros ->; by apply Hr5). destruct (Hl Hne) as [Hpos Hle].
  apply store_then; try done.
  - apply with_reg_ok; [done|lia|regnum].
  - set_solver.
  - intros _. rewrite length_memcpy by lia. rewrite length_map. lia.
  - intros m2 Hm2 Hr2. apply (end_stored _ _ _ (value v)); [set_solver|done| |done].
    rewrite Hr2, Hreg, <- Hkr. done.
Qed.

Lemma good_handlers : Forall (fun c => c.1 <> SC_Halt -> good c.1 c.2) handlers.
Proof.
  unfold handlers.
  repeat (constructor; [cbn [fst snd]; intros Hne|]); try done; try (by apply good_not_implemented);
    first [by apply good_add|by apply good_create_file|by apply good_print_string|by apply good_connect
          |by apply good_semaphores|by apply good_read_string|by apply good_recv|by apply good_write
          |by apply good_read|idtac]; intros m Hm Hn _; open_handler.
  all: try (read_string Hn; read_args).
  all: first [call_value; done|call_void; done].
Qed.

Lemma switch_good cases type m : Forall (fun c => c.1 <> SC_Halt -> good c.1 c.2) cases ->
  type ∈ map fst cases -> type <> SC_Halt -> machine_ok m -> pageTableSize m <= NumPhysPages ->
  (type = SC_Read -> registers m !! 5%nat <> Some (-1)) ->
  outcomes (type ∈ string_calls) (effect type m) [] (switch type cases m).
Proof.
  intros Hc Hin Hh Hm Hn Hr. induction Hc as [|[n h] cases Hg _ IH]; [set_solver|]. cbn [switch].
  destruct (Z.eqb_spec type n) as [->|Hne]; [by apply Hg|]. apply IH. set_solver.
Qed.

(** ** Properties *)

Lemma syscall_switch m type : registers m !! 2%nat = Some type ->
  ExceptionHandler SyscallException m = switch type handlers m.
Proof.
  intros H. unfold ExceptionHandler. rewrite ReadRegister_reg by lia. unfold reg.
  by rewrite (arr_get_lookup _ 2 type) by done.
Qed.


Lemma switch_unknown type cases m : type ∉ map fst cases -> switch type cases m = Fail AssertFailure.
Proof.
  induction cases as [|[n h] cases IH]; [done|]. cbn [map fst switch]. intros Hnot.
  rewrite (proj2 (Z.eqb_neq type n)) by set_solver. apply IH. set_solver.
Qed.

(** What ends the simulation.  An exception of the program (a page fault, a
    bad address, an overflow, an illegal instruction) and the call Halt stop the
    machine; a number that is no system call takes the kernel down with a failed
    assertion. *)
Theorem fatal_traps m type which :
  machine_ok m -> registers m !! 2%nat = Some type ->
  (which <> SyscallException -> which <> NoException -> ExceptionHandler which m = Fail Halted) /\
  (type = SC_Halt -> ExceptionHandler SyscallException m = Fail Halted) /\
  (type ∉ map fst handlers -> ExceptionHandler SyscallException m = Fail AssertFailure).
Proof.
  intros Hm H2. split_and!.
  - intros H1 H0. unfold ExceptionHandler. rewrite ReadRegister_reg by lia. unfold reg.
    rewrite (arr_get_lookup _ 2 type) by done. cbn [rbind]. destruct which; try done.
  - intros ->. by rewrite (syscall_switch m SC_Halt).
  - intros Hnot. rewrite (syscall_switch m type) by done. by apply switch_unknown.
Qed.

(** The program after a wait, with its page table. *)
Definition resumed (m m' : machine) : Prop :=
  kept m m' /\ frames_distinct m' /\ forall va, writable m' va <-> writable m va.

(** The end of Read and Write: the buffer and a zero go to the program. *)
Lemma store_buffer m m2 buf addr n v :
  resumed m m2 -> 0 <= addr -> addr + n < 2 ^ 31 -> Z.of_nat (length buf) = n -> 0 < n ->
  (forall k, 0 <= k <= n -> writable m (addr + k)) ->
  exists m', to_run (let* m3 := WriteRegister 2 v m2 in
      let* m4 := StringSys2User buf addr n m3 in Ok (return_void m4)) = Done m' /\
    (forall k c, buf !! k = Some c -> byte_at m' (addr + Z.of_nat k) = Some (u8 c)) /\
    byte_at m' (addr + n) = Some 0 /\
    forall va, is_u32 va -> ~ addr <= va <= addr + n -> byte_at m' va = byte_at m va.
Proof.
  intros ((Hreg & Hsz & Hok & Hb) & Hd & Hwr) H0 H1 Hlen Hpos Hw.
  rewrite WriteRegister_ok by (done || lia). cbn [rbind].
  destruct (StringSys2User_spec buf addr n buf (with_reg 2 v m2)) as (m3 & -> & W); try done.
  - apply with_reg_ok; [done|lia|regnum].
  - lia.
  - intros k Hk. change (writable m2 (addr + k)). apply Hwr, Hw. lia.
  - rewrite (proj2 (Z.eqb_neq n (-1))) by lia. by rewrite firstn_all.
  - cbn [rbind to_run]. destruct (return_void_ok m3) as [-> _]; [apply W|]. eexists. split; [reflexivity|].
    change (byte_at (with_regs (next (registers m3)) m3)) with (byte_at m3). split_and!.
    + intros k c Hk. apply W. apply lookup_app_l_Some. by rewrite list_lookup_fmap, Hk.
    + rewrite <- Hlen. rewrite <- (length_map u8 buf). apply W. apply list_lookup_middle. done.
    + intros va Hva Hout. rewrite (w_other _ _ _ _ W va Hva); [apply Hb|].
      rewrite length_app, length_map. cbn [length]. lia.
Qed.

Lemma read_buffer m addr n bs : machine_ok m -> pageTableSize m <= NumPhysPages ->
  Z.of_nat (length bs) = n -> 0 < n -> 0 <= addr -> addr + n < 2 ^ 31 ->
  (forall k b, bs !! k = Some b -> byte_at m (addr + Z.of_nat k) = Some b) ->
  exists m1, stringUser2System addr n m = Ok (map s8 bs, m1) /\ similar m1 m /\ machine_ok m1.
Proof.
  intros Hm Hn Hl Hpos H0 H1 Hbs.
  assert (forall k b, bs !! k = Some b -> byte_at m (s32 (addr + Z.of_nat k)) = Some b) as Hbs'.
  { intros k b Hk. apply lookup_lt_Some in Hk as Hlt. rewrite s32_id by (unfold is_s32; lia). by apply Hbs. }
  destruct (user_string_bytes addr n m Hm Hn) as [(bs' & m1 & E & Hs & Hm1 & Hb & _ & Hlen)|(_ & k & Hk & Hnone & Hlt & _)].
  - exists m1. rewrite E. split; [|done]. do 3 f_equal. apply list_eq. intros i.
    destruct (Hlen ltac:(lia)) as [_ Hl'].
    destruct (decide (i < length bs)%nat) as [Hi|Hi].
    + destruct (lookup_lt_is_Some_2 bs i Hi) as [x Hx]. destruct (lookup_lt_is_Some_2 bs' i) as [y Hy]; [lia|].
      pose proof (Hbs' i x Hx). pose proof (Hb i y Hy). congruence.
    + rewrite !lookup_ge_None_2 by lia. done.
  - exfalso. destruct (lookup_lt_is_Some_2 bs (Z.to_nat k)) as [x Hx]; [specialize (Hlt Hpos); lia|].
    apply Hbs' in Hx. rewrite Z2Nat.id in Hx by lia. congruence.
Qed.

(** The buffers of file calls.  Write passes exactly the bytes of the
    program's buffer on, and Read leaves in it what was read, the rest as it
    was.  But both store a zero byte behind the buffer, which destroys a byte
    of the program that is not part of it, even for Write. *)
Theorem file_buffers m addr n id bs :
  machine_ok m -> pageTableSize m <= NumPhysPages ->
  registers m !! 4%nat = Some addr -> registers m !! 5%nat = Some n -> registers m !! 6%nat = Some id ->
  Z.of_nat (length bs) = n -> 0 < n -> 0 <= addr -> addr + n < 2 ^ 31 ->
  (forall k b, bs !! k = Some b -> byte_at m (addr + Z.of_nat k) = Some b) ->
  (forall k, 0 <= k <= n -> writable m (addr + k)) ->
  (registers m !! 2%nat = Some SC_Write ->
   exists m1 k, ExceptionHandler SyscallException m = Call (Write (map s8 bs) n id) m1 k /\ similar m1 m /\
     forall v m2, resumed m m2 -> exists m', k v m2 = Done m' /\
       byte_at m' (addr + n) = Some 0 /\
       forall va, is_u32 va -> va <> addr + n -> byte_at m' va = byte_at m va) /\
  (registers m !! 2%nat = Some SC_Read ->
   exists m1 k, ExceptionHandler SyscallException m = Call (Read (map s8 bs) n id) m1 k /\ similar m1 m /\
     forall v m2, resumed m m2 -> (length (bytes v) <= length bs)%nat -> exists m', k v m2 = Done m' /\
       (forall i c, bytes v !! i = Some c -> byte_at m' (addr + Z.of_nat i) = Some (u8 c)) /\
       byte_at m' (addr + n) = Some 0 /\
       forall va, is_u32 va -> ~ addr <= va < addr + Z.of_nat (length (bytes v)) -> va <> addr + n ->
         byte_at m' va = byte_at m va).
Proof.
  intros Hm Hn H4 H5 H6 Hl Hpos H0 H1 Hbs Hw.
  destruct (read_buffer m addr n bs) as (m1 & E & Hs & Hm1); try done.
  destruct (similar_fields _ _ Hs) as (Hreg & _).
  assert (Forall is_u8 bs) as Hu.
  { rewrite Forall_lookup. intros k b Hk. by destruct (byte_at_Some m _ b Hm (Hbs k b Hk)) as (_ & _ & _ & _ & ?). }
  assert (forall va, is_u32 va -> addr <= va < addr + n -> exists k b, va = addr + Z.of_nat k /\ bs !! k = Some b /\
    byte_at m va = Some b) as Hin.
  { intros va _ Hva. destruct (lookup_lt_is_Some_2 bs (Z.to_nat (va - addr))) as [b Hb]; [lia|].
    exists (Z.to_nat (va - addr)), b. split; [lia|]. split; [done|]. rewrite <- (Hbs _ _ Hb). f_equal. lia. }
  assert (forall b, is_u8 b -> u8 (s8 b) = b) as Hus by (intros b Hb; clear - Hb; zlia).
  rewrite Forall_lookup in Hu. split; intros H2.
  - rewrite (syscall_switch m SC_Write) by done.
    change (switch SC_Write handlers m) with (handle_SC_Write m). unfold handle_SC_Write.
    rewrite !ReadRegister_reg by lia. unfold reg. rewrite (arr_get_lookup _ 4 addr), (arr_get_lookup _ 5 n) by done.
    cbn [rbind]. rewrite E. cbn [rbind]. rewrite ReadRegister_reg by lia. unfold reg. rewrite <- Hreg.
    rewrite (arr_get_lookup _ 6 id) by done. cbn [rbind to_run]. eexists _, _. split; [reflexivity|].
    split; [done|]. intros v m2 Hres.
    destruct (store_buffer m m2 (map s8 bs) addr n (value v)) as (m' & Em & Hb & Hz & Ho);
      try done; [by rewrite length_map|]. exists m'. split; [exact Em|]. split; [done|].
    intros va Hva Hne. destruct (decide (addr <= va < addr + n)) as [Hr|Hr]; [|apply Ho; [done|lia]].
    destruct (Hin va Hva Hr) as (k & b & -> & Hk & ->). rewrite (Hb k (s8 b)); [|by rewrite list_lookup_fmap, Hk].
    f_equal. apply Hus. by apply (Hu k).
  - rewrite (syscall_switch m SC_Read) by done.
    change (switch SC_Read handlers m) with (handle_SC_Read m). unfold handle_SC_Read.
    rewrite !ReadRegister_reg by lia. unfold reg. rewrite (arr_get_lookup _ 4 addr), (arr_get_lookup _ 5 n) by done.
    cbn [rbind]. rewrite E. cbn [rbind]. rewrite ReadRegister_reg by lia. unfold reg. rewrite <- Hreg.
    rewrite (arr_get_lookup _ 6 id) by done. cbn [rbind to_run]. eexists _, _. split; [reflexivity|].
    split; [done|]. intros v m2 Hres Hlen. unfold fill.
    rewrite (proj2 (Nat.leb_le _ _)) by (by rewrite length_map). cbn [rbind].
    destruct (store_buffer m m2 (memcpy (map s8 bs) 0 (bytes v)) addr n (value v)) as (m' & Em & Hb & Hz & Ho);
      try done; [rewrite length_memcpy; rewrite length_map; lia|]. exists m'. split; [exact Em|]. split_and!; [|done|].
    + intros i c Hi. apply lookup_lt_Some in Hi as Hlt. apply Hb.
      rewrite lookup_memcpy_in by (rewrite ?length_map; lia). by rewrite Nat.sub_0_r.
    + intros va Hva Hout Hne. destruct (decide (addr <= va < addr + n)) as [Hr|Hr]; [|apply Ho; [done|lia]].
      destruct (Hin va Hva Hr) as (k & b & -> & Hk & ->). rewrite (Hb k (s8 b)).
      * f_equal. apply Hus. by apply (Hu k).
      * rewrite lookup_memcpy_out by (rewrite ?length_map; lia). by rewrite list_lookup_fmap, Hk.
Qed.

Section EndToEnd.
Context {H : Type} `{Unix H}.
Variable random : Z -> Z * Z.
Variable hostName : Z.
Variables name_garbage number_garbage : list Z.
Variable checksum_garbage : Z.
Notation interp := (interp random hostName name_garbage number_garbage checksum_garbage).

Lemma print_string_interp m (d : devices H) addr s l :
  machine_ok m -> pageTableSize m <= NumPhysPages ->
  registers m !! 2%nat = Some SC_PrintString -> registers m !! 4%nat = Some addr ->
  string_at m addr s -> shown (consoleOut d) l ->
  exists m' c, interp (ExceptionHandler SyscallException m) d = Finished m' (set_consoleOut c d) /\
    shown c (l ++ map s8 s) /\ registers m' = next (registers m) /\ forall va, byte_at m' va = byte_at m va.
Proof.
  intros Hm Hn H2 H4 Hs Hl. rewrite (syscall_switch m SC_PrintString) by done.
  change (switch SC_PrintString handlers m) with (handle_SC_PrintString m). unfold handle_SC_PrintString.
  rewrite ReadRegister_reg by lia. unfold reg. rewrite (arr_get_lookup _ 4 addr) by done. cbn [rbind].
  destruct (stringUser2System_at m addr s Hm Hn Hs) as (m1 & -> & Hsim & Hm1). cbn [rbind].
  pose proof (string_at_chars m addr s Hm Hs) as Hnz.
  rewrite map_app. cbn [map]. change (s8 0) with 0. destruct (c_str_app (map s8 s) [] Hnz) as [_ ->].
  cbn [rbind to_run interp serve].
  destruct (SysNum.SysPrintString_spec (map s8 s ++ [0]) (Z.of_nat (length (map s8 s))) (consoleOut d) l) as (c & -> & Hc);
    [done|rewrite length_app; cbn; lia|].
  cbn [rbind]. destruct (return_void_ok m1 Hm1) as [-> _]. cbn [interp].
  eexists _, c. split; [reflexivity|]. rewrite Nat2Z.id, take_app_length in Hc. split; [done|].
  destruct (similar_fields _ _ Hsim) as (Hr & _). cbn [with_regs registers]. split; [by rewrite Hr|].
  intros va. change (byte_at m1 va = byte_at m va). by rewrite Hsim.
Qed.

Lemma read_string_interp m (d : devices H) addr cs rest :
  machine_ok m -> frames_distinct m ->
  registers m !! 2%nat = Some SC_ReadString -> registers m !! 4%nat = Some addr ->
  registers m !! 5%nat = Some (Z.of_nat (length cs)) -> Z.of_nat (length cs) <= MAX_READ_STRING_LENGTH ->
  0 <= addr -> addr + Z.of_nat (length cs) < 2 ^ 31 ->
  (forall k, 0 <= k <= Z.of_nat (length cs) -> writable m (addr + k)) ->
  stream (consoleIn d) (cs ++ rest) -> 0 ∉ cs ->
  exists m' c, interp (ExceptionHandler SyscallException m) d = Finished m' (set_consoleIn c d) /\
    stream c rest /\ registers m' = next (registers m) /\ string_at m' addr (map u8 cs) /\
    forall va, is_u32 va -> ~ addr <= va <= addr + Z.of_nat (length cs) -> byte_at m' va = byte_at m va.
Proof.
  intros Hm Hd H2 H4 H5 Hmax Ha0 Ha1 Hw Hst Hnz. rewrite (syscall_switch m SC_ReadString) by done.
  change (switch SC_ReadString handlers m) with (handle_SC_ReadString m). unfold handle_SC_ReadString.
  rewrite !ReadRegister_reg by lia. unfold reg. rewrite (arr_get_lookup _ 4 addr) by done. cbn [rbind].
  rewrite (arr_get_lookup _ 5 _ ltac:(lia) H5). cbn [rbind].
  rewrite (proj2 (Z.ltb_ge MAX_READ_STRING_LENGTH _)) by done. cbn [rbind to_run interp serve].
  destruct (SysNum.SysReadString_spec (Z.of_nat (length cs)) cs rest (consoleIn d)) as (c & -> & Hc); [done|done|].
  cbn [rbind interp bytes]. apply stream_chars in Hst as Hch. apply Forall_app in Hch as [Hch _].
  assert (Forall (fun c => -128 <= c < 128) cs) as Hch' by (eapply Forall_impl; [exact Hch|naive_solver]).
  destruct (StringSys2User_spec (cs ++ [0]) addr (-1) cs m) as (m1 & -> & W); try done.
  { cbn [Z.eqb Pos.eqb]. by apply (c_str_app cs []). }
  cbn [rbind to_run]. destruct (return_void_ok m1) as [-> _]; [apply W|]. cbn [interp].
  eexists _, c. split; [reflexivity|]. split; [done|]. cbn [with_regs registers].
  split; [by rewrite (w_registers _ _ _ _ W)|]. split; [by apply (wrote_string m m1)|].
  intros va Hva Hout. change (byte_at m1 va = byte_at m va). apply W; [done|].
  rewrite length_app, length_map. cbn [length]. lia.
Qed.

(** C34: Strings between a program and the console.  PrintString shows the
    characters of the program's string, all of them and nothing else, and leaves
    the program as it was; ReadString takes as many characters from the keyboard
    as asked for and puts them, with a zero byte, where the program wants them.
    Both return to the next instruction. *)
Theorem console_strings m (d : devices H) addr s l cs rest :
  machine_ok m -> pageTableSize m <= NumPhysPages -> frames_distinct m ->
  registers m !! 4%nat = Some addr ->
  (registers m !! 2%nat = Some SC_PrintString -> string_at m addr s -> shown (consoleOut d) l ->
   exists m' c, interp (ExceptionHandler SyscallException m) d = Finished m' (set_consoleOut c d) /\
     shown c (l ++ map s8 s) /\ registers m' = next (registers m) /\
     forall va, byte_at m' va = byte_at m va) /\
  (registers m !! 2%nat = Some SC_ReadString -> registers m !! 5%nat = Some (Z.of_nat (length cs)) ->
   Z.of_nat (length cs) <= MAX_READ_STRING_LENGTH ->
   0 <= addr -> addr + Z.of_nat (length cs) < 2 ^ 31 ->
   (forall k, 0 <= k <= Z.of_nat (length cs) -> writable m (addr + k)) ->
   stream (consoleIn d) (cs ++ rest) -> 0 ∉ cs ->
   exists m' c, interp (ExceptionHandler SyscallException m) d = Finished m' (set_consoleIn c d) /\
     stream c rest /\ registers m' = next (registers m) /\ string_at m' addr (map u8 cs) /\
     forall va, is_u32 va -> ~ addr <= va <= addr + Z.of_nat (length cs) -> byte_at m' va = byte_at m va).
Proof.
  intros Hm Hn Hd H4. split.
  - intros H2 Hs Hl. by apply (print_string_interp m d addr).
  - intros H2 H5 Hmax Ha0 Ha1 Hw Hst Hnz. by apply (read_string_interp m d addr).
Qed.

Lemma find_name_names nm k t : STable.wf t -> c_str nm = Ok k ->
  exists o, STable.find_name nm t = Ok o /\ (is_Some o <-> is_Some (STable.names t !! k)).
Proof.
  intros Hwf Hk. destruct (STable.find_name_spec nm k t Hwf Hk) as [(i & x & E & Hi & _ & Hs)|[E Hno]].
  - eexists. split; [exact E|]. split; [|by eexists]. intros _. exists (STable.sem x).
    apply STable.names_Some; [done|]. by exists i.
  - eexists. split; [exact E|]. rewrite (STable.names_None t k) by done. split; by intros [? ?].
Qed.

(** An error of a semaphore call takes the kernel down.  Creating a
    semaphore that exists, or waiting for or signalling one that does not,
    deletes the name in the [Sys...] function and again in the handler. *)
Theorem semaphore_error_double_free m (d : devices H) addr s type :
  machine_ok m -> pageTableSize m <= NumPhysPages ->
  registers m !! 2%nat = Some type -> registers m !! 4%nat = Some addr ->
  string_at m addr s -> STable.wf (semTab d) ->
  (type = SC_CreateSemaphore /\ is_Some (STable.names (semTab d) !! map s8 s)) \/
  ((type = SC_Wait \/ type = SC_Signal) /\ STable.names (semTab d) !! map s8 s = None) ->
  interp (ExceptionHandler SyscallException m) d = Failed NullPointer.
Proof.
  intros Hm Hn H2 H4 Hs Hwf Hcase. rewrite (syscall_switch m type) by done.
  destruct (stringUser2System_at m addr s Hm Hn Hs) as (m1 & E & Hsim & Hm1).
  assert (c_str (map s8 (s ++ [0])) = Ok (map s8 s)) as Hc.
  { rewrite map_app. apply c_str_app. by apply (string_at_chars m addr). }
  destruct (find_name_names _ _ _ Hwf Hc) as (o & Eo & Ho).
  assert (forall r, to_run (let* m2 := WriteRegister 2 r m1 in Err NullPointer) = Fail NullPointer) as Hfree
    by (intros r; by rewrite WriteRegister_ok by (done || lia)).
  assert (exists semval, ReadRegister 5 m = Ok semval) as [semval E5]
    by (destruct (ReadRegister_ok m 5 Hm ltac:(lia)) as (x & ? & _); by exists x).
  assert (ReadRegister 4 m = Ok addr) as E4
    by (rewrite ReadRegister_reg by lia; unfold reg; by rewrite (arr_get_lookup _ 4 addr)).
  destruct Hcase as [[-> Hk]|[[-> | ->] Hk]].
  - change (switch SC_CreateSemaphore handlers m) with (handle_SC_CreateSemaphore m).
    unfold handle_SC_CreateSemaphore. rewrite E4, E5. cbn [rbind]. rewrite E. cbn [rbind to_run interp serve].
    unfold SysCreateSemaphore, STable.Create. rewrite Eo. apply Ho in Hk as [i ->]. cbn [rbind].
    unfold return_named. cbn [sem_reply Z.eqb Pos.eqb freed value]. by rewrite Hfree.
  - change (switch SC_Wait handlers m) with (handle_SC_Wait m). unfold handle_SC_Wait.
    rewrite E4. cbn [rbind]. rewrite E. cbn [rbind to_run interp serve].
    unfold SysWait, STable.Wait. rewrite Eo. destruct o as [i|]; [by destruct (proj1 Ho ltac:(by eexists)); congruence|].
    cbn [rbind]. unfold return_named. cbn [sem_reply Z.eqb Pos.eqb freed value]. by rewrite Hfree.
  - change (switch SC_Signal handlers m) with (handle_SC_Signal m). unfold handle_SC_Signal.
    rewrite E4. cbn [rbind]. rewrite E. cbn [rbind to_run interp serve].
    unfold SysSignal, STable.Signal. rewrite Eo. destruct o as [i|]; [by destruct (proj1 Ho ltac:(by eexists)); congruence|].
    cbn [rbind]. unfold return_named. cbn [sem_reply Z.eqb Pos.eqb freed value]. by rewrite Hfree.
Qed.

End EndToEnd.

(** ** Examples: a program with "Hi!" at address 8 *)

Definition program (type a4 a5 a6 : Z) : machine :=
  with_mem 392 [72; 105; 33; 0]
    (with_regs (<[2%nat := type]> (<[4%nat := a4]> (<[5%nat := a5]> (<[6%nat := a6]> (replicate 40 0))))) one_page).

Lemma program_ok type a4 a5 a6 : Forall is_s32 [type; a4; a5; a6] -> machine_ok (program type a4 a5 a6).
Proof.
  intros Ha. rewrite !Forall_cons in Ha. destruct Ha as (H1 & H2 & H3 & H4 & _).
  destruct one_page_ok as ((_ & Hs & _) & Hmem & Htab). split; [|split; [|done]].
  - unfold program, with_mem, with_regs. cbn [registers]. split_and!.
    + by rewrite !length_insert.
    + repeat apply Forall_insert; done.
    + done.
    + exists 0. split; [done|lia].
  - apply (memory_ok_store (mainMemory one_page) 392 [72; 105; 33; 0]); [done| |lia|by vm_compute].
    repeat (apply Forall_cons_2; [unfold is_u8; lia|]). apply Forall_nil_2.
Qed.

Lemma program_byte type a4 a5 a6 va : 0 <= va < 128 ->
  byte_at (program type a4 a5 a6) va =
    Some (if decide (8 <= va < 11) then default 0 ([72; 105; 33] !! Z.to_nat (va - 8)) else 0) /\
  writable (program type a4 a5 a6) va.
Proof.
  intros Hva. assert (place one_page va = Some (384 + va)) as Hp.
  { unfold place, one_page, PageSize. cbn [pageTable].
    rewrite u32_id, Z.div_small, Z.mod_small by (unfold is_u32; lia). done. }
  destruct (one_page_byte va Hva) as [Hb [_ Hro]].
  assert (forall x, byte_at (program type a4 a5 a6) va = Some x -> writable (program type a4 a5 a6) va) as Hw
    by (intros x Hx; split; [by exists x|exact Hro]).
  assert (byte_at (program type a4 a5 a6) va =
    Some (if decide (8 <= va < 11) then default 0 ([72; 105; 33] !! Z.to_nat (va - 8)) else 0)) as E.
  { unfold byte_at. change (place (program type a4 a5 a6) va) with (place one_page va). rewrite Hp. cbn [mbind option_bind].
    unfold byte_at in Hb. rewrite Hp in Hb. cbn [mbind option_bind] in Hb.
    unfold program, with_mem. cbn [mainMemory with_regs].
    assert (length (mainMemory one_page) = Z.to_nat MemorySize) as Hlen by apply length_replicate.
    destruct (decide (8 <= va < 12)) as [Hin|Hout].
    - assert (va = 8 \/ va = 9 \/ va = 10 \/ va = 11) as [-> |[-> |[-> | ->]]] by lia;
        rewrite lookup_memcpy_in by (rewrite ?Hlen; cbn [length]; unfold MemorySize, NumPhysPages, PageSize; lia); done.
    - rewrite lookup_memcpy_out by (rewrite ?Hlen; cbn [length]; unfold MemorySize, NumPhysPages, PageSize; lia).
      rewrite Hb, decide_False by lia. done. }
  split; [done|]. by eapply Hw.
Qed.

Lemma program_frames type a4 a5 a6 : frames_distinct (program type a4 a5 a6).
Proof. exact one_page_frames. Qed.

Lemma program_string type a4 a5 a6 : string_at (program type a4 a5 a6) 8 [72; 105; 33].
Proof.
  split; [set_solver|]. intros k b Hk. apply lookup_lt_Some in Hk as Hl. cbn in Hl.
  rewrite s32_id by (unfold is_s32; lia). rewrite (proj1 (program_byte type a4 a5 a6 (8 + Z.of_nat k) ltac:(lia))).
  destruct k as [|[|[|[|k]]]]; cbn in Hk; done.
Qed.

Definition new_devices (t : STable.STable) : devices (gmap Z (list Z)) :=
  mkDevices _ (SysNum.keyboard [111; 107; 33]) Console.SynchConsoleOutput_init
    (replicate 10 FileTable.one_open) ∅ Kernel.Initialize [] t STable.no_threads 0 1.

Ltac program_args := repeat (apply Forall_cons_2; [vm_compute; split; congruence|]); apply Forall_nil_2.


Lemma fatal_traps_witness : ExceptionHandler SyscallException (program 99 0 0 0) = Fail AssertFailure.
Proof.
  apply (fatal_traps (program 99 0 0 0) 99 SyscallException).
  - apply program_ok. program_args.
  - done.
  - set_solver.
Defined.

Lemma file_buffers_witness :
  exists m1 k, ExceptionHandler SyscallException (program SC_Write 8 2 3) = Call (Write [72; 105] 2 3) m1 k /\
    exists m', k (int_reply 2) (program SC_Write 8 2 3) = Done m' /\ byte_at m' 10 = Some 0.
Proof.
  destruct (file_buffers (program SC_Write 8 2 3) 8 2 3 [72; 105]) as [H _]; try done.
  - apply program_ok. program_args.
  - intros k b Hk. apply lookup_lt_Some in Hk as Hl. cbn in Hl.
    rewrite (proj1 (program_byte SC_Write 8 2 3 (8 + Z.of_nat k) ltac:(lia))).
    destruct k as [|[|k]]; cbn in Hk; try done.
  - intros k Hk. apply program_byte. lia.
  - destruct (H eq_refl) as (m1 & k & E & _ & Hres). exists m1, k. split; [exact E|].
    destruct (Hres (int_reply 2) (program SC_Write 8 2 3)) as (m' & Ek & Hz & _).
    { split; [|split; [apply program_frames|intros va; reflexivity]].
      split; [reflexivity|]. split; [reflexivity|]. split; [|intros va; reflexivity]. apply program_ok. program_args. }
    exists m'. split; [exact Ek|exact Hz].
Defined.

Lemma console_strings_witness :
  exists t m' c, interp (fun x => (x, x)) 0 [] [] 0 (ExceptionHandler SyscallException (program SC_PrintString 8 0 0)) (new_devices t) =
      Finished m' (set_consoleOut c (new_devices t)) /\
    shown c [72; 105; 33].
Proof.
  destruct (STable.STable_init_spec [0]) as (t & _ & Hwf & _); [cbn; lia|]. exists t.
  destruct (console_strings (fun x => (x, x)) 0 [] [] 0 (program SC_PrintString 8 0 0) (new_devices t) 8
    [72; 105; 33] [] [] []) as [H _].
  - apply program_ok. program_args.
  - done.
  - apply program_frames.
  - done.
  - destruct (H eq_refl (program_string _ _ _ _)) as (m' & c & E & Hs & _); [by split|].
    exists m', c. split; [exact E|exact Hs].
Defined.

Lemma semaphore_error_double_free_witness :
  exists t, interp (fun x => (x, x)) 0 [] [] 0
    (ExceptionHandler SyscallException (program SC_Wait 8 0 0)) (new_devices t) = Failed NullPointer.
Proof.
  destruct (STable.STable_init_spec [0]) as (t & _ & Hwf & Hnm); [cbn; lia|]. exists t.
  apply (semaphore_error_double_free (fun x => (x, x)) 0 [] [] 0 (program SC_Wait 8 0 0) (new_devices t) 8
    [72; 105; 33] SC_Wait).
  - apply program_ok. program_args.
  - done.
  - done.
  - done.
  - apply program_string.
  - exact Hwf.
  - right. split; [by left|]. cbn [new_devices semTab]. rewrite Hnm. apply lookup_empty.
Defined.

End Syscalls.
