(* ===== verification/Stubs.v ===== *)
(** * The system call stubs of user programs

    test/start.S: each stub puts the number of a system call into r2, executes
    [syscall] and jumps back to its caller.  The stubs are lines of assembly;
    what they are as machine code is for the assembler, of which this file
    assumes that the simulator decodes its words as the lines say, and that it
    fills the slot after a jump with an instruction that does nothing.  The
    stubs run on the simulator of Mips.v and call the handlers of Syscalls.v. *)

From S2P Require Import Prelude Ints Machine Mips UserMem Syscalls.

Module Stubs.

Import Machine Mips UserMem Syscalls.

(** ** The stubs *)

Inductive line :=
| addiu (rt rs imm : Z)   (* addiu $rt,$rs,imm *)
| syscall
| j (rs : Z)              (* j $rs *)
| nop.

Definition stub (number : Z) : list line := [addiu 2 0 number; syscall; j 31; nop].

(** The stubs of start.S, in its order, by the numbers they pass. *)
Definition stubs : list Z :=
  [SC_Halt; SC_Add; SC_Create_Socket; SC_Close_Socket; SC_Send_Msg; SC_Bind; SC_Connect; SC_Recv_Msg; SC_Exit; SC_Exec;
   SC_ExecV; SC_Join; SC_Create; SC_Remove; SC_Open; SC_Read; SC_Write; SC_Close; SC_Seek; SC_ThreadFork; SC_ThreadYield;
   SC_ThreadExit; SC_ThreadJoin; SC_ReadNum; SC_PrintNum; SC_ReadChar; SC_PrintChar; SC_RandomNum; SC_ReadString;
   SC_PrintString; SC_CreateFile; SC_CreateSemaphore; SC_Wait; SC_Signal; SC_GetPid].

(** A decoded instruction is what a line says. *)
Definition means (l : line) (i : Instruction) : Prop :=
  match l with
  | addiu t s imm => opCode i = OP_ADDIU /\ rt i = t /\ rs i = s /\ extra i = imm
  | syscall => opCode i = OP_SYSCALL
  | j s => opCode i = OP_JR /\ rs i = s
  | nop => opCode i = OP_SLL /\ rd i = 0 /\ rt i = 0 /\ extra i = 0
  end.

(** The word at an address of the program. *)
Definition word_at (m : machine) (va : Z) : option Z :=
  b0 ← byte_at m va; b1 ← byte_at m (va + 1); b2 ← byte_at m (va + 2); b3 ← byte_at m (va + 3);
  Some (le_value [b0; b1; b2; b3]).

(** The line [l] is at address [va]. *)
Definition line_at (m : machine) (va : Z) (l : line) : Prop :=
  exists w i, word_at m va = Some w /\ Decode w = Ok i /\ means l i.

Definition code_at (m : machine) (va : Z) (code : list line) : Prop :=
  0 <= va /\ va mod 4 = 0 /\ va + 4 * Z.of_nat (length code) < 2 ^ 31 /\
  forall k l, code !! k = Some l -> line_at m (va + 4 * Z.of_nat k) l.

(** ** Registers *)

Definition rv (m : machine) (k : Z) : Z := default 0 (registers m !! Z.to_nat k).

Lemma reg_rv m k : length (registers m) = 40%nat -> 0 <= k < 40 -> reg k m = Ok (rv m k).
Proof.
  intros Hl Hk. unfold reg, rv. destruct (lookup_lt_is_Some_2 (registers m) (Z.to_nat k)) as [v Hv]; [lia|].
  rewrite Hv. by apply arr_get_lookup; [lia|].
Qed.

Lemma rv_with_reg m n v k : length (registers m) = 40%nat -> 0 <= n < 40 -> 0 <= k < 40 ->
  rv (with_reg n v m) k = if decide (n = k) then s32 v else rv m k.
Proof.
  intros Hl Hn Hk. unfold rv, with_reg. cbn [registers]. case_decide as E.
  - subst. by rewrite list_lookup_insert_eq by lia.
  - by rewrite list_lookup_insert_ne by lia.
Qed.

Lemma rv_s32 m k : Forall is_s32 (registers m) -> is_s32 (rv m k).
Proof.
  intros H. unfold rv. destruct (registers m !! Z.to_nat k) as [v|] eqn:E; [|done]. by eapply Forall_lookup_1 in H.
Qed.

Lemma rv_0 m : machine_ok m -> rv m 0 = 0.
Proof. intros ((_ & _ & H0 & _) & _). unfold rv. change (Z.to_nat 0) with 0%nat. by rewrite H0. Qed.

Lemma length_with_reg n v m : length (registers (with_reg n v m)) = length (registers m).
Proof. apply length_insert. Qed.

Lemma byte_at_registers m m' va : mainMemory m' = mainMemory m -> pageTable m' = pageTable m ->
  byte_at m' va = byte_at m va.
Proof. intros E1 E2. unfold byte_at, place. by rewrite E1, E2. Qed.

(** ** Fetching *)

Lemma fetch H m va w : machine_ok m -> 0 <= va < 2 ^ 31 -> va mod 4 = 0 -> word_at m va = Some w ->
  is_u32 w /\ exists m1, ReadMem H va 4 m = Ok (Some (s32 w), m1) /\ similar m1 m /\ machine_ok m1.
Proof.
  intros Hm Hva Hal Hw. pose proof Hm as (Hregs & [Hlen Hu] & Htab). unfold word_at in Hw.
  destruct (byte_at m va) as [b0|] eqn:E0; [|done]. destruct (byte_at m (va + 1)) as [b1|] eqn:E1; [|done].
  destruct (byte_at m (va + 2)) as [b2|] eqn:E2; [|done]. destruct (byte_at m (va + 3)) as [b3|] eqn:E3; [|done].
  cbn in Hw. injection Hw as <-.
  destruct (byte_at_Some m va b0 Hm E0) as (pa & Hpl & Hpa & M0 & U0).
  pose proof Htab as (_ & t & Hp & _). destruct (place_mapped m t va pa Hp Hpl) as (e & He & Hmap1).
  assert (mapped t va 4 false e pa) as Hmap.
  { destruct (Hmap1 false ltac:(done)) as (_ & ? & ? & ? & ? & ?). by do 5 (split; [done|]). }
  assert (forall k b, 0 <= k < 4 -> byte_at m (va + k) = Some b -> mainMemory m !! (Z.to_nat pa + Z.to_nat k)%nat = Some b /\ is_u8 b) as Hk.
  { intros k b Hk Eb. destruct (byte_at_Some m (va + k) b Hm Eb) as (pa' & Hpl' & _ & Mb & Ub). split; [|done].
    assert (pa' = pa + k) as ->; [|rewrite <- Mb; f_equal; lia].
    destruct Hmap as (_ & _ & Hv & _ & Hr & ->). unfold place in Hpl'. rewrite Hp in Hpl'. cbn in Hpl'.
    rewrite !u32_id in * by (split; lia). unfold PageSize in *.
    replace ((va + k) / 128) with (va / 128) in Hpl' by (zify_div; lia). rewrite He in Hpl'. cbn in Hpl'.
    rewrite Hv, (proj2 (Z.ltb_lt _ NumPhysPages)) in Hpl' by lia. injection Hpl' as <-. rewrite (u32_id va) by (split; lia). zify_div. lia. }
  destruct (Hk 1 b1) as [M1 U1]; [lia|done|]. destruct (Hk 2 b2) as [M2 U2]; [lia|done|]. destruct (Hk 3 b3) as [M3 U3]; [lia|done|].
  assert (slice (Z.to_nat pa) (Z.to_nat 4) (mainMemory m) = [b0; b1; b2; b3]) as Hs.
  { unfold slice. change (Z.to_nat 4) with 4%nat. change (Z.to_nat 1) with 1%nat in M1.
    change (Z.to_nat 2) with 2%nat in M2. change (Z.to_nat 3) with 3%nat in M3.
    rewrite (drop_S _ _ _ M0). replace (S (Z.to_nat pa)) with (Z.to_nat pa + 1)%nat by lia. rewrite (drop_S _ _ _ M1).
    replace (S (Z.to_nat pa + 1)) with (Z.to_nat pa + 2)%nat by lia. rewrite (drop_S _ _ _ M2).
    replace (S (Z.to_nat pa + 2)) with (Z.to_nat pa + 3)%nat by lia. by rewrite (drop_S _ _ _ M3). }
  split.
  { apply (le_value_range [b0; b1; b2; b3]). by repeat (apply Forall_cons; split; [done|]). }
  destruct (ReadMem_ok (fun _ m => Ok m) ltac:(by intros ? x ?; exists x) m va 4 Hm ltac:(by right; right))
    as (o & m' & E & Hm' & _).
  rewrite (ReadMem_mapped _ m va 4 t e pa) in E by (done || by right; right). injection E as _ <-.
  rewrite (ReadMem_mapped _ m va 4 t e pa) by (done || by right; right).
  eexists. split; [unfold read_value; by rewrite Hs|]. split; [|done]. by apply touch_similar.
Qed.

(** ** The end of an instruction *)

(** [DelayedLoad(0, 0)] *)
Definition delayed (m : machine) : machine :=
  with_reg 0 0 (with_reg LoadValueReg 0 (with_reg LoadReg 0 (with_reg (rv m LoadReg) (rv m LoadValueReg) m))).

(** The machine after an instruction that does not trap: [p] is the new
    [NextPCReg]. *)
Definition retire (p : Z) (m : machine) : machine :=
  let m := delayed m in
  let m' := with_reg PrevPCReg (rv m PCReg) m in
  with_reg NextPCReg p (with_reg PCReg (rv m' NextPCReg) m').

Lemma DelayedLoad_delayed m : almost_ok m -> DelayedLoad 0 0 m = Ok (delayed m) /\ machine_ok (delayed m).
Proof.
  intros Hm. pose proof Hm as (Hl & _ & Hload & _). destruct (DelayedLoad_Ok m 0 0 Hl Hload) as (l & v & El & Ev & E).
  destruct (DelayedLoad_ok m 0 0 Hm) as (m' & E' & Hm'); [lia|]. rewrite reg_rv in El, Ev by (done || regnum).
  injection El as <-. injection Ev as <-. assert (m' = delayed m) as -> by (unfold delayed; congruence). done.
Qed.

(** No load is pending. *)
Definition settled (m : machine) : Prop := almost_ok m /\ rv m LoadReg = 0.

Lemma rv_delayed m k : settled m -> 0 <= k < 40 ->
  rv (delayed m) k = if decide (k = 0 \/ k = LoadReg \/ k = LoadValueReg) then 0 else rv m k.
Proof.
  intros [(Hl & Hs & _) Hload] Hk. unfold delayed. rewrite Hload.
  rewrite !rv_with_reg by (rewrite ?length_with_reg; done || regnum). change (s32 0) with 0.
  destruct (decide (0 = k)) as [<-|H0]; [done|]. destruct (decide (LoadValueReg = k)) as [<-|H1]; [done|].
  destruct (decide (LoadReg = k)) as [<-|H2]; [done|]. rewrite decide_False by naive_solver. done.
Qed.

(** What the program sees of its machine: the general registers and the memory
    are given by those of [m] and [f]. *)
Definition user_view (m : machine) (f : Z -> Z) (m' : machine) : Prop :=
  (forall k, 1 <= k < 32 -> rv m' k = f k) /\ pageTableSize m' = pageTableSize m /\ forall va, byte_at m' va = byte_at m va.

(** The machine is about to execute the instruction at [pc], and then the one at
    [npc]. *)
Definition at_pc (m : machine) (pc npc : Z) : Prop :=
  machine_ok m /\ rv m PCReg = pc /\ rv m NextPCReg = npc /\ rv m LoadReg = 0.

Lemma at_pc_settled m pc npc : at_pc m pc npc -> settled m.
Proof. intros (Hm & _ & _ & Hl). split; [by apply machine_ok_almost|done]. Qed.

Lemma retire_at m p : settled m -> is_s32 (rv m PCReg) -> is_s32 (rv m NextPCReg) -> is_s32 p ->
  at_pc (retire p m) (rv m NextPCReg) p /\ user_view m (rv m) (retire p m).
Proof.
  intros Hset Hpc Hnpc Hp. destruct (DelayedLoad_delayed m (proj1 Hset)) as [_ Hok].
  assert (length (registers (delayed m)) = 40%nat) as Hl by apply Hok.
  assert (rv (delayed m) PCReg = rv m PCReg /\ rv (delayed m) NextPCReg = rv m NextPCReg /\ rv (delayed m) LoadReg = 0) as (E1 & E2 & E3).
  { rewrite !rv_delayed by (done || regnum). done. }
  unfold retire. cbv zeta. rewrite (rv_with_reg (delayed m)), decide_False by (done || regnum). rewrite E1, E2.
  split; [split_and!|split_and!].
  - apply with_reg_ok; [apply with_reg_ok; [apply with_reg_ok; [done|regnum|done]|regnum|done]|regnum|done].
  - rewrite !rv_with_reg by (rewrite ?length_with_reg; done || regnum). cbn. by apply s32_id.
  - rewrite !rv_with_reg by (rewrite ?length_with_reg; done || regnum). cbn. by apply s32_id.
  - rewrite !rv_with_reg by (rewrite ?length_with_reg; done || regnum). by cbn.
  - intros k Hk. rewrite !rv_with_reg by (rewrite ?length_with_reg; done || regnum).
    rewrite !decide_False by regnum. rewrite rv_delayed by (done || lia). by rewrite decide_False by regnum.
  - done.
  - intros va. by apply byte_at_registers.
Qed.

(** ** The lines *)

Section Lines.
Context (H : ExceptionType -> machine -> res machine).

(** What follows the execution of an instruction. *)
Definition conclude (o : Mips.outcome) : res machine :=
  match o with
  | Return m => Ok m
  | Break m pcAfter nextLoadReg nextLoadValue =>
      let* m := DelayedLoad nextLoadReg nextLoadValue m in
      let* pc := reg PCReg m in
      let* m := set_reg PrevPCReg pc m in
      let* npc := reg NextPCReg m in
      let* m := set_reg PCReg npc m in
      set_reg NextPCReg pcAfter m
  end.

Lemma conclude_break m p : settled m -> conclude (Break m p 0 0) = Ok (retire p m).
Proof.
  intros [Hm _]. destruct (DelayedLoad_delayed m Hm) as [E ((Hl & _) & _)]. unfold conclude. rewrite E. cbn [rbind].
  rewrite reg_rv by (done || regnum). cbn [rbind]. rewrite set_reg_Ok by (done || regnum). cbn [rbind].
  rewrite reg_rv by (rewrite ?length_with_reg; done || regnum). cbn [rbind].
  rewrite set_reg_Ok by (rewrite ?length_with_reg; done || regnum). cbn [rbind].
  by rewrite set_reg_Ok by (rewrite ?length_with_reg; done || regnum).
Qed.

Lemma one_instruction m pc npc w i :
  at_pc m pc npc -> 0 <= pc < 2 ^ 31 -> pc mod 4 = 0 -> word_at m pc = Some w -> Decode w = Ok i ->
  exists m1, at_pc m1 pc npc /\ similar m1 m /\
    OneInstruction H m = (let* o := execute H i (s32 (npc + 4)) m1 in conclude o).
Proof.
  intros (Hm & Hpc & Hnpc & Hload) Hr Hal Hw Hi. destruct (fetch H m pc w Hm Hr Hal Hw) as (Hu & m1 & E & Hsim & Hm1).
  destruct (similar_fields _ _ Hsim) as (Er & _). assert (forall k, rv m1 k = rv m k) as Hrv by (intros k; unfold rv; by rewrite Er).
  exists m1. unfold at_pc. rewrite !Hrv. split; [done|]. split; [done|]. unfold OneInstruction.
  rewrite reg_rv, Hpc by (apply Hm || regnum). cbn [rbind]. rewrite E. cbn [rbind]. rewrite u32_s32, u32_id, Hi by done.
  cbn [rbind]. rewrite reg_rv, Hrv, Hnpc by (apply Hm1 || regnum). cbn [rbind].
  destruct (execute _ _ _ _) as [[]|]; done.
Qed.

(** An instruction that changes at most one register. *)
Lemma retire_view m m1 d v p pc npc : at_pc m1 pc npc -> similar m1 m -> 0 <= d < 32 -> is_s32 v -> is_s32 p ->
  at_pc (retire p (with_reg d v m1)) npc p /\
  user_view m (fun k => if decide (k = d) then v else rv m k) (retire p (with_reg d v m1)).
Proof.
  intros Hat Hsim Hd Hv Hp. pose proof Hat as (Hm1 & Hpc & Hnpc & Hload).
  assert (length (registers m1) = 40%nat) as Hl by apply Hm1.
  assert (forall k, rv m1 k = rv m k) as Hrv.
  { intros k. unfold rv. by destruct (similar_fields _ _ Hsim) as (-> & _). }
  assert (forall k, 32 <= k < 40 -> rv (with_reg d v m1) k = rv m1 k) as Hhigh.
  { intros k Hk. rewrite rv_with_reg by (done || lia). by rewrite decide_False by lia. }
  assert (settled (with_reg d v m1)) as Hset.
  { split; [apply with_reg_almost; [by apply machine_ok_almost|lia]|]. rewrite Hhigh by regnum. done. }
  assert (Forall is_s32 (registers m1)) as H32 by apply Hm1.
  destruct (retire_at (with_reg d v m1) p Hset) as [Hat' (Hv1 & Hv2 & Hv3)]; [rewrite Hhigh by regnum; by apply rv_s32..|done|].
  rewrite Hhigh, Hnpc in Hat' by regnum. split; [done|]. destruct (similar_fields _ _ Hsim) as (_ & _ & Esz & _). split_and!.
  - intros k Hk. rewrite Hv1, rv_with_reg by (done || lia). rewrite Hrv.
    destruct (decide (d = k)) as [->|]; [by rewrite decide_True, s32_id|by rewrite decide_False by done].
  - by rewrite Hv2.
  - intros va. rewrite Hv3, <- Hsim. by apply byte_at_registers.
Qed.

Lemma addiu_line m pc npc t imm :
  at_pc m pc npc -> 0 <= pc < 2 ^ 31 -> pc mod 4 = 0 -> line_at m pc (addiu t 0 imm) -> 0 <= t < 32 -> is_s32 imm ->
  exists m', OneInstruction H m = Ok m' /\ at_pc m' npc (s32 (npc + 4)) /\
    user_view m (fun k => if decide (k = t) then imm else rv m k) m'.
Proof.
  intros Hat Hr Hal (w & i & Hw & Hi & Hop & <- & Hrs & <-) Ht Himm.
  destruct (one_instruction m pc npc w i Hat Hr Hal Hw Hi) as (m1 & Hat1 & Hsim & E).
  pose proof Hat1 as (Hm1 & _). assert (length (registers m1) = 40%nat) as Hl by apply Hm1.
  destruct (retire_view m m1 (rt i) (extra i) (s32 (npc + 4)) pc npc Hat1 Hsim Ht Himm (s32_range _)) as [Hat' Hv].
  exists (retire (s32 (npc + 4)) (with_reg (rt i) (extra i) m1)). split; [|done]. rewrite E. unfold execute, execute_add. rewrite Hop. cbn [first_case].
  rewrite Hrs, reg_rv by (done || lia). cbn [rbind]. unfold assign.
  rewrite (rv_0 m1 Hm1).
  rewrite Z.add_0_l, set_reg_Ok by (done || lia). cbn [rbind]. apply conclude_break.
  split; [apply with_reg_almost; [by apply machine_ok_almost|lia]|].
  rewrite rv_with_reg, decide_False by (done || regnum). apply Hat1.
Qed.

Lemma j_line m pc npc r :
  at_pc m pc npc -> 0 <= pc < 2 ^ 31 -> pc mod 4 = 0 -> line_at m pc (j r) -> 1 <= r < 32 ->
  exists m', OneInstruction H m = Ok m' /\ at_pc m' npc (rv m r) /\ user_view m (rv m) m'.
Proof.
  intros Hat Hr Hal (w & i & Hw & Hi & Hop & Hrs) Ht.
  destruct (one_instruction m pc npc w i Hat Hr Hal Hw Hi) as (m1 & Hat1 & Hsim & E).
  pose proof Hat1 as (Hm1 & _ & <- & _). assert (length (registers m1) = 40%nat) as Hl by apply Hm1.
  assert (forall k, rv m1 k = rv m k) as Hrv by (intros k; unfold rv; by destruct (similar_fields _ _ Hsim) as (-> & _)).
  assert (Forall is_s32 (registers m1)) as H32 by apply Hm1.
  destruct (retire_at m1 (rv m r) (at_pc_settled _ _ _ Hat1)) as [Hat' (V1 & V2 & V3)]; [by apply rv_s32..|rewrite <- Hrv; by apply rv_s32|].
  exists (retire (rv m r) m1). split.
  - rewrite E. unfold execute, execute_add, execute_branch, execute_div, execute_jump. rewrite Hop. cbn [first_case].
    rewrite Hrs, reg_rv, Hrv by (done || lia). cbn [rbind]. apply conclude_break. by eapply at_pc_settled.
  - split; [done|]. destruct (similar_fields _ _ Hsim) as (_ & _ & Esz & _). split_and!; [intros k Hk; by rewrite V1, Hrv|by rewrite V2|].
    intros va. by rewrite V3, Hsim.
Qed.

Lemma nop_line m pc npc :
  at_pc m pc npc -> 0 <= pc < 2 ^ 31 -> pc mod 4 = 0 -> line_at m pc nop ->
  exists m', OneInstruction H m = Ok m' /\ at_pc m' npc (s32 (npc + 4)) /\ user_view m (rv m) m'.
Proof.
  intros Hat Hr Hal (w & i & Hw & Hi & Hop & Hrd & Hrt & Hx).
  destruct (one_instruction m pc npc w i Hat Hr Hal Hw Hi) as (m1 & Hat1 & Hsim & E).
  pose proof Hat1 as (Hm1 & _). assert (length (registers m1) = 40%nat) as Hl by apply Hm1.
  destruct (retire_view m m1 0 0 (s32 (npc + 4)) pc npc Hat1 Hsim) as [Hat' (V1 & V2 & V3)]; [lia|done|apply s32_range|].
  exists (retire (s32 (npc + 4)) (with_reg 0 0 m1)). split.
  - rewrite E. unfold execute, execute_add, execute_branch, execute_div, execute_jump, execute_load, execute_hilo, execute_logic.
    rewrite Hop. cbn [first_case]. rewrite Hrd, Hrt, Hx, reg_rv by (done || lia). cbn [rbind]. unfold assign.
    rewrite (rv_0 m1 Hm1).
    change (Z.shiftl 0 0) with 0. rewrite set_reg_Ok by (done || lia). cbn [rbind]. apply conclude_break.
    split; [apply with_reg_almost; [by apply machine_ok_almost|lia]|].
    rewrite rv_with_reg, decide_False by (done || regnum). apply Hat1.
  - split; [done|]. split_and!; [|done..]. intros k Hk. rewrite V1 by done. by rewrite decide_False by lia.
Qed.

(** The machine in which the handler is entered. *)
Definition trapped (m : machine) : machine := setStatus SystemMode (delayed (with_reg BadVAddrReg 0 m)).

Lemma syscall_line m pc npc :
  at_pc m pc npc -> 0 <= pc < 2 ^ 31 -> pc mod 4 = 0 -> line_at m pc syscall ->
  exists mt, at_pc mt pc npc /\ user_view m (rv m) mt /\
    OneInstruction H m = (let* mr := H SyscallException mt in Ok (setStatus UserMode mr)).
Proof.
  intros Hat Hr Hal (w & i & Hw & Hi & Hop).
  destruct (one_instruction m pc npc w i Hat Hr Hal Hw Hi) as (m1 & Hat1 & Hsim & E).
  pose proof Hat1 as (Hm1 & Hpc & Hnpc & Hload). assert (length (registers m1) = 40%nat) as Hl by apply Hm1.
  assert (forall k, rv m1 k = rv m k) as Hrv by (intros k; unfold rv; by destruct (similar_fields _ _ Hsim) as (-> & _)).
  assert (forall k, 0 <= k < 39 -> rv (with_reg BadVAddrReg 0 m1) k = rv m1 k) as Hlow.
  { intros k Hk. rewrite rv_with_reg by (done || regnum). by rewrite decide_False by regnum. }
  assert (settled (with_reg BadVAddrReg 0 m1)) as Hset.
  { split; [apply with_reg_almost; [by apply machine_ok_almost|by right; right]|]. by rewrite Hlow by regnum. }
  destruct (DelayedLoad_delayed _ (proj1 Hset)) as [Ed Hok]. exists (trapped m1).
  assert (forall k, 0 <= k < 37 -> k <> 0 -> rv (trapped m1) k = rv m1 k) as Ht.
  { intros k Hk H0. change (rv (trapped m1) k) with (rv (delayed (with_reg BadVAddrReg 0 m1)) k).
    rewrite rv_delayed, decide_False by (done || regnum). apply Hlow. lia. }
  destruct (similar_fields _ _ Hsim) as (_ & _ & Esz & _). split_and!.
  - split_and!; [done|by rewrite Ht by regnum|by rewrite Ht by regnum|].
    change (rv (trapped m1) LoadReg) with (rv (delayed (with_reg BadVAddrReg 0 m1)) LoadReg).
    by rewrite rv_delayed by (done || regnum).
  - split_and!; [intros k Hk; by rewrite Ht by lia|done|].
    intros va. rewrite <- Hsim. by apply byte_at_registers.
  - rewrite E. assert (execute H i (s32 (npc + 4)) m1 = raise H SyscallException 0 m1) as ->
      by (destruct i; cbn in Hop; by subst). unfold raise, RaiseException.
    rewrite set_reg_Ok by (done || regnum). cbn [rbind]. rewrite Ed. cbn [rbind]. fold (trapped m1).
    destruct (H SyscallException (trapped m1)) as [mr|e]; done.
Qed.

End Lines.

(** ** Calls *)

(** A handler comes to its end, with these requests and replies. *)
Inductive completes : list (request * reply) -> run -> list (request * reply) -> machine -> Prop :=
| completes_done log m : completes log (Done m) log m
| completes_call log r m k v m1 log' m' :
    kept m m1 -> replies r v -> completes (log ++ [(r, v)]) (k v m1) log' m' -> completes log (Call r m k) log' m'.

Lemma completes_outcome halts Q log x log' m' : outcomes halts Q log x -> completes log x log' m' -> Q log' m'.
Proof. intros Ho Hc. induction Hc as [|log r m k v m1 log' m' Hk Hr Hc IH]; [done|]. apply IH. by apply Ho. Qed.

(** Four instructions. *)
Definition four (H : ExceptionType -> machine -> res machine) (m : machine) : res machine :=
  let* m := OneInstruction H m in
  let* m := OneInstruction H m in
  let* m := OneInstruction H m in
  OneInstruction H m.

Lemma word_at_same m m' va : (forall k, 0 <= k < 4 -> byte_at m' (va + k) = byte_at m (va + k)) -> word_at m' va = word_at m va.
Proof.
  intros Hb. unfold word_at. pose proof (Hb 0) as H0. rewrite Z.add_0_r in H0. by rewrite H0, !Hb by lia.
Qed.

Lemma line_at_same m m' va l : (forall k, 0 <= k < 4 -> byte_at m' (va + k) = byte_at m (va + k)) ->
  line_at m va l -> line_at m' va l.
Proof. intros Hb (w & i & Hw & Hi). exists w, i. by rewrite (word_at_same m m'). Qed.

(** The result of a call depends on three registers. *)
Lemma result_same n rs rs' log :
  rs' !! 2%nat = rs !! 2%nat -> rs' !! 4%nat = rs !! 4%nat -> rs' !! 5%nat = rs !! 5%nat ->
  result n rs' log = result n rs log.
Proof. intros E2 E4 E5. unfold result. by rewrite E2, E4, E5. Qed.

(** Every stub passes a number that has a handler. *)
Lemma stubs_handled n : n ∈ stubs -> n ∈ map fst handlers /\ is_s32 n.
Proof.
  intros Hn. assert (Forall (fun n => n ∈ map fst handlers /\ is_s32 n) stubs) as Hall.
  { apply (bool_decide_unpack _). by vm_compute. }
  rewrite Forall_forall in Hall. by apply Hall.
Qed.

(** The first two lines, up to the handler. *)
Lemma stub_enters H m a n : at_pc m a (a + 4) -> code_at m a (stub n) -> n ∈ stubs ->
  exists m1 mt, OneInstruction H m = Ok m1 /\
    OneInstruction H m1 = (let* mr := H SyscallException mt in Ok (setStatus UserMode mr)) /\
    at_pc mt (a + 4) (a + 8) /\ user_view m (fun k => if decide (k = 2) then n else rv m k) mt.
Proof.
  intros Hat (H0 & Hal & Hend & Hcode) [_ Hn]%stubs_handled. cbn [length stub] in Hend.
  pose proof (Hcode 0%nat _ eq_refl) as L0. pose proof (Hcode 1%nat _ eq_refl) as L1.
  change (4 * Z.of_nat 1) with 4 in L1. rewrite Z.add_0_r in L0.
  destruct (addiu_line H m a (a + 4) 2 n Hat) as (m1 & E1 & Hat1 & V1 & V2 & V3); [lia|done|done|lia|done|].
  rewrite s32_id in Hat1 by (unfold is_s32; lia). replace (a + 4 + 4) with (a + 8) in Hat1 by lia.
  destruct (syscall_line H m1 (a + 4) (a + 8) Hat1) as (mt & Hat2 & (W1 & W2 & W3) & E2); [lia|zify_div; lia|by apply (line_at_same m)|].
  exists m1, mt. split; [done|]. split; [done|]. split; [done|]. split_and!.
  - intros k Hk. by rewrite W1, V1.
  - by rewrite W2.
  - intros va. by rewrite W3.
Qed.

(** The last two lines, after the handler. *)
Lemma stub_leaves H m a : at_pc m (a + 8) (a + 12) -> 0 <= a -> a mod 4 = 0 -> a + 16 < 2 ^ 31 ->
  line_at m (a + 8) (j 31) -> line_at m (a + 12) nop ->
  exists m', (let* m := OneInstruction H m in OneInstruction H m) = Ok m' /\
    at_pc m' (rv m 31) (s32 (rv m 31 + 4)) /\ user_view m (rv m) m'.
Proof.
  intros Hat H0 Hal Hend L2 L3.
  destruct (j_line H m (a + 8) (a + 12) 31 Hat) as (m1 & E1 & Hat1 & V1 & V2 & V3); [lia|zify_div; lia|done|lia|].
  destruct (nop_line H m1 (a + 12) (rv m 31) Hat1) as (m2 & E2 & Hat2 & W1 & W2 & W3);
    [lia|zify_div; lia|by apply (line_at_same m)|].
  exists m2. rewrite E1. cbn [rbind]. split; [done|]. split; [done|]. split_and!.
  - intros k Hk. by rewrite W1, V1.
  - by rewrite W2.
  - intros va. by rewrite W3.
Qed.

Lemma rv_next rs m k : length rs = 40%nat -> registers m = next rs -> 0 <= k < 40 ->
  rv m k = if decide (k = PCReg) then default 0 (rs !! Z.to_nat NextPCReg)
           else if decide (k = NextPCReg) then s32 (default 0 (rs !! Z.to_nat NextPCReg) + 4)
           else if decide (k = PrevPCReg) then default 0 (rs !! Z.to_nat PCReg)
           else default 0 (rs !! Z.to_nat k).
Proof.
  intros Hl E Hk. unfold rv. rewrite E. unfold next.
  destruct (decide (k = PCReg)) as [->|H1].
  { rewrite list_lookup_insert_ne by done. by rewrite list_lookup_insert_eq by (rewrite length_insert; regnum). }
  destruct (decide (k = NextPCReg)) as [->|H2]; [by rewrite list_lookup_insert_eq by (rewrite !length_insert; regnum)|].
  destruct (decide (k = PrevPCReg)) as [->|H3].
  { rewrite !list_lookup_insert_ne by done. by rewrite list_lookup_insert_eq by regnum. }
  by rewrite !list_lookup_insert_ne by regnum.
Qed.

Lemma same_lookup m m' k : length (registers m) = 40%nat -> length (registers m') = 40%nat -> 0 <= k < 40 ->
  rv m' k = rv m k -> registers m' !! Z.to_nat k = registers m !! Z.to_nat k.
Proof.
  intros Hl Hl' Hk E. unfold rv in E. destruct (lookup_lt_is_Some_2 (registers m) (Z.to_nat k)) as [v Hv]; [lia|].
  destruct (lookup_lt_is_Some_2 (registers m') (Z.to_nat k)) as [v' Hv']; [lia|]. rewrite Hv, Hv' in *. cbn in E. by rewrite E.
Qed.

(** The registers after the handler. *)
Lemma after_handler mt mr n log a : at_pc mt (a + 4) (a + 8) -> machine_ok mr ->
  registers mr = next (<[2%nat := result n (registers mt) log]> (registers mt)) -> - 2 ^ 31 <= a < 2 ^ 31 - 16 ->
  at_pc (setStatus UserMode mr) (a + 8) (a + 12) /\ rv mr 2 = result n (registers mt) log /\
  forall k, 1 <= k < 32 -> k <> 2 -> rv mr k = rv mt k.
Proof.
  intros (Hokt & Hpc & Hnpc & Hload) Hokr Hr Ha. set (v := result n (registers mt) log) in *.
  assert (length (registers mt) = 40%nat) as Hl by apply Hokt.
  assert (length (<[2%nat := v]> (registers mt)) = 40%nat) as Hl' by (by rewrite length_insert).
  assert (forall k, 0 <= k < 40 -> k <> 2 -> default 0 (<[2%nat := v]> (registers mt) !! Z.to_nat k) = rv mt k) as Hk.
  { intros k Hk Hne. by rewrite list_lookup_insert_ne by lia. }
  split; [|split].
  - unfold at_pc. change (rv (setStatus UserMode mr)) with (rv mr). split; [done|].
    rewrite !(rv_next _ mr _ Hl' Hr) by regnum. cbn [decide]. split_and!.
    + rewrite decide_True by done. by rewrite Hk by regnum.
    + rewrite decide_False, decide_True by done. rewrite Hk, Hnpc, s32_id by (regnum || (unfold is_s32; lia)). lia.
    + rewrite !decide_False by done. by rewrite Hk by regnum.
  - rewrite (rv_next _ mr _ Hl' Hr) by lia. rewrite !decide_False by done. change (Z.to_nat 2) with 2%nat.
    by rewrite list_lookup_insert_eq by lia.
  - intros k Hr' Hne. rewrite (rv_next _ mr _ Hl' Hr) by lia. rewrite !decide_False by regnum. apply Hk; lia.
Qed.

(** C10: A call of a stub is a system call.  When a program is at the beginning
    of a stub of start.S, it is in the kernel after the second instruction, with
    the number of the call in r2 and the arguments and everything else as the
    caller left them.  When the handler comes to its end, whatever it asked the
    kernel for on its way, two instructions later the program is back where the
    caller continues (the address in r31), with the result in r2, every other
    register as before the call and the memory unchanged, unless the call stores
    into it.  If the handler ends the program, the stub does not return. *)
Theorem stub_calls H m a n :
  at_pc m a (a + 4) -> code_at m a (stub n) -> n ∈ stubs -> n <> SC_Halt -> pageTableSize m <= NumPhysPages ->
  (n = SC_Read -> rv m 5 <> -1) ->
  exists mt, at_pc mt (a + 4) (a + 8) /\ user_view m (fun k => if decide (k = 2) then n else rv m k) mt /\
    (forall e, H SyscallException mt = Err e -> four H m = Err e) /\
    (forall mr log, H SyscallException mt = Ok mr -> completes [] (ExceptionHandler SyscallException mt) log mr ->
       (n ∈ storing_calls -> forall va, a + 8 <= va < a + 16 -> byte_at mr va = byte_at m va) ->
       exists m', four H m = Ok m' /\ at_pc m' (rv m 31) (s32 (rv m 31 + 4)) /\
         rv m' 2 = result n (<[2%nat := n]> (registers m)) log /\
         (forall k, 1 <= k < 32 -> k <> 2 -> rv m' k = rv m k) /\
         (n ∉ storing_calls -> forall va, byte_at m' va = byte_at m va)).
Proof.
  intros Hat Hcode Hn Hh Hsize Hread. pose proof Hcode as (H0 & Hal & Hend & Hlines). cbn [length stub] in Hend.
  destruct (stub_enters H m a n Hat Hcode Hn) as (m1 & mt & E1 & E2 & Hmt & V1 & V2 & V3).
  exists mt. split; [done|]. split; [done|]. unfold four. rewrite E1. cbn [rbind]. rewrite E2. split.
  { intros e ->. done. }
  intros mr log Emr Hc Hstore. rewrite Emr. cbn [rbind]. destruct (stubs_handled n Hn) as [Hin _].
  pose proof Hmt as (Hokt & Hpct & Hnpct & Hloadt). assert (length (registers mt) = 40%nat) as Hlt by apply Hokt.
  assert (length (registers m) = 40%nat) as Hlm by apply Hat.
  assert (forall k, 1 <= k < 32 -> registers mt !! Z.to_nat k = Some (if decide (k = 2) then n else rv m k)) as Hregs.
  { intros k Hk. pose proof (V1 k Hk) as E. unfold rv at 1 in E.
    destruct (lookup_lt_is_Some_2 (registers mt) (Z.to_nat k)) as [v Hv]; [lia|]. rewrite Hv in E |- *. cbn in E. by rewrite E. }
  pose proof (Hregs 2 ltac:(lia)) as H2. rewrite decide_True in H2 by done. change (Z.to_nat 2) with 2%nat in H2.
  rewrite (syscall_switch mt n H2) in Hc.
  assert (effect n mt log mr) as (Hokr & Hr & Hb).
  { refine (completes_outcome _ _ _ _ _ _ (switch_good handlers n mt good_handlers Hin Hh Hokt _ _) Hc); [by rewrite V2|].
    intros Er E5. apply (Hread Er). pose proof (Hregs 5 ltac:(lia)) as E. rewrite decide_False in E by done.
    change (Z.to_nat 5) with 5%nat in E. congruence. }
  destruct (after_handler mt mr n log a Hmt Hokr Hr) as (Hatr & Hr2 & Hrk); [lia|].
  assert (forall va, a + 8 <= va < a + 16 -> byte_at mr va = byte_at m va) as Hcb.
  { intros va Hva. destruct (decide (n ∈ storing_calls)); [by apply Hstore|]. by rewrite Hb. }
  destruct (stub_leaves H (setStatus UserMode mr) a Hatr H0 Hal ltac:(lia)) as (m' & E' & Hat' & W1 & W2 & W3).
  { apply (line_at_same m); [intros k Hk; apply Hcb; lia|]. apply (Hlines 2%nat _ eq_refl). }
  { apply (line_at_same m); [intros k Hk; apply Hcb; lia|]. apply (Hlines 3%nat _ eq_refl). }
  change (rv (setStatus UserMode mr)) with (rv mr) in *.
  assert (rv mr 31 = rv m 31) as E31 by (rewrite Hrk, V1 by lia; by rewrite decide_False).
  exists m'. split; [done|]. rewrite E31 in Hat'. split; [done|]. split_and!.
  - rewrite W1, Hr2 by lia. apply result_same.
    + by rewrite H2, list_lookup_insert_eq by lia.
    + rewrite list_lookup_insert_ne by done. apply (same_lookup m mt 4 Hlm Hlt); [lia|]. by rewrite V1 by lia.
    + rewrite list_lookup_insert_ne by done. apply (same_lookup m mt 5 Hlm Hlt); [lia|]. by rewrite V1 by lia.
  - intros k Hk Hne. rewrite W1, Hrk, V1 by lia. by rewrite decide_False.
  - intros Hns va. rewrite W3. change (byte_at (setStatus UserMode mr) va) with (byte_at mr va). by rewrite Hb.
Qed.

(** ** An example: [Add(5, 7)], called from address 96 *)

(** The words of the stub, as the assembler makes them. *)
Definition add_words : list Z := [0x2402002a; 0x0000000c; 0x03e00008; 0].

Definition caller : machine :=
  {| registers := <[31%nat := 100]> (<[5%nat := 7]> (<[4%nat := 5]> (<[Z.to_nat NextPCReg := 4]> (replicate 40 0))));
     mainMemory := concat (map (le_bytes 4) add_words) ++ replicate (Z.to_nat MemorySize - 16) 0;
     tlb := None; pageTable := Some [mkEntry 0 0 true false false false]; pageTableSize := 1; status := UserMode |}.

(** The handler, for calls that ask for nothing. *)
Definition direct (which : ExceptionType) (m : machine) : res machine :=
  match ExceptionHandler which m with
  | Done m => Ok m
  | Fail e => Err e
  | Call _ _ _ => Err Diverges
  end.

Lemma caller_at : at_pc caller 0 (0 + 4).
Proof.
  split_and!; try done. split; [|split].
  - split; [done|]. split; [|split; [done|by exists 0]].
    repeat (apply Forall_insert; [|done]). by apply Forall_replicate.
  - split; [done|]. apply Forall_app. split; [|by apply Forall_replicate]. by repeat constructor.
  - split; [done|]. by exists [mkEntry 0 0 true false false false].
Qed.

Lemma caller_code : code_at caller 0 (stub SC_Add).
Proof.
  split; [done|]. split; [done|]. split; [done|]. intros [|[|[|[|k]]]] l [= <-].
  - exists 0x2402002a. eexists. split; [by vm_compute|]. split; [by vm_compute|]. by split_and!.
  - exists 0x0000000c. eexists. split; [by vm_compute|]. split; [by vm_compute|]. done.
  - exists 0x03e00008. eexists. split; [by vm_compute|]. split; [by vm_compute|]. by split_and!.
  - exists 0. eexists. split; [by vm_compute|]. split; [by vm_compute|]. by split_and!.
Qed.

Lemma caller_runs : match four direct caller with Ok _ => True | Err _ => False end.
Proof. vm_compute. exact I. Qed.

Lemma stub_calls_witness :
  exists m', four direct caller = Ok m' /\ rv m' PCReg = 100 /\ rv m' 2 = 12 /\ rv m' 4 = 5.
Proof.
  destruct (stub_calls direct caller 0 SC_Add caller_at caller_code) as (mt & _ & _ & Herr & Hret).
  - apply (bool_decide_unpack _). vm_compute. exact I.
  - discriminate.
  - vm_compute. discriminate.
  - discriminate.
  - destruct (direct SyscallException mt) as [mr|e] eqn:E.
    + destruct (Hret mr [] eq_refl) as (m' & E4 & (_ & Hpc & _) & H2 & Hk & _).
      * unfold direct in E. destruct (ExceptionHandler SyscallException mt); [|discriminate..].
        injection E as <-. apply completes_done.
      * intros Hs. apply (bool_decide_pack _) in Hs. vm_compute in Hs. destruct Hs.
      * exists m'. split; [exact E4|]. split; [exact Hpc|]. split; [rewrite H2; reflexivity|].
        rewrite Hk; [reflexivity|lia|lia].
    + pose proof caller_runs as Hrun. rewrite (Herr e eq_refl) in Hrun. destruct Hrun.
Defined.

End Stubs.
