(* ===== verification/Traps.v ===== *)
(** * System calls stay in the address space of their caller

    The handlers of Syscalls.v, seen from an address space.  A handler is
    interrupted where it asks for a service; each part of it, from its beginning
    or from a reply to the next request or to its end, changes nothing outside
    the address space of the process that called it ([confined]), and leaves the
    machine well formed. *)

From S2P Require Import Prelude Ints Machine UserMem Syscalls Isolation.

Module Traps.

Import Machine UserMem Syscalls Isolation.

(** The machine is still that of the process at [m0]. *)
Definition held (m0 m : machine) : Prop := confined m0 m /\ machine_ok m.

Lemma held_refl m : machine_ok m -> held m m.
Proof. intros Hm. split; [|done]. apply confined_refl, Hm. Qed.

Lemma held_trans m0 m m' : held m0 m -> held m m' -> held m0 m'.
Proof. intros [H _] [H' ?]. split; [by eapply confined_trans|done]. Qed.

Lemma trap_confined : handler_confined trap.
Proof. intros which m m' _ _ E. unfold trap in E. by destruct (decide _). Qed.

Lemma held_ReadMem m0 m va o m' : held m0 m -> ReadMem trap va 1 m = Ok (o, m') -> held m0 m'.
Proof.
  intros [Hc Hm] E. pose proof Hm as (Hr & Hmem & Htab). split.
  - eapply confined_trans; [exact Hc|].
    apply (here_ReadMem trap trap_confined m Htab (proj1 Hmem) va 1 m o m'); [by left|by apply confined_refl|done].
  - destruct (Translate_cases m va 1 false Htab) as [(ex & Hex & ET & _)|(t & e & pa & Hp & Hmap & _)]; [by left|..].
    + unfold ReadMem in E. rewrite ET in E. cbn [rbind] in E. by rewrite decide_False, fault_halts in E by done.
    + rewrite (ReadMem_mapped _ m va 1 t e pa) in E; [|done|apply Hmem|by left|done|done]. injection E as <- <-.
      split; [done|]. split; [done|]. by apply touch_tables.
Qed.

Lemma held_WriteMem m0 m va v b m' : held m0 m -> WriteMem trap va 1 v m = Ok (b, m') -> held m0 m'.
Proof.
  intros [Hc Hm] E. pose proof Hm as (Hr & Hmem & Htab). split.
  - eapply confined_trans; [exact Hc|].
    apply (here_WriteMem trap trap_confined m Htab (proj1 Hmem) va 1 v m b m'); [by left|by apply confined_refl|done].
  - destruct (Translate_cases m va 1 true Htab) as [(ex & Hex & ET & _)|(t & e & pa & Hp & Hmap & H0 & H1 & _)]; [by left|..].
    + unfold WriteMem in E. rewrite ET in E. cbn [rbind] in E. by rewrite decide_False, fault_halts in E by done.
    + rewrite (WriteMem_mapped _ m va 1 v t e pa) in E; [|done|apply Hmem|by left|done|done]. injection E as <- <-.
      split; [done|]. split; [|by apply touch_tables].
      apply memory_ok_store; [done|apply le_bytes_u8|done|]. by rewrite length_le_bytes.
Qed.

Lemma held_registers m0 m rs : held m0 m -> regs_ok rs -> held m0 (with_regs rs m).
Proof.
  intros [Hc Hm] Hr. pose proof Hm as (_ & Hmem & Htab). split; [|by split].
  eapply confined_trans; [exact Hc|]. by apply confined_registers.
Qed.

Lemma held_read_char m0 m addr c m' : held m0 m -> read_char addr m = Ok (c, m') -> held m0 m'.
Proof.
  intros Hm E. unfold read_char in E. apply bind_Ok_inv in E as ([o m1] & E1 & E).
  apply bind_Ok_inv in E as (c' & _ & [= <- <-]). by eapply held_ReadMem.
Qed.

Lemma held_length_loop m0 fuel addr cl : forall n m l m', held m0 m ->
  length_loop fuel addr cl n m = Ok (l, m') -> held m0 m'.
Proof.
  induction fuel as [|fuel IH]; intros n m l m' Hm E; [done|]. cbn [length_loop] in E.
  apply bind_Ok_inv in E as ([c m1] & E1 & E). apply held_read_char with (m0 := m0) in E1; [|done].
  case_match; [by injection E as <- <-|]. by eapply IH.
Qed.

Lemma held_stringUser2System m0 m addr cl s m' : held m0 m ->
  stringUser2System addr cl m = Ok (s, m') -> held m0 m'.
Proof.
  intros Hm E. unfold stringUser2System in E. apply bind_Ok_inv in E as ([l m1] & E1 & E).
  apply (held_length_loop m0 _ _ _ _ _ _ _ Hm) in E1.
  apply (for_range_preserve (fun st : list Z * machine => held m0 (snd st))) in E; [done| |done].
  intros i [str m2] [str' m3] _ H2 E2. cbn [snd] in *.
  apply bind_Ok_inv in E2 as ([c m4] & E4 & [= <- <-]). by eapply held_read_char.
Qed.

Lemma held_StringSys2User m0 m str addr cl m' : held m0 m ->
  StringSys2User str addr cl m = Ok m' -> held m0 m'.
Proof.
  intros Hm E. unfold StringSys2User in E. apply bind_Ok_inv in E as (l & _ & E).
  apply bind_Ok_inv in E as (m1 & E1 & E). apply bind_Ok_inv in E as ([b m2] & E2 & [= <-]).
  eapply held_WriteMem; [|exact E2].
  apply (for_range_preserve (held m0)) in E1; [done| |done]. intros i m3 m4 _ H3 E3.
  apply bind_Ok_inv in E3 as (c & _ & E3). apply bind_Ok_inv in E3 as ([b' m5] & E5 & [= <-]).
  by eapply held_WriteMem.
Qed.

(** ** Every part of every handler *)

Fixpoint stays (m0 : machine) (x : run) : Prop :=
  match x with
  | Done m => held m0 m
  | Fail _ => True
  | Call _ m k => held m0 m /\ forall v m2, machine_ok m2 -> stays m2 (k v m2)
  end.

Lemma stays_bind {X} m0 (x : res X) k : (forall v, x = Ok v -> stays m0 (to_run (k v))) -> stays m0 (to_run (rbind x k)).
Proof. intros H. destruct x as [v|]; [by apply H|done]. Qed.

Lemma stays_read m0 n m k : (forall v, stays m0 (to_run (k v))) -> stays m0 (to_run (let* v := ReadRegister n m in k v)).
Proof. intros H. apply stays_bind. intros v _. apply H. Qed.

Lemma stays_string m0 m addr cl k : held m0 m -> (forall s m', held m0 m' -> stays m0 (to_run (k (s, m')))) ->
  stays m0 (to_run (rbind (stringUser2System addr cl m) k)).
Proof. intros Hm Hk. apply stays_bind. intros [s m'] E. apply Hk. by eapply held_stringUser2System. Qed.

Lemma stays_store m0 m str addr cl k : held m0 m -> (forall m', held m0 m' -> stays m0 (to_run (k m'))) ->
  stays m0 (to_run (let* m := StringSys2User str addr cl m in k m)).
Proof. intros Hm Hk. apply stays_bind. intros m' E. apply Hk. by eapply held_StringSys2User. Qed.

Lemma stays_reply m0 m v k : held m0 m -> (forall m', held m0 m' -> stays m0 (to_run (k m'))) ->
  stays m0 (to_run (let* m := WriteRegister 2 v m in k m)).
Proof.
  intros Hm Hk. rewrite WriteRegister_ok by (apply Hm || lia). cbn [rbind]. apply Hk.
  apply (held_registers m0 m (<[2%nat := s32 v]> (registers m)) Hm).
  assert (machine_ok (with_reg 2 v m)) as H by (apply with_reg_ok; [apply Hm|lia|regnum]). apply H.
Qed.

Lemma stays_void m0 m : held m0 m -> stays m0 (return_void m).
Proof.
  intros Hm. destruct (return_void_ok m) as [-> H]; [apply Hm|]. apply held_registers; [done|]. apply H.
Qed.

Lemma stays_value m0 v m : held m0 m -> stays m0 (return_value v m).
Proof. intros Hm. apply stays_reply; [done|]. intros m' Hm'. by apply stays_void. Qed.

Lemma stays_named m0 v m : held m0 m -> stays m0 (return_named v m).
Proof. intros Hm. apply stays_reply; [done|]. intros m' Hm'. case_match; [done|]. by apply stays_void. Qed.

Lemma stays_call m0 m r k : held m0 m -> (forall v m2, machine_ok m2 -> held m2 m2 -> stays m2 (k v m2)) ->
  stays m0 (Call r m k).
Proof. intros Hm Hk. split; [done|]. intros v m2 H2. apply Hk; [done|]. by apply held_refl. Qed.

(** Runs a handler. *)
Ltac stay :=
  repeat match goal with
  | H : held ?m0 ?m |- held ?m0 ?m => exact H
  | |- stays _ (to_run (rbind (stringUser2System _ _ _) _)) => apply stays_string
  | |- stays _ (to_run (rbind (StringSys2User _ _ _ _) _)) => apply stays_store
  | |- stays _ (to_run (rbind (WriteRegister 2 _ _) _)) => apply stays_reply
  | |- stays _ (to_run (rbind _ _)) => apply stays_bind
  | |- stays _ (to_run (Ok _)) => cbn [to_run]
  | |- stays _ (to_run (Err _)) => exact I
  | |- stays _ (to_run (if ?b then _ else _)) => destruct b
  | |- stays _ (return_void _) => apply stays_void
  | |- stays _ (return_value _ _) => apply stays_value
  | |- stays _ (return_named _ _) => apply stays_named
  | |- stays _ (Call _ _ _) => apply stays_call
  | |- stays _ (Fail _) => exact I
  | |- _ => progress intros
  end.

Lemma handlers_stay : Forall (fun c => forall m, machine_ok m -> stays m (c.2 m)) handlers.
Proof.
  unfold handlers. rewrite !Forall_cons. split_and!; [..|apply Forall_nil; exact I]; cbn [snd]; intros m Hm%held_refl;
    unfold handle_SC_Halt, handle_SC_Add, handle_SC_ReadNum, handle_SC_PrintNum, handle_SC_ReadChar,
      handle_SC_PrintChar, handle_SC_RandomNum, handle_SC_ReadString, handle_SC_PrintString,
      handle_SC_CreateFile, handle_SC_Open, handle_SC_Close, handle_SC_Read, handle_SC_Write, handle_SC_Seek,
      handle_SC_Exec, handle_SC_Join, handle_SC_Exit, handle_SC_CreateSemaphore, handle_SC_Wait,
      handle_SC_Signal, handle_SC_GetPid, handle_SC_Create_Socket, handle_SC_Close_Socket, handle_SC_Bind,
      handle_SC_Connect, handle_SC_Send_Msg, handle_SC_Recv_Msg, handle_not_implemented_SC; stay.
Qed.

Lemma switch_stays type cases m : Forall (fun c => forall m, machine_ok m -> stays m (c.2 m)) cases -> machine_ok m ->
  stays m (switch type cases m).
Proof.
  intros Hc Hm. induction Hc as [|[n h] cases Hh _ IH]; [done|]. cbn [switch]. destruct (type =? n); [by apply Hh|exact IH].
Qed.

Lemma ExceptionHandler_stays which m : machine_ok m -> stays m (ExceptionHandler which m).
Proof.
  intros Hm. unfold ExceptionHandler. apply stays_read. intros type.
  destruct which; try (apply stays_bind; intros m' E; unfold trap in E; by destruct (decide _)).
  apply switch_stays; [apply handlers_stay|done].
Qed.

(** While its handler waits, a process keeps what the handlers rely on, if its
    machine agrees with the one it left. *)
Lemma agree_kept m m' : machine_ok m -> machine_ok m' -> agree m m' -> kept m m'.
Proof.
  intros Hm Hm' (E1 & E2 & E3 & E4 & E5 & M). do 3 (split; [done|]). intros va.
  assert (place m' va = place m va) as Hp by (by rewrite !place_entry; unfold entry; rewrite E3).
  unfold byte_at. rewrite Hp. destruct (place m va) as [pa|] eqn:Ep; [|done]. cbn.
  destruct (proj2 Hm) as (_ & _ & t & Ht & _). apply (M t); [done|].
  destruct (place_mapped m t va pa Ht Ep) as (e & _ & Hmap). pose proof (place_range m va pa Ep) as Hr.
  rewrite Z2Nat.id by lia. eapply (mapped_frame t va 1 false e pa); [by left|by apply Hmap|lia].
Qed.

End Traps.
