(* ===== verification/Processes.v ===== *)
(** * Processes on one processor

    The user state of threads (threads/thread.cc [SaveUserState] and
    [RestoreUserState], the user part of [Scheduler::Run] in
    threads/scheduler.cc, [StartProcess_2] of threads/pcb.cc,
    [Thread::FreeSpace]), composed with the simulator of Mips.v, the system calls of
    Syscalls.v and the loader of AddrSpace.v: several processes share the registers, the memory and the
    pointer to the page table of one machine.  Address spaces are objects of a
    heap, so that the page table of the machine is that of an address space and
    not a copy, and a deleted address space can be told from a live one. *)

From S2P Require Import Prelude Ints Bitmap FileHdr Machine Mips AddrSpace Syscalls Isolation Traps.

Module Processes.

Import Machine Mips Isolation Traps.

(** ** The user state of threads *)

Notation AddrSpace := AddrSpace.AddrSpace.
Notation table_of := AddrSpace.pageTable.
Notation numPages := AddrSpace.numPages.
Notation frames := AddrSpace.frames.
Notation outside := AddrSpace.outside.

Definition tid := nat.
Definition aid := nat. (* the address of an AddrSpace object *)

(** The user state of a thread, with the local variable of [StartProcess_2], and
    what its handler does after the reply to a request it has made. *)
Record Thread := mkThread {
  userRegisters : list Z;   (* int userRegisters[NumTotalRegs] *)
  space : option aid;       (* AddrSpace *space *)
  loaded : option aid;      (* the local variable space *)
  handler : option (Syscalls.reply -> machine -> Syscalls.run)
}.

(** [SaveUserState]: the array of the thread after the loop. *)
Definition SaveUserState (m : machine) (rs : list Z) : res (list Z) :=
  for_range (Z.to_nat NumTotalRegs) 0
    (fun i rs => let* v := ReadRegister i m in arr_set rs i v) rs.

Definition RestoreUserState (rs : list Z) (m : machine) : res machine :=
  for_range (Z.to_nat NumTotalRegs) 0
    (fun i m => let* v := arr_get rs i in WriteRegister i v m) m.

Section System.

Context {A : Type} {HA : Allocator A}.

(** The processor, the heap of address spaces and the threads.  [table] is the
    pointer [kernel->machine->pageTable], as the address space whose table it
    points to; the component [pageTable] of [cpu] is not used. *)
Record system := mkSystem {
  cpu : machine;
  table : option aid;
  spaces : gmap aid AddrSpace;
  threads : gmap tid Thread;
  currentThread : tid;
  freeMap : A               (* kernel->gPhysPageBitMap *)
}.

Definition set_cpu (m : machine) (s : system) : system :=
  mkSystem m (table s) (spaces s) (threads s) (currentThread s) (freeMap s).

Definition set_space (a : aid) (sp : AddrSpace) (s : system) : system :=
  mkSystem (cpu s) (table s) (<[a := sp]> (spaces s)) (threads s) (currentThread s) (freeMap s).

Definition set_thread (t : tid) (th : Thread) (s : system) : system :=
  mkSystem (cpu s) (table s) (spaces s) (<[t := th]> (threads s)) (currentThread s) (freeMap s).

Definition set_current (t : tid) (s : system) : system :=
  mkSystem (cpu s) (table s) (spaces s) (threads s) t (freeMap s).

Definition set_table (p : option (list TranslationEntry)) (m : machine) : machine :=
  {| registers := registers m; mainMemory := mainMemory m; tlb := tlb m; pageTable := p;
     pageTableSize := pageTableSize m; status := status m |}.

(** The machine as its instructions see it. *)
Definition attach (s : system) : res machine :=
  match table s with
  | None => Ok (set_table None (cpu s))
  | Some a => let* sp := deref (spaces s !! a) in Ok (set_table (Some (table_of sp)) (cpu s))
  end.

(** What instructions did to the machine and, through the pointer, to the table. *)
Definition detach (m : machine) (s : system) : res system :=
  match table s, pageTable m with
  | Some a, Some t =>
      let* sp := deref (spaces s !! a) in
      Ok (set_space a (AddrSpace.mkAddrSpace t (numPages sp)) (set_cpu m s))
  | _, _ => Ok (set_cpu m s)
  end.

(** [space->RestoreState()] for the address space at [a]. *)
Definition RestoreState (a : aid) (s : system) : res system :=
  let* sp := deref (spaces s !! a) in
  let m := cpu s in
  Ok (mkSystem {| registers := registers m; mainMemory := mainMemory m; tlb := tlb m;
                  pageTable := pageTable m; pageTableSize := numPages sp; status := status m |}
        (Some a) (spaces s) (threads s) (currentThread s) (freeMap s)).

(** [Scheduler::Run] up to [SWITCH], as far as user state is concerned.  The
    call [space->SaveState()] does nothing, whether the object lives or not. *)
Definition switch_out (next : tid) (s : system) : res system :=
  let* oldThread := deref (threads s !! currentThread s) in
  let* s :=
    match space oldThread with
    | None => Ok s
    | Some a =>
        let* rs := SaveUserState (cpu s) (userRegisters oldThread) in
        Ok (set_thread (currentThread s) (mkThread rs (space oldThread) (loaded oldThread) (handler oldThread)) s)
    end in
  Ok (set_current next s).

(** [Scheduler::Run] after [SWITCH], in the thread that goes on. *)
Definition switch_in (s : system) : res system :=
  let* oldThread := deref (threads s !! currentThread s) in
  match space oldThread with
  | None => Ok s
  | Some a =>
      let* m := RestoreUserState (userRegisters oldThread) (cpu s) in
      RestoreState a (set_cpu m s)
  end.

(** [Scheduler::Run]: a thread that has not run yet begins in [ThreadBegin]
    instead of after [SWITCH]; as it has no address space yet, [switch_in] does
    nothing for it. *)
Definition Run (next : tid) (s : system) : res system :=
  let* s := switch_out next s in switch_in s.

(** An instruction of the program that [Machine::Run] executes, with the
    exception handler [H]. *)
Definition instruction (H : ExceptionType -> machine -> res machine) (s : system) : res system :=
  let* m := attach s in
  let* m := OneInstruction H m in
  detach m s.

Definition set_handler (o : option (Syscalls.reply -> machine -> Syscalls.run)) (s : system) : res system :=
  let* th := deref (threads s !! currentThread s) in
  Ok (set_thread (currentThread s) (mkThread (userRegisters th) (space th) (loaded th) o) s).

(** A part of an exception handler, up to its next request or its end. *)
Definition handler_part (x : Syscalls.run) (s : system) : res system :=
  match x with
  | Syscalls.Done m => let* s := detach (setStatus UserMode m) s in set_handler None s
  | Syscalls.Fail e => Err e
  | Syscalls.Call _ m k => let* s := detach m s in set_handler (Some k) s
  end.

(** The end of [RaiseException]: the handler is entered. *)
Definition enter_handler (which : ExceptionType) (s : system) : res system :=
  let* m := attach s in
  handler_part (Syscalls.ExceptionHandler which (setStatus SystemMode m)) s.

(** The handler goes on with the reply [v] to its request. *)
Definition continue_handler (v : Syscalls.reply) (s : system) : res system :=
  let* th := deref (threads s !! currentThread s) in
  let* k := deref (handler th) in
  let* m := attach s in
  handler_part (k v m) s.

(** [new AddrSpace(fileName)] in [StartProcess_2], for the contents [f] of the
    file; [a] is the address of the object. *)
Definition load (garbage f : list Z) (a : aid) (s : system) : res system :=
  let* th := deref (threads s !! currentThread s) in
  let3* (sp, fm, mem) := AddrSpace.AddrSpace_init garbage f (freeMap s) (mainMemory (cpu s)) in
  let m := cpu s in
  Ok (mkSystem {| registers := registers m; mainMemory := mem; tlb := tlb m;
                  pageTable := pageTable m; pageTableSize := pageTableSize m; status := status m |}
        (table s) (<[a := sp]> (spaces s))
        (<[currentThread s := mkThread (userRegisters th) (space th) (Some a) (handler th)]> (threads s))
        (currentThread s) fm).

(** [space->Execute()], up to [kernel->machine->Run()]. *)
Definition execute_space (s : system) : res system :=
  let* th := deref (threads s !! currentThread s) in
  let* a := deref (loaded th) in
  let* sp := deref (spaces s !! a) in
  let s := set_thread (currentThread s) (mkThread (userRegisters th) (Some a) (loaded th) (handler th)) s in
  let* m := AddrSpace.InitRegisters sp (cpu s) in
  RestoreState a (set_cpu m s).

(** [FreeSpace]: the pointer of the thread is left as it is. *)
Definition FreeSpace (s : system) : res system :=
  let* th := deref (threads s !! currentThread s) in
  match space th with
  | None => Ok s
  | Some a =>
      let* sp := deref (spaces s !! a) in
      let* fm := AddrSpace.AddrSpace_free sp (freeMap s) in
      Ok (mkSystem (cpu s) (table s) (delete a (spaces s)) (threads s) (currentThread s) fm)
  end.

(** [new Thread] and [Fork] of a thread for [StartProcess_2]; its array of
    registers is not initialised. *)
Definition new_thread (t : tid) (garbage : list Z) (s : system) : system :=
  set_thread t (mkThread garbage None None None) s.

(** The program in a file is laid out as the loader needs it
    ([AddrSpace.program_loaded]), and there are enough frames for it.  (If not,
    the constructor leaves a pointer that is not initialised.) *)
Definition loadable (garbage f : list Z) (fm : A) : Prop :=
  Forall is_u8 f /\ exists h, AddrSpace.read_header garbage f = Ok h /\
    AddrSpace.pages_of h <= num_clear (view fm) /\
    AddrSpace.virtualAddr (AddrSpace.code h) = 0 /\ 0 < AddrSpace.size (AddrSpace.code h) /\
    0 <= AddrSpace.inFileAddr (AddrSpace.code h) /\
    AddrSpace.inFileAddr (AddrSpace.code h) + AddrSpace.pages_of h * PageSize < 2 ^ 31 /\
    (AddrSpace.size (AddrSpace.initData h) <= 0 \/ AddrSpace.data_in_place f h fm).

(** The running thread executes user code in a live address space. *)
Definition in_space (a : aid) (s : system) : Prop :=
  exists th, threads s !! currentThread s = Some th /\ space th = Some a /\ is_Some (spaces s !! a).

(** The exception handler that does nothing. *)
Definition ignore (which : ExceptionType) (m : machine) : res machine := Ok m.

(** The steps of the system.  An instruction that traps is the instruction with
    the handler that does nothing, as [OneInstruction] returns after
    [RaiseException], followed by the parts of the real handler; between these
    other threads may run.  The addresses of objects are not used again. *)
Inductive step : system -> system -> Prop :=
| step_instruction s s' a :
    in_space a s -> instruction ignore s = Ok s' -> step s s'
| step_trap s which s' a :
    in_space a s -> enter_handler which s = Ok s' -> step s s'
| step_reply s v s' a :
    in_space a s -> continue_handler v s = Ok s' -> step s s'
| step_switch s next s' :
    next <> currentThread s -> Run next s = Ok s' -> step s s'
| step_new s t garbage :
    threads s !! t = None -> length garbage = 40%nat -> step s (new_thread t garbage s)
| step_load s garbage f a s' th :
    threads s !! currentThread s = Some th -> space th = None -> loaded th = None ->
    spaces s !! a = None -> table s <> Some a ->
    (forall t th, threads s !! t = Some th -> space th <> Some a /\ loaded th <> Some a) ->
    loadable garbage f (freeMap s) ->
    load garbage f a s = Ok s' -> step s s'
| step_execute s s' th :
    threads s !! currentThread s = Some th -> space th = None ->
    execute_space s = Ok s' -> step s s'
| step_exit s s' a :
    in_space a s -> FreeSpace s = Ok s' -> step s s'.

(** ** The invariant *)

Definition space_ok (fm : A) (sp : AddrSpace) : Prop :=
  Z.of_nat (length (table_of sp)) = numPages sp /\ NoDup (frames (table_of sp)) /\
  Forall (fun f => 0 <= f /\ view fm !! Z.to_nat f = Some true) (frames (table_of sp)).

Record inv (s : system) : Prop := {
  iv_memory : memory_ok (mainMemory (cpu s));
  iv_tlb : tlb (cpu s) = None;
  iv_registers : length (registers (cpu s)) = 40%nat /\ Forall is_s32 (registers (cpu s));
  iv_map : al_wf (freeMap s) /\ Z.of_nat (length (view (freeMap s))) = NumPhysPages;
  iv_space : forall a sp, spaces s !! a = Some sp -> space_ok (freeMap s) sp;
  iv_disjoint : forall a b sp sp' f, a <> b -> spaces s !! a = Some sp -> spaces s !! b = Some sp' ->
    f ∈ frames (table_of sp) -> f ∉ frames (table_of sp');
  iv_local : forall t th a, threads s !! t = Some th -> space th = Some a -> loaded th = Some a;
  iv_owner : forall t t' th th' a, threads s !! t = Some th -> threads s !! t' = Some th' ->
    loaded th = Some a -> loaded th' = Some a -> t = t';
  iv_saved : forall t th, threads s !! t = Some th -> length (userRegisters th) = 40%nat /\
    forall a sp, space th = Some a -> spaces s !! a = Some sp -> t <> currentThread s -> regs_ok (userRegisters th);
  iv_current : forall th a sp, threads s !! currentThread s = Some th -> space th = Some a ->
    spaces s !! a = Some sp ->
    table s = Some a /\ pageTableSize (cpu s) = numPages sp /\ regs_ok (registers (cpu s));
  iv_handler : forall t th k, threads s !! t = Some th -> handler th = Some k ->
    forall v m, machine_ok m -> stays m (k v m)
}.

Lemma frame_of_frames fm sp f : Z.of_nat (length (view fm)) = NumPhysPages -> space_ok fm sp ->
  frame_of (table_of sp) f <-> f ∈ frames (table_of sp) /\ exists e, e ∈ table_of sp /\ valid e = true /\ physicalPage e = f.
Proof.
  intros Hv (_ & _ & Hf). rewrite Forall_forall in Hf.
  assert (forall e, e ∈ table_of sp -> u32 (physicalPage e) = physicalPage e) as Hid.
  { intros e He. destruct (Hf (physicalPage e)) as [H0 Hl]; [by apply list_elem_of_fmap_2|].
    apply lookup_lt_Some in Hl. apply u32_id. unfold is_u32, NumPhysPages in *. lia. }
  split.
  - intros (e & He & Hval & E). rewrite Hid in E by done. subst f. split; [by apply list_elem_of_fmap_2|]. by exists e.
  - intros (_ & e & He & Hval & <-). exists e. split_and!; [done..|]. by apply Hid.
Qed.

(** Saving and restoring copy all registers. *)
Lemma SaveUserState_spec m rs : length (registers m) = 40%nat -> length rs = 40%nat ->
  SaveUserState m rs = Ok (registers m).
Proof.
  intros Hl Hr. unfold SaveUserState.
  match goal with |- for_range ?n 0 ?body rs = _ =>
    destruct (for_range_inv (fun i rs' => length rs' = 40%nat /\
      forall k, (k < Z.to_nat i)%nat -> rs' !! k = registers m !! k) n 0 body rs) as (rs' & -> & Hl' & E) end.
  - split; [done|]. intros k Hk. lia.
  - intros i rs1 Hi [Hl1 H1]. change (Z.of_nat (Z.to_nat NumTotalRegs)) with 40 in Hi.
    destruct (arr_get_in_range (registers m) i) as [v Hv]; [lia|]. unfold ReadRegister.
    rewrite ASSERT_true by (apply andb_true_iff; rewrite Z.leb_le, Z.ltb_lt; unfold NumTotalRegs; lia).
    cbn [rbind]. unfold reg. rewrite Hv. cbn [rbind]. rewrite arr_set_in_range by lia.
    eexists. split; [done|]. split; [by rewrite length_insert|]. intros k Hk.
    apply arr_get_Ok in Hv as [_ Hv].
    destruct (decide (k = Z.to_nat i)) as [->|Hne]; [by rewrite list_lookup_insert_eq by lia|].
    rewrite list_lookup_insert_ne by done. apply H1. lia.
  - f_equal. apply list_eq_same_length with 40%nat; [done|done|]. intros k x y Hk Hx Hy.
    rewrite E in Hx by (change (Z.to_nat (0 + _)) with 40%nat; done). congruence.
Qed.

Definition with_registers (rs : list Z) (m : machine) : machine :=
  {| registers := rs; mainMemory := mainMemory m; tlb := tlb m; pageTable := pageTable m;
     pageTableSize := pageTableSize m; status := status m |}.

Lemma RestoreUserState_spec m rs : length (registers m) = 40%nat -> length rs = 40%nat -> Forall is_s32 rs ->
  RestoreUserState rs m = Ok (with_registers rs m).
Proof.
  intros Hl Hr Hs. unfold RestoreUserState.
  match goal with |- for_range ?n 0 ?body m = _ =>
    destruct (for_range_inv (fun i m' => length (registers m') = 40%nat /\
      m' = with_registers (registers m') m /\
      forall k, (k < Z.to_nat i)%nat -> registers m' !! k = rs !! k) n 0 body m) as (m' & -> & Hl' & E & Hk) end.
  - split; [done|]. split; [by destruct m|]. intros k Hk. lia.
  - intros i m1 Hi (Hl1 & E1 & H1). change (Z.of_nat (Z.to_nat NumTotalRegs)) with 40 in Hi.
    destruct (arr_get_in_range rs i) as [v Hv]; [lia|]. rewrite Hv. cbn [rbind].
    rewrite AddrSpace.WriteRegister_Ok by (done || lia). eexists. split; [done|].
    unfold with_reg. cbn [registers]. split; [by rewrite length_insert|]. split; [by rewrite E1|].
    intros k Hk. apply arr_get_Ok in Hv as [_ Hv].
    destruct (decide (k = Z.to_nat i)) as [->|Hne].
    + rewrite list_lookup_insert_eq by lia. rewrite Hv. f_equal. apply s32_id.
      by eapply Forall_lookup_1 in Hs.
    + rewrite list_lookup_insert_ne by done. apply H1. lia.
  - f_equal. rewrite E. f_equal. apply list_eq_same_length with 40%nat; [done|done|]. intros k x y Hx H1 H2.
    rewrite Hk in H1 by (change (Z.to_nat (0 + _)) with 40%nat; done). congruence.
Qed.

(** The running process sees its own page table, in a good machine. *)
Lemma attach_ok s a : inv s -> in_space a s ->
  exists sp, spaces s !! a = Some sp /\ table s = Some a /\
    attach s = Ok (set_table (Some (table_of sp)) (cpu s)) /\ machine_ok (set_table (Some (table_of sp)) (cpu s)).
Proof.
  intros Hi (th & Hth & Ha & [sp Hsp]). exists sp.
  destruct (iv_current s Hi th a sp Hth Ha Hsp) as (Ht & Hn & Hr). split; [done|]. split; [done|].
  unfold attach. rewrite Ht, Hsp. cbn [deref rbind]. split; [done|].
  split; [exact Hr|]. split; [apply Hi|]. split; [apply Hi|]. exists (table_of sp). split; [done|].
  cbn [pageTableSize set_table]. rewrite Hn. apply (iv_space s Hi a sp Hsp).
Qed.

Lemma same_map_frames t t' : Forall2 same_map t t' -> frames t' = frames t.
Proof. induction 1 as [|e e' t t' (_ & E & _) _ IH]; [done|]. unfold AddrSpace.frames in *. cbn. congruence. Qed.

(** What a process leaves to the others. *)
Definition spared (t : tid) (s s' : system) : Prop :=
  forall th a sp, threads s !! t = Some th -> space th = Some a -> spaces s !! a = Some sp ->
    threads s' !! t = Some th /\ spaces s' !! a = Some sp /\
    forall j, Z.of_nat j / PageSize ∈ frames (table_of sp) -> mainMemory (cpu s') !! j = mainMemory (cpu s) !! j.

Lemma other_space s t th a b : inv s -> t <> currentThread s -> threads s !! t = Some th -> space th = Some b ->
  in_space a s -> a <> b.
Proof.
  intros Hi Hne Hth Hb (thc & Hc & Ha & _) ->. apply Hne. symmetry.
  apply (iv_owner s Hi _ _ _ _ b Hc Hth); eapply iv_local; done.
Qed.

(** A step of the running process within its address space. *)
Lemma commit_ok s a m m' s' : inv s -> in_space a s -> attach s = Ok m -> confined m m' -> machine_ok m' ->
  detach m' s = Ok s' -> inv s' /\ forall t, t <> currentThread s -> spared t s s'.
Proof.
  intros Hi Hin Em Hc (Hr & Hm & Htlb & t0 & Ht0 & Hl0) Ed. destruct (attach_ok s a Hi Hin) as (sp & Hsp & Ht & Ea & _).
  rewrite Ea in Em. injection Em as <-. destruct Hc as (_ & E2 & _ & t & t' & Hp & Hp' & F & M).
  cbn [set_table pageTable] in Hp. injection Hp as <-. assert (t' = t0) as -> by congruence.
  unfold detach in Ed. rewrite Ht, Hp', Hsp in Ed. cbn [deref rbind] in Ed. injection Ed as <-.
  pose proof (same_map_frames _ _ F) as Hfr. pose proof (iv_space s Hi a sp Hsp) as (Hl & Hnd & Hf).
  assert (forall b sp', <[a:=AddrSpace.mkAddrSpace t0 (numPages sp)]> (spaces s) !! b = Some sp' ->
    exists sp0, spaces s !! b = Some sp0 /\ frames (table_of sp') = frames (table_of sp0) /\
      length (table_of sp') = length (table_of sp0) /\ numPages sp' = numPages sp0) as Hsame.
  { intros b sp' [(<- & <-)|(_ & E)]%lookup_insert_Some; [|by exists sp']. exists sp. cbn.
    by rewrite (Forall2_length _ _ _ F). }
  split.
  - split; cbn [set_space set_cpu cpu table spaces threads currentThread freeMap]; try apply Hi.
    + done.
    + done.
    + split; apply Hr.
    + intros b sp' (sp0 & E & E1 & E3 & E4)%Hsame. unfold space_ok. rewrite E1, E3, E4. by apply (iv_space s Hi b).
    + intros b c sp1 sp2 f Hne (sp1' & H1 & -> & _)%Hsame (sp2' & H2' & -> & _)%Hsame. by apply (iv_disjoint s Hi b c).
    + intros t th Hth. destruct (iv_saved s Hi t th Hth) as [? Hs]. split; [done|].
      intros b sp' Hb (sp0 & E & _)%Hsame. by apply (Hs b sp0).
    + intros th b sp' Hth Hb (sp0 & E & _ & _ & ->)%Hsame.
      destruct (iv_current s Hi th b sp0 Hth Hb E) as (? & <- & _). done.
  - intros t Hne th b spb Hth Hb Hspb. assert (a <> b) as Hab by (by eapply other_space).
    cbn [set_space set_cpu cpu table spaces threads currentThread freeMap]. split; [done|].
    split; [by rewrite lookup_insert_ne|]. intros j Hj. apply M. intros Hfo.
    apply (frame_of_frames (freeMap s)) in Hfo as [Hfo _]; [|apply Hi|by apply (iv_space s Hi a)].
    by apply (iv_disjoint s Hi a b sp spb _ Hab Hsp Hspb Hfo).
Qed.

Lemma ignore_ok : handler_ok ignore.
Proof. intros which m Hm. by exists m. Qed.

Lemma ignore_confined : handler_confined ignore.
Proof. intros which m m' Ht _ [= <-]. by apply confined_refl. Qed.

Lemma ignore_agrees : handler_agrees ignore.
Proof. by intros which m m' Ht. Qed.

Lemma instruction_ok s s' a : inv s -> in_space a s ->
  instruction ignore s = Ok s' -> inv s' /\ forall t, t <> currentThread s -> spared t s s'.
Proof.
  intros Hi Hin E. destruct (attach_ok s a Hi Hin) as (sp & Hsp & Ht & Ea & Hm).
  unfold instruction in E. rewrite Ea in E. cbn [rbind] in E. apply bind_Ok_inv in E as (m' & E1 & E2).
  destruct (OneInstruction_safe ignore ignore_ok _ Hm) as [(m'' & E3 & Hm')|[E3 _]]; [|congruence].
  assert (m'' = m') as -> by congruence.
  eapply commit_ok; [done|done|exact Ea| |exact Hm'|exact E2].
  by apply (OneInstruction_confined ignore _ _ ignore_confined).
Qed.

(** ** Handlers *)

Lemma detach_current m s s' : detach m s = Ok s' -> currentThread s' = currentThread s.
Proof.
  unfold detach. destruct (table s); [|by intros [= <-]]. destruct (pageTable m); [|by intros [= <-]].
  intros E. apply bind_Ok_inv in E as (sp & _ & [= <-]). done.
Qed.

Lemma set_handler_ok o s s' : inv s ->
  (forall k, o = Some k -> forall v m, machine_ok m -> stays m (k v m)) -> set_handler o s = Ok s' ->
  inv s' /\ forall t, t <> currentThread s -> spared t s s'.
Proof.
  intros Hi Ho E. unfold set_handler in E. apply bind_Ok_inv in E as (th & Et & [= <-]).
  destruct (threads s !! currentThread s) as [th'|] eqn:Hth; [|done]. injection Et as ->.
  assert (forall t th', <[currentThread s := mkThread (userRegisters th) (space th) (loaded th) o]> (threads s) !! t = Some th' ->
    exists th0, threads s !! t = Some th0 /\ space th' = space th0 /\ loaded th' = loaded th0 /\
      userRegisters th' = userRegisters th0 /\ (handler th' = handler th0 \/ handler th' = o)) as Hths.
  { intros t th' [(<- & <-)|(Hne & E)]%lookup_insert_Some; [exists th; by split_and!; [..|right]|].
    exists th'. by split_and!; [..|left]. }
  split.
  - split; cbn [set_thread cpu table spaces threads currentThread freeMap]; try apply Hi.
    + intros t th' a (th0 & E0 & -> & -> & _)%Hths. by apply (iv_local s Hi t).
    + intros t t' th1 th2 a (th01 & E1 & _ & -> & _)%Hths (th02 & E2 & _ & -> & _)%Hths. by apply (iv_owner s Hi t t').
    + intros t th' (th0 & E0 & -> & _ & -> & _)%Hths. by apply (iv_saved s Hi t).
    + intros th' a sp (th0 & E0 & -> & _)%Hths. by apply (iv_current s Hi th0).
    + intros t th' k (th0 & E0 & _ & _ & _ & [->| ->])%Hths; [by apply (iv_handler s Hi t)|apply Ho].
  - intros t Hne th' a sp E0 Ha Hsp. cbn [set_thread threads]. split; [by rewrite lookup_insert_ne|done].
Qed.

Lemma spared_trans t s1 s2 s3 : spared t s1 s2 -> spared t s2 s3 -> spared t s1 s3.
Proof.
  intros H1 H2 th a sp Hth Ha Hsp. destruct (H1 th a sp Hth Ha Hsp) as (Hth2 & Hs2 & M1).
  destruct (H2 th a sp Hth2 Ha Hs2) as (Hth3 & Hs3 & M2). split; [done|]. split; [done|].
  intros j Hj. by rewrite M2, M1.
Qed.

(** A part of a handler that begins in the machine of the process. *)
Lemma handler_part_ok s a m st x s' : inv s -> in_space a s -> attach s = Ok m -> stays (setStatus st m) x ->
  handler_part x s = Ok s' -> inv s' /\ forall t, t <> currentThread s -> spared t s s'.
Proof.
  intros Hi Hin Ea Hx E.
  assert (forall st' m' s1 s2 o, held (setStatus st m) m' -> detach (setStatus st' m') s = Ok s1 -> set_handler o s1 = Ok s2 ->
    (forall k, o = Some k -> forall v m, machine_ok m -> stays m (k v m)) ->
    inv s2 /\ forall t, t <> currentThread s -> spared t s s2) as Hpart.
  { intros st' m' s1 s2 o [Hc Hm'] E1 E2 Ho.
    destruct (commit_ok s a m (setStatus st' m') s1 Hi Hin Ea) as [Hi1 Hs1]; [exact Hc|exact Hm'|done|].
    destruct (set_handler_ok o s1 s2 Hi1 Ho E2) as [Hi2 Hs2]. split; [done|]. intros t Ht.
    eapply spared_trans; [by apply Hs1|]. apply Hs2. by rewrite (detach_current _ _ _ E1). }
  destruct x as [m'|e|r m' k]; cbn [handler_part] in E; [|done|].
  - apply bind_Ok_inv in E as (s1 & E1 & E2). by apply (Hpart UserMode m' s1 s' None).
  - apply bind_Ok_inv in E as (s1 & E1 & E2). destruct Hx as [Hh Hk]. apply (Hpart (status m') m' s1 s' (Some k)); [done| |done|].
    + by destruct m'.
    + by intros k' [= <-].
Qed.

Lemma enter_handler_ok s which s' a : inv s -> in_space a s -> enter_handler which s = Ok s' ->
  inv s' /\ forall t, t <> currentThread s -> spared t s s'.
Proof.
  intros Hi Hin E. destruct (attach_ok s a Hi Hin) as (sp & _ & _ & Ea & Hm). unfold enter_handler in E.
  rewrite Ea in E. cbn [rbind] in E. eapply handler_part_ok; [done|done|exact Ea| |exact E].
  by apply ExceptionHandler_stays.
Qed.

Lemma continue_handler_ok s v s' a : inv s -> in_space a s -> continue_handler v s = Ok s' ->
  inv s' /\ forall t, t <> currentThread s -> spared t s s'.
Proof.
  intros Hi Hin E. destruct (attach_ok s a Hi Hin) as (sp & _ & _ & Ea & Hm). unfold continue_handler in E.
  apply bind_Ok_inv in E as (th & Et & E). destruct (threads s !! currentThread s) as [th'|] eqn:Hth; [|done].
  injection Et as ->. apply bind_Ok_inv in E as (k & Ek & E). destruct (handler th) as [k'|] eqn:Hk; [|done].
  injection Ek as ->. rewrite Ea in E. cbn [rbind] in E. eapply (handler_part_ok s a _ (status (cpu s))); [done|done|exact Ea| |exact E].
  by apply (iv_handler s Hi _ _ k Hth Hk).
Qed.

(** The thread that is switched out, with its registers saved. *)
Definition saved (m : machine) (th : Thread) : Thread :=
  mkThread (match space th with None => userRegisters th | Some _ => registers m end) (space th) (loaded th) (handler th).

(** The machine after [RestoreUserState] and [RestoreState]. *)
Definition restored (rs : list Z) (n : Z) (m : machine) : machine :=
  {| registers := rs; mainMemory := mainMemory m; tlb := tlb m; pageTable := pageTable m;
     pageTableSize := n; status := status m |}.

(** [Scheduler::Run] for user state: the old thread is saved, and the new one
    restored if it has an address space. *)
Lemma Run_spec s next s' : inv s -> next <> currentThread s -> Run next s = Ok s' ->
  exists old new m' tbl, threads s !! currentThread s = Some old /\ threads s !! next = Some new /\
    s' = mkSystem m' tbl (spaces s) (<[currentThread s := saved (cpu s) old]> (threads s)) next (freeMap s) /\
    (space new = None /\ m' = cpu s /\ tbl = table s \/
     exists a sp, space new = Some a /\ spaces s !! a = Some sp /\ regs_ok (userRegisters new) /\
       m' = restored (userRegisters new) (numPages sp) (cpu s) /\ tbl = Some a).
Proof.
  intros Hi Hne E. unfold Run in E. apply bind_Ok_inv in E as (s1 & E1 & E2). unfold switch_out in E1.
  apply bind_Ok_inv in E1 as (old & Eo & E1).
  destruct (threads s !! currentThread s) as [old'|] eqn:Hold; [|done]. injection Eo as ->.
  assert (s1 = set_current next (set_thread (currentThread s) (saved (cpu s) old) s)) as ->.
  { apply bind_Ok_inv in E1 as (s2 & E1 & [= <-]). unfold saved. destruct (space old) as [b|] eqn:Hb.
    - rewrite SaveUserState_spec in E1 by (apply Hi || apply (iv_saved s Hi _ _ Hold)). cbn [rbind] in E1. by injection E1 as <-.
    - injection E1 as <-. unfold set_thread. rewrite insert_id; [by destruct s|].
      rewrite <- Hb. by destruct old. }
  unfold switch_in in E2. cbn [set_current set_thread threads currentThread cpu] in E2.
  rewrite lookup_insert_ne in E2 by done. apply bind_Ok_inv in E2 as (new & En & E2).
  destruct (threads s !! next) as [new'|] eqn:Hnew; [|done]. injection En as ->.
  exists old, new. destruct (space new) as [a|] eqn:Ha.
  - apply bind_Ok_inv in E2 as (m1 & E2 & E3). unfold RestoreState in E3.
    apply bind_Ok_inv in E3 as (sp & Es & [= <-]). cbn [set_cpu set_current set_thread spaces] in Es.
    destruct (spaces s !! a) as [sp'|] eqn:Hsp; [|done]. injection Es as ->.
    destruct (iv_saved s Hi next new Hnew) as [Hl Hs]. pose proof (Hs a sp Ha Hsp Hne) as Hr.
    rewrite RestoreUserState_spec in E2 by (done || apply Hi || apply Hr). injection E2 as <-.
    eexists _, _. split_and!; [done|done|reflexivity|]. right. by exists a, sp.
  - injection E2 as <-. eexists _, _. split_and!; [done|done|reflexivity|]. by left.
Qed.

Lemma saved_ok s old : inv s -> threads s !! currentThread s = Some old ->
  length (userRegisters (saved (cpu s) old)) = 40%nat /\
  forall a sp, space old = Some a -> spaces s !! a = Some sp -> regs_ok (userRegisters (saved (cpu s) old)).
Proof.
  intros Hi Hold. unfold saved. cbn [userRegisters]. destruct (space old) as [b|] eqn:Hb.
  - split; [apply Hi|]. intros a sp [= <-] Hsp. by apply (iv_current s Hi old b sp).
  - split; [apply (iv_saved s Hi _ _ Hold)|]. done.
Qed.

Lemma Run_ok s next s' : inv s -> next <> currentThread s -> Run next s = Ok s' ->
  inv s' /\ forall t, t <> currentThread s -> spared t s s'.
Proof.
  intros Hi Hne E.
  destruct (Run_spec s next s' Hi Hne E) as (old & new & m' & tbl & Hold & Hnew & -> & Hcase).
  destruct (saved_ok s old Hi Hold) as [Hls Hrs].
  assert (mainMemory m' = mainMemory (cpu s) /\ tlb m' = tlb (cpu s) /\
    length (registers m') = 40%nat /\ Forall is_s32 (registers m')) as (Hmem & Htlb & Hreg).
  { destruct Hcase as [(_ & -> & _)|(a & sp & _ & _ & Hr & -> & _)]; [by split_and!; try apply Hi|].
    split; [done|]. split; [done|]. split; apply Hr. }
  assert (forall t th, <[currentThread s := saved (cpu s) old]> (threads s) !! t = Some th ->
    exists th0, threads s !! t = Some th0 /\ space th = space th0 /\ loaded th = loaded th0 /\ handler th = handler th0 /\
      (t <> currentThread s -> th = th0) /\ (t = currentThread s -> th = saved (cpu s) old /\ th0 = old)) as Hth.
  { intros t th [(<- & <-)|(Hn & E')]%lookup_insert_Some; [by exists old|]. exists th. by split_and!. }
  split.
  - split; cbn [cpu table spaces threads currentThread freeMap]; rewrite ?Hmem, ?Htlb; try apply Hi; try done.
    + intros t th a (th0 & E0 & -> & -> & _)%Hth. by apply (iv_local s Hi t th0 a).
    + intros t t' th th' a (th0 & E0 & _ & -> & _)%Hth (th1 & E1 & _ & -> & _)%Hth. by apply (iv_owner s Hi t t').
    + intros t th (th0 & E0 & Es & _ & _ & Hn & Hy)%Hth. destruct (decide (t = currentThread s)) as [->|Ht].
      * destruct (Hy eq_refl) as [-> ->]. split; [done|]. intros a sp Ha Hsp _. by apply (Hrs a sp).
      * rewrite Hn by done. destruct (iv_saved s Hi t th0 E0) as [? Hs]. split; [done|].
        intros a sp Ha Hsp _. by apply (Hs a sp).
    + intros th a sp (th0 & E0 & Es & _ & _ & Hn & _)%Hth Ha Hsp. rewrite Hn in Ha by done.
      assert (th0 = new) as -> by congruence.
      destruct Hcase as [(? & _)|(b & sp' & Hb & Hsp' & Hr & -> & ->)]; [congruence|].
      assert (b = a) as -> by congruence. assert (sp' = sp) as -> by congruence. done.
    + intros t th k (th0 & E0 & _ & _ & -> & _)%Hth. by apply (iv_handler s Hi t).
  - intros t Ht th a sp E0 Ha Hsp. cbn [cpu threads spaces]. rewrite Hmem.
    split; [by rewrite lookup_insert_ne|done].
Qed.

(** ** Loading and leaving address spaces *)

Lemma new_thread_ok s t garbage : inv s -> threads s !! t = None -> length garbage = 40%nat ->
  inv (new_thread t garbage s) /\ forall t', t' <> currentThread s -> spared t' s (new_thread t garbage s).
Proof.
  intros Hi Hnew Hl.
  assert (forall t' th a, <[t := mkThread garbage None None None]> (threads s) !! t' = Some th ->
    space th = Some a \/ loaded th = Some a -> threads s !! t' = Some th) as Hth.
  { intros t' th a [(<- & <-)|(_ & E)]%lookup_insert_Some; [by intros [[=]|[=]]|done]. }
  split.
  - split; cbn [new_thread set_thread cpu table spaces threads currentThread freeMap]; try apply Hi.
    + intros t' th a E Ha. apply (iv_local s Hi t' th a); [|done]. eapply Hth; [done|by left].
    + intros t1 t2 th th' a E1 E2 H1 H2. apply (iv_owner s Hi t1 t2 th th' a); [..|done|done]; (eapply Hth; [done|by right]).
    + intros t' th [(<- & <-)|(_ & E)]%lookup_insert_Some; [done|]. by apply (iv_saved s Hi t').
    + intros th a sp E Ha. apply (iv_current s Hi th a sp); [|done]. eapply Hth; [done|by left].
    + intros t' th k [(<- & <-)|(_ & E)]%lookup_insert_Some; [done|]. by apply (iv_handler s Hi t').
  - intros t' _ th a sp E Ha Hsp. split; [|done]. cbn [new_thread set_thread threads].
    rewrite lookup_insert_ne; [done|]. intros ->. congruence.
Qed.

(** Memory after loading still consists of bytes. *)
Lemma loaded_memory fm mem n f off sp fm' mem' : memory_ok mem -> Forall is_u8 f ->
  AddrSpace.loaded_as fm mem n (AddrSpace.image f off) sp fm' mem' -> memory_ok mem'.
Proof.
  intros [Hl Hu] Hf L. destruct (AddrSpace.la_outside _ _ _ _ _ _ _ L) as [Hl' Hout].
  split; [congruence|]. apply Forall_lookup. intros j x Hx.
  destruct (decide (Z.of_nat j / PageSize ∈ frames (table_of sp))) as [Hin|Hn].
  - apply list_elem_of_fmap in Hin as (e & Ee & He). apply list_elem_of_lookup in He as [k Hk].
    pose proof (AddrSpace.la_length _ _ _ _ _ _ _ L) as Hlen. pose proof (lookup_lt_Some _ _ _ Hk) as Hlt.
    pose proof (AddrSpace.page_range (Z.of_nat j) ltac:(lia)) as Hp. pose proof (Z.mod_pos_bound (Z.of_nat j) PageSize ltac:(done)) as Hmod.
    destruct (AddrSpace.la_image _ _ _ _ _ _ _ L (Z.of_nat k * PageSize + Z.of_nat j mod PageSize)) as (fr & Hfr & Hm).
    { unfold PageSize in *. lia. }
    replace ((Z.of_nat k * PageSize + Z.of_nat j mod PageSize) / PageSize) with (Z.of_nat k) in Hfr
      by (unfold PageSize in *; zify_div; lia).
    replace ((Z.of_nat k * PageSize + Z.of_nat j mod PageSize) mod PageSize) with (Z.of_nat j mod PageSize) in Hm
      by (unfold PageSize in *; zify_div; lia).
    rewrite Nat2Z.id, Hk in Hfr. injection Hfr as ->. cbn [physicalPage] in Ee. subst fr.
    replace (Z.to_nat (Z.of_nat j / PageSize * PageSize + Z.of_nat j mod PageSize)) with j in Hm
      by (unfold PageSize in *; zify_div; lia).
    assert (x = AddrSpace.image f off (Z.of_nat k * PageSize + Z.of_nat j mod PageSize)) as -> by congruence.
    unfold AddrSpace.image. destruct (f !! _) as [y|] eqn:Ey; [by eapply Forall_lookup_1 in Hf|]. done.
  - rewrite Hout in Hx by done. by eapply Forall_lookup_1 in Hu.
Qed.

Lemma marked_taken fm fm' l f : Forall (fun fr => 0 <= fr /\ view fm !! Z.to_nat fr = Some false) l ->
  view fm' = FileHdr.mark_all l (view fm) -> 0 <= f -> view fm !! Z.to_nat f = Some true \/ f ∈ l ->
  view fm' !! Z.to_nat f = Some true.
Proof.
  intros Hl Hv H0 Hf. rewrite Hv. assert (Forall (fun s => 0 <= s) l) as Hpos by (eapply Forall_impl; [exact Hl|]; by intros ? []).
  destruct (decide (f ∈ l)) as [Hin|Hn].
  - apply FileHdr.lookup_mark_all; [|done]. rewrite Forall_forall in Hl. destruct (Hl f Hin) as [_ E%lookup_lt_Some]. lia.
  - rewrite FileHdr.lookup_mark_all_ne by done. by destruct Hf.
Qed.

(** The frames of a new address space are those of no other. *)
Lemma loaded_apart s mem n img sp fm mem' b spb f : inv s ->
  AddrSpace.loaded_as (freeMap s) mem n img sp fm mem' ->
  spaces s !! b = Some spb -> f ∈ frames (table_of spb) -> f ∉ frames (table_of sp).
Proof.
  intros Hi L Hb Hf Hf'. pose proof (AddrSpace.la_free _ _ _ _ _ _ _ L) as Hfree.
  destruct (iv_space s Hi b spb Hb) as (_ & _ & Hall). rewrite Forall_forall in Hall, Hfree.
  destruct (Hall _ Hf) as [_ H1]. destruct (Hfree _ Hf') as [_ H2]. congruence.
Qed.

Lemma loaded_spaces s mem n img sp fm mem' a b spb : inv s ->
  AddrSpace.loaded_as (freeMap s) mem n img sp fm mem' ->
  <[a := sp]> (spaces s) !! b = Some spb -> space_ok fm spb.
Proof.
  intros Hi L Hb. pose proof (AddrSpace.la_free _ _ _ _ _ _ _ L) as Hfree.
  pose proof (AddrSpace.la_taken _ _ _ _ _ _ _ L) as Htaken.
  apply lookup_insert_Some in Hb as [(<- & <-)|(_ & Hb)].
  - split; [apply L|]. split; [apply L|]. apply Forall_forall. intros fr Hfr.
    assert (0 <= fr) by (rewrite Forall_forall in Hfree; by apply Hfree). split; [done|].
    eapply marked_taken; [done..|by right].
  - destruct (iv_space s Hi b spb Hb) as (H1 & H2 & H3). do 2 (split; [done|]).
    eapply Forall_impl; [exact H3|]. intros fr [H4 H5]. split; [done|]. eapply marked_taken; [done..|by left].
Qed.

Lemma load_ok s garbage f a s' th : inv s ->
  threads s !! currentThread s = Some th -> space th = None -> loaded th = None ->
  spaces s !! a = None ->
  (forall t th, threads s !! t = Some th -> space th <> Some a /\ loaded th <> Some a) ->
  loadable garbage f (freeMap s) -> load garbage f a s = Ok s' ->
  inv s' /\ forall t, t <> currentThread s -> spared t s s'.
Proof.
  intros Hi Hth Hnone Hloc Ha Hfresh (Hu & h & Eh & Hn & Hva & Hsz & Hoff & Hov & Hdata) E.
  destruct (AddrSpace.AddrSpace_init_loads garbage f (freeMap s) (mainMemory (cpu s)) h)
    as (sp & fm & mem & Ei & L); try done; try apply Hi.
  unfold load in E. rewrite Hth, Ei in E. cbn [deref rbind] in E. injection E as <-.
  pose proof (AddrSpace.la_outside _ _ _ _ _ _ _ L) as [Hlen Hout].
  pose proof (fun b spb f => loaded_apart s _ _ _ sp fm mem b spb f Hi L) as Hdis.
  assert (forall t th', <[currentThread s := mkThread (userRegisters th) (space th) (Some a) (handler th)]> (threads s) !! t = Some th' ->
    exists th0, threads s !! t = Some th0 /\ space th' = space th0 /\ userRegisters th' = userRegisters th0 /\ handler th' = handler th0 /\
      (t <> currentThread s /\ th' = th0 \/ t = currentThread s /\ loaded th' = Some a)) as Hths.
  { intros t th' [(<- & <-)|(Hne & E)]%lookup_insert_Some; [exists th; by split_and!; [..|right]|].
    exists th'. by split_and!; [..|left]. }
  split.
  - split; cbn [cpu table spaces threads currentThread freeMap mainMemory tlb registers pageTableSize]; try apply Hi.
    + eapply loaded_memory; [apply Hi|exact Hu|exact L].
    + split; [by apply (AddrSpace.la_wf _ _ _ _ _ _ _ L)|]. rewrite (AddrSpace.la_taken _ _ _ _ _ _ _ L), FileHdr.length_mark_all. apply Hi.
    + intros b spb. by apply (loaded_spaces s _ _ _ _ _ _ a b spb Hi L).
    + intros b c sp1 sp2 fr Hne [(<- & <-)|(_ & Hb)]%lookup_insert_Some [(<- & <-)|(_ & Hc)]%lookup_insert_Some.
      * done.
      * intros Hf1 Hf2. by apply (Hdis c sp2 fr Hc Hf2).
      * by apply (Hdis b sp1 fr Hb).
      * by apply (iv_disjoint s Hi b c).
    + intros t th' b (th0 & E0 & -> & _ & _ & [(_ & ->)|(-> & E1)])%Hths Hb; [by apply (iv_local s Hi t)|congruence].
    + intros t t' th1 th2 b (th01 & E1 & _ & _ & _ & [(Hn1 & ->)|(-> & Ea1)])%Hths (th02 & E2 & _ & _ & _ & [(Hn2 & ->)|(-> & Ea2)])%Hths H1 H2.
      * by apply (iv_owner s Hi t t' th01 th02 b).
      * destruct (Hfresh _ _ E1) as [_ []]. congruence.
      * destruct (Hfresh _ _ E2) as [_ []]. congruence.
      * done.
    + intros t th' (th0 & E0 & -> & -> & _)%Hths. destruct (iv_saved s Hi t th0 E0) as [? Hs]. split; [done|].
      intros b spb Hb [(<- & <-)|(_ & Hspb)]%lookup_insert_Some; [by destruct (Hfresh _ _ E0)|]. by apply (Hs b spb).
    + intros th' b spb (th0 & E0 & -> & _)%Hths Hb. congruence.
    + intros t th' k (th0 & E0 & _ & _ & -> & _)%Hths. by apply (iv_handler s Hi t).
  - intros t Hne tht b spb Ht Hb Hspb. cbn [cpu table spaces threads mainMemory].
    split; [by rewrite lookup_insert_ne|]. split; [rewrite lookup_insert_ne; [done|congruence]|].
    intros j Hj. apply Hout. by apply (Hdis b spb).
Qed.

(** The registers of a fresh program. *)
Lemma start_regs_ok n : regs_ok (<[29%nat := s32 n]> (<[35%nat := 4]> (replicate 40 0))).
Proof.
  split; [done|]. split; [|split; [done|by exists 0]].
  apply Forall_insert; [apply Forall_insert; [by apply Forall_replicate|done]|apply s32_range].
Qed.

Lemma execute_ok s s' th : inv s -> threads s !! currentThread s = Some th -> space th = None ->
  execute_space s = Ok s' -> inv s' /\ forall t, t <> currentThread s -> spared t s s'.
Proof.
  intros Hi Hth Hnone E. unfold execute_space in E. rewrite Hth in E. cbn [deref rbind] in E.
  apply bind_Ok_inv in E as (a & Ea & E). destruct (loaded th) as [b|] eqn:Hb; [|done]. injection Ea as ->.
  apply bind_Ok_inv in E as (sp & Es & E). destruct (spaces s !! a) as [sp'|] eqn:Hsp; [|done]. injection Es as ->.
  cbn [set_thread cpu currentThread] in E. rewrite AddrSpace.InitRegisters_spec in E by apply Hi.
  pose proof (start_regs_ok (numPages sp * PageSize - 16)) as Hr.
  set (rs := <[29%nat := _]> _) in E, Hr. clearbody rs.
  unfold RestoreState in E. cbn [rbind set_cpu spaces set_thread] in E. rewrite Hsp in E. cbn [deref rbind] in E.
  injection E as <-. cbn [set_thread set_cpu registers mainMemory tlb pageTable pageTableSize status cpu].
  assert (forall t th', <[currentThread s := mkThread (userRegisters th) (Some a) (Some a) (handler th)]> (threads s) !! t = Some th' ->
    exists th0, threads s !! t = Some th0 /\ loaded th' = loaded th0 /\ userRegisters th' = userRegisters th0 /\ handler th' = handler th0 /\
      (t <> currentThread s /\ th' = th0 \/ t = currentThread s /\ space th' = Some a)) as Hths.
  { intros t th' [(<- & <-)|(Hne & E)]%lookup_insert_Some; [exists th; by split_and!; [..|right]|].
    exists th'. by split_and!; [..|left]. }
  split.
  - split; cbn [set_cpu set_thread cpu table spaces threads currentThread freeMap mainMemory tlb registers pageTableSize]; try apply Hi.
    + split; apply Hr.
    + intros t th' b (th0 & E0 & -> & _ & _ & [(_ & ->)|(-> & E1)])%Hths Hb'; [by apply (iv_local s Hi t)|]. congruence.
    + intros t t' th1 th2 b (th01 & E1 & -> & _)%Hths (th02 & E2 & -> & _)%Hths. by apply (iv_owner s Hi t t').
    + intros t th' (th0 & E0 & _ & -> & _ & Hc)%Hths. destruct (iv_saved s Hi t th0 E0) as [? Hs]. split; [done|].
      intros b spb Hbs Hspb Hne. destruct Hc as [(_ & ->)|(-> & _)]; [by apply (Hs b spb)|done].
    + intros th' b spb (th0 & _ & _ & _ & _ & [(Hn & _)|(_ & E1)])%Hths Hb' Hspb; [done|].
      assert (b = a) as -> by congruence. assert (spb = sp) as -> by congruence. done.
    + intros t th' k (th0 & E0 & _ & _ & -> & _)%Hths. by apply (iv_handler s Hi t).
  - intros t Hne tht b spb Ht Hb' Hspb. cbn [set_cpu set_thread cpu spaces threads mainMemory].
    split; [by rewrite lookup_insert_ne|done].
Qed.

(** The free map after the frames [l] are given back. *)
Definition clear_all (l : list Z) (v : list bool) : list bool :=
  foldl (fun v f => <[Z.to_nat f := false]> v) v l.

Lemma length_clear_all l v : length (clear_all l v) = length v.
Proof. unfold clear_all. revert v. induction l as [|f l IH]; intros v; [done|]. cbn. by rewrite IH, length_insert. Qed.

Lemma lookup_clear_all l v f : Forall (fun f => 0 <= f < Z.of_nat (length v)) l -> 0 <= f ->
  clear_all l v !! Z.to_nat f = if decide (f ∈ l) then Some false else v !! Z.to_nat f.
Proof.
  revert v. induction l as [|g l IH]; intros v Hl Hf; [done|]. apply Forall_cons in Hl as [Hg Hl]. cbn.
  unfold clear_all in IH. rewrite IH by (done || by rewrite length_insert).
  destruct (decide (f ∈ l)) as [Hin|Hn]; [by rewrite decide_True by set_solver|].
  destruct (decide (f = g)) as [->|Hne].
  - rewrite decide_True by set_solver. apply list_lookup_insert_eq. lia.
  - rewrite decide_False by set_solver. apply list_lookup_insert_ne. lia.
Qed.

Lemma mark_clear_all l v : Forall (fun f => 0 <= f /\ v !! Z.to_nat f = Some true) l ->
  FileHdr.mark_all l (clear_all l v) = v.
Proof.
  intros Hl. assert (Forall (fun f => 0 <= f < Z.of_nat (length v)) l) as Hr.
  { eapply Forall_impl; [exact Hl|]. intros f [H0 H1%lookup_lt_Some]. lia. }
  apply list_eq. intros i. rewrite <- (Nat2Z.id i). destruct (decide (Z.of_nat i ∈ l)) as [Hin|Hn].
  - rewrite Forall_forall in Hl, Hr. destruct (Hl _ Hin) as [_ ->]. apply FileHdr.lookup_mark_all; [|done].
    rewrite length_clear_all. by apply Hr.
  - rewrite FileHdr.lookup_mark_all_ne, lookup_clear_all, decide_False by (done || lia ||
      (eapply Forall_impl; [exact Hr|]; cbn; lia)). done.
Qed.

(** The destructor gives back exactly the frames of the address space. *)
Lemma AddrSpace_free_ok fm sp : al_wf fm -> space_ok fm sp ->
  exists fm', AddrSpace.AddrSpace_free sp fm = Ok fm' /\ al_wf fm' /\
    view fm' = clear_all (frames (table_of sp)) (view fm).
Proof.
  intros Hwf (Hl & Hnd & Hf). destruct sp as [t n]. cbn [AddrSpace.pageTable AddrSpace.numPages] in *. subst n.
  assert (Forall (fun f => 0 <= f < Z.of_nat (length (view fm))) (frames t)) as Hr.
  { eapply Forall_impl; [exact Hf|]. intros f [H0 H1%lookup_lt_Some]. lia. }
  apply AddrSpace.free_spec; [done|done| |by rewrite mark_clear_all].
  apply Forall_forall. intros f Hin. rewrite Forall_forall in Hf. destruct (Hf f Hin) as [H0 _]. split; [done|].
  by rewrite lookup_clear_all, decide_True.
Qed.

Lemma FreeSpace_ok s a s' : inv s -> in_space a s -> FreeSpace s = Ok s' ->
  inv s' /\ forall t, t <> currentThread s -> spared t s s'.
Proof.
  intros Hi Hin E. pose proof Hin as (th & Hth & Ha & [sp Hsp]). unfold FreeSpace in E.
  rewrite Hth in E. cbn [deref rbind] in E. rewrite Ha, Hsp in E. cbn [deref rbind] in E.
  pose proof (iv_space s Hi a sp Hsp) as Hok.
  destruct (AddrSpace_free_ok (freeMap s) sp) as (fm & Ef & Hwf & Hv); [apply Hi|done|]. rewrite Ef in E.
  injection E as <-. assert (Forall (fun f => 0 <= f < Z.of_nat (length (view (freeMap s)))) (frames (table_of sp))) as Hr.
  { eapply Forall_impl; [apply Hok|]. intros f [H0 H1%lookup_lt_Some]. lia. }
  split.
  - split; cbn [cpu table spaces threads currentThread freeMap]; try apply Hi.
    + split; [done|]. rewrite Hv, length_clear_all. apply Hi.
    + intros b spb [Hne Hb]%lookup_delete_Some. destruct (iv_space s Hi b spb Hb) as (H1 & H2 & H3).
      do 2 (split; [done|]). apply Forall_forall. intros f Hf. rewrite Forall_forall in H3. destruct (H3 f Hf) as [H4 H5].
      split; [done|]. rewrite Hv, lookup_clear_all, decide_False; [done| |done|done].
      by apply (iv_disjoint s Hi b a spb sp f).
    + intros b c sp1 sp2 f Hne [_ Hb]%lookup_delete_Some [_ Hc]%lookup_delete_Some. by apply (iv_disjoint s Hi b c).
    + intros t tht Ht. destruct (iv_saved s Hi t tht Ht) as [? Hs]. split; [done|].
      intros b spb Hb [_ Hspb]%lookup_delete_Some. by apply (Hs b spb).
    + intros th' b spb Hth' Hb [_ Hspb]%lookup_delete_Some. by apply (iv_current s Hi th' b spb).
  - intros t Hne tht b spb Ht Hb Hspb. cbn [cpu spaces threads]. split; [done|]. split; [|done].
    rewrite lookup_delete_ne; [done|]. by eapply other_space.
Qed.

(** Every step keeps the invariant, and every other process as it is. *)
Lemma step_ok s s' : inv s -> step s s' -> inv s' /\ forall t, t <> currentThread s -> spared t s s'.
Proof.
  intros Hi Hs. destruct Hs.
  - by eapply instruction_ok.
  - by eapply enter_handler_ok.
  - by eapply continue_handler_ok.
  - by eapply Run_ok.
  - by apply new_thread_ok.
  - by eapply load_ok.
  - by eapply execute_ok.
  - by eapply FreeSpace_ok.
Qed.

(** [Scheduler::Run] does not fail. *)
Lemma Run_total s : inv s -> forall next th cur, threads s !! currentThread s = Some cur ->
  threads s !! next = Some th -> next <> currentThread s -> (forall a, space th = Some a -> is_Some (spaces s !! a)) ->
  exists s', Run next s = Ok s'.
Proof.
  intros Hi next th cur Hcur Hth Hne Hlive. unfold Run, switch_out. rewrite Hcur. cbn [deref rbind].
  assert (forall s1, cpu s1 = cpu s -> spaces s1 = spaces s -> threads s1 !! next = Some th ->
    exists s', switch_in (set_current next s1) = Ok s') as Hin.
  { intros s1 Ec Es Et. unfold switch_in. cbn [set_current threads currentThread cpu]. rewrite Et, Ec. cbn [deref rbind].
    destruct (space th) as [a|] eqn:Ha; [|by eexists]. destruct (Hlive a eq_refl) as [sp Hsp].
    destruct (iv_saved s Hi next th Hth) as [Hl Hr]. specialize (Hr a sp Ha Hsp Hne).
    rewrite RestoreUserState_spec by (done || apply Hi || apply Hr). cbn [rbind]. unfold RestoreState.
    cbn [set_cpu set_current spaces]. rewrite Es, Hsp. by eexists. }
  destruct (space cur).
  - rewrite SaveUserState_spec by (apply Hi || apply (iv_saved s Hi _ _ Hcur)). cbn [rbind].
    apply Hin; [done|done|]. cbn [set_thread threads]. by rewrite lookup_insert_ne.
  - cbn [rbind]. by apply Hin.
Qed.

(** ** Reachable states *)

(** The main thread before the first program is loaded. *)
Definition initial (s : system) : Prop :=
  cpu s = Machine.Machine /\ table s = None /\ spaces s = ∅ /\
  (exists garbage, length garbage = 40%nat /\ threads s = {[currentThread s := mkThread garbage None None None]}) /\
  al_wf (freeMap s) /\ Z.of_nat (length (view (freeMap s))) = NumPhysPages.

Definition reachable (s : system) : Prop := exists s0, initial s0 /\ rtc step s0 s.

Lemma initial_inv s : initial s -> inv s.
Proof.
  intros (Ec & _ & Es & (garbage & Hl & Et) & Hmap). split; rewrite ?Ec, ?Es, ?Et; try done.
  - split; [apply length_replicate|by apply Forall_replicate].
  - split; [done|by apply Forall_replicate].
  - intros t th a (_ & <-)%lookup_singleton_Some. done.
  - intros t t' th th' a (_ & <-)%lookup_singleton_Some. done.
  - intros t th (_ & <-)%lookup_singleton_Some. done.
  - intros t th k (_ & <-)%lookup_singleton_Some. done.
Qed.

Lemma reachable_inv s : reachable s -> inv s.
Proof.
  intros (s0 & H0 & Hs). apply initial_inv in H0. induction Hs as [|s0 s1 s2 H1 _ IH]; [done|].
  apply IH. by apply (step_ok s0).
Qed.

Lemma set_handler_current o s s' : set_handler o s = Ok s' -> currentThread s' = currentThread s.
Proof. unfold set_handler. intros E. by apply bind_Ok_inv in E as (th & _ & [= <-]). Qed.

Lemma handler_part_current x s s' : handler_part x s = Ok s' -> currentThread s' = currentThread s.
Proof.
  destruct x as [m|e|r m k]; cbn [handler_part]; [|done|]; intros E; apply bind_Ok_inv in E as (s1 & E1 & E2);
    by rewrite (set_handler_current _ _ _ E2), (detach_current _ _ _ E1).
Qed.

(** Only [Scheduler::Run] changes the running thread. *)
Lemma step_current s s' : step s s' ->
  currentThread s' = currentThread s \/ currentThread s' <> currentThread s /\ Run (currentThread s') s = Ok s'.
Proof.
  intros [s1 s2 a _ E|s1 which s2 a _ E|s1 v s2 a _ E|s1 next s2 Hne E|s1 t g _ _|s1 g f a s2 th _ _ _ _ _ _ _ E|s1 s2 th _ _ E|s1 s2 a _ E].
  - left. unfold instruction in E. apply bind_Ok_inv in E as (m & _ & E). apply bind_Ok_inv in E as (m' & _ & E).
    by eapply detach_current.
  - left. unfold enter_handler in E. apply bind_Ok_inv in E as (m & _ & E). by eapply handler_part_current.
  - left. unfold continue_handler in E. apply bind_Ok_inv in E as (th & _ & E). apply bind_Ok_inv in E as (k & _ & E).
    apply bind_Ok_inv in E as (m & _ & E). by eapply handler_part_current.
  - assert (currentThread s2 = next) as ->; [|by right]. unfold Run in E. apply bind_Ok_inv in E as (s3 & E1 & E2).
    unfold switch_out in E1. apply bind_Ok_inv in E1 as (th & _ & E1). apply bind_Ok_inv in E1 as (s4 & _ & [= <-]).
    unfold switch_in in E2. apply bind_Ok_inv in E2 as (th' & _ & E2). destruct (space th'); [|by injection E2 as <-].
    apply bind_Ok_inv in E2 as (m & _ & E2). unfold RestoreState in E2. by apply bind_Ok_inv in E2 as (sp & _ & [= <-]).
  - by left.
  - left. unfold load in E. apply bind_Ok_inv in E as (th' & _ & E). apply bind_Ok_inv in E as ([[sp fm] mem] & _ & [= <-]). done.
  - left. unfold execute_space in E. apply bind_Ok_inv in E as (th' & _ & E). apply bind_Ok_inv in E as (a & _ & E).
    apply bind_Ok_inv in E as (sp & _ & E). apply bind_Ok_inv in E as (m & _ & E).
    unfold RestoreState in E. by apply bind_Ok_inv in E as (sp' & _ & [= <-]).
  - left. unfold FreeSpace in E. apply bind_Ok_inv in E as (th' & _ & E). destruct (space th'); [|by injection E as <-].
    apply bind_Ok_inv in E as (sp & _ & E). by apply bind_Ok_inv in E as (fm & _ & [= <-]).
Qed.

(** A step of the others. *)
Definition other_step (t : tid) (s s' : system) : Prop := currentThread s <> t /\ step s s'.

Lemma other_steps_spared t s s' : inv s -> rtc (other_step t) s s' -> inv s' /\ spared t s s'.
Proof.
  intros Hi Hs. induction Hs as [s|s s1 s2 [Hc H1] _ IH].
  - split; [done|]. intros th a sp Hth Ha Hsp. done.
  - destruct (step_ok s s1 Hi H1) as [Hi1 Hsp1]. destruct (IH Hi1) as [Hi2 Hsp2]. split; [done|].
    eapply spared_trans; [by apply Hsp1|done].
Qed.

(** The thread [t] is not running, and its saved registers, page table and
    frames are those of the machine [m] it left. *)
Definition set_aside (t : tid) (a : aid) (sp : AddrSpace) (m : machine) (s : system) : Prop :=
  (exists th, threads s !! t = Some th /\ space th = Some a /\ userRegisters th = registers m) /\
  spaces s !! a = Some sp /\
  forall j, Z.of_nat j / PageSize ∈ frames (table_of sp) -> mainMemory (cpu s) !! j = mainMemory m !! j.

Lemma switched_out s next s' a sp : inv s -> in_space a s -> spaces s !! a = Some sp ->
  next <> currentThread s -> Run next s = Ok s' ->
  inv s' /\ currentThread s' = next /\ set_aside (currentThread s) a sp (cpu s) s'.
Proof.
  intros Hi (th & Hth & Ha & _) Hsp Hne E. split; [by apply (Run_ok s next s')|].
  destruct (Run_spec s next s' Hi Hne E) as (old & new & m1 & tbl & Hold & _ & -> & Hcase).
  assert (old = th) as -> by congruence. split; [done|]. split; [|split; [done|]].
  - exists (saved (cpu s) th). cbn [threads]. split; [apply lookup_insert_eq|]. unfold saved. by rewrite Ha.
  - cbn [cpu]. by destruct Hcase as [(_ & -> & _)|(? & ? & _ & _ & _ & -> & _)].
Qed.

Lemma set_aside_steps t a sp m s s' : inv s -> set_aside t a sp m s -> rtc (other_step t) s s' ->
  inv s' /\ set_aside t a sp m s'.
Proof.
  intros Hi ((th & Hth & Ha & Er) & Hsp & M) Hs. destruct (other_steps_spared t s s' Hi Hs) as [Hi' Hsp'].
  split; [done|]. destruct (Hsp' th a sp Hth Ha Hsp) as (Hth' & Hs' & M').
  split; [by exists th|]. split; [done|]. intros j Hj. by rewrite M', M.
Qed.

Lemma switched_in s t s' a sp m : inv s -> t <> currentThread s -> set_aside t a sp m s -> Run t s = Ok s' ->
  attach s' = Ok (set_table (Some (table_of sp)) (cpu s')) /\ pageTableSize (cpu s') = numPages sp /\
  registers (cpu s') = registers m /\
  forall j, Z.of_nat j / PageSize ∈ frames (table_of sp) -> mainMemory (cpu s') !! j = mainMemory m !! j.
Proof.
  intros Hi Hne ((th & Hth & Ha & Er) & Hsp & M) E.
  destruct (Run_spec s t s' Hi Hne E) as (old & new & m2 & tbl & _ & Hnew & -> & Hcase).
  assert (new = th) as -> by congruence.
  destruct Hcase as [(? & _)|(b & sp2 & Hb & Hsp2 & _ & -> & ->)]; [congruence|].
  assert (b = a) as -> by congruence. assert (sp2 = sp) as -> by congruence.
  unfold attach. cbn [table spaces cpu]. rewrite Hsp. done.
Qed.

(** A process that is switched out and, later, in again finds its machine as it
    left it. *)
Lemma resumed s0 next s1 s2 a : inv s0 -> in_space a s0 -> next <> currentThread s0 -> Run next s0 = Ok s1 ->
  rtc (other_step (currentThread s0)) s1 s2 -> currentThread s2 = currentThread s0 ->
  exists m0 m2, attach s0 = Ok m0 /\ attach s2 = Ok m2 /\ twin m0 m2 /\ machine_ok m0 /\ machine_ok m2.
Proof.
  intros Hi Hin Hne E1 Hs Ec. destruct (attach_ok s0 a Hi Hin) as (sp & Hsp & Ht & Ea & Hm & Hmem & Htab).
  pose proof Hin as (th & Hth & Ha & _). destruct (iv_current s0 Hi th a sp Hth Ha Hsp) as (_ & Hn & _).
  destruct (switched_out s0 next s1 a sp Hi Hin Hsp Hne E1) as (Hi1 & Ec1 & Hout).
  apply rtc_inv_r in Hs as [<-|(s' & Hs & Hc & Hstep)]; [congruence|].
  destruct (set_aside_steps _ a sp _ s1 s' Hi1 Hout Hs) as [Hi' Hout'].
  destruct (step_ok s' s2 Hi' Hstep) as [Hi2 _].
  destruct (step_current s' s2 Hstep) as [?|[Hne' E2]]; [congruence|]. rewrite Ec in Hne', E2.
  destruct (switched_in s' _ s2 a sp _ Hi' Hne' Hout' E2) as (Ea2 & En & Er & M).
  assert (twin (set_table (Some (table_of sp)) (cpu s0)) (set_table (Some (table_of sp)) (cpu s2))) as Htw.
  2:{ eexists _, _. split; [exact Ea|]. split; [exact Ea2|]. split; [exact Htw|]. split; [by split|].
      split; [cbn [set_table registers]; by rewrite Er|]. split; [apply Hi2|]. by apply (twin_right _ _ Htw). }
  split; [|split; [done|apply Hmem]]. unfold agree. cbn [set_table registers tlb pageTable pageTableSize mainMemory].
  rewrite (iv_tlb s2 Hi2), (iv_tlb s0 Hi), (proj1 (iv_memory s2 Hi2)), (proj1 (iv_memory s0 Hi)).
  split_and!; try done; [congruence|]. intros t j [= <-] Hf. apply M.
  by apply (frame_of_frames (freeMap s0)) in Hf as [Hf _]; [|apply Hi|apply (iv_space s0 Hi a)].
Qed.

(** The next [n] instructions of a process. *)
Fixpoint instructions (H : ExceptionType -> machine -> res machine) (n : nat) (m : machine) : res machine :=
  match n with
  | O => Ok m
  | S n' => let* m1 := OneInstruction H m in instructions H n' m1
  end.

Lemma instructions_twin H n m m' : handler_agrees H -> twin m m' ->
  res_rel twin (instructions H n m) (instructions H n m').
Proof.
  intros Hh. revert m m'. induction n as [|n IH]; intros m m' Ht; [done|]. cbn [instructions].
  eapply res_rel_bind; [by apply OneInstruction_twin|]. apply IH.
Qed.

(** ** Properties *)



End System.

(** ** Two processes *)

Definition program : list Z := AddrSpace.sample_file (AddrSpace.mkSegment 0 0 0).
Definition no_thread : list Z := replicate 40 7.

Definition main_thread : system (A := Bitmap.bitmap) :=
  mkSystem Machine.Machine None ∅ {[0%nat := mkThread no_thread None None None]} 0%nat AddrSpace.one_taken.

(** The running thread [t] can load a program as the object [a]. *)
Definition can_load (t : tid) (a : aid) (s : system (A := Bitmap.bitmap)) : bool :=
  bool_decide (currentThread s = t) &&
  match threads s !! t with
  | Some th => bool_decide (space th = None) && bool_decide (loaded th = None)
  | None => false
  end &&
  bool_decide (spaces s !! a = None) && bool_decide (table s <> Some a) &&
  bool_decide (map_Forall (fun _ th => space th <> Some a /\ loaded th <> Some a) (threads s)) &&
  (9 <=? num_clear (view (freeMap s))).

Lemma load_step t a s s' : can_load t a s = true -> load (calloc 52) program a s = Ok s' -> step s s'.
Proof.
  unfold can_load. rewrite !andb_true_iff, !bool_decide_eq_true. intros (((((Ec & Et) & Es) & Hta) & Hall) & Hn) E.
  destruct (threads s !! t) as [th|] eqn:Hth; [|done]. rewrite andb_true_iff, !bool_decide_eq_true in Et. destruct Et as [Et1 Et2].
  eapply step_load; [rewrite Ec; exact Hth|exact Et1|exact Et2|exact Es|exact Hta|exact Hall| |exact E].
  split; [vm_compute; repeat constructor; discriminate|].
  exists (AddrSpace.mkNoff AddrSpace.NOFFMAGIC (AddrSpace.mkSegment 0 52 128) (AddrSpace.mkSegment 0 0 0)
    (AddrSpace.mkSegment 0 0 0) (AddrSpace.mkSegment 0 0 0)).
  split; [by vm_compute|]. split; [exact (proj1 (Z.leb_le _ _) Hn)|]. split_and!; try done. by left.
Qed.

(** The running thread has no address space. *)
Definition idle (s : system (A := Bitmap.bitmap)) : bool :=
  match threads s !! currentThread s with Some th => bool_decide (space th = None) | None => false end.

Lemma execute_step s s' : idle s = true -> execute_space s = Ok s' -> step s s'.
Proof.
  unfold idle. intros Hi E. destruct (threads s !! currentThread s) as [th|] eqn:Et; [|done].
  apply bool_decide_eq_true in Hi. by eapply step_execute.
Qed.

Definition runs_in (a : aid) (s : system (A := Bitmap.bitmap)) : bool :=
  match threads s !! currentThread s with
  | Some th => bool_decide (space th = Some a) && bool_decide (is_Some (spaces s !! a))
  | None => false
  end.

Lemma runs_in_space a s : runs_in a s = true -> in_space a s.
Proof.
  unfold runs_in. intros Hr. destruct (threads s !! currentThread s) as [th|] eqn:Et; [|done].
  rewrite andb_true_iff, !bool_decide_eq_true in Hr. by exists th.
Qed.

Definition scenario : bool :=
  can_load 0%nat 0%nat main_thread &&
  match load (calloc 52) program 0%nat main_thread with Ok a1 =>
  idle a1 && match execute_space a1 with Ok a2 =>
  bool_decide (threads a2 !! 1%nat = None) && runs_in 0%nat (new_thread 1%nat no_thread a2) &&
  bool_decide (currentThread a2 = 0%nat) &&
  match Run 1%nat (new_thread 1%nat no_thread a2) with Ok s1 =>
  can_load 1%nat 1%nat s1 && match load (calloc 52) program 1%nat s1 with Ok b1 =>
  idle b1 && bool_decide (currentThread b1 = 1%nat) && match execute_space b1 with Ok b2 =>
  runs_in 1%nat b2 && bool_decide (currentThread b2 = 1%nat) && match instruction ignore b2 with Ok b3 =>
  bool_decide (currentThread b3 = 1%nat) && match Run 0%nat b3 with Ok s2 =>
  bool_decide (currentThread s2 = 0%nat)
  | _ => false end | _ => false end | _ => false end | _ => false end | _ => false end | _ => false end | _ => false end.

Lemma scenario_runs : scenario = true.
Proof. vm_compute. reflexivity. Qed.

Lemma main_initial : initial main_thread.
Proof.
  split; [done|]. split; [done|]. split; [done|]. split; [by exists no_thread|].
  split; [exact AddrSpace.one_taken_wf|by vm_compute].
Qed.

(** The results of a computation that is known to succeed. *)
Ltac scenario_step E :=
  match goal with
  | Hs : context [match ?r with Ok _ => _ | Err _ => false end] |- _ =>
      let x := fresh "s" in destruct r as [x|] eqn:E; [|by rewrite ?andb_false_r in Hs]
  end.

Lemma two_processes : exists s0 s1 s2 : system (A := Bitmap.bitmap),
  reachable s0 /\ in_space 0%nat s0 /\ currentThread s0 = 0%nat /\ Run 1%nat s0 = Ok s1 /\
  rtc (other_step 0%nat) s1 s2 /\ currentThread s2 = 0%nat.
Proof.
  pose proof scenario_runs as Hs. unfold scenario in Hs.
  scenario_step E1. scenario_step E2. scenario_step E3. scenario_step E4. scenario_step E5. scenario_step E6.
  scenario_step E7. rewrite !andb_true_iff, !bool_decide_eq_true in Hs.
  destruct Hs as (L0 & X0 & ((N1 & R0) & C0) & L1 & (X1 & Cb1) & (R1 & Cb2) & Cb3 & C2).
  exists (new_thread 1%nat no_thread s0), s1, s5. split; [|split; [|split; [exact C0|split; [exact E3|split; [|exact C2]]]]].
  - exists main_thread. split; [exact main_initial|].
    eapply rtc_l; [exact (load_step _ _ _ _ L0 E1)|]. eapply rtc_l; [exact (execute_step _ _ X0 E2)|].
    apply rtc_once, step_new; [exact N1|reflexivity].
  - exact (runs_in_space _ _ R0).
  - assert (currentThread s1 = 1%nat) as C1.
    { unfold can_load in L1. rewrite !andb_true_iff, !bool_decide_eq_true in L1. apply L1. }
    eapply rtc_l; [split; [by rewrite C1|exact (load_step _ _ _ _ L1 E4)]|].
    eapply rtc_l; [split; [by rewrite Cb1|exact (execute_step _ _ X1 E5)]|].
    eapply rtc_l; [split; [by rewrite Cb2|eapply step_instruction; [exact (runs_in_space _ _ R1)|exact E6]]|].
    apply rtc_once. split; [by rewrite Cb3|]. eapply step_switch; [by rewrite Cb3|exact E7].
Qed.



End Processes.
