(* ===== verification/PTable.v ===== *)
(** * Processes: Exec, Join and Exit

    threads/ptable.cc and threads/pcb.cc: the table of process control blocks
    behind the system calls Exec, Join and Exit.  A process waits in two
    places, in [joinsem->P()] of a child and in [exitsem->P()] of its own, so
    [JoinUpdate] and [ExitUpdate] are cut there into a part before and a part
    after; each part, and [SysExec] as a whole ([ExecUpdate] holds [bmsem]), is
    one step.
    The semaphore [multex], held for the change of a counter only, is not part
    of the state.

    [PTable::Remove] deletes the control block, whose destructor deletes the
    semaphores and then calls [Thread::Finish] of the running thread, which
    does not return: the block stays in its slot, with dangling semaphores. *)

From S2P Require Import Prelude Ints CString STable FileTable.

Module PTable.

Definition MAX_PROCESS : Z := 10.

(** [alive] until the destructor has deleted the semaphores. *)
Record PCB := mkPCB {
  parentID : Z;
  processID : Z;
  exitcode : Z;
  numwait : Z;
  joinsem : Z;
  exitsem : Z;
  filename : list Z;     (* 128 bytes *)
  alive : bool
}.

(** Where a process is: in its program, in [JoinWait] of a child, in
    [ExitWait], or finished. *)
Inductive phase := Running | Joining (id : Z) | Exiting | Gone.

#[global] Instance phase_eq_dec : EqDecision phase.
Proof. solve_decision. Defined.

(** The table, where the processes are, the names of their threads, and the
    files. *)
Record system (H : Type) := mkSystem {
  pcb : list (option PCB);
  phases : gmap Z phase;
  names : gmap Z (list Z);
  files : FileTable.FileSystem;
  host : H
}.

Arguments mkSystem {H}. Arguments pcb {H}. Arguments phases {H}. Arguments names {H}.
Arguments files {H}. Arguments host {H}.

Section PTable.
Context {H : Type} `{Unix H}.

(** What uninitialised memory holds. *)
Variable garbage : Z.
Variable garbage_name : list Z.

Definition set_pcb (t : list (option PCB)) (s : system H) : system H :=
  mkSystem t (phases s) (names s) (files s) (host s).

Definition set_phase (p : Z) (ph : phase) (s : system H) : system H :=
  mkSystem (pcb s) (<[p := ph]> (phases s)) (names s) (files s) (host s).

(** [new PCB(id)] by process [cur]; the argument is not used. *)
Definition PCB_init (cur id : Z) : PCB := mkPCB garbage cur garbage garbage 0 0 garbage_name true.

Definition set_parent (p : Z) (b : PCB) : PCB :=
  mkPCB p (processID b) (exitcode b) (numwait b) (joinsem b) (exitsem b) (filename b) (alive b).

Definition SetFileName (fn : list Z) (b : PCB) : res PCB :=
  let* f := STable.strcpy (filename b) fn in
  Ok (mkPCB (parentID b) (processID b) (exitcode b) (numwait b) (joinsem b) (exitsem b) f (alive b)).

Definition SetExitCode (ec : Z) (b : PCB) : PCB :=
  mkPCB (parentID b) (processID b) ec (numwait b) (joinsem b) (exitsem b) (filename b) (alive b).

Definition GetExitCode (b : PCB) : Z := exitcode b.

(** The semaphores of a deleted block dangle. *)
Definition IncNumWait (b : PCB) : res PCB :=
  if alive b then
    Ok (mkPCB (parentID b) (processID b) (exitcode b) (s32 (numwait b + 1)) (joinsem b) (exitsem b) (filename b) (alive b))
  else Err NullPointer.

Definition DecNumWait (b : PCB) : res PCB :=
  if alive b then
    Ok (if 0 <? numwait b then
          mkPCB (parentID b) (processID b) (exitcode b) (numwait b - 1) (joinsem b) (exitsem b) (filename b) (alive b)
        else b)
  else Err NullPointer.

Definition JoinRelease (b : PCB) : res PCB :=
  if alive b then
    Ok (mkPCB (parentID b) (processID b) (exitcode b) (numwait b) (joinsem b + 1) (exitsem b) (filename b) (alive b))
  else Err NullPointer.

Definition ExitRelease (b : PCB) : res PCB :=
  if alive b then
    Ok (mkPCB (parentID b) (processID b) (exitcode b) (numwait b) (joinsem b) (exitsem b + 1) (filename b) (alive b))
  else Err NullPointer.

(** [JoinWait] and [ExitWait]: the call of [P], and its return, when the value
    is positive. *)
Definition wait_begin (b : PCB) : res unit := if alive b then Ok tt else Err NullPointer.

Definition JoinWait_end (b : PCB) : res PCB :=
  if alive b then
    Ok (mkPCB (parentID b) (processID b) (exitcode b) (numwait b) (joinsem b - 1) (exitsem b) (filename b) (alive b))
  else Err NullPointer.

Definition ExitWait_end (b : PCB) : res PCB :=
  if alive b then
    Ok (mkPCB (parentID b) (processID b) (exitcode b) (numwait b) (joinsem b) (exitsem b - 1) (filename b) (alive b))
  else Err NullPointer.

(** [pcb[i]->f()] *)
Definition update (i : Z) (f : PCB -> res PCB) (t : list (option PCB)) : res (list (option PCB)) :=
  let* o := arr_get t i in
  let* b := deref o in
  let* b := f b in
  arr_set t i (Some b).

(** [PTable(size)] by the thread of process 0. *)
Definition PTable_init (size : Z) : res (list (option PCB)) :=
  arr_set (replicate (Z.to_nat size) None) 0 (Some (set_parent (-1) (PCB_init 0 0))).

Definition GetFreeSlot (t : list (option PCB)) : res Z :=
  let* r := for_break (Z.to_nat MAX_PROCESS) 0
    (fun i (_ : unit) =>
       let* p := arr_get t i in
       Ok (match p with None => inr i | Some _ => inl tt end)) tt in
  Ok (match r with inr i => i | inl _ => -1 end).

Definition IsExist (pid : Z) (t : list (option PCB)) : res bool :=
  let* o := arr_get t pid in
  Ok (bool_decide (is_Some o)).

(** [PCB::Exec]: a thread for process [id], forked to run [StartProcess_2]. *)
Definition PCB_Exec (cur : Z) (name : list Z) (id : Z) (s : system H) : res (Z * system H) :=
  let* t := update id (fun b => Ok (set_parent cur b)) (pcb s) in
  Ok (id, mkSystem t (<[id := Running]> (phases s)) (<[id := name]> (names s)) (files s) (host s)).

Definition ExecUpdate (cur : Z) (name : list Z) (s : system H) : res (Z * system H) :=
  let* mine := deref (names s !! cur) in
  let* c := strcmp name mine in
  if c =? 0 then Ok (-1, s)
  else
    let* index := GetFreeSlot (pcb s) in
    if index <? 0 then Ok (-1, s)
    else
      let* t := arr_set (pcb s) index (Some (PCB_init cur index)) in
      let* t := update index (SetFileName name) t in
      let2* (fs, h) := FileTable.Renew index (files s) (host s) in
      let* t := update index (fun b => Ok (set_parent cur b)) t in
      PCB_Exec cur name index (mkSystem t (phases s) (names s) fs h).

(** [SysExec]: the file is opened once to see that it exists. *)
Definition SysExec (cur : Z) (name : list Z) (s : system H) : res (Z * system H) :=
  let '(fd, h) := unix_open O_RDWR name (host s) in
  if fd =? -1 then Ok (-1, mkSystem (pcb s) (phases s) (names s) (files s) h)
  else ExecUpdate cur name (mkSystem (pcb s) (phases s) (names s) (files s) (unix_close fd h)).

(** [JoinUpdate] up to [joinsem->P()]: the result -1, or the process waits. *)
Definition JoinUpdate (cur id : Z) (s : system H) : res (option Z * system H) :=
  if (id <? 0) || (MAX_PROCESS <=? id) then Ok (Some (-1), s)
  else
    let* o := arr_get (pcb s) id in
    match o with
    | None => Ok (Some (-1), s)
    | Some b =>
        if negb (parentID b =? cur) then Ok (Some (-1), s)
        else
          let* t := update (parentID b) IncNumWait (pcb s) in
          let* o := arr_get t id in
          let* b := deref o in
          wait_begin b ;;;
          Ok (None, set_phase cur (Joining id) (set_pcb t s))
    end.

(** [JoinUpdate] after [joinsem->P()]. *)
Definition JoinUpdate_end (cur id : Z) (s : system H) : res (Z * system H) :=
  let* t := update id JoinWait_end (pcb s) in
  let* o := arr_get t id in
  let* b := deref o in
  let exit_code := GetExitCode b in
  let* t := update id ExitRelease t in
  Ok (exit_code, set_phase cur Running (set_pcb t s)).

(** [ExitUpdate] up to [exitsem->P()]: the result -1, or the process waits. *)
Definition ExitUpdate (cur ec : Z) (s : system H) : res (option Z * system H) :=
  if cur =? 0 then Err Halted
  else
    let* e := IsExist cur (pcb s) in
    if negb e then Ok (Some (-1), s)
    else
      let* t := update cur (fun b => Ok (SetExitCode ec b)) (pcb s) in
      let* o := arr_get t cur in
      let* b := deref o in
      let* t := update (parentID b) DecNumWait t in
      let* t := update cur JoinRelease t in
      let* o := arr_get t cur in
      let* b := deref o in
      wait_begin b ;;;
      Ok (None, set_phase cur Exiting (set_pcb t s)).

(** [delete pcb[pid]] *)
Definition destroy (b : PCB) : PCB :=
  mkPCB (parentID b) (processID b) (exitcode b) (numwait b) (joinsem b) (exitsem b) (filename b) false.

(** [ExitUpdate] after [exitsem->P()]: [Remove], which does not return. *)
Definition ExitUpdate_end (cur : Z) (s : system H) : res (system H) :=
  let* t := update cur ExitWait_end (pcb s) in
  let* t := update cur (fun b => Ok (destroy b)) t in
  Ok (set_phase cur Gone (set_pcb t s)).

(** ** Steps *)

Inductive event :=
| Execd (p id : Z)
| Refused (p : Z)            (* a call returned -1 *)
| JoinCalled (p id : Z)
| Joined (p id code : Z)
| ExitCalled (p code : Z)
| Exited (p : Z).

Definition value_of (sem : PCB -> Z) (id : Z) (s : system H) : Z :=
  match pcb s !! Z.to_nat id with
  | Some (Some b) => sem b
  | _ => 0
  end.

Inductive step : system H -> event -> system H -> Prop :=
| step_exec s p name id s' :
    phases s !! p = Some Running -> SysExec p name s = Ok (id, s') -> id <> -1 ->
    step s (Execd p id) s'
| step_exec_refused s p name s' :
    phases s !! p = Some Running -> SysExec p name s = Ok (-1, s') -> step s (Refused p) s'
| step_join_refused s p id v s' :
    phases s !! p = Some Running -> JoinUpdate p id s = Ok (Some v, s') -> step s (Refused p) s'
| step_join s p id s' :
    phases s !! p = Some Running -> JoinUpdate p id s = Ok (None, s') -> step s (JoinCalled p id) s'
| step_joined s p id code s' :
    phases s !! p = Some (Joining id) -> 0 < value_of joinsem id s ->
    JoinUpdate_end p id s = Ok (code, s') -> step s (Joined p id code) s'
| step_exit s p code s' :
    phases s !! p = Some Running -> ExitUpdate p code s = Ok (None, s') -> step s (ExitCalled p code) s'
| step_exited s p s' :
    phases s !! p = Some Exiting -> 0 < value_of exitsem p s -> ExitUpdate_end p s = Ok s' ->
    step s (Exited p) s'.

(** Executions from the start of the kernel, newest event last. *)
Inductive reach (fs : FileTable.FileSystem) (h : H) (main : list Z) : list event -> system H -> Prop :=
| reach_init t : PTable_init MAX_PROCESS = Ok t ->
    reach fs h main [] (mkSystem t {[ 0 := Running ]} {[ 0 := main ]} fs h)
| reach_step tr s e s' : reach fs h main tr s -> step s e s' -> reach fs h main (tr ++ [e]) s'.

(** ** The table without names and counters of waiters *)

Record core := mkCore { c_parent : Z; c_code : Z; c_join : Z; c_exit : Z; c_alive : bool }.

Definition core_of (b : PCB) : core := mkCore (parentID b) (exitcode b) (joinsem b) (exitsem b) (alive b).

Definition cores (t : list (option PCB)) : list (option core) := map (fmap core_of) t.

Definition at_slot (T : list (option core)) (p : Z) (c : core) : Prop :=
  0 <= p /\ T !! Z.to_nat p = Some (Some c).

Lemma cores_lookup t p b : 0 <= p -> t !! Z.to_nat p = Some (Some b) -> at_slot (cores t) p (core_of b).
Proof. intros Hp Hb. split; [done|]. unfold cores. by rewrite list_lookup_fmap, Hb. Qed.

Lemma update_inv i f t t' : update i f t = Ok t' ->
  exists b b', 0 <= i /\ t !! Z.to_nat i = Some (Some b) /\ f b = Ok b' /\ t' = <[Z.to_nat i := Some b']> t.
Proof.
  unfold update. intros E. apply bind_Ok_inv in E as (o & E1 & E). apply arr_get_Ok in E1 as [Hi E1].
  destruct o as [b|]; cbn [deref rbind] in E; [|done]. apply bind_Ok_inv in E as (b' & E2 & E).
  exists b, b'. apply lookup_lt_Some in E1 as Hlt. rewrite arr_set_in_range in E by lia. injection E as <-. done.
Qed.

(** An update of a block as one of its core. *)
Lemma update_cores i f g t t' :
  (forall b b', f b = Ok b' -> alive b = true /\ core_of b' = g (core_of b)) -> update i f t = Ok t' ->
  exists c, at_slot (cores t) i c /\ c_alive c = true /\ cores t' = <[Z.to_nat i := Some (g c)]> (cores t).
Proof.
  intros Hf E. apply update_inv in E as (b & b' & Hi & Hb & Eb & ->). apply Hf in Eb as [Ha Eb].
  exists (core_of b). split; [by apply cores_lookup|]. split; [done|].
  unfold cores. rewrite list_fmap_insert. cbn. by rewrite Eb.
Qed.

Lemma update_same i f t t' :
  (forall b b', f b = Ok b' -> alive b = true /\ core_of b' = core_of b) -> update i f t = Ok t' ->
  cores t' = cores t.
Proof.
  intros Hf E. destruct (update_cores i f id t t' Hf E) as (c & [_ Hc] & _ & ->). by apply list_insert_id.
Qed.

Lemma numwait_same b b' : IncNumWait b = Ok b' \/ DecNumWait b = Ok b' -> alive b = true /\ core_of b' = core_of b.
Proof.
  unfold IncNumWait, DecNumWait. destruct (alive b) eqn:E; [|naive_solver].
  intros [[= <-]|[= <-]]; (split; [done|]); unfold core_of; [cbn; by rewrite E|].
  destruct (0 <? numwait b); cbn; by rewrite ?E.
Qed.

(** The steps on cores. *)
Inductive astep (T : list (option core)) (P : gmap Z phase) : event -> list (option core) -> gmap Z phase -> Prop :=
| a_exec p id ec :
    P !! p = Some Running -> 0 <= id -> T !! Z.to_nat id = Some None ->
    astep T P (Execd p id) (<[Z.to_nat id := Some (mkCore p ec 0 0 true)]> T) (<[id := Running]> P)
| a_refused p : astep T P (Refused p) T P
| a_join p id c :
    P !! p = Some Running -> at_slot T id c -> c_parent c = p -> c_alive c = true ->
    astep T P (JoinCalled p id) T (<[p := Joining id]> P)
| a_joined p id c :
    P !! p = Some (Joining id) -> at_slot T id c -> 0 < c_join c ->
    astep T P (Joined p id (c_code c))
      (<[Z.to_nat id := Some (mkCore (c_parent c) (c_code c) (c_join c - 1) (c_exit c + 1) (c_alive c))]> T)
      (<[p := Running]> P)
| a_exit p c ec :
    p <> 0 -> P !! p = Some Running -> at_slot T p c ->
    astep T P (ExitCalled p ec)
      (<[Z.to_nat p := Some (mkCore (c_parent c) ec (c_join c + 1) (c_exit c) (c_alive c))]> T)
      (<[p := Exiting]> P)
| a_exited p c :
    P !! p = Some Exiting -> at_slot T p c -> 0 < c_exit c ->
    astep T P (Exited p)
      (<[Z.to_nat p := Some (mkCore (c_parent c) (c_code c) (c_join c) (c_exit c - 1) false)]> T)
      (<[p := Gone]> P).

Lemma GetFreeSlot_spec t i : length t = 10%nat -> GetFreeSlot t = Ok i ->
  (i = -1 /\ forall k, (k < 10)%nat -> exists b, t !! k = Some (Some b)) \/
  (0 <= i < 10 /\ t !! Z.to_nat i = Some None).
Proof.
  intros Hl. unfold GetFreeSlot. change (Z.to_nat MAX_PROCESS) with 10%nat.
  rewrite (for_break_first (fun i => match t !! Z.to_nat i with Some None => Some i | _ => None end)).
  2: { intros j Hj. destruct (arr_get_in_range t j) as [o Eo]; [lia|]. rewrite Eo. cbn [rbind].
       apply arr_get_Ok in Eo as [_ ->]. by destruct o. }
  cbn [rbind]. destruct (first_in _ _ _) as [j|] eqn:E; intros [= <-].
  - right. apply first_in_Some in E as (k & Hk & Hp & _).
    destruct (t !! Z.to_nat k) as [[b|]|] eqn:Ek; try done. injection Hp as <-. split; [lia|done].
  - left. split; [done|]. rewrite first_in_None in E. intros k Hk. specialize (E (Z.of_nat k) ltac:(lia)).
    rewrite Nat2Z.id in E. destruct (lookup_lt_is_Some_2 t k) as [[b|] Eb]; [lia|by exists b|by rewrite Eb in E].
Qed.

Lemma GetFreeSlot_total t : length t = 10%nat -> exists i, GetFreeSlot t = Ok i.
Proof.
  intros Hl. unfold GetFreeSlot.
  destruct (for_break_inv (fun _ _ => True) (fun _ => True) (Z.to_nat MAX_PROCESS) 0
    (fun i (_ : unit) => let* p := arr_get t i in Ok (match p with None => inr i | Some _ => inl tt end)) tt)
    as (r & -> & _); [done| |cbn; by eexists].
  intros i u Hi _. change (Z.of_nat (Z.to_nat MAX_PROCESS)) with 10 in Hi.
  destruct (arr_get_in_range t i) as [o ->]; [lia|]. cbn [rbind]. by destruct o; eexists.
Qed.

Lemma update_at i f t b : 0 <= i -> (Z.to_nat i < length t)%nat ->
  forall t', update i f (<[Z.to_nat i := Some b]> t) = Ok t' ->
  exists b', f b = Ok b' /\ t' = <[Z.to_nat i := Some b']> t.
Proof.
  intros Hi Hl t' E. apply update_inv in E as (x & b' & _ & Hx & Eb & ->).
  rewrite list_lookup_insert_eq in Hx by done. injection Hx as ->. exists b'. split; [done|].
  by rewrite list_insert_insert_eq.
Qed.

Lemma ExecUpdate_cores p name s id s' : length (pcb s) = 10%nat -> ExecUpdate p name s = Ok (id, s') ->
  (id = -1 /\ s' = s) \/
  (0 <= id /\ cores (pcb s) !! Z.to_nat id = Some None /\ phases s' = <[id := Running]> (phases s) /\
   names s' = <[id := name]> (names s) /\ (exists k, c_str name = Ok k) /\
   exists ec, cores (pcb s') = <[Z.to_nat id := Some (mkCore p ec 0 0 true)]> (cores (pcb s))).
Proof.
  intros Hl E. unfold ExecUpdate in E. apply bind_Ok_inv in E as (mine & _ & E).
  apply bind_Ok_inv in E as (c & _ & E). destruct (c =? 0); [left; by injection E as <- <-|].
  apply bind_Ok_inv in E as (index & Ei & E).
  destruct (GetFreeSlot_spec _ _ Hl Ei) as [[-> _]|[Hi Hnone]]; [left; by injection E as <- <-|].
  right. rewrite (proj2 (Z.ltb_ge index 0)) in E by lia.
  rewrite arr_set_in_range in E by lia. cbn [rbind] in E.
  apply bind_Ok_inv in E as (t1 & E1 & E). apply update_at in E1 as (b1 & E1 & ->); [|lia..].
  apply bind_Ok_inv in E as ([fs h] & _ & E).
  apply bind_Ok_inv in E as (t2 & E2 & E). apply update_at in E2 as (b2 & E2 & ->); [|lia..].
  unfold PCB_Exec in E. cbn [pcb phases names files host] in E.
  apply bind_Ok_inv in E as (t3 & E3 & E). apply update_at in E3 as (b3 & E3 & ->); [|lia..].
  injection E as <- <-. cbn [pcb phases]. split; [lia|]. unfold cores. split; [by rewrite list_lookup_fmap, Hnone|].
  split; [done|]. split; [done|]. unfold SetFileName in E1. apply bind_Ok_inv in E1 as (f & Ef & E1).
  split; [unfold STable.strcpy in Ef; destruct (c_str name) as [k|]; [by exists k|done]|]. injection E1 as <-. injection E2 as <-. injection E3 as <-. exists garbage.
  by rewrite list_fmap_insert.
Qed.

Lemma SysExec_cores p name s id s' : length (pcb s) = 10%nat -> SysExec p name s = Ok (id, s') ->
  (id = -1 /\ pcb s' = pcb s /\ phases s' = phases s /\ names s' = names s) \/
  (0 <= id /\ cores (pcb s) !! Z.to_nat id = Some None /\ phases s' = <[id := Running]> (phases s) /\
   names s' = <[id := name]> (names s) /\ (exists k, c_str name = Ok k) /\
   exists ec, cores (pcb s') = <[Z.to_nat id := Some (mkCore p ec 0 0 true)]> (cores (pcb s))).
Proof.
  intros Hl E. unfold SysExec in E. destruct (unix_open _ _ _) as [fd h].
  destruct (fd =? -1); [left; by injection E as <- <-|].
  apply ExecUpdate_cores in E as [[-> ->]|E]; [by left|by right|done].
Qed.

Lemma JoinUpdate_cores p id s r s' : JoinUpdate p id s = Ok (r, s') ->
  match r with
  | Some v => v = -1 /\ s' = s
  | None => exists c, at_slot (cores (pcb s)) id c /\ c_parent c = p /\ c_alive c = true /\
      cores (pcb s') = cores (pcb s) /\ phases s' = <[p := Joining id]> (phases s) /\ names s' = names s
  end.
Proof.
  unfold JoinUpdate. intros E. destruct (_ || _); [by injection E as <- <-|].
  apply bind_Ok_inv in E as (o & Eo & E). destruct o as [b|]; [|by injection E as <- <-].
  destruct (Z.eqb_spec (parentID b) p) as [Hp|Hp]; cbn [negb] in E; [|by injection E as <- <-].
  apply bind_Ok_inv in E as (t & Et & E).
  assert (cores t = cores (pcb s)) as Hc by (eapply update_same; [|exact Et]; intros ? ? ?; apply numwait_same; by left).
  apply bind_Ok_inv in E as (o & Eo' & E). destruct o as [b'|]; cbn [deref rbind] in E; [|done].
  unfold wait_begin in E. destruct (alive b') eqn:Ha; cbn [rbind] in E; [|done]. injection E as <- <-.
  apply arr_get_Ok in Eo as [Hi Eo]. apply arr_get_Ok in Eo' as [_ Eo'].
  exists (core_of b'). pose proof (cores_lookup _ _ _ Hi Eo) as [_ H1].
  pose proof (cores_lookup _ _ _ Hi Eo') as [_ H2]. rewrite Hc in H2. split; [done|].
  assert (core_of b = core_of b') as Hbb by congruence. split; [by rewrite <- Hbb|done].
Qed.

Lemma JoinUpdate_end_cores p id s code s' : JoinUpdate_end p id s = Ok (code, s') ->
  exists c, at_slot (cores (pcb s)) id c /\ code = c_code c /\ c_join c = value_of joinsem id s /\
    cores (pcb s') = <[Z.to_nat id := Some (mkCore (c_parent c) (c_code c) (c_join c - 1) (c_exit c + 1) (c_alive c))]> (cores (pcb s)) /\
    phases s' = <[p := Running]> (phases s) /\ names s' = names s.
Proof.
  unfold JoinUpdate_end. intros E. apply bind_Ok_inv in E as (t & Et & E).
  apply update_inv in Et as (b & b1 & Hi & Hb & E1 & ->). apply lookup_lt_Some in Hb as Hlt.
  apply bind_Ok_inv in E as (o & Eo & E). apply arr_get_Ok in Eo as [_ Eo].
  rewrite list_lookup_insert_eq in Eo by done. injection Eo as <-. cbn [deref rbind] in E.
  apply bind_Ok_inv in E as (t2 & Et2 & E). apply update_at in Et2 as (b2 & E2 & ->); [|done..].
  injection E as <- <-. unfold JoinWait_end in E1. destruct (alive b) eqn:Ha; [|done]. injection E1 as <-.
  unfold ExitRelease in E2. cbn [alive] in E2. injection E2 as <-.
  exists (core_of b). split; [by apply cores_lookup|]. split; [done|].
  split; [unfold value_of; by rewrite Hb|]. split; [|done]. cbn [set_phase set_pcb pcb].
  unfold cores. rewrite list_fmap_insert. cbn. by rewrite Ha.
Qed.

Lemma ExitUpdate_cores p ec s r s' : ExitUpdate p ec s = Ok (r, s') ->
  match r with
  | Some v => s' = s
  | None => p <> 0 /\ exists c, at_slot (cores (pcb s)) p c /\
      cores (pcb s') = <[Z.to_nat p := Some (mkCore (c_parent c) ec (c_join c + 1) (c_exit c) (c_alive c))]> (cores (pcb s)) /\
      phases s' = <[p := Exiting]> (phases s) /\ names s' = names s
  end.
Proof.
  unfold ExitUpdate. intros E. destruct (Z.eqb_spec p 0) as [|Hp0]; [done|].
  apply bind_Ok_inv in E as (e & _ & E). destruct (negb e); [by injection E as <- <-|].
  apply bind_Ok_inv in E as (t & Et & E). apply update_inv in Et as (b & b1 & Hi & Hb & E1 & ->).
  injection E1 as <-. apply lookup_lt_Some in Hb as Hlt.
  apply bind_Ok_inv in E as (o & Eo & E). apply arr_get_Ok in Eo as [_ Eo].
  rewrite list_lookup_insert_eq in Eo by done. injection Eo as <-. cbn [deref rbind] in E.
  apply bind_Ok_inv in E as (t2 & Et2 & E).
  assert (cores t2 = cores (<[Z.to_nat p := Some (SetExitCode ec b)]> (pcb s))) as Hc
    by (eapply update_same; [|exact Et2]; intros ? ? ?; apply numwait_same; by right).
  apply bind_Ok_inv in E as (t3 & Et3 & E).
  destruct (update_cores p JoinRelease (fun c => mkCore (c_parent c) (c_code c) (c_join c + 1) (c_exit c) (c_alive c)) t2 t3)
    as (c & [_ Hc2] & Ha & Hc3); [|exact Et3|].
  { intros x x'. unfold JoinRelease. destruct (alive x) eqn:Hx; [|done]. intros [= <-]. unfold core_of. cbn. by rewrite Hx. }
  apply bind_Ok_inv in E as (o & _ & E). destruct o as [b3|]; cbn [deref rbind] in E; [|done].
  apply bind_Ok_inv in E as (u & _ & E). injection E as <- <-. split; [done|]. exists (core_of b).
  split; [by apply cores_lookup|]. split; [|done]. cbn [set_phase set_pcb pcb].
  rewrite Hc in Hc2. rewrite Hc3, Hc. unfold cores in *. rewrite list_fmap_insert in *.
  rewrite list_lookup_insert_eq in Hc2 by (by rewrite length_fmap). injection Hc2 as <-.
  by rewrite list_insert_insert_eq.
Qed.

Lemma ExitUpdate_end_cores p s s' : ExitUpdate_end p s = Ok s' ->
  exists c, at_slot (cores (pcb s)) p c /\ c_exit c = value_of exitsem p s /\
    cores (pcb s') = <[Z.to_nat p := Some (mkCore (c_parent c) (c_code c) (c_join c) (c_exit c - 1) false)]> (cores (pcb s)) /\
    phases s' = <[p := Gone]> (phases s) /\ names s' = names s.
Proof.
  unfold ExitUpdate_end. intros E. apply bind_Ok_inv in E as (t & Et & E).
  apply update_inv in Et as (b & b1 & Hi & Hb & E1 & ->). apply lookup_lt_Some in Hb as Hlt.
  apply bind_Ok_inv in E as (t2 & Et2 & E). apply update_at in Et2 as (b2 & E2 & ->); [|done..].
  injection E as <-. unfold ExitWait_end in E1. destruct (alive b) eqn:Ha; [|done]. injection E1 as <-. injection E2 as <-.
  exists (core_of b). split; [by apply cores_lookup|]. split; [unfold value_of; by rewrite Hb|].
  split; [|done]. cbn [set_phase set_pcb pcb]. unfold cores. by rewrite list_fmap_insert.
Qed.

Lemma step_astep s e s' : length (pcb s) = 10%nat -> step s e s' ->
  astep (cores (pcb s)) (phases s) e (cores (pcb s')) (phases s').
Proof.
  intros Hl Hst. destruct Hst as [s p name id s' Hp E Hne|s p name s' Hp E|s p id v s' Hp E|s p id s' Hp E
    |s p id code s' Hp Hv E|s p code s' Hp E|s p s' Hp Hv E].
  - destruct (SysExec_cores _ _ _ _ _ Hl E) as [[-> _]|(Hi & Hn & -> & _ & _ & ec & ->)]; [done|]. by apply a_exec.
  - destruct (SysExec_cores _ _ _ _ _ Hl E) as [(_ & -> & -> & _)|(Hi & _)]; [by apply a_refused|lia].
  - destruct (JoinUpdate_cores _ _ _ _ _ E) as [_ ->]. apply a_refused.
  - destruct (JoinUpdate_cores _ _ _ _ _ E) as (c & Hc & Hpar & Ha & -> & -> & _). by eapply a_join.
  - destruct (JoinUpdate_end_cores _ _ _ _ _ E) as (c & Hc & -> & Hj & -> & -> & _). apply a_joined; [done|done|lia].
  - destruct (ExitUpdate_cores _ _ _ _ _ E) as (Hp0 & c & Hc & -> & -> & _). by apply a_exit.
  - destruct (ExitUpdate_end_cores _ _ _ E) as (c & Hc & Hx & -> & -> & _). apply a_exited; [done|done|lia].
Qed.

(** ** The invariant *)

(** The exit code is that of the one call of Exit. *)
Definition exited_with (tr : list event) (p code : Z) : Prop :=
  ExitCalled p code ∈ tr /\ forall x, ExitCalled p x ∈ tr -> x = code.

(** The block of a process fits where the process is: the two semaphores pass
    one token from the child to the parent and back. *)
Definition block_ok (tr : list event) (p : Z) (ph : phase) (c : core) : Prop :=
  match ph with
  | Running | Joining _ =>
      c_alive c = true /\ c_join c = 0 /\ c_exit c = 0 /\ forall x, ExitCalled p x ∉ tr
  | Exiting =>
      c_alive c = true /\ exited_with tr p (c_code c) /\
      (c_join c = 1 /\ c_exit c = 0 \/ c_join c = 0 /\ c_exit c = 1)
  | Gone => c_alive c = false /\ c_join c = 0
  end.

Definition settled (ph : phase) : Prop := ph = Exiting \/ ph = Gone.

Definition is_exec (e : event) : Prop := match e with Execd _ _ => True | _ => False end.

#[global] Instance is_exec_dec e : Decision (is_exec e).
Proof. destruct e; apply _. Defined.

Definition used (T : list (option core)) : nat := length (filter is_Some T).

Record inv (tr : list event) (T : list (option core)) (P : gmap Z phase) : Prop := {
  i_len : length T = 10%nat;
  i_dom : forall p, is_Some (P !! p) <-> exists c, at_slot T p c;
  i_block : forall p ph c, P !! p = Some ph -> at_slot T p c -> block_ok tr p ph c;
  i_parent : forall p c, at_slot T p c -> p = 0 \/ Execd (c_parent c) p ∈ tr;
  i_main : exists ph, P !! 0 = Some ph /\ ph <> Exiting /\ ph <> Gone;
  i_join : forall p id, P !! p = Some (Joining id) ->
    exists c, at_slot T id c /\ c_parent c = p;
  i_exits : forall p x, ExitCalled p x ∈ tr -> exists c, at_slot T p c;
  i_joined : forall q p x, Joined q p x ∈ tr ->
    exists c ph, at_slot T p c /\ c_parent c = q /\ c_join c = 0 /\ P !! p = Some ph /\ settled ph;
  i_count : used T = S (length (filter is_exec tr))
}.

Lemma block_ok_mono tr e p ph c : (forall x, e <> ExitCalled p x) -> block_ok tr p ph c -> block_ok (tr ++ [e]) p ph c.
Proof.
  intros He. assert (forall x, ExitCalled p x ∈ tr ++ [e] <-> ExitCalled p x ∈ tr) as Hx.
  { intros x. rewrite elem_of_app, list_elem_of_singleton. specialize (He x). naive_solver. }
  unfold block_ok, exited_with. destruct ph; try setoid_rewrite Hx; done.
Qed.

Lemma at_slot_insert T i c p x : 0 <= i -> (Z.to_nat i < length T)%nat ->
  at_slot (<[Z.to_nat i := Some c]> T) p x <-> (p = i /\ x = c) \/ (p <> i /\ at_slot T p x).
Proof.
  intros Hi Hl. unfold at_slot. destruct (decide (p = i)) as [->|Hne].
  - rewrite list_lookup_insert_eq by done. naive_solver.
  - split.
    + intros [Hp Hx]. rewrite list_lookup_insert_ne in Hx by lia. by right.
    + intros [[? _]|[_ [Hp Hx]]]; [done|]. split; [done|]. by rewrite list_lookup_insert_ne by lia.
Qed.

Lemma at_slot_lt T p c : at_slot T p c -> 0 <= p /\ (Z.to_nat p < length T)%nat.
Proof. intros [Hp Hc]. split; [done|]. by eapply lookup_lt_Some. Qed.

Lemma at_slot_det T p c c' : at_slot T p c -> at_slot T p c' -> c = c'.
Proof. intros [_ H1] [_ H2]. congruence. Qed.

Lemma used_insert T i o c : T !! i = Some o ->
  used (<[i := Some c]> T) = if o is Some _ then used T else S (used T).
Proof.
  intros Ho. apply list_elem_of_split_length in Ho as (l1 & l2 & -> & ->).
  rewrite <- (Nat.add_0_r (length l1)), insert_app_r. cbn [insert list_insert]. unfold used.
  rewrite !filter_app, !filter_cons, !length_app, (decide_True (P := is_Some (Some c))) by (by eexists).
  destruct o as [x|]; [rewrite (decide_True (P := is_Some (Some x))) by (by eexists); done|].
  rewrite (decide_False (P := is_Some None)) by (by intros []). cbn [length]. lia.
Qed.

Lemma in_snoc (e x : event) tr : x ∈ tr -> x ∈ tr ++ [e].
Proof. rewrite elem_of_app. by left. Qed.

Lemma count_snoc tr e : length (filter is_exec (tr ++ [e])) = (length (filter is_exec tr) + if decide (is_exec e) then 1 else 0)%nat.
Proof. rewrite filter_app, length_app, filter_cons, filter_nil. by case_decide. Qed.

(** A step of process [p] that moves it to phase [ph'] and replaces the block
    [c] of process [q] by [c'] (with the same parent): what is left to show. *)
Lemma inv_replace tr T P e p ph ph' q c c' :
  inv tr T P -> P !! p = Some ph -> at_slot T q c -> c_parent c' = c_parent c ->
  ~ is_exec e -> (forall x y, e = ExitCalled x y -> x = p /\ q = p) ->
  (p = 0 -> ph' <> Exiting /\ ph' <> Gone) ->
  (forall b, at_slot T p b -> p <> q -> block_ok (tr ++ [e]) p ph' b) ->
  block_ok (tr ++ [e]) q (if decide (q = p) then ph' else default Running (P !! q)) c' ->
  (forall id, ph' = Joining id -> exists b, at_slot T id b /\ c_parent b = p) ->
  (settled ph -> settled ph') -> (forall x y z, e = Joined x y z -> y = q) ->
  (forall x z, Joined x q z ∈ tr ++ [e] -> c_parent c = x /\ c_join c' = 0 /\
     exists ph0, P !! q = Some ph0 /\ settled ph0) ->
  inv (tr ++ [e]) (<[Z.to_nat q := Some c']> T) (<[p := ph']> P).
Proof.
  intros [Hlen Hdom Hblk Hpar Hmain Hjoin Hexits Hjnd Hcnt] Hp Hq Hcp Hne Hex Hp0 Hbp Hbq Hj Hset Hej Hqj.
  destruct (at_slot_lt _ _ _ Hq) as [Hq0 Hql]. split.
  - by rewrite length_insert.
  - intros x. destruct (decide (x = p)) as [->|Hxp].
    + rewrite lookup_insert_eq. split; [|by eexists]. intros _.
      destruct (proj1 (Hdom p)) as [b Hb]; [by eexists|]. destruct (decide (p = q)) as [->|Hpq].
      * exists c'. apply at_slot_insert; [done..|]. by left.
      * exists b. apply at_slot_insert; [done..|]. by right.
    + rewrite lookup_insert_ne, Hdom by done. split; intros [b Hb].
      * destruct (decide (x = q)) as [->|]; [exists c'|exists b]; apply at_slot_insert; auto.
      * apply at_slot_insert in Hb as [[-> ->]|[_ Hb]]; [by exists c|by exists b|done..].
  - intros x px b Hx Hb. apply at_slot_insert in Hb as [[-> ->]|[Hxq Hb]]; [| |done..].
    + destruct (decide (q = p)) as [->|Hqp].
      * rewrite lookup_insert_eq in Hx. by injection Hx as <-.
      * rewrite lookup_insert_ne in Hx by done. by rewrite Hx in Hbq.
    + destruct (decide (x = p)) as [->|Hxp].
      * rewrite lookup_insert_eq in Hx. injection Hx as <-. by apply Hbp.
      * rewrite lookup_insert_ne in Hx by done. apply block_ok_mono; [|by apply Hblk].
        intros y ->. by destruct (Hex x y eq_refl).
  - intros x b Hb. apply at_slot_insert in Hb as [[-> ->]|[_ Hb]]; [| |done..].
    + rewrite Hcp. destruct (Hpar q c Hq); [by left|right; by apply in_snoc].
    + destruct (Hpar x b Hb); [by left|right; by apply in_snoc].
  - destruct (decide (p = 0)) as [->|Hpne].
    + exists ph'. rewrite lookup_insert_eq. split; [done|by apply Hp0].
    + rewrite lookup_insert_ne by done. done.
  - intros x id Hx. assert (exists b, at_slot T id b /\ c_parent b = x) as (b & Hb & Hbx).
    { destruct (decide (x = p)) as [->|Hxp].
      - rewrite lookup_insert_eq in Hx. injection Hx as ->. by apply Hj.
      - rewrite lookup_insert_ne in Hx by done. by apply Hjoin. }
    destruct (decide (id = q)) as [->|]; [exists c'|exists b]; (split; [apply at_slot_insert; auto|]); [|done].
    rewrite Hcp. by rewrite (at_slot_det _ _ _ _ Hq Hb).
  - intros x y Hx. assert (exists b, at_slot T x b) as [b Hb].
    { apply elem_of_app in Hx as [Hx|Hx]; [by apply (Hexits x y)|]. apply list_elem_of_singleton in Hx.
      destruct (Hex x y (eq_sym Hx)) as [-> <-]. by exists c. }
    destruct (decide (x = q)) as [->|]; [exists c'|exists b]; apply at_slot_insert; auto.
  - intros x y z Hx. destruct (decide (y = q)) as [->|Hyq].
    + destruct (Hqj x z Hx) as (Hcx & Hcj & ph0 & Hph0 & Hs0).
      destruct (decide (q = p)) as [->|Hqp].
      * exists c', ph'. rewrite Hcp, lookup_insert_eq. split; [apply at_slot_insert; auto|]. split_and!; try done.
        apply Hset. congruence.
      * exists c', ph0. rewrite Hcp, lookup_insert_ne by done. split; [apply at_slot_insert; auto|]. done.
    + apply elem_of_app in Hx as [Hx|Hx].
      2: { apply list_elem_of_singleton in Hx. by destruct (Hej x y z (eq_sym Hx)). }
      destruct (Hjnd x y z Hx) as (b & ph0 & Hb & Hbx & Hbj & Hph0 & Hs0).
      assert (at_slot (<[Z.to_nat q := Some c']> T) y b) as Hb' by (apply at_slot_insert; auto).
      destruct (decide (y = p)) as [->|Hyp].
      * exists b, ph'. rewrite lookup_insert_eq. split_and!; try done; try apply Hb'. apply Hset. congruence.
      * exists b, ph0. rewrite lookup_insert_ne by done. done.
  - rewrite (used_insert T _ (Some c)) by apply Hq. rewrite count_snoc, decide_False by done. lia.
Qed.

Lemma inv_exec tr T P p id ec : inv tr T P -> P !! p = Some Running -> 0 <= id -> T !! Z.to_nat id = Some None ->
  inv (tr ++ [Execd p id]) (<[Z.to_nat id := Some (mkCore p ec 0 0 true)]> T) (<[id := Running]> P).
Proof.
  intros [Hlen Hdom Hblk Hpar Hmain Hjoin Hexits Hjnd Hcnt] Hp Hi Hn. pose proof (lookup_lt_Some _ _ _ Hn) as Hl.
  assert (P !! id = None) as HP.
  { destruct (P !! id) eqn:E; [|done]. destruct (proj1 (Hdom id)) as [c [_ Hc]]; [by eexists|]. congruence. }
  assert (forall x, ExitCalled id x ∉ tr) as Hno.
  { intros x Hx. destruct (Hexits _ _ Hx) as [c [_ Hc]]. congruence. }
  split.
  - by rewrite length_insert.
  - intros x. destruct (decide (x = id)) as [->|Hx].
    + rewrite lookup_insert_eq. split; [|by eexists]. intros _. eexists. apply at_slot_insert; [done..|]. by left.
    + rewrite lookup_insert_ne, Hdom by done. split; intros [b Hb]; exists b.
      * apply at_slot_insert; auto.
      * apply at_slot_insert in Hb as [[? _]|[_ Hb]]; done.
  - intros x ph b Hx Hb. apply at_slot_insert in Hb as [[-> ->]|[Hxi Hb]]; [| |done..].
    + rewrite lookup_insert_eq in Hx. injection Hx as <-. apply block_ok_mono; [done|]. cbn. split_and!; done.
    + rewrite lookup_insert_ne in Hx by done. apply block_ok_mono; [done|]. by apply Hblk.
  - intros x b Hb. apply at_slot_insert in Hb as [[-> ->]|[_ Hb]]; [| |done..].
    + right. cbn. rewrite elem_of_app, list_elem_of_singleton. by right.
    + destruct (Hpar x b Hb); [by left|right; by apply in_snoc].
  - destruct Hmain as (ph & Hph & ?). exists ph. rewrite lookup_insert_ne; [done|]. intros ->. congruence.
  - intros x j Hx. destruct (decide (x = id)) as [->|Hxi]; [by rewrite lookup_insert_eq in Hx|].
    rewrite lookup_insert_ne in Hx by done. destruct (Hjoin x j Hx) as (c & Hc & ?). exists c. split; [|done].
    apply at_slot_insert; [done..|]. right. split; [|done]. intros ->. destruct Hc as [_ Hc]. congruence.
  - intros x y Hx. apply elem_of_app in Hx as [Hx|Hx]; [|by apply list_elem_of_singleton in Hx].
    destruct (Hexits x y Hx) as [b Hb]. exists b. apply at_slot_insert; [done..|]. right. split; [|done].
    intros ->. by apply (Hno y).
  - intros x y z Hx. apply elem_of_app in Hx as [Hx|Hx]; [|by apply list_elem_of_singleton in Hx].
    destruct (Hjnd x y z Hx) as (b & ph & Hb & Hbx & Hbj & Hph & Hs).
    assert (y <> id) as Hne by (intros ->; congruence).
    exists b, ph. rewrite lookup_insert_ne by done. split; [apply at_slot_insert; auto|done].
  - rewrite (used_insert T _ None) by done. rewrite count_snoc, decide_True, Hcnt by done. lia.
Qed.

Lemma inv_idle tr T P p : inv tr T P -> inv (tr ++ [Refused p]) T P.
Proof.
  intros [Hlen Hdom Hblk Hpar Hmain Hjoin Hexits Hjnd Hcnt]. split; try done.
  - intros x ph c Hx Hc. apply block_ok_mono; [done|]. by apply Hblk.
  - intros x c Hc. destruct (Hpar x c Hc); [by left|right; by apply in_snoc].
  - intros x y Hx. apply elem_of_app in Hx as [Hx|Hx]; [by apply (Hexits x y)|by apply list_elem_of_singleton in Hx].
  - intros x y z Hx. apply elem_of_app in Hx as [Hx|Hx]; [by apply (Hjnd x y z)|by apply list_elem_of_singleton in Hx].
  - rewrite count_snoc, decide_False by (by intros []). lia.
Qed.

Lemma inv_join tr T P p id c : inv tr T P -> P !! p = Some Running -> at_slot T id c -> c_parent c = p ->
  inv (tr ++ [JoinCalled p id]) T (<[p := Joining id]> P).
Proof.
  intros Hinv Hp Hc Hpar. destruct (proj1 (i_dom _ _ _ Hinv p)) as [b Hb]; [by eexists|].
  rewrite <- (list_insert_id T (Z.to_nat p) (Some b)) by apply Hb.
  apply (inv_replace tr T P _ p Running _ p b b); try done; try (by intros []).
  - rewrite decide_True by done. apply block_ok_mono; [done|]. exact (i_block _ _ _ Hinv p Running b Hp Hb).
  - intros j [= <-]. by exists c.
  - intros x z Hx. apply elem_of_app in Hx as [Hx|Hx]; [|by apply list_elem_of_singleton in Hx].
    destruct (i_joined _ _ _ Hinv x p z Hx) as (d & ph & _ & _ & _ & Hph & [-> | ->]); congruence.
Qed.

(** The child whose [joinsem] is positive waits for its parent. *)
Lemma join_ready tr T P id c : inv tr T P -> at_slot T id c -> 0 < c_join c ->
  P !! id = Some Exiting /\ c_alive c = true /\ c_join c = 1 /\ c_exit c = 0 /\ exited_with tr id (c_code c).
Proof.
  intros Hinv Hc Hj. destruct (proj2 (i_dom _ _ _ Hinv id)) as [ph Hph]; [by eexists|].
  pose proof (i_block _ _ _ Hinv id ph c Hph Hc) as Hb. destruct ph; cbn in Hb.
  - lia.
  - lia.
  - destruct Hb as (Ha & Hx & [Hjx|Hjx]); [|lia]. split_and!; try done; lia.
  - lia.
Qed.

Lemma inv_joined tr T P p id c : inv tr T P -> P !! p = Some (Joining id) -> at_slot T id c -> 0 < c_join c ->
  inv (tr ++ [Joined p id (c_code c)])
    (<[Z.to_nat id := Some (mkCore (c_parent c) (c_code c) (c_join c - 1) (c_exit c + 1) (c_alive c))]> T)
    (<[p := Running]> P).
Proof.
  intros Hinv Hp Hc Hj. destruct (join_ready _ _ _ _ _ Hinv Hc Hj) as (Hid & Ha & Hj1 & Hx & He).
  assert (id <> p) as Hne by (intros ->; congruence).
  apply (inv_replace tr T P _ p (Joining id) _ id c); try done; try (by intros []).
  - intros b Hb _. apply block_ok_mono; [done|]. exact (i_block _ _ _ Hinv p _ b Hp Hb).
  - rewrite decide_False, Hid by done. apply block_ok_mono; [done|]. cbn. rewrite Hj1, Hx. split_and!; try done. by right.
  - by intros x y z [= _ <- _].
  - intros x z Hin. assert (c_parent c = x) as Hpx.
    { apply elem_of_app in Hin as [Hin|Hin].
      - destruct (i_joined _ _ _ Hinv x id z Hin) as (d & ph & Hd & Hdx & _).
        by rewrite (at_slot_det _ _ _ _ Hc Hd).
      - apply list_elem_of_singleton in Hin. injection Hin as -> _.
        destruct (i_join _ _ _ Hinv p id Hp) as (d & Hd & Hdx). by rewrite (at_slot_det _ _ _ _ Hc Hd). }
    split; [done|]. cbn. split; [lia|]. exists Exiting. split; [done|by left].
Qed.

Lemma inv_exit tr T P p c ec : inv tr T P -> p <> 0 -> P !! p = Some Running -> at_slot T p c ->
  inv (tr ++ [ExitCalled p ec])
    (<[Z.to_nat p := Some (mkCore (c_parent c) ec (c_join c + 1) (c_exit c) (c_alive c))]> T)
    (<[p := Exiting]> P).
Proof.
  intros Hinv Hp0 Hp Hc. pose proof (i_block _ _ _ Hinv p Running c Hp Hc) as (Ha & Hj & Hx & Hno).
  apply (inv_replace tr T P _ p Running _ p c); try done; try (by intros []).
  - by intros x y [= -> ->].
  - rewrite decide_True by done. cbn. rewrite Hj, Hx. split; [done|]. split; [|by left]. split.
    + rewrite elem_of_app, list_elem_of_singleton. by right.
    + intros x Hin. apply elem_of_app in Hin as [Hin|Hin]; [by destruct (Hno x)|].
      apply list_elem_of_singleton in Hin. by injection Hin.
  - intros x z Hin. apply elem_of_app in Hin as [Hin|Hin]; [|by apply list_elem_of_singleton in Hin].
    destruct (i_joined _ _ _ Hinv x p z Hin) as (d & ph & _ & _ & _ & Hph & [-> | ->]); congruence.
Qed.

Lemma inv_exited tr T P p c : inv tr T P -> P !! p = Some Exiting -> at_slot T p c -> 0 < c_exit c ->
  inv (tr ++ [Exited p])
    (<[Z.to_nat p := Some (mkCore (c_parent c) (c_code c) (c_join c) (c_exit c - 1) false)]> T)
    (<[p := Gone]> P).
Proof.
  intros Hinv Hp Hc Hx. pose proof (i_block _ _ _ Hinv p Exiting c Hp Hc) as (Ha & He & Hj).
  apply (inv_replace tr T P _ p Exiting _ p c); try done; try (by intros []).
  - intros ->. destruct (i_main _ _ _ Hinv) as (ph & Hph & Hne & _). congruence.
  - rewrite decide_True by done. cbn. lia.
  - by right.
  - intros x z Hin. apply elem_of_app in Hin as [Hin|Hin]; [|by apply list_elem_of_singleton in Hin].
    destruct (i_joined _ _ _ Hinv x p z Hin) as (d & ph & Hd & Hdx & Hdj & Hph & Hs).
    rewrite (at_slot_det _ _ _ _ Hc Hd). split; [done|]. split; [done|]. by exists ph.
Qed.

Lemma inv_astep tr T P e T' P' : inv tr T P -> astep T P e T' P' -> inv (tr ++ [e]) T' P'.
Proof.
  intros Hinv Hst. destruct Hst as [p id ec Hp Hi Hn|p|p id c Hp Hc Hpar Ha|p id c Hp Hc Hj|p c ec Hp0 Hp Hc|p c Hp Hc Hx].
  - by apply inv_exec.
  - by apply inv_idle.
  - by apply (inv_join tr T P p id c).
  - by apply inv_joined.
  - by apply inv_exit.
  - by apply inv_exited.
Qed.

Lemma reach_inv fs h main tr s : reach fs h main tr s -> inv tr (cores (pcb s)) (phases s).
Proof.
  induction 1 as [t Ht|tr s e s' _ IH Hst].
  - unfold PTable_init in Ht. injection Ht as <-. cbn [pcb phases].
    set (c := core_of (set_parent (-1) (PCB_init 0 0))).
    assert (forall p x, at_slot (cores (<[0%nat := Some (set_parent (-1) (PCB_init 0 0))]> (replicate 10 None))) p x <->
      p = 0 /\ x = c) as Hslot.
    { intros p x. split.
      - intros [Hp Hx]. unfold cores in Hx. rewrite list_lookup_fmap in Hx. apply fmap_Some in Hx as (o & Ho & Hx).
        destruct (decide (Z.to_nat p = 0%nat)) as [Hz|Hz].
        + rewrite Hz in Ho. injection Ho as <-. injection Hx as ->. split; [lia|done].
        + rewrite list_lookup_insert_ne in Ho by lia. apply lookup_replicate in Ho as [-> _]. done.
      - intros [-> ->]. split; [lia|done]. }
    split.
    + done.
    + intros p. rewrite lookup_singleton_is_Some. setoid_rewrite Hslot. naive_solver.
    + intros p ph x Hp Hx. apply Hslot in Hx as [-> ->]. rewrite lookup_singleton_eq in Hp. injection Hp as <-.
      cbn. split_and!; try done. intros y Hy. by apply not_elem_of_nil in Hy.
    + intros p x Hx. apply Hslot in Hx as [-> _]. by left.
    + exists Running. by rewrite lookup_singleton_eq.
    + intros p id Hp. by apply lookup_singleton_Some in Hp as [_ Hp].
    + intros p x Hx. by apply not_elem_of_nil in Hx.
    + intros q p x Hx. by apply not_elem_of_nil in Hx.
    + done.
  - eapply inv_astep; [exact IH|]. apply step_astep; [|done].
    pose proof (i_len _ _ _ IH) as Hl. unfold cores in Hl. by rewrite length_map in Hl.
Qed.

(** ** Properties *)

(** Blocks of reachable states. *)
Lemma at_slot_block t p c : at_slot (cores t) p c -> exists b, 0 <= p /\ t !! Z.to_nat p = Some (Some b) /\ core_of b = c.
Proof.
  intros [Hp Hc]. unfold cores in Hc. rewrite list_lookup_fmap in Hc. apply fmap_Some in Hc as (o & Ho & Hc).
  destruct o as [b|]; [|done]. injection Hc as ->. by exists b.
Qed.

Lemma update_Ok i f t b b' : 0 <= i -> t !! Z.to_nat i = Some (Some b) -> f b = Ok b' ->
  update i f t = Ok (<[Z.to_nat i := Some b']> t).
Proof.
  intros Hi Hb Hf. unfold update. rewrite (arr_get_lookup t i (Some b)) by done. cbn [rbind deref]. rewrite Hf.
  cbn [rbind]. apply lookup_lt_Some in Hb. by rewrite arr_set_in_range by lia.
Qed.

Lemma update_Err i f t b e : 0 <= i -> t !! Z.to_nat i = Some (Some b) -> f b = Err e -> update i f t = Err e.
Proof.
  intros Hi Hb Hf. unfold update. rewrite (arr_get_lookup t i (Some b)) by done. cbn [rbind deref]. by rewrite Hf.
Qed.

(** C17: Join waits for the child and returns its exit code.  When a process waits
    in Join for [id] and the semaphore is up, [id] is a child the process has
    executed, which has called Exit exactly once; Join returns the code of that
    call and releases the child, which is then removed. *)
Theorem join_handshake fs h main tr s p id :
  reach fs h main tr s -> phases s !! p = Some (Joining id) -> 0 < value_of joinsem id s ->
  exists code s' s'', JoinUpdate_end p id s = Ok (code, s') /\
    exited_with tr id code /\ Execd p id ∈ tr /\
    phases s' !! p = Some Running /\ phases s' !! id = Some Exiting /\ 0 < value_of exitsem id s' /\
    ExitUpdate_end id s' = Ok s'' /\ phases s'' !! id = Some Gone.
Proof.
  intros Hr Hp Hv. apply reach_inv in Hr as Hinv.
  destruct (i_join _ _ _ Hinv p id Hp) as (c & Hc & Hcp).
  destruct (at_slot_block _ _ _ Hc) as (b & Hi & Hb & <-). unfold value_of in Hv. rewrite Hb in Hv.
  destruct (join_ready _ _ _ _ _ Hinv Hc Hv) as (Hid & Ha & Hj1 & Hx & He). cbn in Ha, Hj1, Hx, He.
  pose proof (lookup_lt_Some _ _ _ Hb) as Hlt.
  unfold JoinUpdate_end. erewrite (update_Ok id JoinWait_end) by (done || unfold JoinWait_end; by rewrite Ha).
  cbn [rbind]. erewrite arr_get_lookup by (done || by apply list_lookup_insert_eq). cbn [rbind deref].
  erewrite (update_Ok id ExitRelease) by (done || (by apply list_lookup_insert_eq) || unfold ExitRelease; cbn [alive]; by rewrite Ha).
  cbn [rbind]. rewrite list_insert_insert_eq. eexists _, _, _. split; [reflexivity|]. split; [exact He|]. split.
  { destruct (i_parent _ _ _ Hinv id _ Hc) as [-> |Hex]; [|by rewrite <- Hcp].
    destruct (i_main _ _ _ Hinv) as (ph & Hph & Hne & _). congruence. }
  assert (id <> p) as Hne by (intros ->; congruence). unfold set_phase, set_pcb. cbn [phases pcb].
  split; [by rewrite lookup_insert_eq|]. split; [by rewrite lookup_insert_ne by done|].
  split. { unfold value_of. cbn [pcb]. rewrite list_lookup_insert_eq by done. cbn. lia. }
  unfold ExitUpdate_end. cbn [pcb]. erewrite (update_Ok id ExitWait_end)
    by (done || (by apply list_lookup_insert_eq) || unfold ExitWait_end; cbn [alive]; by rewrite Ha).
  cbn [rbind]. rewrite list_insert_insert_eq.
  erewrite (update_Ok id) by (done || by apply list_lookup_insert_eq). cbn [rbind].
  split; [reflexivity|]. unfold set_phase. cbn [phases]. by rewrite lookup_insert_eq.
Qed.

Lemma reach_length fs h main tr s : reach fs h main tr s -> length (pcb s) = 10%nat.
Proof. intros Hr. apply reach_inv in Hr. pose proof (i_len _ _ _ Hr) as Hl. unfold cores in Hl. by rewrite length_map in Hl. Qed.

(** Threads have proper names. *)
Lemma reach_names fs h main m tr s : c_str main = Ok m -> reach fs h main tr s ->
  forall p, is_Some (phases s !! p) -> exists nm k, names s !! p = Some nm /\ c_str nm = Ok k.
Proof.
  intros Hm Hr. induction Hr as [t Ht|tr s e s' Hr IH Hst].
  - intros p Hp. cbn [phases names] in *. apply lookup_singleton_is_Some in Hp as <-.
    exists main, m. by rewrite lookup_singleton_eq.
  - assert (forall p ph t, is_Some (phases s !! p) -> phases s' = <[p := ph]> (phases s) -> names s' = names s ->
      is_Some (phases s' !! t) -> exists nm k, names s' !! t = Some nm /\ c_str nm = Ok k) as Hsame.
    { intros p ph t Hp Hph Hn Ht. rewrite Hn. apply IH. rewrite Hph in Ht.
      destruct (decide (t = p)) as [->|]; [done|]. by rewrite lookup_insert_ne in Ht. }
    destruct Hst as [s p name id s' Hp E Hne|s p name s' Hp E|s p id v s' Hp E|s p id s' Hp E
      |s p id code s' Hp Hv E|s p code s' Hp E|s p s' Hp Hv E].
    + destruct (SysExec_cores p name s id s') as [[-> _]|(_ & _ & Hph & Hn & [k Hk] & _)]; [by eapply reach_length|done|done|].
      intros q Hq. rewrite Hph in Hq. rewrite Hn. destruct (decide (q = id)) as [->|Hqi].
      * exists name, k. by rewrite lookup_insert_eq.
      * rewrite lookup_insert_ne in Hq by done. rewrite lookup_insert_ne by done. by apply IH.
    + destruct (SysExec_cores p name s (-1) s') as [(_ & _ & -> & ->)|(? & _)]; [by eapply reach_length|done|done|lia].
    + by destruct (JoinUpdate_cores _ _ _ _ _ E) as [_ ->].
    + destruct (JoinUpdate_cores _ _ _ _ _ E) as (c & _ & _ & _ & _ & Hph & Hn). intros q. by eapply Hsame.
    + destruct (JoinUpdate_end_cores _ _ _ _ _ E) as (c & _ & _ & _ & _ & Hph & Hn). intros q. by eapply Hsame.
    + destruct (ExitUpdate_cores _ _ _ _ _ E) as (_ & c & _ & _ & Hph & Hn). intros q. by eapply Hsame.
    + destruct (ExitUpdate_end_cores _ _ _ E) as (c & _ & _ & _ & Hph & Hn). intros q. by eapply Hsame.
Qed.

Lemma used_full T : used T = length T -> forall i o, T !! i = Some o -> is_Some o.
Proof.
  intros Hu i o Ho. apply list_elem_of_split_length in Ho as (l1 & l2 & -> & ->). unfold used in Hu.
  rewrite filter_app, filter_cons, !length_app in Hu. cbn [length] in Hu.
  pose proof (length_filter is_Some l1). pose proof (length_filter is_Some l2).
  destruct (decide (is_Some o)); [done|lia].
Qed.

(** C39: Process numbers are never used again.  A control block stays in its slot
    when its process is gone, so at most nine processes can be executed as long
    as the kernel runs; after that Exec always returns -1. *)
Theorem slots_never_reused fs h main m tr s :
  c_str main = Ok m -> reach fs h main tr s ->
  (length (filter is_exec tr) <= 9)%nat /\
  (length (filter is_exec tr) = 9%nat -> forall p name k, phases s !! p = Some Running -> c_str name = Ok k ->
     exists s', SysExec p name s = Ok (-1, s') /\ pcb s' = pcb s /\ phases s' = phases s).
Proof.
  intros Hm Hr. apply reach_inv in Hr as Hinv. pose proof (i_count _ _ _ Hinv) as Hc.
  pose proof (i_len _ _ _ Hinv) as Hl. split.
  - pose proof (length_filter is_Some (cores (pcb s))) as Hle. unfold used in Hc. lia.
  - intros H9 p name k Hp Hk. destruct (reach_names _ _ _ _ _ _ Hm Hr p) as (mine & k' & Hmine & Hk'); [by eexists|].
    unfold SysExec. destruct (unix_open _ _ _) as [fd h']. destruct (fd =? -1); [by eexists|].
    eexists (mkSystem (pcb s) _ _ _ _). split; [|done]. unfold ExecUpdate. cbn [names]. rewrite Hmine. cbn [deref rbind pcb].
    destruct (strcmp_spec name mine k k' Hk Hk') as (c & -> & _). cbn [rbind]. destruct (c =? 0); [done|].
    pose proof (reach_length _ _ _ _ _ Hr) as Hlen. destruct (GetFreeSlot_total (pcb s) Hlen) as [i Ei].
    rewrite Ei. cbn [rbind]. destruct (GetFreeSlot_spec _ _ Hlen Ei) as [[-> _]|[Hi Hnone]]; [done|].
    destruct (used_full (cores (pcb s)) ltac:(lia) (Z.to_nat i) None) as [? ?]; [|done].
    unfold cores. by rewrite list_lookup_fmap, Hnone.
Qed.

(** Semaphores of processes that are gone.  A process can join a child only
    once: a second Join never returns, or uses the deleted semaphore of the
    child if the child is gone.  The same happens to a process that exits when
    its parent is gone. *)
Theorem dangling_semaphores fs h main tr s p id code :
  reach fs h main tr s -> Joined p id code ∈ tr ->
  (forall q c s', ~ step s (Joined q id c) s') /\
  (phases s !! p = Some Running -> phases s !! id = Some Gone -> JoinUpdate p id s = Err NullPointer) /\
  (forall r b ec, pcb s !! Z.to_nat r = Some (Some b) -> 0 < r -> parentID b = id -> phases s !! id = Some Gone ->
     ExitUpdate r ec s = Err NullPointer).
Proof.
  intros Hr Hin. apply reach_inv in Hr as Hinv. pose proof (reach_length _ _ _ _ _ Hr) as Hlen.
  destruct (i_joined _ _ _ Hinv p id code Hin) as (c & ph & Hc & Hcp & Hcj & Hph & Hset).
  destruct (at_slot_block _ _ _ Hc) as (b & Hi & Hb & <-). split_and!.
  - intros q x s' Hst. inversion Hst as [| | | |? ? ? ? ? _ Hv _| |]; subst. unfold value_of in Hv. rewrite Hb in Hv.
    cbn in Hcj. lia.
  - intros Hp Hg. assert (alive b = false) as Ha by (by destruct (i_block _ _ _ Hinv id Gone _ Hg Hc)).
    destruct (proj1 (i_dom _ _ _ Hinv p)) as [cp Hcp']; [by eexists|].
    destruct (at_slot_block _ _ _ Hcp') as (bp & Hip & Hbp & <-).
    destruct (i_block _ _ _ Hinv p Running _ Hp Hcp') as (Hap & _). cbn in Hap, Hcp.
    assert (p <> id) as Hne by (intros ->; congruence). pose proof (lookup_lt_Some _ _ _ Hb).
    unfold JoinUpdate, MAX_PROCESS. rewrite (proj2 (Z.ltb_ge id 0)), (proj2 (Z.leb_gt 10 id)) by lia. cbn [orb].
    rewrite (arr_get_lookup _ id (Some b)) by done. cbn [rbind]. rewrite Hcp, Z.eqb_refl. cbn [negb].
    erewrite (update_Ok p IncNumWait) by (done || unfold IncNumWait; by rewrite Hap). cbn [rbind].
    rewrite (arr_get_lookup _ id (Some b)) by (done || by rewrite list_lookup_insert_ne by lia).
    cbn [rbind deref]. unfold wait_begin. by rewrite Ha.
  - intros r br ec Hbr Hr0 Hpar Hg. assert (alive b = false) as Ha by (by destruct (i_block _ _ _ Hinv id Gone _ Hg Hc)).
    unfold ExitUpdate, IsExist. rewrite (proj2 (Z.eqb_neq r 0)) by lia.
    rewrite (arr_get_lookup _ r (Some br)) by (done || lia). cbn [rbind]. rewrite bool_decide_true by (by eexists). cbn [negb].
    pose proof (lookup_lt_Some _ _ _ Hbr) as Hlt. erewrite (update_Ok r) by (done || lia). cbn [rbind].
    rewrite (arr_get_lookup _ r (Some (SetExitCode ec br))) by (lia || by apply list_lookup_insert_eq). cbn [rbind deref].
    change (parentID (SetExitCode ec br)) with (parentID br). rewrite Hpar.
    destruct (decide (r = id)) as [->|Hne].
    + rewrite Hb in Hbr. injection Hbr as <-. erewrite update_Err; [reflexivity|lia|by apply list_lookup_insert_eq|].
      unfold DecNumWait. cbn [SetExitCode alive]. by rewrite Ha.
    + erewrite update_Err; [reflexivity|lia|by rewrite list_lookup_insert_ne by lia|].
      unfold DecNumWait. by rewrite Ha.
Qed.

End PTable.

(** ** An execution: the main process executes "a", joins it, and it exits *)

Definition main_name : list Z := [109; 97; 105; 110; 0].
Definition no_files : FileTable.FileSystem := replicate 10 (FileTable.mkTable (replicate 10 None) (replicate 10 0)).

Definition booted : system (gmap Z (list Z)) :=
  mkSystem (default [] (match PTable_init 0 (replicate 128 0) MAX_PROCESS with Ok t => Some t | Err _ => None end))
    {[ 0 := Running ]} {[ 0 := main_name ]} no_files ∅.

Definition snd_or {A} (s : system (gmap Z (list Z))) (r : res (A * system (gmap Z (list Z)))) :=
  match r with Ok (_, s') => s' | Err _ => s end.

Definition executed := snd_or booted (SysExec 0 (replicate 128 0) 0 [97; 0] booted).
Definition joining := snd_or executed (JoinUpdate 0 1 executed).
Definition exiting := snd_or joining (ExitUpdate 1 7 joining).
Definition joined := snd_or exiting (JoinUpdate_end 0 1 exiting).
Definition gone := match ExitUpdate_end 1 joined with Ok s => s | Err _ => joined end.

Abbreviation run := (reach 0 (replicate 128 0) no_files (∅ : gmap Z (list Z)) main_name).

Lemma run_exiting : run [Execd 0 1; JoinCalled 0 1; ExitCalled 1 7] exiting.
Proof.
  apply (reach_step _ _ _ _ _ [Execd 0 1; JoinCalled 0 1] joining).
  - apply (reach_step _ _ _ _ _ [Execd 0 1] executed).
    + apply (reach_step _ _ _ _ _ [] booted).
      * apply reach_init. vm_compute. reflexivity.
      * apply (step_exec _ _ _ _ [97; 0]); [vm_compute; reflexivity..|lia].
    + apply step_join; vm_compute; reflexivity.
  - apply step_exit; vm_compute; reflexivity.
Qed.

Lemma run_gone : run [Execd 0 1; JoinCalled 0 1; ExitCalled 1 7; Joined 0 1 7; Exited 1] gone.
Proof.
  apply (reach_step _ _ _ _ _ [Execd 0 1; JoinCalled 0 1; ExitCalled 1 7; Joined 0 1 7] joined).
  - apply (reach_step _ _ _ _ _ [Execd 0 1; JoinCalled 0 1; ExitCalled 1 7] exiting); [apply run_exiting|].
    apply step_joined; vm_compute; reflexivity.
  - apply step_exited; vm_compute; reflexivity.
Qed.

Lemma join_handshake_witness : exists s', JoinUpdate_end 0 1 exiting = Ok (7, s').
Proof.
  destruct (join_handshake 0 (replicate 128 0) no_files ∅ main_name _ exiting 0 1 run_exiting)
    as (code & s' & s'' & E & [_ He] & _); [vm_compute; reflexivity|vm_compute; reflexivity|].
  exists s'. specialize (He 7 ltac:(do 2 constructor; constructor)). subst code. exact E.
Defined.

Lemma slots_never_reused_witness : (length (filter is_exec [Execd 0 1; JoinCalled 0 1; ExitCalled 1 7]) <= 9)%nat.
Proof. exact (proj1 (slots_never_reused 0 (replicate 128 0) no_files ∅ main_name _ _ exiting eq_refl run_exiting)). Defined.

Lemma dangling_semaphores_witness : JoinUpdate 0 1 gone = Err NullPointer.
Proof.
  destruct (dangling_semaphores 0 (replicate 128 0) no_files ∅ main_name _ gone 0 1 7 run_gone) as (_ & H & _).
  - do 3 constructor; constructor.
  - apply H; vm_compute; reflexivity.
Defined.

End PTable.
